(* ===== verification/_CoqProject ===== *)
-Q . S2P
Prelude.v
Python.v
Codec.v
Platform.v
Cache.v
Store.v
Session.v
World.v
Handlers.v
Server.v
Typing.v
Config.v
Routing.v
Invariants.v
Policy.v
Requests.v
Spec.v
Refinement.v
App.v
Programs.v
Concurrent.v
Replies.v
Linearizable.v
Durable.v
Coherence.v
Serial.v
Retries.v
Scenarios.v
Races.v
