(* ===== verification/Prelude.v ===== *)
(** * A verification development for the user service of [src/apps/backend/app.py]

    ** The program

    [app.py] is a Flask service that exposes CRUD operations over one
    entity, [User], stored in a relational table (SQLAlchemy over
    PostgreSQL) and fronted by a Redis cache used cache-aside for two
    query shapes: the list of all users (key [users:all], 300 s) and a
    statistics snapshot (key [stats], 60 s).  Its parts:

    - the [User] model and [to_dict] (lines 26-40) and the table creation
      (lines 42-44);
    - the health probe [health_check] (lines 47-72), which probes the store
      and the cache independently and always answers 200;
    - the read handlers [get_users] (75-99), [get_user] (101-108) and
      [get_stats] (180-207);
    - the write handlers [create_user] (110-137), [update_user] (139-162)
      and [delete_user] (164-178), each of which commits to the store and
      then deletes [users:all];
    - the fallback handlers [not_found] and [internal_error] (209-217) and
      the route table spelled by the [@app.route] decorators.

    Every handler is one [try ... except Exception] block, so the
    behaviour on failure is part of the program: which status a failure
    gets, whether the session is rolled back, and what a failure between
    the commit and the cache invalidation leaves behind.

    ** The files

    In the order of [_CoqProject]:

    - [Prelude] (this file): the state-and-exception monad [M] in which
      the handlers are written, with its notation (scope [py_scope]),
      extensional equality of programs ([meq], an [Equivalence] with
      [Proper] instances for [bind] and [try_except]), the monad laws,
      a Hoare triple [hoare], the preservation judgement [preserves]
      and the typing judgement [yields], each with one rule per
      combinator, the hint database [py], the rewrite
      database [pyrw], the tactics [mrun], [hoare_step],
      [case_rbind], [inv_result] and [by_compute], and traces of a
      labelled step relation with the simulation diagram
      ([simulation_trace]), and the facts on results, options and
      lists the components share, with a decision procedure for
      [sublist] ([is_sublist]).
    - [Python]: the JSON values a request body or a [jsonify] argument
      can be ([json]), the exceptions a handler can catch ([exn]), the
      Python operations the handlers apply to request data
      ([truthy], [py_get], [py_getitem], [py_in], [get_json]), and the
      two interfaces to the libraries, as type classes with their laws:
      [JsonCodec] ([json.dumps], [json.loads]) and [Runtime] ([str(e)],
      [datetime.isoformat], the driver's parameter binding).
    - [Codec]: an implementation of [JsonCodec], a printer with Python's
      defaults and a recursive-descent parser, with the proof of
      [JsonCodecLaws] (a dumped value loads back; no dump is empty).
    - [Platform]: an implementation of [Runtime] with [RuntimeLaws]:
      [isoformat] by the civil-calendar algorithm with the fraction of
      the second, the texts of the exceptions, the adaptation of values
      to a [VARCHAR] parameter; the date and the time of day of an
      instant determine it ([instant_fields]).
    - [Cache]: the Redis keyspace, a [gmap] from keys to entries with a
      deadline; [GET], [SETEX], [DEL], expiry, reclaiming, and the
      observational equivalence [cache_equiv] with [Proper] instances.
    - [Store]: the [User] row and [to_dict], the table with its id
      sequence, the queries, the constraints of lines 29-32 as checks,
      INSERT, UPDATE and DELETE, and the invariant [db_wf].
    - [Session]: [db.session] as a list of tracked objects addressed by
      handle; add, assignment, delete, rollback, and the flush of a
      commit.  A persistent object holds the row as its query loaded
      it, and its UPDATE sets the columns assigned a value that differs
      from the loaded one; a commit and a rollback expire every object,
      which is selected again when it is read.
    - [World]: the state a request runs against ([World]: committed
      table, session, keyspace, clock, reachability of each backend) and
      every call the handlers make on [db.session], [User.query],
      [cache] and [datetime], as operations of the monad; the rules by
      which each call keeps a property of the world.
    - [Handlers]: one definition per view function and error handler of
      [app.py], its [try] block and its [except] branch, and the
      equation each satisfies on each branch.
    - [Server]: requests, the route table [view], Flask's dispatch
      [serve], and the service in its environment as a step relation
      ([step], [run], [reachable]) with its executable interpreter.
    - [Typing]: the shapes of the answers as types of JSON values, the
      contract of each route (its statuses and the type of the body of
      each), and the typing of every handler, call by call, under the
      invariant that the cache holds typed dumps.
    - [Config]: the options read from the environment with their
      fallbacks, the arguments of [app.run], and Flask's dispatch
      under the debug flag.
    - [Routing]: the [@app.route] decorators as a table of rules, and
      the choice of a view for a method and a path.
    - [Invariants]: the rule that a property kept by the session, the
      cache and the flush is kept by every handler, and its instances
      (clock and backends, well-formed table, id sequence, ids never
      reused).
    - [Policy]: the cache-aside policy: the outcomes of a write, the
      invariant [cache_coherent] and its preservation, transparency of
      the cache, invalidation, hit after miss, miss after expiry.
    - [Requests]: the behaviour of each route as a client sees it, one
      request after another.
    - [Spec]: the specification: the routes as functions of the table
      and the time, with no cache, no session and no failure, and its
      step relation.
    - [Refinement]: the simulation of the service by the
      specification.
    - [App]: the application object of line 10 as a function of the
      method, the path and the body: [Routing.route] chooses the view,
      [Config.serve_under] runs it; 405 and the automatic [OPTIONS]
      run none.  [method_effect] says what each method may do to the
      rows of the table.
    - [Programs]: the handlers call by call: a handler as the tree
      [prog] of the calls it makes, each with the continuation after its
      result and after its exception; [exec] runs a tree in one piece,
      and run so each tree is the handler of [Handlers].
    - [Concurrent]: one worker per request: a pool is the shared table
      and cache and the requests in flight, each with its own session
      and the rest of its tree; a step ([cstep]) is an arrival, the
      next call of one request, a reply or an event of the environment,
      and [crun] is the interleavings; [gather] and [every] collect
      what a schedule yields and test what holds along it.
    - [Replies]: the typing of the programs of [Programs] and of the
      pools of [Concurrent].
    - [Linearizable]: the commit of a request as its linearisation
      point: the invariant [tracks] of a request in flight, the history
      of the commits of a schedule, and the table as the replay of that
      history by the specification.
    - [Durable]: the writes a schedule acknowledges (answers 200 or
      201) and the invariant [unsettled] of a write that has not
      committed.
    - [Coherence]: the cache under interleavings: the two windows in
      which [users:all] can differ from the table (a read holds a list
      it has not stored, a write has committed and not yet deleted the
      key), the invariant [fills] of a request in flight, and the
      coherence of the key along the schedules that avoid them.
    - [Serial]: the schedule of a run of [Server], each request served
      from its arrival to its reply with no other in flight, and the
      invariants by which it satisfies the conditions of
      [Linearizable] and [Coherence].
    - [Retries]: a request that is sent again: the specification
      serves a request twice as it serves it once, and so does the
      service.
    - [Scenarios]: a concrete deployment on [Codec] and [Platform], on
      which every theorem with a hypothesis is instantiated by
      evaluation, and the run in which the policy breaks.
    - [Races]: the schedules of [Concurrent] on that deployment: a read
      that overlaps a write, a cache that fails in the middle of a
      read, and two writes to one row.

    ** How the model corresponds to the code

    A view function [f] of [app.py] is a definition [f : Py Response] of
    [Handlers], where [Py A := World -> result exn A * World]: the body
    of its [try] is a chain of [bind]s over the calls of [World], in the
    order of the source, and its [except Exception as e] is the handler
    of [try_except].  A raised exception keeps the state of the moment
    it was raised: effects are not undone unless the code calls
    [rollback].  A Python statement that calls a library is one call of
    [World] ([cache.get] is [cache_get], [db.session.commit()] is
    [session_commit], and so on); what the library then does is defined
    in [Cache], [Store] and [Session] from the documented behaviour of
    Redis, PostgreSQL and SQLAlchemy.

    The same handlers are given a second time in [Programs], as trees
    of calls ([prog_get_users] for [get_users], and so on), so that the
    calls of two requests can be interleaved.  [Programs.program_exec]
    proves the two forms equal on every world; the theorems about one
    request at a time are proved of the first form, those about
    interleavings of the second.

    ** What the theorems show

    The handlers are total functions of the world, so every theorem
    about a response is about a response the handler does produce.

    - [Server.serve_responds]: every request is answered; no exception
      leaves a view.  [Server.run_apply_events]: the step relation is
      the graph of the interpreter.
    - [Invariants.reachable_settled], [run_monotone], [retired_forever]:
      every reachable state has an empty session and a well-formed
      table; the clock and the id sequence only advance; an id is never
      reused.
    - [Policy.run_coherent]: [users:all] holds the dump of the table
      along every run that serves no write while the cache is down.
      [get_users_transparent]: under that invariant [get_users] answers
      with the rows of the table, hit or miss.  [write_invalidates],
      [failed_write_changes_nothing], [write_keeps_stats]: what a write
      does to the cache when it succeeds and when it fails.
      [get_users_hit_after_miss], [get_users_miss_after_expiry]: the
      time to live.  [get_user_bypasses_cache].
      [cache_hits_always_zero]: no handler writes [cache:hits].
    - [Refinement.service_refines_spec]: along every run in which no
      backend fails, the service is simulated by the specification:
      the answers are those of a service over the table alone, up to
      [from_cache].
    - [Scenarios.orphaned_write_serves_stale_list]: the invariant does
      not hold in general: a write whose [cache.delete] raises is
      committed and answers 500, and the stale list is served.
    - [Requests]: create then read, duplicates, the required fields,
      delete then read, update keeps id and [created_at], a write on a
      missing row is a 500, an outage of the store is a 404 for
      [get_user], an outage of the cache is a 500 for the cached routes,
      the statistics and their staleness.
    - [Typing.serve_typed], [run_typed]: every answer has one of the
      statuses of its route and a body of the type that goes with it,
      in every state a deployment reaches; the cache holds nothing but
      [users:all] and [stats], each with a dump of its type.
      [Replies.replies_typed]: the same for every reply of every
      interleaving.  [Scenarios.contract_attained]: the contract names
      no status that is never answered: each is the status of an
      answer in a state a deployment reaches.
    - [Routing.route_url], [route_dispatch]: every request has a URL
      that the rules route to its view; no view is called with a
      negative id or for a method its decorator does not name.
    - [App.method_semantics], [app_answers]: whatever the path, the
      body, the configuration and the state of the backends, the
      application answers, and its methods mean what HTTP says: [POST]
      appends at most one row, [PUT] changes rows in place and keeps
      ids and creation times, [DELETE] removes rows, every other
      method leaves the table as it is.
    - [Config.serve_under_any]: the debug flag changes no answer;
      [configure_reads], [configure_unset]: the configuration is a
      function of four variables, with literals for those that are
      unset.
    - [Programs.program_exec], [request_terminates]: the trees of calls
      are the handlers; a request makes at most eight calls and ends
      with a response.
    - [Concurrent.alone_is_serve]: a request that runs alone in the
      pool is served as [serve] says.
      [Serial.runs_are_interleavings]: so every run of [Server], with
      the events of its environment, is an interleaving, namely the
      schedule [serial] of the run; each commit of that schedule is
      made on current objects, and when the run serves no write while
      the cache is down no call of it falls into a window of
      [Coherence]: the conditions of the two theorems below hold of
      every sequential run.  [Serial.run_linearizable]: the table a
      run leaves is the replay of the history of its commits.
    - [Concurrent.crun_wf], [table_changes_by_commits]: the
      table stays well formed under every interleaving and changes by
      whole transactions only ([Races.last_commit_wins],
      [Races.update_of_deleted_row_is_500] for two writes to one row).
    - [Linearizable.table_linearizable]: the commit of a request is
      its linearisation point, when it is made on current objects.
      Under every interleaving in which no request commits on a row
      that changed since it loaded it, the table is the table after the
      requests whose commit succeeded, served one after the other by
      the specification of [Spec] in the order of their commits; each
      request is in that history at most as often as it arrived
      ([history_arrived], with no condition).
      [inserts_and_deletes_linearizable]: when no update arrives the
      condition holds of every interleaving, since a creation and a
      deletion take nothing from the table before their commit.
      [Races.stale_update_is_not_serial]: the condition cannot be
      dropped.  An update that commits on a row another update changed
      writes the columns that differ from what it loaded: both answer
      200 and the table holds a row that no order of the two gives.
    - [Races.stats_counts_are_torn]: the two counts of [get_stats] are
      no snapshot.  A creation that commits between them makes the
      answer report more recent users than users, which served alone
      [get_stats] never does ([Requests.get_stats_counts]).
    - [Durable.acknowledged_is_committed]: the writes answered 200 or
      201 along a schedule are among the requests whose commit
      returned, each at most as often as it committed, so no write is
      acknowledged before its commit.  The converse fails
      ([Races.commit_without_acknowledgement]).
    - [Retries.retries_write_once]: the copies of one request write
      once.  Under every interleaving of any number of copies of a
      request in which every commit is made on current objects, the
      table is the table before them or the table after one service of
      the request by the specification: a second INSERT is refused by
      the unique constraint, a second UPDATE sets the columns to the
      values they have, a second DELETE finds no row
      ([Store.db_insert_again], [flush_update_again],
      [spec_write_idempotent]).  [run_retries_write_once]: with no
      condition for the copies served one after the other.
    - [Concurrent.request_completes], [request_never_stuck],
      [calls_bounded]: a request in flight that is scheduled makes at
      most eight calls and replies, with the response and the world of
      the rest of its program run in one piece; a request in flight
      can always be continued; the calls made are at most eight for
      each request that arrived.  [pool_drains]: every pool a
      deployment reaches can be emptied by calls and replies alone,
      nine steps for each request in flight at most.
      [staleness_bounded]: whatever [users:all] or [stats] holds
      expires within the lifetime of its key (300 s, 60 s) under every
      interleaving.  [read_overlapping_write],
      [Races.race_leaves_stale_list]: coherence is not kept by
      interleavings: a read that queried the table before a write
      committed fills the key after the write deleted it.
      [fill_failure_is_500]: a cache that fails between the miss and
      the fill fails the read.
    - [Coherence.interleaved_coherent]: the two ways above are the only
      ones.  Along every interleaving in which no request commits
      while a read holds a list it has not stored, and no write deletes
      the key while the cache is down, [users:all] is coherent with the
      table whenever no write stands between its commit and its
      deletion of the key ([Races.overlap] is such a schedule,
      [Races.race] is not).
    - [Handlers.health_check_report], [World.rollback_after_commit],
      [Store.db_insert_decides]: the health report, the rollback that
      undoes nothing, the order of the checks of an INSERT.

    ** Bounds of the model

    - Time is an integer number of microseconds since the epoch, the
      resolution of [datetime]; a time to live and [timedelta] are
      durations in seconds ([Python.seconds]).  [Platform.iso] prints
      the fraction of the second as [datetime.isoformat] does, for the
      years [datetime] has (1 to 9999).  In [Server] the clock does not
      advance inside a handler; in [Concurrent] it advances between
      any two calls.
    - In [Server] a backend is reachable or not for the whole of one
      request ([w_db_up], [w_cache_up]) and the environment changes
      this between requests; in [Concurrent] it changes between any two
      calls.  A call to an unreachable backend raises
      ([OperationalError], [ConnectionError]) and changes nothing.
    - A commit is one transaction: a statement that fails leaves the
      table as it was.  The id a failed INSERT would have consumed from
      a PostgreSQL sequence is not consumed in the model.
    - JSON numbers are integers; strings are sequences of code points
      below 256.  Ids are unbounded integers.
    - The parser of [Codec] runs on fuel; the fuel [parse] gives it, the
      length of the input, is enough for every printed value
      ([Codec.size_le_length]), so the round trip is proved with no
      assumption on fuel.
    - In [Concurrent] a call is atomic and a commit is one step: the
      store serialises transactions.  A statement sees the committed
      table of the moment it runs (READ COMMITTED, the default of
      PostgreSQL); an object shows the row its query loaded until a
      commit or a rollback expires it.  No handler reads an object
      between an assignment and the commit, or twice after a commit:
      [Session.sess_read] shows the loaded values in the first case and
      [World.refresh] selects again in the second.  Eight calls bound
      every path of every handler, the
      [except] branches and the 500 handler included
      ([Programs.dispatch_within]).
    - A path is the list of its segments: [Routing] starts after the
      URL has been split and decoded.
    - The types of [Typing] are closed records with their fields in
      the order the code builds them; the order in which [jsonify]
      prints them is the library's.

    ** Not modelled

    - The HTTP framing: the splitting and the decoding of the URL, the
      answers of werkzeug to a trailing or a doubled slash, the body of
      a 405, the serialisation [jsonify] makes of a response, the
      headers flask-cors adds (line 11).  These are the libraries';
      the program only names them.
    - The opening of the connections to PostgreSQL and to Redis
      (lines 19 and 23): a backend is reachable or it is not.
    - The texts of the exceptions: [Platform] gives representative
      ones, and no theorem depends on them. *)

From stdpp Require Import base tactics option list.

Declare Scope py_scope.
Delimit Scope py_scope with py.

(** ** Results and the monad *)

(** The outcome of a Python expression: a value, or a raised exception. *)
Inductive result (E A : Type) : Type :=
| Ok (a : A)
| Raise (e : E).
Arguments Ok {E A} a.
Arguments Raise {E A} e.

#[export] Instance result_eq_dec {E A} `{EqDecision E} `{EqDecision A} :
  EqDecision (result E A).
Proof. solve_decision. Defined.

(** A computation over a state [S] that may raise an [E].  The state
    after a raise is the state at the raise: effects are not undone. *)
Definition M (S E A : Type) : Type := S -> result E A * S.

Section Monad.
Context {S E : Type}.

Definition ret {A} (a : A) : M S E A := fun s => (Ok a, s).

Definition raise {A} (e : E) : M S E A := fun s => (Raise e, s).

Definition bind {A B} (m : M S E A) (f : A -> M S E B) : M S E B :=
  fun s => match m s with
           | (Ok a, s') => f a s'
           | (Raise e, s') => (Raise e, s')
           end.

(** [try: m except Exception as e: h e]. *)
Definition try_except {A} (m : M S E A) (h : E -> M S E A) : M S E A :=
  fun s => match m s with
           | (Ok a, s') => (Ok a, s')
           | (Raise e, s') => h e s'
           end.

Definition gets {A} (f : S -> A) : M S E A := fun s => (Ok (f s), s).

Definition modify (f : S -> S) : M S E unit := fun s => (Ok tt, f s).

(** Lifting of a pure result. *)
Definition lift {A} (r : result E A) : M S E A := fun s => (r, s).

(** Sequencing of pure results. *)
Definition rbind {A B} (r : result E A) (f : A -> result E B) : result E B :=
  match r with
  | Ok a => f a
  | Raise e => Raise e
  end.

(** [Ok] when the test holds, the exception otherwise. *)
Definition check (b : bool) (e : E) : result E unit :=
  if b then Ok tt else Raise e.

(** Extensional equality of computations. *)
Definition meq {A} (m1 m2 : M S E A) : Prop := forall s, m1 s = m2 s.

(** [hoare P m Q]: from a state satisfying [P], [m] ends with an outcome
    and a state related by [Q]. Computations are total, so this is total
    correctness. *)
Definition hoare {A} (P : S -> Prop) (m : M S E A)
  (Q : result E A -> S -> Prop) : Prop :=
  forall s, P s -> Q (m s).1 (m s).2.

(** [m] cannot raise from a state satisfying [P]. *)
Definition no_raise {A} (P : S -> Prop) (m : M S E A) : Prop :=
  hoare P m (fun r _ => exists a, r = Ok a).

(** [m] keeps the state property [I], whatever its outcome. *)
Definition preserves {A} (I : S -> Prop) (m : M S E A) : Prop :=
  hoare I m (fun _ s' => I s').

(** [yields I m T]: [m] keeps [I], and a value it returns from a state
    satisfying [I] is a [T]: the typing judgement of a computation under
    a state invariant. *)
Definition yields {A} (I : S -> Prop) (m : M S E A) (T : A -> Prop) : Prop :=
  hoare I m (fun r s' => I s' /\ match r with Ok a => T a | Raise _ => True end).

End Monad.

Notation "x <- m ;; k" := (bind m (fun x => k))
  (at level 20, m at level 99, k at level 200) : py_scope.
Notation "m ;; k" := (bind m (fun _ => k))
  (at level 100, k at level 200, right associativity) : py_scope.
Notation "x <-? r ;; k" := (rbind r (fun x => k))
  (at level 20, r at level 99, k at level 200) : py_scope.
Notation "r ;;? k" := (rbind r (fun _ => k))
  (at level 100, k at level 200, right associativity) : py_scope.
Notation "'try' m 'except' e => h" := (try_except m (fun e => h))
  (at level 10, e name, m at level 200, h at level 200) : py_scope.
Infix "≃" := meq (at level 70) : py_scope.

Open Scope py_scope.

Create HintDb py discriminated.
Create Rewrite HintDb pyrw.

(** [mrun] evaluates the monad's combinators in the goal and in the
    hypotheses. *)
Ltac mrun :=
  repeat (progress (cbn [fst snd] in *;
    unfold hoare, preserves, no_raise, bind, try_except, ret, raise,
      gets, modify, lift in *)).

(** [by_compute] proves a decidable proposition on closed terms by
    evaluating its decision procedure. *)
Ltac by_compute := apply (bool_decide_unpack _); vm_compute; exact I.

(** [case_rbind] takes the cases of the first pure step of a chain, naming
    the equation [H]; the raising case is closed when it is absurd. *)
Tactic Notation "case_rbind" "as" simple_intropattern(p) ident(H) :=
  lazymatch goal with
  | |- context [rbind ?r _] =>
      destruct r as [p|?] eqn:H; simpl; try done
  end.

(** ** Laws *)

Section Laws.
Context {S E : Type}.
Implicit Types s : S.

#[export] Instance meq_equivalence {A} : Equivalence (@meq S E A).
Proof.
  split.
  - by intros m s.
  - by intros m1 m2 H s.
  - intros m1 m2 m3 H1 H2 s. by rewrite H1.
Qed.

#[export] Instance bind_proper {A B} :
  Proper (meq ==> pointwise_relation A meq ==> meq) (@bind S E A B).
Proof.
  intros m1 m2 Hm f1 f2 Hf s. unfold bind. rewrite Hm.
  destruct (m2 s) as [[a|e] s']; [apply Hf | done].
Qed.

#[export] Instance try_except_proper {A} :
  Proper (meq ==> pointwise_relation E meq ==> meq) (@try_except S E A).
Proof.
  intros m1 m2 Hm h1 h2 Hh s. unfold try_except. rewrite Hm.
  destruct (m2 s) as [[a|e] s']; [done | apply Hh].
Qed.

Lemma bind_ret_l {A B} (a : A) (f : A -> M S E B) : (x <- ret a ;; f x) ≃ f a.
Proof. by intros s. Qed.

Lemma bind_ret_r {A} (m : M S E A) : (x <- m ;; ret x) ≃ m.
Proof. intros s. unfold bind, ret. by destruct (m s) as [[a|e] s']. Qed.

Lemma bind_assoc {A B C} (m : M S E A) (f : A -> M S E B) (g : B -> M S E C) :
  (y <- (x <- m ;; f x) ;; g y) ≃ (x <- m ;; y <- f x ;; g y).
Proof. intros s. unfold bind. by destruct (m s) as [[a|e] s']. Qed.

Lemma bind_raise {A B} (e : E) (f : A -> M S E B) : (x <- raise e ;; f x) ≃ raise e.
Proof. by intros s. Qed.

Lemma try_ret {A} (a : A) (h : E -> M S E A) : (try ret a except e => h e) ≃ ret a.
Proof. by intros s. Qed.

Lemma try_raise {A} (e : E) (h : E -> M S E A) : (try raise e except e' => h e') ≃ h e.
Proof. by intros s. Qed.

(** A block that cannot raise needs no handler. *)
Lemma try_no_raise {A} (m : M S E A) (h : E -> M S E A) s :
  (forall e, (m s).1 <> Raise e) -> (try m except e => h e) s = m s.
Proof.
  intros H. unfold try_except. destruct (m s) as [[a|e] s'] eqn:Hm; [done|].
  by destruct (H e).
Qed.

(** A handler that returns makes the whole block return. *)
Lemma try_except_total {A} (m : M S E A) (h : E -> M S E A) s :
  (forall e s', exists a, (h e s').1 = Ok a) ->
  exists a, ((try m except e => h e) s).1 = Ok a.
Proof.
  intros H. unfold try_except. destruct (m s) as [[a|e] s']; [by exists a|].
  apply H.
Qed.

End Laws.

(** ** Hoare rules *)

Section Hoare.
Context {S E : Type}.
Implicit Types (P I : S -> Prop).

Lemma hoare_ret {A} P (a : A) (Q : result E A -> S -> Prop) :
  (forall s, P s -> Q (Ok a) s) -> hoare P (ret a) Q.
Proof. intros H s HP. by apply H. Qed.

Lemma hoare_raise {A} P (e : E) (Q : result E A -> S -> Prop) :
  (forall s, P s -> Q (Raise e) s) -> hoare P (raise e) Q.
Proof. intros H s HP. by apply H. Qed.

Lemma hoare_lift {A} P (r : result E A) (Q : result E A -> S -> Prop) :
  (forall s, P s -> Q r s) -> hoare P (lift r) Q.
Proof. intros H s HP. by apply H. Qed.

Lemma hoare_gets {A} P (f : S -> A) (Q : result E A -> S -> Prop) :
  (forall s, P s -> Q (Ok (f s)) s) -> hoare P (gets f) Q.
Proof. intros H s HP. by apply H. Qed.

Lemma hoare_modify P (f : S -> S) (Q : result E unit -> S -> Prop) :
  (forall s, P s -> Q (Ok tt) (f s)) -> hoare P (modify f) Q.
Proof. intros H s HP. by apply H. Qed.

Lemma hoare_bind {A B} P (R : A -> S -> Prop) (m : M S E A) (f : A -> M S E B)
    (Q : result E B -> S -> Prop) :
  hoare P m (fun r s => match r with Ok a => R a s | Raise e => Q (Raise e) s end) ->
  (forall a, hoare (R a) (f a) Q) ->
  hoare P (x <- m ;; f x) Q.
Proof.
  intros Hm Hf s HP. specialize (Hm s HP). unfold bind.
  destruct (m s) as [[a|e] s']; simpl in *; [by apply Hf | done].
Qed.

Lemma hoare_try {A} P (R : E -> S -> Prop) (m : M S E A) (h : E -> M S E A)
    (Q : result E A -> S -> Prop) :
  hoare P m (fun r s => match r with Ok a => Q (Ok a) s | Raise e => R e s end) ->
  (forall e, hoare (R e) (h e) Q) ->
  hoare P (try m except e => h e) Q.
Proof.
  intros Hm Hh s HP. specialize (Hm s HP). unfold try_except.
  destruct (m s) as [[a|e] s']; simpl in *; [done | by apply Hh].
Qed.

Lemma hoare_conseq {A} P P' (m : M S E A) (Q Q' : result E A -> S -> Prop) :
  hoare P' m Q' -> (forall s, P s -> P' s) -> (forall r s, Q' r s -> Q r s) ->
  hoare P m Q.
Proof. intros H HP HQ s Hs. apply HQ, H, HP, Hs. Qed.

Lemma hoare_if {A} P (b : bool) (m1 m2 : M S E A) Q :
  (b = true -> hoare P m1 Q) -> (b = false -> hoare P m2 Q) ->
  hoare P (if b then m1 else m2) Q.
Proof. destruct b; auto. Qed.

(** Preservation composes along [bind] and [try_except]. *)
Lemma preserves_bind {A B} I (m : M S E A) (f : A -> M S E B) :
  preserves I m -> (forall a, preserves I (f a)) -> preserves I (x <- m ;; f x).
Proof.
  intros Hm Hf. apply hoare_bind with (R := fun _ => I); [|done].
  intros s Hs. specialize (Hm s Hs). by destruct (m s) as [[a|e] s'].
Qed.

Lemma preserves_try {A} I (m : M S E A) (h : E -> M S E A) :
  preserves I m -> (forall e, preserves I (h e)) -> preserves I (try m except e => h e).
Proof.
  intros Hm Hh. apply hoare_try with (R := fun _ => I); [|done].
  intros s Hs. specialize (Hm s Hs). by destruct (m s) as [[a|e] s'].
Qed.

Lemma preserves_ret {A} I (a : A) : preserves I (ret a : M S E A).
Proof. by intros s. Qed.

Lemma preserves_raise {A} I (e : E) : preserves I (raise e : M S E A).
Proof. by intros s. Qed.

Lemma preserves_lift {A} I (r : result E A) : preserves I (lift r : M S E A).
Proof. by intros s. Qed.

Lemma preserves_gets {A} I (f : S -> A) : preserves I (gets f : M S E A).
Proof. by intros s. Qed.

Lemma preserves_if {A} I (b : bool) (m1 m2 : M S E A) :
  preserves I m1 -> preserves I m2 -> preserves I (if b then m1 else m2).
Proof. by destruct b. Qed.

(** The rules of [yields], one per combinator. *)
Lemma yields_ret {A} I (a : A) (T : A -> Prop) : T a -> yields I (ret a : M S E A) T.
Proof. by intros Ha s Hs. Qed.

Lemma yields_raise {A} I (e : E) (T : A -> Prop) : yields I (raise e : M S E A) T.
Proof. by intros s Hs. Qed.

Lemma yields_lift {A} I (r : result E A) (T : A -> Prop) :
  (forall a, r = Ok a -> T a) -> yields I (lift r : M S E A) T.
Proof. intros Hr s Hs. split; [done|]. destruct r; simpl; auto. Qed.

Lemma yields_bind {A B} I (m : M S E A) (f : A -> M S E B) (R : A -> Prop) (T : B -> Prop) :
  yields I m R -> (forall a, R a -> yields I (f a) T) -> yields I (x <- m ;; f x) T.
Proof.
  intros Hm Hf s Hs. specialize (Hm s Hs). unfold bind.
  destruct (m s) as [[a|e] s']; simpl in *; [|done]. destruct Hm as [Hs' Ha].
  by apply Hf.
Qed.

Lemma yields_try {A} I (m : M S E A) (h : E -> M S E A) (T : A -> Prop) :
  yields I m T -> (forall e, yields I (h e) T) -> yields I (try m except e => h e) T.
Proof.
  intros Hm Hh s Hs. specialize (Hm s Hs). unfold try_except.
  destruct (m s) as [[a|e] s']; simpl in *; [done | by apply Hh, Hm].
Qed.

Lemma yields_weaken {A} I (m : M S E A) (T T' : A -> Prop) :
  yields I m T -> (forall a, T a -> T' a) -> yields I m T'.
Proof.
  intros Hm HT s Hs. destruct (Hm s Hs) as [Hs' Ha]. split; [done|].
  destruct (m s) as [[a|e] s']; simpl in *; auto.
Qed.

(** A computation that keeps the invariant yields some value. *)
Lemma yields_preserves {A} I (m : M S E A) : preserves I m -> yields I m (fun _ => True).
Proof. intros Hm s Hs. split; [by apply Hm | by destruct (m s) as [[a|e] s']]. Qed.

(** What a typed computation gives when it is run. *)
Lemma yields_run {A} I (m : M S E A) (T : A -> Prop) s :
  yields I m T -> I s -> I (m s).2 /\ forall a, (m s).1 = Ok a -> T a.
Proof.
  intros Hm Hs. destruct (Hm s Hs) as [Hs' Ha]. split; [done|].
  intros a Hr. by rewrite Hr in Ha.
Qed.

End Hoare.

#[export] Hint Resolve preserves_ret preserves_raise preserves_lift
  preserves_gets : py.
#[export] Hint Resolve preserves_bind preserves_try preserves_if | 2 : py.

(** [hoare_step] applies the preservation rule of the head combinator. *)
Ltac hoare_step :=
  lazymatch goal with
  | |- preserves _ (bind _ _) => apply preserves_bind; [|intros ?]
  | |- preserves _ (try_except _ _) => apply preserves_try; [|intros ?]
  | |- preserves _ (if _ then _ else _) => apply preserves_if
  | |- preserves _ (match ?x with _ => _ end) => destruct x
  | |- preserves _ _ => solve [auto with py]
  end.

(** ** Labelled transition systems *)

(** Lists of optional elements as multisets of those present: an
    element that is taken out, and a position that is removed. *)
Lemma omap_id_insert_None {A} (l : list (option A)) i x :
  l !! i = Some (Some x) -> x :: omap id (<[i := None]> l) ≡ₚ omap id l.
Proof.
  revert i. induction l as [|[y|] l IH]; intros [|i] Hi; simplify_eq/=; try done.
  - by rewrite <- (IH i Hi), Permutation_swap.
  - by apply IH.
Qed.

Lemma omap_id_delete {A} (l : list (option A)) i : omap id (delete i l) ⊆+ omap id l.
Proof.
  revert i. induction l as [|[y|] l IH]; intros [|i]; simpl; try done.
  - by apply submseteq_cons.
  - by apply submseteq_skip.
Qed.

Lemma omap_id_insert_Some {A} (l : list (option A)) i x :
  omap id (<[i := Some x]> l) ⊆+ x :: omap id l.
Proof.
  revert i. induction l as [|[y|] l IH]; intros [|i]; simpl; try apply submseteq_nil_l.
  - by apply submseteq_skip, submseteq_cons.
  - rewrite <- (Permutation_swap x y). apply submseteq_skip, IH.
  - done.
  - apply IH.
Qed.

Lemma omap_id_delete_Some {A} (l : list (option A)) i x :
  l !! i = Some (Some x) -> x :: omap id (delete i l) ≡ₚ omap id l.
Proof.
  revert i. induction l as [|[y|] l IH]; intros [|i] Hi; simplify_eq/=; try done.
  - by rewrite <- (IH i Hi), Permutation_swap.
  - by apply IH.
Qed.

(** Removing a position forgets what was written to it. *)
Lemma list_delete_insert {A} (l : list A) i x : delete i (<[i := x]> l) = delete i l.
Proof. revert i. induction l as [|a l IH]; intros [|i]; simpl; by rewrite ?IH. Qed.

(** Whether a list is what remains of another after some of its
    elements are removed: the first element is looked for from the
    left, and the rest after it. *)
Fixpoint is_sublist `{EqDecision A} (l k : list A) : bool :=
  match k, l with
  | _, [] => true
  | [], _ :: _ => false
  | y :: k', x :: l' => if decide (x = y) then is_sublist l' k' else is_sublist l k'
  end.

Lemma is_sublist_spec `{EqDecision A} (l k : list A) :
  is_sublist l k = true <-> l `sublist_of` k.
Proof.
  revert l. induction k as [|y k IH]; intros [|x l]; simpl.
  - done.
  - split; [done | by intros ?%sublist_nil_r].
  - split; [intros _; apply sublist_nil_l | done].
  - rewrite sublist_cons_r. case_decide as Hxy; [subst y|]; rewrite IH.
    + split; [intros Hl; right; by exists l|].
      intros [Hl|(? & [= <-] & Hl)]; [|done]. by transitivity (x :: l); [apply sublist_cons|].
    + split; [by left | intros [Hl|(? & [= <- <-] & _)]; done].
Qed.

#[export] Instance sublist_dec `{EqDecision A} : RelDecision (@sublist A).
Proof.
  refine (fun l k => cast_if (decide (is_sublist l k = true))); by rewrite <- is_sublist_spec.
Defined.

(** An element of a list stays when another position is overwritten or
    removed. *)
Lemma elem_of_insert_other {A} (l : list A) i x y z :
  l !! i = Some y -> z ∈ l -> z <> y -> z ∈ <[i := x]> l.
Proof.
  revert i. induction l as [|a l IH]; intros [|i] Hi Hz Hne; simplify_eq/=.
  - apply elem_of_cons in Hz as [->|Hz]; [done|]. by apply elem_of_cons; right.
  - apply elem_of_cons in Hz as [->|Hz]; apply elem_of_cons; [by left | right; eauto].
Qed.

Lemma elem_of_delete_other {A} (l : list A) i y z :
  l !! i = Some y -> z ∈ l -> z <> y -> z ∈ delete i l.
Proof.
  revert i. induction l as [|a l IH]; intros [|i] Hi Hz Hne; simplify_eq/=.
  - by apply elem_of_cons in Hz as [->|Hz].
  - apply elem_of_cons in Hz as [->|Hz]; apply elem_of_cons; [by left | right; eauto].
Qed.

(** [trace step s ls s']: the labels [ls], in order, lead from [s] to
    [s']. *)
Inductive trace {S L : Type} (step : S -> L -> S -> Prop) : S -> list L -> S -> Prop :=
| trace_nil s : trace step s [] s
| trace_cons s l s1 ls s' :
    step s l s1 -> trace step s1 ls s' -> trace step s (l :: ls) s'.

(** A simulation diagram and its extension to traces: if every step of
    the implementation with an admitted label, from a state related to
    a state of the specification, is matched by a step of the
    specification with the same label into related states, then so is
    every trace. *)
Section Simulation.
Context {C A L : Type}.
Variable cstep : C -> L -> C -> Prop.
Variable astep : A -> L -> A -> Prop.
Variable admitted : L -> Prop.
Variable inv : C -> A -> Prop.

Hypothesis simulation :
  forall c l c', cstep c l c' -> admitted l ->
  forall a, inv c a -> exists a', astep a l a' /\ inv c' a'.

Lemma simulation_trace c ls c' :
  trace cstep c ls c' -> Forall admitted ls ->
  forall a, inv c a -> exists a', trace astep a ls a' /\ inv c' a'.
Proof.
  induction 1 as [c|c l c1 ls c' Hstep Htrace IH]; intros Hls a Hinv.
  - exists a. split; [constructor | done].
  - apply Forall_cons in Hls as [Hl Hls].
    destruct (simulation _ _ _ Hstep Hl _ Hinv) as (a1 & Ha1 & Hinv1).
    destruct (IH Hls _ Hinv1) as (a' & Ha' & Hinv').
    exists a'. split; [by econstructor | done].
Qed.

End Simulation.

(** ** Shared facts on results, options and lists *)

Lemma rbind_Ok {E A B} (r : result E A) (f : A -> result E B) b :
  rbind r f = Ok b <-> exists a, r = Ok a /\ f a = Ok b.
Proof. destruct r; simpl; [|split; [done | by intros (? & ? & ?)]]. split; [eauto | by intros (? & [= ->] & ?)]. Qed.

Lemma rbind_Raise {E A B} (r : result E A) (f : A -> result E B) e :
  rbind r f = Raise e <-> r = Raise e \/ exists a, r = Ok a /\ f a = Raise e.
Proof.
  destruct r; simpl.
  - split; [eauto | by intros [|(? & [= ->] & ?)]].
  - split; [intros [= ->]; auto | by intros [[= ->]|(? & ? & ?)]].
Qed.

Lemma check_Ok {E} (b : bool) (e : E) u : check b e = Ok u <-> b = true.
Proof. destruct b, u; simpl; split; done. Qed.

Lemma check_Raise {E} (b : bool) (e e' : E) : check b e = Raise e' <-> b = false /\ e = e'.
Proof. destruct b; simpl; split; try done; [by intros [] | by intros [= ->] | by intros [_ ->]]. Qed.

(** [inv_result H] decomposes a hypothesis that a chain of [rbind] and
    [check] succeeded. *)
Ltac inv_result :=
  repeat match goal with
  | H : rbind _ _ = Ok _ |- _ => apply rbind_Ok in H as (? & ? & H)
  | H : check _ _ = Ok _ |- _ => apply check_Ok in H
  | H : Ok _ = Ok _ |- _ => injection H as H; try subst
  | H : Raise _ = Ok _ |- _ => discriminate H
  | H : Ok _ = Raise _ |- _ => discriminate H
  end.

Lemma result_ok_inj {E A} (a b : A) : @Ok E A a = Ok b -> a = b.
Proof. by intros [= ->]. Qed.

Lemma find_some_iff {A} (p : A -> bool) (l : list A) x :
  List.find p l = Some x -> x ∈ l /\ p x = true.
Proof. intros H. apply List.find_some in H as [H1 H2]. by rewrite list_elem_of_In. Qed.

Lemma find_none_iff {A} (p : A -> bool) (l : list A) :
  List.find p l = None <-> forall x, x ∈ l -> p x = false.
Proof.
  split.
  - intros H x Hx. apply (List.find_none p l H). by apply list_elem_of_In.
  - intros H. induction l as [|y l IH]; [done|]. simpl.
    rewrite (H y) by left. apply IH. intros x Hx. apply H. by right.
Qed.

(** Elements with equal images under [f] are equal when the images have
    no duplicate. *)
Lemma NoDup_fmap_inj_on {A B} (f : A -> B) (l : list A) x y :
  NoDup (f <$> l) -> x ∈ l -> y ∈ l -> f x = f y -> x = y.
Proof.
  induction l as [|z l IH]; [by intros _ ?%elem_of_nil|].
  rewrite fmap_cons. intros [Hz Hl]%NoDup_cons [->|Hx]%elem_of_cons [->|Hy]%elem_of_cons Hf;
    [done| | |by apply IH].
  - destruct Hz. rewrite Hf. apply list_elem_of_fmap. eauto.
  - destruct Hz. rewrite <- Hf. apply list_elem_of_fmap. eauto.
Qed.

Lemma Forall_filter_2 {A} (P Q : A -> Prop) `{forall x, Decision (Q x)} (l : list A) :
  Forall P l -> Forall P (filter Q l).
Proof.
  rewrite !Forall_forall. intros HP x [_ Hx]%list_elem_of_filter. by apply HP.
Qed.

Lemma find_snoc {A} (p : A -> bool) (l : list A) x :
  List.find p (l ++ [x]) =
    match List.find p l with
    | Some y => Some y
    | None => if p x then Some x else None
    end.
Proof. induction l as [|y l IH]; simpl; [done|]. by destruct (p y). Qed.

(** Sums of natural numbers under an update and a removal. *)
Lemma sum_list_insert_S (ns : list nat) i m :
  ns !! i = Some (S m) -> sum_list ns = S (sum_list (<[i := m]> ns)).
Proof.
  revert i. induction ns as [|n ns IH]; intros [|i] Hi; simplify_eq/=; [done|].
  rewrite (IH i Hi). lia.
Qed.

Lemma sum_list_delete (ns : list nat) i : sum_list (delete i ns) <= sum_list ns.
Proof.
  revert i. induction ns as [|n ns IH]; intros [|i]; simpl; try lia.
  specialize (IH i). lia.
Qed.
