(* ===== verification/Python.v ===== *)
(** * Python values, exceptions and the platform interfaces

    The values a decoded JSON body or an argument of [jsonify] can be
    ([json]), the exceptions the handlers of [app.py] can catch ([exn]),
    and the Python operations the handlers apply to request data:
    truthiness ([truthy], the [not] of line 117), [dict.get] ([py_get]),
    subscription ([py_getitem], lines 122-123, 147, 149) and membership
    ([py_in], lines 146, 148), each with the exception it raises on a
    value of the wrong type.

    Two interfaces state what the handlers need from the libraries they
    call: [JsonCodec] ([json.dumps] and [json.loads]) and [Runtime]
    ([str(e)], [datetime.isoformat], the driver's parameter binding). *)

From stdpp Require Import base tactics option strings numbers list.
From S2P Require Import Prelude.

Open Scope string_scope.

(** ** Columns, constraints and exceptions *)

(** The two writable columns of [users] (lines 30-31). *)
Inductive column : Type := ColUsername | ColEmail.

(** What a flush can violate: [unique=True] and [nullable=False] of lines
    30-31. *)
Inductive violation : Type :=
| UniqueViolation (c : column)
| NotNullViolation (c : column).

(** The Python classes of JSON values. *)
Inductive pytype : Type :=
| TNone | TBool | TInt | TStr | TList | TDict.

(** The exceptions a handler's [except Exception] can receive. *)
Inductive exn : Type :=
| NotFound                          (* werkzeug NotFound, from get_or_404 *)
| BadRequest                        (* get_json on a malformed body *)
| UnsupportedMediaType              (* get_json on a body that is not JSON *)
| AttributeError (t : pytype)       (* data.get on a value with no get *)
| TypeError (t : pytype)            (* data[k] or k in data on a wrong type *)
| KeyError (k : string)             (* data[k] on a dict without k *)
| JSONDecodeError                   (* json.loads on a malformed string *)
| IntegrityError (v : violation)    (* a constraint refused the flush *)
| DataError (c : column)            (* value too long for its VARCHAR *)
| ProgrammingError                  (* the driver cannot bind the value *)
| StaleDataError                    (* the row an UPDATE names is gone *)
| InvalidRequestError               (* the session refuses the operation *)
| OperationalError                  (* the store is unreachable *)
| ConnectionError.                  (* the cache is unreachable *)

#[export] Instance column_eq_dec : EqDecision column.
Proof. solve_decision. Defined.
#[export] Instance violation_eq_dec : EqDecision violation.
Proof. solve_decision. Defined.
#[export] Instance pytype_eq_dec : EqDecision pytype.
Proof. solve_decision. Defined.
#[export] Instance exn_eq_dec : EqDecision exn.
Proof. solve_decision. Defined.

(** ** JSON values *)

(** A decoded JSON document: what [request.get_json()] and [json.loads]
    return and what [jsonify] and [json.dumps] take.  An object is the
    Python dict in insertion order; lookup takes the first binding. *)
#[local] Unset Elimination Schemes.
Inductive json : Type :=
| JNull
| JBool (b : bool)
| JNum (n : Z)
| JStr (s : string)
| JArr (l : list json)
| JObj (kv : list (string * json)).
#[local] Set Elimination Schemes.

Definition py_type (v : json) : pytype :=
  match v with
  | JNull => TNone | JBool _ => TBool | JNum _ => TInt
  | JStr _ => TStr | JArr _ => TList | JObj _ => TDict
  end.

(** Python truthiness: [None], [False], [0], [''], [[]] and [{}] are
    false. *)
Definition truthy (v : json) : bool :=
  match v with
  | JNull => false
  | JBool b => b
  | JNum n => negb (n =? 0)%Z
  | JStr s => negb (String.eqb s "")
  | JArr l => negb (bool_decide (l = []))
  | JObj kv => negb (bool_decide (kv = []))
  end.

(** Lookup in a dict's bindings. *)
Fixpoint assoc (k : string) (kv : list (string * json)) : option json :=
  match kv with
  | [] => None
  | (k', v) :: kv' => if String.eqb k k' then Some v else assoc k kv'
  end.

(** [data.get(k)]: the value, [None] for a missing key;
    [AttributeError] when [data] is no dict. *)
Definition py_get (k : string) (data : json) : result exn json :=
  match data with
  | JObj kv => Ok (default JNull (assoc k kv))
  | _ => Raise (AttributeError (py_type data))
  end.

(** [data[k]] for a string [k]: a dict gives the value or [KeyError];
    lists and strings take integer indices, the rest are not
    subscriptable: [TypeError]. *)
Definition py_getitem (k : string) (data : json) : result exn json :=
  match data with
  | JObj kv => match assoc k kv with
               | Some v => Ok v
               | None => Raise (KeyError k)
               end
  | _ => Raise (TypeError (py_type data))
  end.

(** [k] occurs in [s] as a substring. *)
Fixpoint is_substring (k s : string) : bool :=
  String.prefix k s ||
  match s with
  | EmptyString => false
  | String _ s' => is_substring k s'
  end.

(** [k in data] for a string [k]: key membership for a dict, element
    membership for a list, substring for a string; [TypeError] for a
    value that is not iterable. *)
Definition py_in (k : string) (data : json) : result exn bool :=
  match data with
  | JObj kv => Ok (bool_decide (is_Some (assoc k kv)))
  | JArr l => Ok (existsb (fun x => match x with
                                    | JStr s => String.eqb s k
                                    | _ => false
                                    end) l)
  | JStr s => Ok (is_substring k s)
  | _ => Raise (TypeError (py_type data))
  end.

(** The outcome of [request.get_json()]: the decoded body, or the HTTP
    exception Flask raises for it. *)
Inductive body : Type :=
| Body (data : json)
| NoBody (e : exn).

Definition get_json (b : body) : result exn json :=
  match b with
  | Body data => Ok data
  | NoBody e => Raise e
  end.

(** ** Interfaces to the libraries *)

(** [json.dumps] and [json.loads]. *)
Class JsonCodec : Type := {
  dumps : json -> string;
  loads : string -> result exn json;
}.

(** What the cache-aside read path relies on: a dumped value loads back,
    and a dump is never the empty string (which [if cached:] would take
    for a miss). *)
Class JsonCodecLaws `{JsonCodec} : Prop := {
  loads_dumps v : loads (dumps v) = Ok v;
  dumps_nonempty v : dumps v <> "";
}.

(** Times are microseconds since the epoch, the resolution of
    [datetime]; [seconds n] is the duration of [n] seconds, as
    [timedelta(seconds=n)] and the time to live of a [SETEX]. *)
Definition seconds (n : Z) : Z := n * 1000000.

(** What the platform decides: the text of [str(e)], the text of
    [datetime.isoformat()] for a time in microseconds since the epoch,
    and how the driver binds a Python value to a [VARCHAR] parameter
    ([None] is SQL NULL). *)
Class Runtime : Type := {
  exn_message : exn -> string;
  isoformat : Z -> string;
  bind_param : json -> result exn (option string);
}.

Class RuntimeLaws `{Runtime} : Prop := {
  bind_param_null : bind_param JNull = Ok None;
  bind_param_str s : bind_param (JStr s) = Ok (Some s);
}.

(** ** Facts *)

Section json_ind.
Variable P : json -> Prop.
Hypothesis Hnull : P JNull.
Hypothesis Hbool : forall b, P (JBool b).
Hypothesis Hnum : forall n, P (JNum n).
Hypothesis Hstr : forall s, P (JStr s).
Hypothesis Harr : forall l, Forall P l -> P (JArr l).
Hypothesis Hobj : forall kv, Forall (fun p => P p.2) kv -> P (JObj kv).

(** Induction over JSON values with the hypothesis for every element of
    an array and every value of an object. *)
Fixpoint json_ind' (v : json) : P v :=
  match v with
  | JNull => Hnull
  | JBool b => Hbool b
  | JNum n => Hnum n
  | JStr s => Hstr s
  | JArr l =>
      Harr l ((fix go (l : list json) : Forall P l :=
                 match l with
                 | [] => List.Forall_nil _
                 | x :: l' => List.Forall_cons _ _ _ (json_ind' x) (go l')
                 end) l)
  | JObj kv =>
      Hobj kv ((fix go (kv : list (string * json)) : Forall (fun p => P p.2) kv :=
                  match kv with
                  | [] => List.Forall_nil _
                  | p :: kv' => List.Forall_cons _ _ _ (json_ind' p.2) (go kv')
                  end) kv)
  end.
End json_ind.

#[export] Instance json_eq_dec : EqDecision json.
Proof.
  refine (fix go (a b : json) {struct a} : Decision (a = b) :=
    match a, b with
    | JNull, JNull => left _
    | JBool x, JBool y => cast_if (decide (x = y))
    | JNum x, JNum y => cast_if (decide (x = y))
    | JStr x, JStr y => cast_if (decide (x = y))
    | JArr x, JArr y => cast_if (@list_eq_dec _ go x y)
    | JObj x, JObj y => cast_if (@list_eq_dec _ (@prod_eq_dec _ _ _ go) x y)
    | _, _ => right _
    end); clear go; congruence.
Defined.

#[export] Instance body_eq_dec : EqDecision body.
Proof. solve_decision. Defined.

Lemma assoc_Some_elem k kv v : assoc k kv = Some v -> (k, v) ∈ kv.
Proof.
  induction kv as [|[k' v'] kv IH]; simpl; [done|].
  destruct (String.eqb_spec k k') as [->|]; [intros [= ->]; left | right; auto].
Qed.

Lemma assoc_None k kv : assoc k kv = None <-> k ∉ kv.*1.
Proof.
  induction kv as [|[k' v'] kv IH]; simpl.
  - split; [intros _; apply not_elem_of_nil | done].
  - rewrite not_elem_of_cons. destruct (String.eqb_spec k k') as [->|]; [|by rewrite IH; tauto].
    split; [done | by intros []].
Qed.

(** A truthy value is not [None]: the check of line 117 rules out a
    missing key. *)
Lemma truthy_not_null v : truthy v = true -> v <> JNull.
Proof. by intros H ->. Qed.

Lemma py_get_truthy k data v :
  py_get k data = Ok v -> truthy v = true ->
  exists kv, data = JObj kv /\ assoc k kv = Some v.
Proof.
  destruct data; try done. simpl. intros [= <-] Ht. eexists; split; [done|].
  by destruct (assoc k kv).
Qed.

(** After [data.get(k)] returned a truthy value, [data[k]] returns it. *)
Lemma py_getitem_after_get k data v :
  py_get k data = Ok v -> truthy v = true -> py_getitem k data = Ok v.
Proof.
  intros Hg Ht. destruct (py_get_truthy _ _ _ Hg Ht) as (kv & -> & Ha).
  simpl. by rewrite Ha.
Qed.

(** [k in data] true and [data[k]] failing: only for a list or a
    string. *)
Lemma py_in_getitem k data :
  py_in k data = Ok true ->
  (exists v, py_getitem k data = Ok v) \/
  (py_type data = TList \/ py_type data = TStr) /\
    py_getitem k data = Raise (TypeError (py_type data)).
Proof.
  destruct data; simpl; try done; try (right; split; [auto | done]).
  intros [= H]. apply bool_decide_eq_true in H as [v Hv]. left. rewrite Hv. eauto.
Qed.

Lemma prefix_refl s : String.prefix s s = true.
Proof. induction s as [|a s IH]; simpl; [done | by destruct (Ascii.ascii_dec a a)]. Qed.

Lemma is_substring_refl k : is_substring k k = true.
Proof. destruct k; [done|]. unfold is_substring. by rewrite prefix_refl. Qed.
