(* ===== verification/Codec.v ===== *)
(** * The JSON codec: [json.dumps] and [json.loads]

    [app.py] stores [json.dumps(users_data)] and [json.dumps(stats)] in
    the cache (lines 92, 203) and serves [json.loads] of what it reads
    back (lines 83, 187).  This file gives the two functions on the
    values of [Python.json] and proves what the handlers rely on
    ([JsonCodecLaws]): a dumped value loads back, and no dump is empty.

    [dumps] prints as Python does with its defaults: [", "] and [": "]
    as separators, strings escaped with [ensure_ascii] (every character
    outside the printable ASCII range as [\u00XX], the short escapes for
    the quote, the backslash and the five named control characters).
    [loads] is a recursive-descent parser with fuel; the fuel it takes,
    the length of its input, is always enough.  It accepts JSON white
    space between tokens, every escape of a code point below 256, and
    integers; it refuses fractions and exponents, which the values of
    this development never contain. *)

From Stdlib Require Import Ascii DecimalString DecimalZ.
From stdpp Require Import base tactics option strings numbers list.
From S2P Require Import Prelude Python.

Open Scope string_scope.
Open Scope list_scope.

(** ** Characters *)

Definition dquote : ascii := ascii_of_nat 34.
Definition backslash : ascii := ascii_of_nat 92.

Definition is_ws (c : ascii) : bool :=
  let n := nat_of_ascii c in
  (n =? 32)%nat || (n =? 9)%nat || (n =? 10)%nat || (n =? 13)%nat.

Definition is_digit (c : ascii) : bool :=
  let n := nat_of_ascii c in (48 <=? n)%nat && (n <=? 57)%nat.

Definition is_num_char (c : ascii) : bool :=
  is_digit c || (nat_of_ascii c =? 45)%nat.

Definition hex_digit (n : nat) : ascii :=
  ascii_of_nat (if (n <? 10)%nat then 48 + n else 87 + n).

Definition unhex (c : ascii) : option nat :=
  let n := nat_of_ascii c in
  if is_digit c then Some (n - 48)%nat
  else if (97 <=? n)%nat && (n <=? 102)%nat then Some (n - 87)%nat
  else if (65 <=? n)%nat && (n <=? 70)%nat then Some (n - 55)%nat
  else None.

(** ** Printing *)

(** One character of a string, as [ensure_ascii] writes it. *)
Definition escape_char (c : ascii) : string :=
  let n := nat_of_ascii c in
  if (n =? 34)%nat then String backslash (String dquote "")
  else if (n =? 92)%nat then String backslash (String backslash "")
  else if (n =? 8)%nat then String backslash "b"
  else if (n =? 12)%nat then String backslash "f"
  else if (n =? 10)%nat then String backslash "n"
  else if (n =? 13)%nat then String backslash "r"
  else if (n =? 9)%nat then String backslash "t"
  else if (32 <=? n)%nat && (n <=? 126)%nat then String c ""
  else String backslash (String "u" (String "0" (String "0"
         (String (hex_digit (n / 16)) (String (hex_digit (n mod 16)) ""))))).

Fixpoint escape (s : string) : string :=
  match s with
  | EmptyString => ""
  | String c s' => escape_char c +:+ escape s'
  end.

Definition print_string (s : string) : string :=
  String dquote (escape s +:+ String dquote "").

Definition print_int (n : Z) : string := NilZero.string_of_int (Z.to_int n).

(** [json.dumps(v)]. *)
Fixpoint print (v : json) : string :=
  match v with
  | JNull => "null"
  | JBool true => "true"
  | JBool false => "false"
  | JNum n => print_int n
  | JStr s => print_string s
  | JArr l =>
      "[" +:+
      (fix items (l : list json) : string :=
         match l with
         | [] => "]"
         | x :: l' =>
             match l' with
             | [] => print x +:+ "]"
             | _ => print x +:+ ", " +:+ items l'
             end
         end) l
  | JObj kv =>
      "{" +:+
      (fix members (kv : list (string * json)) : string :=
         match kv with
         | [] => "}"
         | p :: kv' =>
             match kv' with
             | [] => print_string p.1 +:+ ": " +:+ print p.2 +:+ "}"
             | _ => print_string p.1 +:+ ": " +:+ print p.2 +:+ ", " +:+ members kv'
             end
         end) kv
  end.

(** The elements of an array after the bracket, and the members of an
    object after the brace, as [print] writes them. *)
Fixpoint print_items (l : list json) : string :=
  match l with
  | [] => "]"
  | x :: l' =>
      match l' with
      | [] => print x +:+ "]"
      | _ => print x +:+ ", " +:+ print_items l'
      end
  end.

Fixpoint print_members (kv : list (string * json)) : string :=
  match kv with
  | [] => "}"
  | p :: kv' =>
      match kv' with
      | [] => print_string p.1 +:+ ": " +:+ print p.2 +:+ "}"
      | _ => print_string p.1 +:+ ": " +:+ print p.2 +:+ ", " +:+ print_members kv'
      end
  end.

(** ** Parsing *)

Fixpoint skip_ws (s : string) : string :=
  match s with
  | String c s' => if is_ws c then skip_ws s' else s
  | EmptyString => ""
  end.

(** [s] without its prefix [p]. *)
Fixpoint strip (p s : string) : option string :=
  match p, s with
  | EmptyString, _ => Some s
  | String a p', String b s' => if Ascii.eqb a b then strip p' s' else None
  | _, _ => None
  end.

(** The longest prefix of sign and digit characters. *)
Fixpoint span_num (s : string) : string * string :=
  match s with
  | String c s' =>
      if is_num_char c then let r := span_num s' in (String c r.1, r.2) else ("", s)
  | EmptyString => ("", "")
  end.

Definition parse_int (s : string) : option (Z * string) :=
  let r := span_num s in
  match NilZero.int_of_string r.1 with
  | Some d => Some (Z.of_int d, r.2)
  | None => None
  end.

(** The next character of a string body: [Some None] at the closing
    quote, [None] for what no JSON string contains. *)
Definition unescape (s : string) : option (option ascii * string) :=
  match s with
  | EmptyString => None
  | String c s1 =>
      if Ascii.eqb c dquote then Some (None, s1)
      else if Ascii.eqb c backslash then
        match s1 with
        | String e s2 =>
            if Ascii.eqb e dquote then Some (Some dquote, s2)
            else if Ascii.eqb e backslash then Some (Some backslash, s2)
            else if Ascii.eqb e "/" then Some (Some "/"%char, s2)
            else if Ascii.eqb e "b" then Some (Some (ascii_of_nat 8), s2)
            else if Ascii.eqb e "f" then Some (Some (ascii_of_nat 12), s2)
            else if Ascii.eqb e "n" then Some (Some (ascii_of_nat 10), s2)
            else if Ascii.eqb e "r" then Some (Some (ascii_of_nat 13), s2)
            else if Ascii.eqb e "t" then Some (Some (ascii_of_nat 9), s2)
            else if Ascii.eqb e "u" then
              match s2 with
              | String a (String b (String x (String y s3))) =>
                  match unhex a, unhex b, unhex x, unhex y with
                  | Some 0%nat, Some 0%nat, Some h, Some l =>
                      Some (Some (ascii_of_nat (16 * h + l)), s3)
                  | _, _, _, _ => None
                  end
              | _ => None
              end
            else None
        | EmptyString => None
        end
      else if (nat_of_ascii c <? 32)%nat then None
      else Some (Some c, s1)
  end.

(** The body of a string up to its closing quote. *)
Fixpoint parse_chars (fuel : nat) (s : string) : option (string * string) :=
  match fuel with
  | O => None
  | S f =>
      match unescape s with
      | Some (None, rest) => Some ("", rest)
      | Some (Some c, rest) =>
          match parse_chars f rest with
          | Some (cs, rest') => Some (String c cs, rest')
          | None => None
          end
      | None => None
      end
  end.

(** A string, from its opening quote. *)
Definition parse_string (s : string) : option (string * string) :=
  match s with
  | String c s' => if Ascii.eqb c dquote then parse_chars (String.length s') s' else None
  | EmptyString => None
  end.

(** A value; the elements of an array after its bracket or a comma; the
    members of an object after its brace or a comma. *)
Fixpoint parse_value (fuel : nat) (s : string) : option (json * string) :=
  match fuel with
  | O => None
  | S f =>
      match skip_ws s with
      | EmptyString => None
      | String c s' as s0 =>
          if is_num_char c then
            match parse_int s0 with
            | Some (n, rest) => Some (JNum n, rest)
            | None => None
            end
          else if Ascii.eqb c dquote then
            match parse_string s0 with
            | Some (x, rest) => Some (JStr x, rest)
            | None => None
            end
          else if Ascii.eqb c "n" then
            match strip "ull" s' with Some rest => Some (JNull, rest) | None => None end
          else if Ascii.eqb c "t" then
            match strip "rue" s' with Some rest => Some (JBool true, rest) | None => None end
          else if Ascii.eqb c "f" then
            match strip "alse" s' with Some rest => Some (JBool false, rest) | None => None end
          else if Ascii.eqb c "[" then
            match skip_ws s' with
            | String "]" rest => Some (JArr [], rest)
            | _ =>
                match parse_items f s' with
                | Some (l, rest) => Some (JArr l, rest)
                | None => None
                end
            end
          else if Ascii.eqb c "{" then
            match skip_ws s' with
            | String "}" rest => Some (JObj [], rest)
            | _ =>
                match parse_members f s' with
                | Some (kv, rest) => Some (JObj kv, rest)
                | None => None
                end
            end
          else None
      end
  end
with parse_items (fuel : nat) (s : string) : option (list json * string) :=
  match fuel with
  | O => None
  | S f =>
      match parse_value f s with
      | Some (x, rest) =>
          match skip_ws rest with
          | String "]" rest' => Some ([x], rest')
          | String "," rest' =>
              match parse_items f rest' with
              | Some (l, rest'') => Some (x :: l, rest'')
              | None => None
              end
          | _ => None
          end
      | None => None
      end
  end
with parse_members (fuel : nat) (s : string) : option (list (string * json) * string) :=
  match fuel with
  | O => None
  | S f =>
      match parse_string (skip_ws s) with
      | Some (k, rest) =>
          match skip_ws rest with
          | String ":" rest1 =>
              match parse_value f rest1 with
              | Some (x, rest2) =>
                  match skip_ws rest2 with
                  | String "}" rest' => Some ([(k, x)], rest')
                  | String "," rest' =>
                      match parse_members f rest' with
                      | Some (kv, rest'') => Some ((k, x) :: kv, rest'')
                      | None => None
                      end
                  | _ => None
                  end
              | None => None
              end
          | _ => None
          end
      | None => None
      end
  end.

(** [json.loads(s)]: one value and nothing after it but white space. *)
Definition parse (s : string) : result exn json :=
  match parse_value (String.length s) s with
  | Some (v, rest) =>
      match skip_ws rest with
      | EmptyString => Ok v
      | _ => Raise JSONDecodeError
      end
  | None => Raise JSONDecodeError
  end.

#[export] Instance py_json : JsonCodec := {| dumps := print; loads := parse |}.

(** ** Facts about strings *)

Lemma append_cons x (a b : string) : String x a +:+ b = String x (a +:+ b).
Proof. done. Qed.

Lemma append_nil_l (a : string) : "" +:+ a = a.
Proof. done. Qed.

Lemma append_assoc (a b c : string) : (a +:+ b) +:+ c = a +:+ (b +:+ c).
Proof. induction a as [|x a IH]; [done|]. by rewrite !append_cons, IH. Qed.

Lemma append_nil_r (a : string) : a +:+ "" = a.
Proof. induction a as [|x a IH]; [done|]. by rewrite append_cons, IH. Qed.

Lemma append_length (a b : string) :
  String.length (a +:+ b) = (String.length a + String.length b)%nat.
Proof. induction a as [|x a IH]; [done|]. rewrite append_cons. simpl. by rewrite IH. Qed.

#[export] Hint Rewrite append_cons append_nil_l append_assoc : pyrw.

(** What follows a printed value in a document: nothing, or a character
    that is no part of a number. *)
Definition tail_ok (rest : string) : Prop :=
  match rest with
  | String c _ => is_num_char c = false
  | EmptyString => True
  end.

(** The head of a printed value is no white space. *)
Definition head_ok (s : string) : Prop :=
  match s with
  | String c _ => is_ws c = false
  | EmptyString => False
  end.

Lemma skip_ws_head s : head_ok s -> skip_ws s = s.
Proof. destruct s as [|c s]; [done|]. simpl. by intros ->. Qed.

Lemma head_ok_append s rest : head_ok s -> head_ok (s +:+ rest).
Proof. by destruct s. Qed.

(** ** Strings round trip *)

Lemma unescape_escape_char c rest :
  unescape (escape_char c +:+ rest) = Some (Some c, rest).
Proof. by destruct c as [[] [] [] [] [] [] [] []]. Qed.

Lemma unescape_dquote rest : unescape (String dquote rest) = Some (None, rest).
Proof. done. Qed.

Lemma escape_char_length c : (1 <= String.length (escape_char c))%nat.
Proof. destruct c as [[] [] [] [] [] [] [] []]; vm_compute; lia. Qed.

Lemma escape_length s : (String.length s <= String.length (escape s))%nat.
Proof.
  induction s as [|c s IH]; simpl; [done|]. rewrite append_length.
  pose proof (escape_char_length c). lia.
Qed.

Lemma parse_chars_escape s rest fuel :
  (String.length s < fuel)%nat ->
  parse_chars fuel (escape s +:+ String dquote rest) = Some (s, rest).
Proof.
  revert fuel. induction s as [|c s IH]; intros [|fuel] Hf; simpl in *; try lia.
  - done.
  - rewrite append_assoc, unescape_escape_char, IH by lia. done.
Qed.

Lemma parse_string_print s rest :
  parse_string (print_string s +:+ rest) = Some (s, rest).
Proof.
  unfold print_string. rewrite append_cons, append_assoc, append_cons, append_nil_l.
  cbn [parse_string]. change (Ascii.eqb dquote dquote) with true. cbn iota.
  apply parse_chars_escape. rewrite append_length. simpl.
  pose proof (escape_length s). lia.
Qed.

(** ** Integers round trip *)

Lemma uint_chars d rest :
  tail_ok rest -> d <> Decimal.Nil ->
  span_num (NilEmpty.string_of_uint d +:+ rest) = (NilEmpty.string_of_uint d, rest).
Proof.
  intros Hrest. induction d as [|d IH|d IH|d IH|d IH|d IH|d IH|d IH|d IH|d IH|d IH];
    intros Hd; [done|..].
  all: cbn [NilEmpty.string_of_uint]; rewrite append_cons; cbn [span_num].
  all: match goal with |- context [is_num_char ?c] => change (is_num_char c) with true end.
  all: cbn iota.
  all: assert (d = Decimal.Nil \/ d <> Decimal.Nil) as [->|Hne]
    by (destruct d; auto);
    [cbn [NilEmpty.string_of_uint]; rewrite append_nil_l;
     destruct rest; simpl in *; [done | by rewrite Hrest] | ].
  all: by rewrite (IH Hne).
Qed.

Lemma string_of_uint_nonnil d :
  d <> Decimal.Nil -> NilZero.string_of_uint d = NilEmpty.string_of_uint d.
Proof. by destruct d. Qed.

Lemma to_int_nonnil n :
  exists d, d <> Decimal.Nil /\
    (Z.to_int n = Decimal.Pos d \/ Z.to_int n = Decimal.Neg d).
Proof.
  destruct n as [|p|p]; simpl.
  - exists (Decimal.D0 Decimal.Nil). auto.
  - exists (Pos.to_uint p). split; [apply DecimalPos.Unsigned.to_uint_nonnil | auto].
  - exists (Pos.to_uint p). split; [apply DecimalPos.Unsigned.to_uint_nonnil | auto].
Qed.

Lemma span_num_print_int n rest :
  tail_ok rest -> span_num (print_int n +:+ rest) = (print_int n, rest).
Proof.
  intros Hrest. unfold print_int.
  destruct (to_int_nonnil n) as (d & Hd & [-> | ->]); cbn [NilZero.string_of_int];
    rewrite string_of_uint_nonnil by done.
  - by apply uint_chars.
  - rewrite append_cons. cbn [span_num].
    change (is_num_char "-") with true. cbn iota. by rewrite uint_chars.
Qed.

Lemma parse_int_print n rest :
  tail_ok rest -> parse_int (print_int n +:+ rest) = Some (n, rest).
Proof.
  intros Hrest. unfold parse_int. rewrite span_num_print_int by done. simpl.
  unfold print_int. rewrite NilZero.isi.
  - by rewrite DecimalZ.of_to.
  - destruct (to_int_nonnil n) as (d & Hd & [-> | ->]); congruence.
  - destruct (to_int_nonnil n) as (d & Hd & [-> | ->]); congruence.
Qed.

(** The first character of a printed integer is a sign or a digit. *)
Lemma print_int_head n rest :
  exists c s, print_int n +:+ rest = String c s /\ is_num_char c = true /\ is_ws c = false.
Proof.
  unfold print_int. destruct (to_int_nonnil n) as (d & Hd & [-> | ->]);
    cbn [NilZero.string_of_int].
  - rewrite string_of_uint_nonnil by done.
    destruct d; try done; cbn [NilEmpty.string_of_uint]; rewrite append_cons; eauto.
  - rewrite append_cons. eauto.
Qed.

(** ** Values round trip *)

(** The fuel a value needs: one unit per value, and one per element of
    an array or member of an object. *)
Fixpoint size (v : json) : nat :=
  match v with
  | JArr l =>
      S ((fix go (l : list json) : nat :=
            match l with [] => 0 | x :: l' => S (size x + go l') end) l)
  | JObj kv =>
      S ((fix go (kv : list (string * json)) : nat :=
            match kv with [] => 0 | p :: kv' => S (size p.2 + go kv') end) kv)
  | _ => 1
  end.

Fixpoint items_size (l : list json) : nat :=
  match l with [] => 0 | x :: l' => S (size x + items_size l') end.

Fixpoint members_size (kv : list (string * json)) : nat :=
  match kv with [] => 0 | p :: kv' => S (size p.2 + members_size kv') end.

Lemma size_arr l : size (JArr l) = S (items_size l).
Proof. reflexivity. Qed.

Lemma size_obj kv : size (JObj kv) = S (members_size kv).
Proof. reflexivity. Qed.

Lemma print_arr l : print (JArr l) = String "[" (print_items l).
Proof.
  reflexivity.
Qed.

Lemma print_obj kv : print (JObj kv) = String "{" (print_members kv).
Proof.
  reflexivity.
Qed.

Lemma print_items_cons x y l :
  print_items (x :: y :: l) = print x +:+ ", " +:+ print_items (y :: l).
Proof. done. Qed.

Lemma print_members_cons p q kv :
  print_members (p :: q :: kv) =
    print_string p.1 +:+ ": " +:+ print p.2 +:+ ", " +:+ print_members (q :: kv).
Proof. done. Qed.

(** The first character of a printed value starts a value. *)
Definition starts_value (c : ascii) : Prop :=
  is_ws c = false /\ c <> "]"%char /\ c <> "}"%char.

Lemma print_head v rest :
  exists c s, print v +:+ rest = String c s /\ starts_value c.
Proof.
  destruct v as [|[]|n|s|l|kv].
  1-3: by eexists _, _.
  - destruct (print_int_head n rest) as (c & s & Heq & Hn & Hw).
    exists c, s. split; [exact Heq|]. repeat split; try done; by intros ->.
  - by eexists _, _.
  - rewrite print_arr. by eexists _, _.
  - rewrite print_obj. by eexists _, _.
Qed.

(** The parser on a leading space, and on the first character of each
    kind of value. *)
Lemma parse_value_space fuel s : parse_value fuel (String " " s) = parse_value fuel s.
Proof. by destruct fuel. Qed.

Lemma parse_items_space fuel s : parse_items fuel (String " " s) = parse_items fuel s.
Proof. destruct fuel; [done|]. cbn [parse_items]. by rewrite parse_value_space. Qed.

Lemma parse_members_space fuel s : parse_members fuel (String " " s) = parse_members fuel s.
Proof. by destruct fuel. Qed.

Lemma parse_value_num f c s :
  is_ws c = false -> is_num_char c = true ->
  parse_value (S f) (String c s) =
    match parse_int (String c s) with
    | Some (n, rest) => Some (JNum n, rest)
    | None => None
    end.
Proof. intros Hw Hn. cbn [parse_value skip_ws]. by rewrite Hw, Hn. Qed.

Lemma parse_value_arr f s c s' :
  skip_ws s = String c s' -> c <> "]"%char ->
  parse_value (S f) (String "[" s) =
    match parse_items f s with
    | Some (l, rest) => Some (JArr l, rest)
    | None => None
    end.
Proof.
  intros Hs Hc. change (parse_value (S f) (String "[" s)) with
    (match skip_ws s with
     | String "]" rest => Some (JArr [], rest)
     | _ => match parse_items f s with
            | Some (l, rest) => Some (JArr l, rest)
            | None => None
            end
     end).
  rewrite Hs. by destruct c as [[] [] [] [] [] [] [] []].
Qed.

Lemma parse_value_obj f s c s' :
  skip_ws s = String c s' -> c <> "}"%char ->
  parse_value (S f) (String "{" s) =
    match parse_members f s with
    | Some (kv, rest) => Some (JObj kv, rest)
    | None => None
    end.
Proof.
  intros Hs Hc. change (parse_value (S f) (String "{" s)) with
    (match skip_ws s with
     | String "}" rest => Some (JObj [], rest)
     | _ => match parse_members f s with
            | Some (kv, rest) => Some (JObj kv, rest)
            | None => None
            end
     end).
  rewrite Hs. by destruct c as [[] [] [] [] [] [] [] []].
Qed.

(** The statement of the round trip for one value, as the induction
    carries it. *)
Lemma print_items_head x l rest :
  exists c s, print_items (x :: l) +:+ rest = String c s /\ starts_value c.
Proof.
  destruct l; [cbn [print_items] | rewrite print_items_cons];
    rewrite !append_assoc; apply print_head.
Qed.

Definition parses_back (v : json) : Prop :=
  forall fuel rest, (size v <= fuel)%nat -> tail_ok rest ->
    parse_value fuel (print v +:+ rest) = Some (v, rest).

Lemma tail_ok_sep c rest : is_num_char c = false -> tail_ok (String c rest).
Proof. done. Qed.

(** One step of the element and member loops on printed text. *)
Lemma parse_items_last f s x rest :
  parse_value f s = Some (x, String "]" rest) -> parse_items (S f) s = Some ([x], rest).
Proof. intros H. cbn [parse_items]. by rewrite H. Qed.

Lemma parse_items_more f s x l rest rest' :
  parse_value f s = Some (x, String "," (String " " rest)) ->
  parse_items f rest = Some (l, rest') ->
  parse_items (S f) s = Some (x :: l, rest').
Proof.
  intros H Hl. cbn [parse_items]. rewrite H.
  change (skip_ws (String "," ?t)) with (String "," t). cbv beta iota.
  by rewrite parse_items_space, Hl.
Qed.

Lemma parse_members_key f k tl :
  parse_members (S f) (print_string k +:+ String ":" (String " " tl)) =
    match parse_value f tl with
    | Some (x, rest2) =>
        match skip_ws rest2 with
        | String "}" rest' => Some ([(k, x)], rest')
        | String "," rest' =>
            match parse_members f rest' with
            | Some (kv, rest'') => Some ((k, x) :: kv, rest'')
            | None => None
            end
        | _ => None
        end
    | None => None
    end.
Proof.
  cbn [parse_members]. rewrite skip_ws_head by done. rewrite parse_string_print.
  change (skip_ws (String ":" ?t)) with (String ":" t). cbv beta iota.
  by rewrite parse_value_space.
Qed.

Lemma parse_members_last f k tl x rest :
  parse_value f tl = Some (x, String "}" rest) ->
  parse_members (S f) (print_string k +:+ String ":" (String " " tl)) = Some ([(k, x)], rest).
Proof. intros H. by rewrite parse_members_key, H. Qed.

Lemma parse_members_more f k tl x kv rest rest' :
  parse_value f tl = Some (x, String "," (String " " rest)) ->
  parse_members f rest = Some (kv, rest') ->
  parse_members (S f) (print_string k +:+ String ":" (String " " tl)) =
    Some ((k, x) :: kv, rest').
Proof.
  intros H Hl. rewrite parse_members_key, H.
  change (skip_ws (String "," ?t)) with (String "," t). cbv beta iota.
  by rewrite parse_members_space, Hl.
Qed.

(** The elements of an array, given the round trip of each. *)
Lemma parse_items_print l rest fuel :
  Forall parses_back l -> l <> [] -> (items_size l <= fuel)%nat ->
  parse_items fuel (print_items l +:+ rest) = Some (l, rest).
Proof.
  intros Hall. revert fuel. induction Hall as [|x l Hx Hl IH]; [done|].
  intros [|fuel] _ Hf; [simpl in Hf; lia|]. cbn [items_size] in Hf.
  destruct l as [|y l].
  - cbn [print_items]. rewrite append_assoc, append_cons, append_nil_l.
    apply parse_items_last, Hx; [simpl in *; lia | done].
  - rewrite print_items_cons, !append_assoc, !append_cons, append_nil_l.
    eapply parse_items_more; [apply Hx; [lia | done] | apply IH; [done | lia]].
Qed.

(** The members of an object, given the round trip of each value. *)
Lemma parse_members_print kv rest fuel :
  Forall (fun p => parses_back p.2) kv -> kv <> [] -> (members_size kv <= fuel)%nat ->
  parse_members fuel (print_members kv +:+ rest) = Some (kv, rest).
Proof.
  intros Hall. revert fuel. induction Hall as [|[k x] kv Hx Hl IH]; [done|].
  intros [|fuel] _ Hf; [simpl in Hf; lia|]. cbn [members_size snd] in Hf. simpl in Hx.
  destruct kv as [|q kv].
  - cbn [print_members fst snd]. rewrite !append_assoc, !append_cons, append_nil_l.
    apply parse_members_last, Hx; [simpl in *; lia | done].
  - rewrite print_members_cons. cbn [fst snd].
    rewrite !append_assoc, !append_cons, !append_nil_l.
    eapply parse_members_more; [apply Hx; [lia | done] | apply IH; [done | lia]].
Qed.

Lemma parse_value_print v : parses_back v.
Proof.
  induction v as [|b|n|s|l IH|kv IH] using json_ind';
    intros [|fuel] rest Hf Hrest; try (simpl in Hf; lia).
  - done.
  - by destruct b.
  - destruct (print_int_head n rest) as (c & s & Heq & Hn & Hw).
    cbn [print]. rewrite Heq, parse_value_num by done.
    by rewrite <- Heq, parse_int_print.
  - cbn [print]. unfold print_string. rewrite append_cons.
    change (parse_value (S fuel) (String dquote ?s)) with
      (match parse_string (String dquote s) with
       | Some (x, rest) => Some (JStr x, rest)
       | None => None
       end).
    rewrite <- append_cons. fold (print_string s). by rewrite parse_string_print.
  - rewrite print_arr, append_cons. rewrite size_arr in Hf.
    destruct l as [|x l]; [done|].
    destruct (print_items_head x l rest) as (c & s & Heq & Hw & Hc & _).
    rewrite (parse_value_arr _ _ c s); [| by rewrite Heq; cbn [skip_ws]; rewrite Hw | done].
    rewrite parse_items_print by (done || lia). done.
  - rewrite print_obj, append_cons. rewrite size_obj in Hf.
    destruct kv as [|p kv]; [done|].
    assert (Hs : exists s, print_members (p :: kv) +:+ rest = String dquote s)
      by (destruct kv; rewrite ?print_members_cons; cbn [print_members];
          unfold print_string; rewrite !append_cons; eauto).
    destruct Hs as [s Hs].
    rewrite (parse_value_obj _ _ dquote s); [| by rewrite Hs | done].
    rewrite parse_members_print by (done || lia). done.
Qed.

(** Every value has room in its own text. *)
Lemma size_le_length v : (size v <= String.length (print v))%nat.
Proof.
  induction v as [|b|n|s|l IH|kv IH] using json_ind'.
  - simpl. lia.
  - destruct b; simpl; lia.
  - destruct (print_int_head n "") as (c & s & Heq & _). rewrite append_nil_r in Heq.
    cbn [print size]. rewrite Heq. simpl. lia.
  - simpl. lia.
  - rewrite print_arr, size_arr. simpl. apply le_n_S.
    induction IH as [|x l Hx Hl IHl]; [simpl; lia|].
    destruct l as [|y l].
    + cbn [print_items items_size]. rewrite append_length. simpl. lia.
    + rewrite print_items_cons, !append_length.
      change (items_size (x :: y :: l)) with (S (size x + items_size (y :: l))).
      change (String.length ", ") with 2%nat. lia.
  - rewrite print_obj, size_obj. simpl. apply le_n_S.
    induction IH as [|p kv Hx Hl IHl]; [simpl; lia|].
    destruct kv as [|q kv].
    + cbn [print_members members_size]. rewrite !append_length. simpl. lia.
    + rewrite print_members_cons, !append_length.
      change (members_size (p :: q :: kv)) with (S (size p.2 + members_size (q :: kv))).
      change (String.length ", ") with 2%nat. lia.
Qed.

(** The two laws of the interface. *)
Lemma parse_print v : parse (print v) = Ok v.
Proof.
  unfold parse. rewrite <- (append_nil_r (print v)) at 2.
  by rewrite parse_value_print by (apply size_le_length || done).
Qed.

Lemma print_nonempty v : print v <> "".
Proof.
  intros Hv. pose proof (size_le_length v) as Hs. rewrite Hv in Hs.
  destruct v; simpl in Hs; lia.
Qed.

#[export] Instance py_json_laws : JsonCodecLaws.
Proof. split; [apply parse_print | apply print_nonempty]. Qed.
