(* ===== verification/Platform.v ===== *)
(** * One platform: the instance the closed examples run on

    The handlers are written against the interfaces [JsonCodec] and
    [Runtime] of [Python].  [Codec] gives the first; this file gives the
    second, so that every theorem stated against the interfaces can be
    run on a concrete world:

    - [isoformat] is [datetime.isoformat()] of a naive UTC time given in
      microseconds since the epoch (the proleptic Gregorian calendar;
      the fraction of the second is printed with six digits when it is
      not zero and left out when it is, as [datetime] does);
    - [exn_message] is the text [str(e)] yields for each exception, in
      the short form the libraries use;
    - [bind_param] is the adaptation psycopg2 makes of a Python value
      bound to a [VARCHAR] column: [None] is NULL, a string itself, a
      number and a boolean their SQL literal, which PostgreSQL then
      casts on assignment; a list or a dict is refused. *)

From Stdlib Require Import Ascii.
From stdpp Require Import base tactics option strings numbers list.
From S2P Require Import Prelude Python Codec.

Open Scope string_scope.
Open Scope Z_scope.

(** ** [datetime.isoformat] *)

(** [n] in decimal, padded with zeros to [width] digits. *)
Fixpoint zeros (k : nat) : string :=
  match k with O => "" | S k' => String "0" (zeros k') end.

Definition pad (width : nat) (n : Z) : string :=
  let s := print_int n in
  zeros (width - String.length s) +:+ s.

(** The civil date of a day number counted from 1970-01-01, by eras of
    400 years that start on the first of March. *)
Definition civil_from_days (days : Z) : Z * Z * Z :=
  let z := days + 719468 in
  let era := z / 146097 in
  let doe := z - era * 146097 in
  let yoe := (doe - doe / 1460 + doe / 36524 - doe / 146096) / 365 in
  let doy := doe - (365 * yoe + yoe / 4 - yoe / 100) in
  let mp := (5 * doy + 2) / 153 in
  let d := doy - (153 * mp + 2) / 5 + 1 in
  let m := if mp <? 10 then mp + 3 else mp - 9 in
  let y := yoe + era * 400 + (if m <=? 2 then 1 else 0) in
  (y, m, d).

(** The day number of a civil date: the inverse of [civil_from_days]. *)
Definition days_from_civil (y m d : Z) : Z :=
  let y' := if m <=? 2 then y - 1 else y in
  let era := y' / 400 in
  let yoe := y' - era * 400 in
  let doy := (153 * (if 2 <? m then m - 3 else m + 9) + 2) / 5 + d - 1 in
  let doe := yoe * 365 + yoe / 4 - yoe / 100 + doy in
  era * 146097 + doe - 719468.

(** The fraction of the second: nothing when it is zero. *)
Definition fraction (us : Z) : string :=
  if us =? 0 then "" else "." +:+ pad 6 us.

(** The time of day of an instant: hour, minute, second and
    microsecond. *)
Definition clock (t : Z) : Z * Z * Z * Z :=
  let s := t / 1000000 mod 86400 in
  (s / 3600, s mod 3600 / 60, s mod 60, t mod 1000000).

(** The instant of a civil date and a time of day. *)
Definition instant (y m d hh mm ss us : Z) : Z :=
  seconds (days_from_civil y m d * 86400 + hh * 3600 + mm * 60 + ss) + us.

Definition iso (t : Z) : string :=
  let '(y, m, d) := civil_from_days (t / 1000000 / 86400) in
  let '(hh, mm, ss, us) := clock t in
  pad 4 y +:+ "-" +:+ pad 2 m +:+ "-" +:+ pad 2 d +:+ "T" +:+
  pad 2 hh +:+ ":" +:+ pad 2 mm +:+ ":" +:+ pad 2 ss +:+ fraction us.

(** ** [str(e)] *)

Definition column_name (c : column) : string :=
  match c with ColUsername => "username" | ColEmail => "email" end.

Definition type_name (t : pytype) : string :=
  match t with
  | TNone => "NoneType" | TBool => "bool" | TInt => "int"
  | TStr => "str" | TList => "list" | TDict => "dict"
  end.

Definition message (e : exn) : string :=
  match e with
  | NotFound => "404 Not Found"
  | BadRequest => "400 Bad Request"
  | UnsupportedMediaType => "415 Unsupported Media Type"
  | AttributeError t => "'" +:+ type_name t +:+ "' object has no attribute 'get'"
  | TypeError t => "'" +:+ type_name t +:+ "' object is not subscriptable"
  | KeyError k => "'" +:+ k +:+ "'"
  | JSONDecodeError => "Expecting value"
  | IntegrityError (UniqueViolation c) =>
      "duplicate key value violates unique constraint users_" +:+ column_name c +:+ "_key"
  | IntegrityError (NotNullViolation c) =>
      "null value in column " +:+ column_name c +:+ " violates not-null constraint"
  | DataError c => "value too long for type character varying"
  | ProgrammingError => "can't adapt type"
  | StaleDataError => "UPDATE statement on table 'users' expected to update 1 row(s); 0 were matched."
  | InvalidRequestError => "Instance is not persistent within this Session"
  | OperationalError => "could not connect to server"
  | ConnectionError => "Error connecting to redis"
  end.

(** ** Parameter binding *)

Definition adapt (v : json) : result exn (option string) :=
  match v with
  | JNull => Ok None
  | JStr s => Ok (Some s)
  | JNum n => Ok (Some (print_int n))
  | JBool b => Ok (Some (if b then "true" else "false"))
  | JArr _ | JObj _ => Raise ProgrammingError
  end.

#[export] Instance py_runtime : Runtime :=
  {| exn_message := message; isoformat := iso; bind_param := adapt |}.

#[export] Instance py_runtime_laws : RuntimeLaws.
Proof. by split. Qed.

(** ** Facts *)

Example iso_epoch : iso 0 = "1970-01-01T00:00:00".
Proof. reflexivity. Qed.

Example iso_leap_day : iso (seconds 1709164800) = "2024-02-29T00:00:00".
Proof. reflexivity. Qed.

Example iso_end_of_year : iso (seconds 1704067199 + 999999) = "2023-12-31T23:59:59.999999".
Proof. reflexivity. Qed.

Example iso_microseconds : iso (seconds 1700000000 + 1250) = "2023-11-14T22:13:20.001250".
Proof. reflexivity. Qed.

Example iso_before_epoch : iso (-1) = "1969-12-31T23:59:59.999999".
Proof. reflexivity. Qed.

(** Division by a constant, as linear constraints for [lia]. *)
#[local] Ltac Zify.zify_post_hook ::= Z.to_euclidean_division_equations.

(** The month and the day of a civil date are in their ranges. *)
Lemma civil_from_days_range days :
  let '(y, m, d) := civil_from_days days in 1 <= m <= 12 /\ 1 <= d <= 31.
Proof.
  unfold civil_from_days. cbv zeta. case_match; lia.
Qed.

(** The two conversions are inverse on every day number. *)
Lemma days_from_civil_from_days days :
  let '(y, m, d) := civil_from_days days in days_from_civil y m d = days.
Proof.
  unfold civil_from_days, days_from_civil. cbv zeta. repeat case_match; lia.
Qed.

(** The fields of the time of day are in their ranges. *)
Lemma clock_range t :
  let '(hh, mm, ss, us) := clock t in
  0 <= hh < 24 /\ 0 <= mm < 60 /\ 0 <= ss < 60 /\ 0 <= us < 1000000.
Proof. unfold clock. cbv zeta. lia. Qed.

(** The fields [iso] prints determine the instant: the date and the
    time of day of an instant are the date and the time of day of no
    other. *)
Theorem instant_fields t :
  let '(y, m, d) := civil_from_days (t / 1000000 / 86400) in
  let '(hh, mm, ss, us) := clock t in
  instant y m d hh mm ss us = t.
Proof.
  pose proof (days_from_civil_from_days (t / 1000000 / 86400)) as Hd.
  destruct (civil_from_days _) as [[y m] d]. unfold clock, instant, seconds. rewrite Hd. lia.
Qed.
