(* ===== verification/Cache.v ===== *)
(** * The cache: a Redis keyspace with per-key expiry

    The handlers of [app.py] use four commands of the Redis client
    [cache] (line 23): [get] (lines 80, 185, 199), [setex] (lines 92,
    203), [delete] (lines 129, 154, 173) and [ping] (line 59).  This
    file models the keyspace they act on: a finite map from keys to
    entries, an entry being a string with an optional deadline (a key
    written by [setex] has one; a key another client wrote with [SET]
    has none).  An entry whose deadline has passed is absent for every
    reader, whether Redis has reclaimed it or not; [cache_purge] is the
    reclaiming, and [cache_equiv] the equivalence under which it is the
    identity. *)

From stdpp Require Import base tactics option strings numbers list gmap fin_maps.
From S2P Require Import Prelude.

Open Scope string_scope.
Open Scope Z_scope.

(** ** The keyspace *)

Record entry : Type := Entry {
  e_value : string;
  e_deadline : option Z;
}.

#[export] Instance entry_eq_dec : EqDecision entry.
Proof. solve_decision. Defined.

Abbreviation Cache := (gmap string entry).

(** An entry is live strictly before its deadline. *)
Definition live (now : Z) (e : entry) : bool :=
  match e_deadline e with
  | None => true
  | Some d => now <? d
  end.

(** [GET k] at time [now]: the value of a live entry. *)
Definition cache_lookup (now : Z) (c : Cache) (k : string) : option string :=
  match c !! k with
  | Some e => if live now e then Some (e_value e) else None
  | None => None
  end.

(** [SETEX k ttl v] at time [now]. *)
Definition cache_store (now : Z) (k : string) (ttl : Z) (v : string) (c : Cache) : Cache :=
  <[k := Entry v (Some (now + ttl))]> c.

(** [DEL k]. *)
Definition cache_remove (k : string) (c : Cache) : Cache := delete k c.

(** What Redis reclaims at time [now]: the entries past their deadline. *)
Definition cache_purge (now : Z) (c : Cache) : Cache :=
  filter (fun p => live now p.2 = true) c.

(** Two keyspaces no reader can tell apart from time [now] on. *)
Definition cache_equiv (now : Z) (c1 c2 : Cache) : Prop :=
  forall t k, now <= t -> cache_lookup t c1 k = cache_lookup t c2 k.

(** ** Laws of the commands *)

Section Laws.
Implicit Types (c : Cache) (k : string) (now ttl : Z).

Lemma live_mono now t e : now <= t -> live t e = true -> live now e = true.
Proof. unfold live. destruct (e_deadline e); [|done]. lia. Qed.

Lemma cache_lookup_empty now k : cache_lookup now ∅ k = None.
Proof. unfold cache_lookup. by rewrite lookup_empty. Qed.

(** A stored value is read back until its time to live has elapsed. *)
Lemma cache_lookup_store_eq now t k ttl v c :
  cache_lookup t (cache_store now k ttl v c) k =
    if t <? now + ttl then Some v else None.
Proof. unfold cache_lookup, cache_store. by rewrite lookup_insert_eq. Qed.

Lemma cache_lookup_store_live now t k ttl v c :
  t < now + ttl -> cache_lookup t (cache_store now k ttl v c) k = Some v.
Proof. intros. rewrite cache_lookup_store_eq. by rewrite (proj2 (Z.ltb_lt _ _)). Qed.

Lemma cache_lookup_store_expired now t k ttl v c :
  now + ttl <= t -> cache_lookup t (cache_store now k ttl v c) k = None.
Proof. intros. rewrite cache_lookup_store_eq. by rewrite (proj2 (Z.ltb_ge _ _)). Qed.

Lemma cache_lookup_store_ne now t k k' ttl v c :
  k <> k' -> cache_lookup t (cache_store now k ttl v c) k' = cache_lookup t c k'.
Proof. intros. unfold cache_lookup, cache_store. by rewrite lookup_insert_ne. Qed.

Lemma cache_lookup_remove_eq t k c : cache_lookup t (cache_remove k c) k = None.
Proof. unfold cache_lookup, cache_remove. by rewrite lookup_delete_eq. Qed.

Lemma cache_lookup_remove_ne t k k' c :
  k <> k' -> cache_lookup t (cache_remove k c) k' = cache_lookup t c k'.
Proof. intros. unfold cache_lookup, cache_remove. by rewrite lookup_delete_ne. Qed.

(** [DEL] is idempotent, and deleting an absent key changes nothing. *)
Lemma cache_remove_idemp k c : cache_remove k (cache_remove k c) = cache_remove k c.
Proof. apply delete_delete_eq. Qed.

Lemma cache_remove_absent k c : c !! k = None -> cache_remove k c = c.
Proof. apply delete_id. Qed.

(** Once expired, forever absent. *)
Lemma cache_lookup_expired_mono now t c k :
  now <= t -> is_Some (c !! k) -> cache_lookup now c k = None -> cache_lookup t c k = None.
Proof.
  unfold cache_lookup. intros Ht [e ->].
  destruct (live now e) eqn:Hn; [done|]. intros _.
  destruct (live t e) eqn:Hl; [|done]. by rewrite (live_mono _ _ _ Ht Hl) in Hn.
Qed.

(** A value read at [t] was readable at every earlier time, unless it was
    written in between: with the same keyspace, reads only disappear. *)
Lemma cache_lookup_mono now t c k v :
  now <= t -> cache_lookup t c k = Some v -> cache_lookup now c k = Some v.
Proof.
  unfold cache_lookup. intros Ht. destruct (c !! k) as [e|]; [|done].
  destruct (live t e) eqn:Hl; [|done]. by rewrite (live_mono _ _ _ Ht Hl).
Qed.

Lemma cache_lookup_purge now t c k :
  now <= t -> cache_lookup t (cache_purge now c) k = cache_lookup t c k.
Proof.
  intros Ht. unfold cache_lookup, cache_purge.
  destruct (c !! k) as [e|] eqn:Hk.
  - destruct (live now e) eqn:Hn.
    + by rewrite (map_lookup_filter_Some_2 _ _ k e Hk Hn).
    + rewrite (proj2 (map_lookup_filter_None _ _ k)).
      * destruct (live t e) eqn:Hl; [|done]. by rewrite (live_mono _ _ _ Ht Hl) in Hn.
      * right. intros e' He'. simpl. congruence.
  - rewrite (proj2 (map_lookup_filter_None _ _ k)); [done | by left].
Qed.

End Laws.

(** ** Observational equivalence *)

#[export] Instance cache_equiv_equivalence now : Equivalence (cache_equiv now).
Proof.
  split.
  - by intros c t k.
  - intros c1 c2 H t k Ht. by rewrite H.
  - intros c1 c2 c3 H1 H2 t k Ht. by rewrite H1, H2.
Qed.

#[export] Instance cache_store_proper now k ttl v :
  Proper (cache_equiv now ==> cache_equiv now) (cache_store now k ttl v).
Proof.
  intros c1 c2 H t k' Ht. destruct (decide (k = k')) as [<-|Hne].
  - by rewrite !cache_lookup_store_eq.
  - rewrite !cache_lookup_store_ne by done. by apply H.
Qed.

#[export] Instance cache_remove_proper now k :
  Proper (cache_equiv now ==> cache_equiv now) (cache_remove k).
Proof.
  intros c1 c2 H t k' Ht. destruct (decide (k = k')) as [<-|Hne].
  - by rewrite !cache_lookup_remove_eq.
  - rewrite !cache_lookup_remove_ne by done. by apply H.
Qed.

#[export] Instance cache_lookup_proper now :
  Proper (cache_equiv now ==> eq ==> eq) (cache_lookup now).
Proof. intros c1 c2 H k ? <-. by apply H. Qed.

(** Reclaiming expired entries is invisible. *)
Lemma cache_purge_equiv now c : cache_equiv now (cache_purge now c) c.
Proof. intros t k Ht. by apply cache_lookup_purge. Qed.

(** Equivalence is kept as time passes. *)
Lemma cache_equiv_later now t c1 c2 : now <= t -> cache_equiv now c1 c2 -> cache_equiv t c1 c2.
Proof. intros Ht H t' k Ht'. apply H. lia. Qed.

#[export] Hint Rewrite cache_lookup_empty cache_lookup_remove_eq : pyrw.
#[export] Hint Rewrite cache_lookup_store_ne cache_lookup_remove_ne using done : pyrw.
