(* ===== verification/Store.v ===== *)
(** * The entity store: the [users] table and its constraints

    The [User] model of [app.py] (lines 26-40) and the table it maps to,
    as PostgreSQL keeps it for SQLAlchemy: rows in heap order and the
    sequence that generates [id].  The statements a flush emits are
    functions on the table ([db_insert], [db_update], [db_delete]); each
    returns the new table or the exception the statement raises, and a
    statement that raises changes nothing.  The queries of the handlers
    are [db_get] ([query.get]), [db_all] ([query.all]), [db_count] and
    [db_count_since] (lines 190-193).

    [db_wf] is the invariant the constraints of lines 29-31 maintain:
    ids unique, positive and below the sequence; usernames and emails
    unique and within [String(80)] and [String(120)]. *)

From stdpp Require Import base tactics option strings numbers list.
From S2P Require Import Prelude Python.

Open Scope string_scope.
Open Scope Z_scope.

(** ** The model class *)

Module User.

(** A row of [users] (lines 29-32). *)
Record t : Type := mk {
  id : Z;
  username : string;
  email : string;
  created_at : Z;
}.

(** [to_dict] (lines 34-40). *)
Definition to_dict `{Runtime} (self : t) : json :=
  JObj [("id", JNum (id self));
        ("username", JStr (username self));
        ("email", JStr (email self));
        ("created_at", JStr (isoformat (created_at self)))].

End User.

#[export] Instance user_eq_dec : EqDecision User.t.
Proof. solve_decision. Defined.

(** ** The table *)

Record Database : Type := mkDb {
  rows : list User.t;
  next_id : Z;
}.

#[export] Instance database_eq_dec : EqDecision Database.
Proof. solve_decision. Defined.

(** [db.create_all()] on an empty database (lines 43-44). *)
Definition create_all : Database := mkDb [] 1.

(** The length bound of a column: [String(80)] and [String(120)]. *)
Definition col_limit (c : column) : nat :=
  match c with
  | ColUsername => 80
  | ColEmail => 120
  end.

Definition col_value (c : column) (u : User.t) : string :=
  match c with
  | ColUsername => User.username u
  | ColEmail => User.email u
  end.

(** ** Queries *)

(** The row with primary key [i]. *)
Definition db_get (i : Z) (db : Database) : option User.t :=
  List.find (fun u => User.id u =? i) (rows db).

Definition db_all (db : Database) : list User.t := rows db.

Definition db_count (db : Database) : Z := Z.of_nat (length (rows db)).

(** [filter(User.created_at >= since).count()]. *)
Definition db_count_since (since : Z) (db : Database) : Z :=
  Z.of_nat (length (filter (fun u => since <= User.created_at u) (rows db))).

(** ** Constraint checks, in the order PostgreSQL applies them *)

(** The coercion to [VARCHAR(n)]: a longer value is refused; NULL
    passes. *)
Definition check_length (c : column) (v : option string) : result exn unit :=
  match v with
  | Some s => check (String.length s <=? col_limit c)%nat (DataError c)
  | None => Ok tt
  end.

(** [nullable=False]. *)
Definition check_not_null (c : column) (v : option string) : result exn string :=
  match v with
  | Some s => Ok s
  | None => Raise (IntegrityError (NotNullViolation c))
  end.

(** [unique=True]: no row other than [self] holds [s] in column [c]. *)
Definition check_unique (c : column) (s : string) (self : option Z) (db : Database)
  : result exn unit :=
  check (negb (existsb (fun u => String.eqb (col_value c u) s &&
                                 negb (bool_decide (self = Some (User.id u))))
                       (rows db)))
        (IntegrityError (UniqueViolation c)).

Section Statements.
Context `{Runtime}.

(** One column of a statement: bound by the driver, coerced, checked for
    NULL.  The three stages run for all columns before the next stage
    starts; [stage_bind], [stage_length] and [stage_null] are the stages
    for an optional (changed or unchanged) column. *)
Definition stage_bind (v : option json) : result exn (option (option string)) :=
  match v with
  | Some j => p <-? bind_param j ;; Ok (Some p)
  | None => Ok None
  end.

Definition stage_length (c : column) (v : option (option string)) : result exn unit :=
  match v with
  | Some p => check_length c p
  | None => Ok tt
  end.

Definition stage_null (c : column) (v : option (option string)) : result exn (option string) :=
  match v with
  | Some p => s <-? check_not_null c p ;; Ok (Some s)
  | None => Ok None
  end.

Definition stage_unique (c : column) (v : option string) (self : option Z) (db : Database)
  : result exn unit :=
  match v with
  | Some s => check_unique c s self db
  | None => Ok tt
  end.

(** The values of the columns an UPDATE sets, after every check; [None]
    for a column the statement does not set. *)
Definition checked_columns (username email : option json) (self : option Z) (db : Database)
  : result exn (option string * option string) :=
  bu <-? stage_bind username ;;
  be <-? stage_bind email ;;
  stage_length ColUsername bu ;;?
  stage_length ColEmail be ;;?
  u <-? stage_null ColUsername bu ;;
  e <-? stage_null ColEmail be ;;
  stage_unique ColUsername u self db ;;?
  stage_unique ColEmail e self db ;;?
  Ok (u, e).

(** [INSERT INTO users (username, email, created_at)]: the id comes from
    the sequence and [created_at] from the column default (line 32). *)
Definition db_insert (username email : json) (now : Z) (db : Database)
  : result exn (User.t * Database) :=
  bu <-? bind_param username ;;
  be <-? bind_param email ;;
  check_length ColUsername bu ;;?
  check_length ColEmail be ;;?
  u <-? check_not_null ColUsername bu ;;
  e <-? check_not_null ColEmail be ;;
  check_unique ColUsername u None db ;;?
  check_unique ColEmail e None db ;;?
  let row := User.mk (next_id db) u e now in
  Ok (row, mkDb (rows db ++ [row]) (next_id db + 1)).

(** The row [old] with the changed columns replaced. *)
Definition with_columns (old : User.t) (ue : option string * option string) : User.t :=
  User.mk (User.id old) (default (User.username old) ue.1)
          (default (User.email old) ue.2) (User.created_at old).

Definition replace_row (new : User.t) (l : list User.t) : list User.t :=
  (fun u => if User.id u =? User.id new then new else u) <$> l.

(** [UPDATE users SET ... WHERE id = i] for the changed columns; a row
    that is gone makes the flush fail with [StaleDataError]. *)
Definition db_update (i : Z) (username email : option json) (db : Database)
  : result exn (User.t * Database) :=
  match db_get i db with
  | None => Raise StaleDataError
  | Some old =>
      ue <-? checked_columns username email (Some i) db ;;
      let new := with_columns old ue in
      Ok (new, mkDb (replace_row new (rows db)) (next_id db))
  end.

(** [DELETE FROM users WHERE id = i]. *)
Definition db_delete (i : Z) (db : Database) : Database :=
  mkDb (filter (fun u => User.id u <> i) (rows db)) (next_id db).

End Statements.

(** ** Well-formedness *)

Definition row_ok (bound : Z) (u : User.t) : Prop :=
  1 <= User.id u < bound /\
  (String.length (User.username u) <= col_limit ColUsername)%nat /\
  (String.length (User.email u) <= col_limit ColEmail)%nat.

Definition db_wf (db : Database) : Prop :=
  1 <= next_id db /\
  NoDup (User.id <$> rows db) /\
  NoDup (User.username <$> rows db) /\
  NoDup (User.email <$> rows db) /\
  Forall (row_ok (next_id db)) (rows db).

#[export] Instance row_ok_dec bound u : Decision (row_ok bound u).
Proof. unfold row_ok. apply _. Defined.

#[export] Instance db_wf_dec db : Decision (db_wf db).
Proof. unfold db_wf. apply _. Defined.

(** ** Facts about the queries *)

Section Facts.
Context `{Runtime}.
Implicit Types (db : Database) (u : User.t) (i : Z).

Lemma db_get_Some i db u : db_get i db = Some u -> u ∈ rows db /\ User.id u = i.
Proof. intros Hf. apply find_some_iff in Hf as [? ?%Z.eqb_eq]. done. Qed.

Lemma db_get_None i db : db_get i db = None <-> i ∉ User.id <$> rows db.
Proof.
  unfold db_get. rewrite find_none_iff, list_elem_of_fmap. split.
  - intros Hn (u & -> & Hu). specialize (Hn u Hu). lia.
  - intros Hn u Hu. apply Z.eqb_neq. intros <-. apply Hn. eauto.
Qed.

(** With unique ids, a row is found under its id. *)
Lemma db_get_elem db u :
  NoDup (User.id <$> rows db) -> u ∈ rows db -> db_get (User.id u) db = Some u.
Proof.
  unfold db_get. induction (rows db) as [|v l IH]; [by intros _ ?%elem_of_nil|].
  rewrite fmap_cons. intros [Hv Hl]%NoDup_cons [->|Hu]%elem_of_cons; simpl.
  - by rewrite Z.eqb_refl.
  - destruct (Z.eqb_spec (User.id v) (User.id u)) as [Heq|]; [|by apply IH].
    destruct Hv. rewrite Heq. apply list_elem_of_fmap. eauto.
Qed.

Lemma db_get_create_all i : db_get i create_all = None.
Proof. done. Qed.

Lemma db_count_since_le since db : 0 <= db_count_since since db <= db_count db.
Proof.
  unfold db_count_since, db_count. split; [lia|].
  apply inj_le, length_filter.
Qed.

(** Every row counts once the threshold is at or below all creation
    times. *)
Lemma db_count_since_all since db :
  Forall (fun u => since <= User.created_at u) (rows db) ->
  db_count_since since db = db_count db.
Proof.
  unfold db_count_since, db_count. intros Hall. f_equal. f_equal.
  induction Hall as [|u l Hu _ IH]; [done|].
  rewrite filter_cons_True by done. simpl. by rewrite IH.
Qed.

(** ** Facts about the checks *)

Lemma check_unique_Ok c s self db :
  check_unique c s self db = Ok tt <->
  forall u, u ∈ rows db -> col_value c u = s -> self = Some (User.id u).
Proof.
  unfold check_unique. rewrite check_Ok, negb_true_iff.
  rewrite <- not_true_iff_false, existsb_exists. split.
  - intros Hn u Hu Hs. destruct (decide (self = Some (User.id u))) as [|Hne]; [done|].
    destruct Hn. exists u. rewrite <- list_elem_of_In. split; [done|].
    rewrite andb_true_iff, negb_true_iff, bool_decide_eq_false.
    by rewrite String.eqb_eq.
  - intros Hall (u & Hu%list_elem_of_In & Hb).
    rewrite andb_true_iff, negb_true_iff, bool_decide_eq_false, String.eqb_eq in Hb.
    destruct Hb as [Hs Hne]. by apply Hne, Hall.
Qed.

Lemma check_unique_fresh c s db :
  check_unique c s None db = Ok tt <-> s ∉ col_value c <$> rows db.
Proof.
  rewrite check_unique_Ok, list_elem_of_fmap. split.
  - intros Hall (u & -> & Hu). by specialize (Hall u Hu eq_refl).
  - intros Hn u Hu <-. destruct Hn. eauto.
Qed.

Lemma check_length_Ok c s :
  check_length c (Some s) = Ok tt <-> (String.length s <= col_limit c)%nat.
Proof. unfold check_length. by rewrite check_Ok, Nat.leb_le. Qed.

(** ** The statements keep the table well formed *)

Lemma create_all_wf : db_wf create_all.
Proof. unfold db_wf, create_all. simpl. repeat split; [lia | constructor..]. Qed.

(** What a successful INSERT did. *)
Lemma db_insert_Ok username email now db row db' :
  db_insert username email now db = Ok (row, db') ->
  exists us es,
    bind_param username = Ok (Some us) /\ bind_param email = Ok (Some es) /\
    (String.length us <= col_limit ColUsername)%nat /\
    (String.length es <= col_limit ColEmail)%nat /\
    (us ∉ User.username <$> rows db) /\ (es ∉ User.email <$> rows db) /\
    row = User.mk (next_id db) us es now /\
    db' = mkDb (rows db ++ [row]) (next_id db + 1).
Proof.
  unfold db_insert.
  case_rbind as [us|] Hbu; case_rbind as [es|] Hbe;
    case_rbind as [] Hlu; case_rbind as [] Hle.
  case_rbind as [] Huu. case_rbind as [] Hue. intros [= <- <-].
  exists us, es. repeat split; try done.
  - by apply (check_length_Ok ColUsername).
  - by apply (check_length_Ok ColEmail).
  - by apply (check_unique_fresh ColUsername).
  - by apply (check_unique_fresh ColEmail).
Qed.

Lemma row_ok_mono b b' u : b <= b' -> row_ok b u -> row_ok b' u.
Proof. unfold row_ok. intros ? (? & ? & ?). split; [lia | done]. Qed.

Lemma db_insert_wf username email now db row db' :
  db_wf db -> db_insert username email now db = Ok (row, db') -> db_wf db'.
Proof.
  intros (Hn & Hid & Hu & He & Hok) (us & es & _ & _ & Hlu & Hle & Hfu & Hfe & -> & ->)%db_insert_Ok.
  unfold db_wf. simpl. rewrite !fmap_snoc, !NoDup_app, Forall_app, Forall_singleton. simpl.
  assert (Hfi : next_id db ∉ User.id <$> rows db).
  { rewrite list_elem_of_fmap. intros (u & Hidu & Hin).
    rewrite Forall_forall in Hok. destruct (Hok u Hin) as [? _]. lia. }
  repeat split; try done; try lia; try apply NoDup_singleton;
    try (intros x Hx ->%list_elem_of_singleton; done).
  - eapply Forall_impl; [done|]. intros u. apply row_ok_mono. lia.
  - simpl. lia.
Qed.

(** Only the row with the id of [new] changes, and its id stays. *)
Lemma replace_row_ids new l : User.id <$> replace_row new l = User.id <$> l.
Proof.
  unfold replace_row. rewrite <- list_fmap_compose. apply list_fmap_ext.
  intros _ u _. simpl. by destruct (Z.eqb_spec (User.id u) (User.id new)).
Qed.

Lemma elem_of_replace_row new l u :
  u ∈ replace_row new l -> u = new \/ u ∈ l /\ User.id u <> User.id new.
Proof.
  unfold replace_row. rewrite list_elem_of_fmap. intros (v & -> & Hv).
  destruct (Z.eqb_spec (User.id v) (User.id new)); auto.
Qed.

Lemma replace_row_fresh new l : User.id new ∉ User.id <$> l -> replace_row new l = l.
Proof.
  intros Hn. unfold replace_row. rewrite <- (list_fmap_id l) at 2.
  apply list_fmap_ext. intros _ u Hu%list_elem_of_lookup_2. simpl.
  destruct (Z.eqb_spec (User.id u) (User.id new)) as [Heq|]; [|done].
  destruct Hn. rewrite <- Heq. apply list_elem_of_fmap. eauto.
Qed.

(** A unique column stays unique when the new row's value is held by no
    row with another id. *)
Lemma replace_row_NoDup (f : User.t -> string) new l :
  NoDup (User.id <$> l) -> NoDup (f <$> l) ->
  (forall u, u ∈ l -> f u = f new -> User.id u = User.id new) ->
  NoDup (f <$> replace_row new l).
Proof.
  induction l as [|v l IH]; [done|].
  rewrite !fmap_cons. intros [Hiv Hil]%NoDup_cons [Hfv Hfl]%NoDup_cons Hnew.
  change (replace_row new (v :: l)) with
    ((if User.id v =? User.id new then new else v) :: replace_row new l).
  rewrite fmap_cons. apply NoDup_cons. split.
  - destruct (Z.eqb_spec (User.id v) (User.id new)) as [Heq|Hne].
    + rewrite replace_row_fresh by by rewrite <- Heq.
      rewrite list_elem_of_fmap. intros (u & Hfu & Hu).
      destruct Hiv. rewrite Heq, <- (Hnew u) by (by right || done).
      apply list_elem_of_fmap. eauto.
    + rewrite list_elem_of_fmap. intros (u & Hfu & [->|[Hu _]]%elem_of_replace_row).
      * destruct Hne. apply Hnew; [left | done].
      * destruct Hfv. rewrite Hfu. apply list_elem_of_fmap. eauto.
  - apply IH; [done | done |]. intros u Hu. apply Hnew. by right.
Qed.

(** What the checks of an UPDATE established for one column. *)
Definition column_checked (c : column) (v : option json) (o : option string)
    (self : option Z) (db : Database) : Prop :=
  match v, o with
  | None, None => True
  | Some j, Some s =>
      bind_param j = Ok (Some s) /\ (String.length s <= col_limit c)%nat /\
      forall u, u ∈ rows db -> col_value c u = s -> self = Some (User.id u)
  | _, _ => False
  end.

Lemma stage_checked c v b o self db :
  stage_bind v = Ok b -> stage_length c b = Ok tt -> stage_null c b = Ok o ->
  stage_unique c o self db = Ok tt -> column_checked c v o self db.
Proof.
  unfold stage_bind, stage_length, stage_null, stage_unique, column_checked.
  destruct v as [j|]; [|by intros [= <-] _ [= <-]].
  destruct (bind_param j) as [[s|]|]; simpl; try done; intros [= <-]; [|done].
  simpl. intros Hl [= <-] Hu. split; [done|].
  by rewrite <- check_length_Ok, <- check_unique_Ok.
Qed.

Lemma checked_columns_Ok username email self db ou oe :
  checked_columns username email self db = Ok (ou, oe) ->
  column_checked ColUsername username ou self db /\
  column_checked ColEmail email oe self db.
Proof.
  unfold checked_columns. intros Hc. inv_result.
  repeat match goal with u : unit |- _ => destruct u end.
  split; eapply stage_checked; eauto.
Qed.

Lemma db_update_Ok i username email db new db' :
  db_update i username email db = Ok (new, db') ->
  exists old ue,
    db_get i db = Some old /\ checked_columns username email (Some i) db = Ok ue /\
    new = with_columns old ue /\ db' = mkDb (replace_row new (rows db)) (next_id db).
Proof.
  unfold db_update. destruct (db_get i db) as [old|]; [|done].
  case_rbind as ue Hc. intros [= <- <-]. by exists old, ue.
Qed.

Lemma with_columns_id old ue : User.id (with_columns old ue) = User.id old.
Proof. done. Qed.

(** The new row of an UPDATE holds, in each unique column, a value no
    row with another id holds. *)
Lemma with_columns_unique c v o old db :
  NoDup (col_value c <$> rows db) -> old ∈ rows db ->
  column_checked c v o (Some (User.id old)) db ->
  forall u, u ∈ rows db -> col_value c u = default (col_value c old) o ->
    User.id u = User.id old.
Proof.
  intros Hnd Hold Hc u Hu Heq. destruct v as [j|], o as [s|]; try done; simpl in *.
  - destruct Hc as (_ & _ & Hun). by injection (Hun u Hu Heq).
  - f_equal. eapply (NoDup_fmap_inj_on (col_value c)); eauto.
Qed.

Lemma with_columns_length c v o old self db :
  (String.length (col_value c old) <= col_limit c)%nat ->
  column_checked c v o self db ->
  (String.length (default (col_value c old) o) <= col_limit c)%nat.
Proof. destruct v, o; simpl; try done. by intros _ (_ & ? & _). Qed.

Lemma db_update_wf i username email db new db' :
  db_wf db -> db_update i username email db = Ok (new, db') -> db_wf db'.
Proof.
  intros (Hn & Hid & Hu & He & Hok) (old & [ou oe] & Hget & Hc & -> & ->)%db_update_Ok.
  apply db_get_Some in Hget as [Hold <-].
  apply checked_columns_Ok in Hc as [Hcu Hce].
  assert (Hrow := proj1 (Forall_forall _ _) Hok old Hold).
  unfold db_wf. simpl. rewrite replace_row_ids. repeat split; try done.
  - apply replace_row_NoDup; [done..|].
    apply (with_columns_unique ColUsername username ou old db); done.
  - apply replace_row_NoDup; [done..|].
    apply (with_columns_unique ColEmail email oe old db); done.
  - apply Forall_forall. intros r [->|[Hr _]]%elem_of_replace_row.
    + destruct Hrow as (? & ? & ?). split; [done | split].
      * by eapply (with_columns_length ColUsername username ou old).
      * by eapply (with_columns_length ColEmail email oe old).
    + by apply (proj1 (Forall_forall _ _) Hok).
Qed.

Lemma db_delete_wf i db : db_wf db -> db_wf (db_delete i db).
Proof.
  intros (Hn & Hid & Hu & He & Hok). unfold db_wf, db_delete. simpl.
  repeat split; try done.
  - apply (sublist_NoDup _ _ Hid), fmap_sublist, sublist_filter.
  - apply (sublist_NoDup _ _ Hu), fmap_sublist, sublist_filter.
  - apply (sublist_NoDup _ _ He), fmap_sublist, sublist_filter.
  - by apply Forall_filter_2.
Qed.

(** ** Reading after writing *)

Lemma db_get_insert username email now db row db' :
  db_wf db -> db_insert username email now db = Ok (row, db') ->
  db_get (User.id row) db' = Some row /\
  forall j, j <> User.id row -> db_get j db' = db_get j db.
Proof.
  intros Hwf Hi. pose proof (db_insert_wf _ _ _ _ _ _ Hwf Hi) as (_ & Hid' & _).
  apply db_insert_Ok in Hi as (us & es & _ & _ & _ & _ & _ & _ & -> & ->).
  split.
  - apply db_get_elem; [done|]. simpl. apply elem_of_app. right. by left.
  - intros j Hj. unfold db_get. simpl in *. rewrite find_snoc.
    destruct (List.find _ (rows db)); [done|]. simpl.
    by rewrite (proj2 (Z.eqb_neq _ _)).
Qed.

Lemma db_get_delete_eq i db : db_get i (db_delete i db) = None.
Proof.
  apply db_get_None. simpl. rewrite list_elem_of_fmap.
  intros (u & -> & [Hne _]%list_elem_of_filter). done.
Qed.

(** A DELETE that matches no row changes nothing. *)
Lemma db_delete_absent i db : db_get i db = None -> db_delete i db = db.
Proof.
  rewrite db_get_None. destruct db as [l n]. unfold db_delete. simpl. intros Hn. f_equal.
  induction l as [|u l IH]; [done|]. rewrite fmap_cons, not_elem_of_cons in Hn.
  destruct Hn as [Hne Hn]. rewrite filter_cons_True by done. by rewrite IH.
Qed.

Lemma db_get_delete_ne i j db : i <> j -> db_get j (db_delete i db) = db_get j db.
Proof.
  intros Hne. unfold db_get, db_delete. simpl.
  induction (rows db) as [|u l IH]; [done|].
  destruct (decide (User.id u = i)) as [Heq|Hni].
  - rewrite filter_cons_False by tauto. simpl.
    by rewrite (proj2 (Z.eqb_neq (User.id u) j)) by lia.
  - rewrite filter_cons_True by done. simpl. by rewrite IH.
Qed.

Lemma find_replace_row_ne new l j :
  j <> User.id new ->
  List.find (fun u => User.id u =? j) (replace_row new l) =
  List.find (fun u => User.id u =? j) l.
Proof.
  intros Hj. unfold replace_row. induction l as [|u l IH]; [done|].
  rewrite fmap_cons. simpl.
  destruct (Z.eqb_spec (User.id u) (User.id new)) as [Heq|Hne]; simpl.
  - rewrite (proj2 (Z.eqb_neq (User.id new) j)) by lia.
    by rewrite (proj2 (Z.eqb_neq (User.id u) j)) by lia.
  - by rewrite IH.
Qed.

Lemma db_get_update i username email db new db' :
  db_wf db -> db_update i username email db = Ok (new, db') ->
  db_get i db' = Some new /\ User.id new = i /\
  forall j, j <> i -> db_get j db' = db_get j db.
Proof.
  intros Hwf Hu. pose proof (db_update_wf _ _ _ _ _ _ Hwf Hu) as (_ & Hid' & _).
  apply db_update_Ok in Hu as (old & ue & Hget & _ & -> & ->).
  apply db_get_Some in Hget as [Hold <-]. split; [|split; [done|]].
  - rewrite <- (with_columns_id old ue). apply db_get_elem; [done|]. simpl.
    unfold replace_row. apply list_elem_of_fmap. exists old. split; [|done].
    by rewrite with_columns_id, Z.eqb_refl.
  - intros j Hj. unfold db_get. simpl. by apply find_replace_row_ne.
Qed.

(** ** A statement made again *)

(** The checks of an UPDATE pass on the values they establish. *)
Lemma stage_intro c v o self db :
  column_checked c v o self db ->
  exists b, stage_bind v = Ok b /\ stage_length c b = Ok tt /\
            stage_null c b = Ok o /\ stage_unique c o self db = Ok tt.
Proof.
  unfold column_checked. destruct v as [j|], o as [s|]; try done; [|by exists None].
  intros (Hb & Hl & Hu). exists (Some (Some s)). unfold stage_bind. rewrite Hb.
  repeat split; [by apply check_length_Ok | by apply check_unique_Ok].
Qed.

Lemma checked_columns_intro username email self db ou oe :
  column_checked ColUsername username ou self db ->
  column_checked ColEmail email oe self db ->
  checked_columns username email self db = Ok (ou, oe).
Proof.
  intros (bu & Hbu & Hlu & Hnu & Huu)%stage_intro (be & Hbe & Hle & Hne & Hue)%stage_intro.
  unfold checked_columns. rewrite Hbu, Hbe. cbn [rbind]. rewrite Hlu, Hle. cbn [rbind].
  rewrite Hnu, Hne. cbn [rbind]. by rewrite Huu, Hue.
Qed.

(** The rows with the id of [new] are [new]: the UPDATE that sets
    them to [new] changes nothing. *)
Lemma replace_row_same new l :
  (forall u, u ∈ l -> User.id u = User.id new -> u = new) -> replace_row new l = l.
Proof.
  intros Hs. unfold replace_row. rewrite <- (list_fmap_id l) at 2.
  apply list_fmap_ext. intros _ u Hu%list_elem_of_lookup_2. simpl.
  destruct (Z.eqb_spec (User.id u) (User.id new)); [symmetry; by apply Hs | done].
Qed.

(** The value [s] for a column that is set, none for one that is
    not. *)
Definition set_to (s : string) (v : option json) : option string :=
  match v with
  | Some _ => Some s
  | None => None
  end.

(** An UPDATE that sets columns of a row to the values the row holds
    leaves the table as it is. *)
Lemma db_update_same i username email db row :
  db_wf db -> db_get i db = Some row ->
  column_checked ColUsername username (set_to (User.username row) username) (Some i) db ->
  column_checked ColEmail email (set_to (User.email row) email) (Some i) db ->
  db_update i username email db = Ok (row, db).
Proof.
  intros (_ & Hid & _) Hget Hu He. unfold db_update. rewrite Hget.
  rewrite (checked_columns_intro _ _ _ _ _ _ Hu He). cbn [rbind].
  assert (Hrow : with_columns row (set_to (User.username row) username,
                                   set_to (User.email row) email) = row)
    by (by destruct row, username, email).
  rewrite Hrow. destruct db as [l n]. simpl in *.
  apply db_get_Some in Hget as [Hin <-]. rewrite replace_row_same; [done|]. intros u Hu' Heq.
  by apply (NoDup_fmap_inj_on User.id l).
Qed.

(** An INSERT of the values of a row that was inserted is refused:
    the username is taken. *)
Lemma db_insert_again username email now now' db row db' :
  db_insert username email now db = Ok (row, db') ->
  db_insert username email now' db' = Raise (IntegrityError (UniqueViolation ColUsername)).
Proof.
  intros (us & es & Hbu & Hbe & Hlu & Hle & _ & _ & -> & ->)%db_insert_Ok.
  unfold db_insert. rewrite Hbu, Hbe. cbn [rbind].
  rewrite (proj2 (check_length_Ok ColUsername us)), (proj2 (check_length_Ok ColEmail es))
    by done.
  cbn [rbind check_not_null].
  destruct (check_unique ColUsername us None _) as [[]|e] eqn:Hc;
    [|by apply check_Raise in Hc as [_ <-]].
  apply check_unique_fresh in Hc. destruct Hc. simpl.
  rewrite fmap_app. apply elem_of_app. right. by left.
Qed.

(** ** What an INSERT of two strings decides *)

Lemma check_unique_taken c s db :
  s ∈ col_value c <$> rows db ->
  check_unique c s None db = Raise (IntegrityError (UniqueViolation c)).
Proof.
  intros Hin. destruct (check_unique c s None db) as [[]|e] eqn:Hc.
  - by apply check_unique_fresh in Hc.
  - by apply check_Raise in Hc as [_ <-].
Qed.

Lemma check_length_fits c s :
  (String.length s <= col_limit c)%nat -> check_length c (Some s) = Ok tt.
Proof. apply check_length_Ok. Qed.

Lemma check_length_long c s :
  (col_limit c < String.length s)%nat -> check_length c (Some s) = Raise (DataError c).
Proof. intros Hl. unfold check_length. by rewrite (proj2 (Nat.leb_gt _ _)). Qed.

Section Strings.
Context `{!RuntimeLaws}.
Variables (us es : string) (now : Z) (db : Database).
Hypothesis Hlu : (String.length us <= col_limit ColUsername)%nat.
Hypothesis Hle : (String.length es <= col_limit ColEmail)%nat.

Lemma db_insert_fresh :
  us ∉ User.username <$> rows db -> es ∉ User.email <$> rows db ->
  db_insert (JStr us) (JStr es) now db =
    Ok (User.mk (next_id db) us es now,
        mkDb (rows db ++ [User.mk (next_id db) us es now]) (next_id db + 1)).
Proof.
  intros Hu He. unfold db_insert. rewrite !bind_param_str. cbn [rbind].
  rewrite !check_length_fits by done. cbn [rbind check_not_null].
  by rewrite (proj2 (check_unique_fresh ColUsername us db)),
    (proj2 (check_unique_fresh ColEmail es db)).
Qed.

Lemma db_insert_username_taken :
  us ∈ User.username <$> rows db ->
  db_insert (JStr us) (JStr es) now db = Raise (IntegrityError (UniqueViolation ColUsername)).
Proof.
  intros Hu. unfold db_insert. rewrite !bind_param_str. cbn [rbind].
  rewrite !check_length_fits by done. cbn [rbind check_not_null].
  by rewrite (check_unique_taken ColUsername).
Qed.

Lemma db_insert_email_taken :
  us ∉ User.username <$> rows db -> es ∈ User.email <$> rows db ->
  db_insert (JStr us) (JStr es) now db = Raise (IntegrityError (UniqueViolation ColEmail)).
Proof.
  intros Hu He. unfold db_insert. rewrite !bind_param_str. cbn [rbind].
  rewrite !check_length_fits by done. cbn [rbind check_not_null].
  rewrite (proj2 (check_unique_fresh ColUsername us db)) by done. cbn [rbind check_not_null].
  by rewrite (check_unique_taken ColEmail).
Qed.

End Strings.

(** What an INSERT of two strings decides, and in which order: a
    value longer than its column ([String(80)], [String(120)]) is
    refused first, the username before the email; then a username a row
    already holds, then an email a row already holds ([unique=True]);
    otherwise the row is appended with the next id of the sequence and
    the time of the statement as [created_at], and the sequence
    advances by one. *)
Theorem db_insert_decides `{!RuntimeLaws} us es now db :
  db_insert (JStr us) (JStr es) now db =
    if decide (col_limit ColUsername < String.length us)%nat then Raise (DataError ColUsername)
    else if decide (col_limit ColEmail < String.length es)%nat then Raise (DataError ColEmail)
    else if decide (us ∈ User.username <$> rows db)
      then Raise (IntegrityError (UniqueViolation ColUsername))
    else if decide (es ∈ User.email <$> rows db)
      then Raise (IntegrityError (UniqueViolation ColEmail))
    else Ok (User.mk (next_id db) us es now,
             mkDb (rows db ++ [User.mk (next_id db) us es now]) (next_id db + 1)).
Proof.
  destruct (decide _) as [Hu|Hu].
  { unfold db_insert. rewrite !bind_param_str. cbn [rbind].
    by rewrite check_length_long. }
  destruct (decide _) as [He|He].
  { unfold db_insert. rewrite !bind_param_str. cbn [rbind].
    rewrite check_length_fits by lia. cbn [rbind]. by rewrite check_length_long. }
  repeat destruct (decide _);
    auto using db_insert_username_taken, db_insert_email_taken, db_insert_fresh with lia.
Qed.

End Facts.
