(* ===== verification/Session.v ===== *)
(** * The session: SQLAlchemy's unit of work for one request

    [db.session] tracks the [User] objects a handler touches: an object
    passed to [db.session.add] (line 125) is pending until the flush
    inserts it; an object a query returned is persistent and holds the
    row as the query loaded it; an assignment to one of its attributes
    (lines 147, 149) makes it dirty; [db.session.delete] (line 169)
    marks it deleted.  [db.session.commit] (lines 126, 151, 170)
    flushes every tracked object in one transaction: all statements
    take effect or none.  The UPDATE of a dirty object sets the columns
    whose assigned value differs from the value the object was loaded
    with: the unit of work compares with what it loaded, not with the
    table.  [db.session.rollback] (lines 136, 161, 177, 216) forgets
    the pending work.  A commit and a rollback expire every object:
    it is then known by its primary key, and its attributes are
    selected again when they are read.

    A handler holds an object by its position in the session ([handle]),
    so that the object it added is the object it reads after the commit,
    with the id the flush gave it. *)

From stdpp Require Import base tactics option strings numbers list.
From S2P Require Import Prelude Python Store.

Open Scope string_scope.
Open Scope list_scope.
Open Scope Z_scope.

(** The state of a tracked object.  A persistent object carries the row
    as it was loaded and the last value assigned to each column since;
    an expired one carries its primary key and the values assigned
    since it expired. *)
Inductive tracked : Type :=
| Pending (username email : json)
| Persistent (row : User.t) (username email : option json)
| Expired (i : Z) (username email : option json)
| Deleted (i : Z)
| Detached.

#[export] Instance tracked_eq_dec : EqDecision tracked.
Proof. solve_decision. Defined.

Abbreviation Session := (list tracked).
Abbreviation handle := nat.

(** Nothing to flush for this object. *)
Definition tracked_clean (t : tracked) : bool :=
  match t with
  | Persistent _ None None | Expired _ None None | Detached => true
  | _ => false
  end.

Definition session_clean (s : Session) : bool := forallb tracked_clean s.

(** The object is as a commit or a rollback leaves it. *)
Definition tracked_expired (t : tracked) : bool :=
  match t with
  | Expired _ None None | Detached => true
  | _ => false
  end.

Definition session_expired (s : Session) : bool := forallb tracked_expired s.

(** [db.session.add(User(username=..., email=...))]. *)
Definition sess_add (username email : json) (s : Session) : handle * Session :=
  (length s, s ++ [Pending username email]).

(** The object a query returned for the row [row]. *)
Definition sess_load (row : User.t) (s : Session) : handle * Session :=
  (length s, s ++ [Persistent row None None]).

(** [obj.<c> = v]. *)
Definition assign (c : column) (v : json) (t : tracked) : tracked :=
  match t, c with
  | Pending _ e, ColUsername => Pending v e
  | Pending u _, ColEmail => Pending u v
  | Persistent row _ e, ColUsername => Persistent row (Some v) e
  | Persistent row u _, ColEmail => Persistent row u (Some v)
  | Expired i _ e, ColUsername => Expired i (Some v) e
  | Expired i u _, ColEmail => Expired i u (Some v)
  | _, _ => t
  end.

Definition sess_assign (h : handle) (c : column) (v : json) (s : Session) : Session :=
  alter (assign c v) h s.

(** [db.session.delete(obj)]: a persistent object is marked deleted; a
    pending one is expunged. *)
Definition mark_deleted (t : tracked) : tracked :=
  match t with
  | Persistent row _ _ => Deleted (User.id row)
  | Expired i _ _ => Deleted i
  | Pending _ _ => Detached
  | _ => t
  end.

Definition sess_delete (h : handle) (s : Session) : Session :=
  alter mark_deleted h s.

(** [db.session.rollback()]: pending objects are expunged, assignments
    and deletions forgotten, and what stays is expired. *)
Definition rollback_one (t : tracked) : tracked :=
  match t with
  | Pending _ _ => Detached
  | Persistent row _ _ => Expired (User.id row) None None
  | Expired i _ _ => Expired i None None
  | Deleted i => Expired i None None
  | Detached => Detached
  end.

Definition sess_rollback (s : Session) : Session := rollback_one <$> s.

(** An assignment is a change unless it assigns the value the object
    was loaded with. *)
Definition net_change (current : string) (v : option json) : option json :=
  match v with
  | Some j => if decide (j = JStr current) then None else Some j
  | None => None
  end.

Section Flush.
Context `{Runtime}.

(** The UPDATE the flush emits for a persistent object loaded as
    [row]: none when no assignment changed a value. *)
Definition flush_update (row : User.t) (u e : option json) (db : Database)
  : result exn Database :=
  match net_change (User.username row) u, net_change (User.email row) e with
  | None, None => Ok db
  | nu, ne => r <-? db_update (User.id row) nu ne db ;; Ok r.2
  end.

(** The UPDATE for an expired object: the session knows no value to
    compare with, and every assigned column is set. *)
Definition flush_assigned (i : Z) (u e : option json) (db : Database)
  : result exn Database :=
  match u, e with
  | None, None => Ok db
  | _, _ => r <-? db_update i u e db ;; Ok r.2
  end.

(** The statement the flush of a commit emits for one object, if any,
    and the object as the commit leaves it. *)
Definition flush_one (t : tracked) (now : Z) (db : Database)
  : result exn (tracked * Database) :=
  match t with
  | Pending u e =>
      r <-? db_insert u e now db ;;
      Ok (Expired (User.id r.1) None None, r.2)
  | Persistent row u e =>
      db' <-? flush_update row u e db ;;
      Ok (Expired (User.id row) None None, db')
  | Expired i u e =>
      db' <-? flush_assigned i u e db ;;
      Ok (Expired i None None, db')
  | Deleted i => Ok (Detached, db_delete i db)
  | Detached => Ok (Detached, db)
  end.

(** The flush of the whole session, object by object. *)
Fixpoint flush (s : Session) (now : Z) (db : Database) : result exn (Session * Database) :=
  match s with
  | [] => Ok ([], db)
  | t :: s' =>
      r1 <-? flush_one t now db ;;
      r2 <-? flush s' now r1.2 ;;
      Ok (r1.1 :: r2.1, r2.2)
  end.

(** What the object behind a handle shows when its attributes are
    read: the row it was loaded with, or, expired, the primary key by
    which its row is selected again.  (No handler reads an object
    between an assignment and the commit: the values assigned and not
    yet flushed are not shown.) *)
Definition sess_read (h : handle) (s : Session) : result exn (User.t + Z) :=
  match s !! h with
  | Some (Persistent row _ _) => Ok (inl row)
  | Some (Expired i _ _) => Ok (inr i)
  | _ => Raise InvalidRequestError
  end.

End Flush.

(** ** Facts *)

Section Facts.
Context `{Runtime}.
Implicit Types (s : Session) (t : tracked) (db : Database).

Lemma session_clean_nil : session_clean [] = true.
Proof. done. Qed.

Lemma session_clean_app s1 s2 :
  session_clean (s1 ++ s2) = session_clean s1 && session_clean s2.
Proof. apply forallb_app. Qed.

Lemma session_expired_app s1 s2 :
  session_expired (s1 ++ s2) = session_expired s1 && session_expired s2.
Proof. apply forallb_app. Qed.

Lemma tracked_expired_clean t : tracked_expired t = true -> tracked_clean t = true.
Proof. by destruct t as [| |? [] []| |]. Qed.

Lemma session_expired_clean s : session_expired s = true -> session_clean s = true.
Proof.
  unfold session_expired, session_clean. rewrite !forallb_forall.
  intros Hs t Ht. by apply tracked_expired_clean, Hs.
Qed.

Lemma rollback_one_expired t : tracked_expired (rollback_one t) = true.
Proof. by destruct t. Qed.

(** After a rollback every object is expired, and nothing is left to
    flush. *)
Lemma sess_rollback_expired s : session_expired (sess_rollback s) = true.
Proof.
  induction s as [|t s IH]; [done|]. simpl. by rewrite rollback_one_expired.
Qed.

Lemma sess_rollback_clean s : session_clean (sess_rollback s) = true.
Proof. apply session_expired_clean, sess_rollback_expired. Qed.

Lemma sess_rollback_length s : length (sess_rollback s) = length s.
Proof. apply length_fmap. Qed.

Lemma sess_rollback_idemp s : sess_rollback (sess_rollback s) = sess_rollback s.
Proof.
  unfold sess_rollback. rewrite <- list_fmap_compose. apply list_fmap_ext.
  intros _ t _. by destruct t.
Qed.

(** A rollback changes nothing in a session a commit or a rollback
    left. *)
Lemma sess_rollback_expired_id s : session_expired s = true -> sess_rollback s = s.
Proof.
  induction s as [|t s IH]; [done|]. simpl. intros [Ht Hs]%andb_true_iff.
  rewrite (IH Hs). by destruct t as [| |? [] []| |].
Qed.

Lemma sess_rollback_app s1 s2 : sess_rollback (s1 ++ s2) = sess_rollback s1 ++ sess_rollback s2.
Proof. apply fmap_app. Qed.

Lemma sess_load_clean row s :
  session_clean s = true -> session_clean (sess_load row s).2 = true.
Proof. intros Hs. simpl. by rewrite session_clean_app, Hs. Qed.

Lemma sess_load_read row s : sess_read (sess_load row s).1 (sess_load row s).2 = Ok (inl row).
Proof. unfold sess_read, sess_load. simpl. by rewrite lookup_app_r, Nat.sub_diag. Qed.

(** A commit expires what it flushes. *)
Lemma flush_one_Ok t now db t' db' :
  flush_one t now db = Ok (t', db') -> tracked_expired t' = true.
Proof.
  destruct t as [u e|row u e|i u e|i|]; simpl; try (case_rbind as r Hr); by intros [= <- <-].
Qed.

(** An object with nothing to flush emits no statement and is expired
    as by a rollback. *)
Lemma flush_one_clean t now db :
  tracked_clean t = true -> flush_one t now db = Ok (rollback_one t, db).
Proof. by destruct t as [|? [] []|? [] []| |]. Qed.

(** The flush of an update emits no statement, when no column
    changes, or one UPDATE of the columns that change. *)
Lemma flush_update_Ok row u e db db' :
  flush_update row u e db = Ok db' ->
  db' = db /\ net_change (User.username row) u = None /\
    net_change (User.email row) e = None \/
  exists new, db_update (User.id row) (net_change (User.username row) u)
                (net_change (User.email row) e) db = Ok (new, db').
Proof.
  unfold flush_update.
  destruct (net_change (User.username row) u), (net_change (User.email row) e);
    try (destruct (db_update _ _ _ _) as [[new db1]|]; [|done];
         intros [= <-]; right; by exists new).
  intros [= <-]. by left.
Qed.

Lemma flush_update_wf row u e db db' :
  db_wf db -> flush_update row u e db = Ok db' -> db_wf db'.
Proof.
  intros Hwf. unfold flush_update.
  destruct (net_change _ u), (net_change _ e); simpl;
    try (case_rbind as [r db1] Hr); intros [= <-]; try done;
    by eapply db_update_wf.
Qed.

Lemma flush_assigned_wf i u e db db' :
  db_wf db -> flush_assigned i u e db = Ok db' -> db_wf db'.
Proof.
  intros Hwf. unfold flush_assigned.
  destruct u, e; simpl; try (case_rbind as [r db1] Hr); intros [= <-]; try done;
    by eapply db_update_wf.
Qed.

(** An UPDATE keeps the row under its id. *)
Lemma flush_update_get row u e db db' :
  db_wf db -> db_get (User.id row) db = Some row -> flush_update row u e db = Ok db' ->
  exists new, db_get (User.id row) db' = Some new /\ User.id new = User.id row /\
    User.created_at new = User.created_at row /\
    forall j, j <> User.id row -> db_get j db' = db_get j db.
Proof.
  intros Hwf Hget. unfold flush_update.
  destruct (net_change _ u), (net_change _ e); simpl;
    try (case_rbind as [r db1] Hr); intros [= <-]; try (by exists row).
  all: destruct (db_get_update _ _ _ _ _ _ Hwf Hr) as (Hg & Hi & Ho);
    exists r; repeat split; try done.
  all: apply db_update_Ok in Hr as (old & ue & Hold & _ & -> & _); by simplify_eq.
Qed.

Lemma flush_one_wf t now db t' db' :
  db_wf db -> flush_one t now db = Ok (t', db') -> db_wf db'.
Proof.
  intros Hwf. destruct t as [u e|row u e|i u e|i|]; simpl.
  - case_rbind as [r db1] Hr. intros [= <- <-]. by eapply db_insert_wf.
  - case_rbind as db1 Hr. intros [= <- <-]. by eapply flush_update_wf.
  - case_rbind as db1 Hr. intros [= <- <-]. by eapply flush_assigned_wf.
  - intros [= <- <-]. by apply db_delete_wf.
  - by intros [= <- <-].
Qed.

Lemma flush_Ok s now db s' db' :
  flush s now db = Ok (s', db') -> session_expired s' = true /\ length s' = length s.
Proof.
  revert db s' db'. induction s as [|t s IH]; intros db s' db'; simpl.
  - by intros [= <- <-].
  - case_rbind as [t1 db1] H1. case_rbind as [s2 db2] H2. intros [= <- <-]. simpl.
    apply flush_one_Ok in H1 as ->. apply IH in H2 as [-> ->]. done.
Qed.

Lemma flush_wf s now db s' db' :
  db_wf db -> flush s now db = Ok (s', db') -> db_wf db'.
Proof.
  revert db s' db'. induction s as [|t s IH]; intros db s' db' Hwf; simpl.
  - by intros [= <- <-].
  - case_rbind as [t1 db1] H1. case_rbind as [s2 db2] H2. intros [= <- <-]. simpl in *.
    eapply IH; [|done]. by eapply flush_one_wf.
Qed.

(** Flushing a session with nothing to flush emits no statement. *)
Lemma flush_clean s now db :
  session_clean s = true -> flush s now db = Ok (sess_rollback s, db).
Proof.
  induction s as [|t s IH]; [done|]. simpl. intros [Ht Hs]%andb_true_iff.
  rewrite (flush_one_clean _ _ _ Ht). simpl. by rewrite (IH Hs).
Qed.

(** With nothing else to flush, the flush of a session is the statement
    of its last object. *)
Lemma flush_snoc s t now db :
  session_clean s = true ->
  flush (s ++ [t]) now db =
    (r <-? flush_one t now db ;; Ok (sess_rollback s ++ [r.1], r.2)).
Proof.
  revert db. induction s as [|t0 s IH]; intros db; simpl.
  - intros _. by destruct (flush_one t now db) as [[t' db']|].
  - intros [Ht Hs]%andb_true_iff. rewrite (flush_one_clean _ _ _ Ht). simpl.
    rewrite (IH db Hs). by destruct (flush_one t now db) as [[t' db']|].
Qed.

(** The object a handler flushed last is read by its primary key. *)
Lemma sess_read_snoc s i u e :
  sess_read (length s) (sess_rollback s ++ [Expired i u e]) = Ok (inr i).
Proof.
  unfold sess_read. rewrite <- (sess_rollback_length s) at 1.
  rewrite lookup_app_r by done. by rewrite Nat.sub_diag.
Qed.

Lemma sess_assign_snoc s t c v :
  sess_assign (length s) c v (s ++ [t]) = s ++ [assign c v t].
Proof.
  unfold sess_assign. rewrite alter_app_r_alt by done. by rewrite Nat.sub_diag.
Qed.

Lemma sess_delete_snoc s t : sess_delete (length s) (s ++ [t]) = s ++ [mark_deleted t].
Proof.
  unfold sess_delete. rewrite alter_app_r_alt by done. by rewrite Nat.sub_diag.
Qed.

Lemma sess_rollback_snoc s t : sess_rollback (s ++ [t]) = sess_rollback s ++ [rollback_one t].
Proof. apply sess_rollback_app. Qed.

(** The id sequence never goes back: an UPDATE and a DELETE leave it,
    an INSERT advances it by one. *)
Lemma flush_update_next_id row u e db db' :
  flush_update row u e db = Ok db' -> next_id db' = next_id db.
Proof.
  unfold flush_update.
  destruct (net_change _ u), (net_change _ e); simpl;
    try (case_rbind as [r db1] Hr); intros [= <-]; try done.
  all: by apply db_update_Ok in Hr as (old & ue & _ & _ & _ & ->).
Qed.

Lemma flush_assigned_next_id i u e db db' :
  flush_assigned i u e db = Ok db' -> next_id db' = next_id db.
Proof.
  unfold flush_assigned.
  destruct u, e; simpl; try (case_rbind as [r db1] Hr); intros [= <-]; try done.
  all: by apply db_update_Ok in Hr as (old & ue & _ & _ & _ & ->).
Qed.

Lemma flush_one_next_id t now db t' db' :
  flush_one t now db = Ok (t', db') -> next_id db <= next_id db' <= next_id db + 1.
Proof.
  destruct t as [u e|row u e|i u e|i|]; simpl.
  - case_rbind as [r db1] Hr. intros [= <- <-].
    apply db_insert_Ok in Hr as (us & es & _ & _ & _ & _ & _ & _ & _ & ->). simpl. lia.
  - case_rbind as db1 Hr. intros [= <- <-]. apply flush_update_next_id in Hr. lia.
  - case_rbind as db1 Hr. intros [= <- <-]. apply flush_assigned_next_id in Hr. lia.
  - intros [= <- <-]. simpl. lia.
  - intros [= <- <-]. lia.
Qed.

Lemma flush_next_id s now db s' db' :
  flush s now db = Ok (s', db') -> next_id db <= next_id db'.
Proof.
  revert db s' db'. induction s as [|t s IH]; intros db s' db'; simpl.
  - intros [= <- <-]. lia.
  - case_rbind as [t1 db1] H1. case_rbind as [s2 db2] H2. intros [= <- <-]. simpl in *.
    apply flush_one_next_id in H1. apply IH in H2. lia.
Qed.

(** An UPDATE gives no row to an id that has none. *)
Lemma db_update_absent i j u e db r :
  db_wf db -> db_get i db = None -> db_update j u e db = Ok r -> db_get i r.2 = None.
Proof.
  intros Hwf Hg Hr. destruct r as [new db1].
  destruct (db_get_update _ _ _ _ _ _ Hwf Hr) as (_ & _ & Ho). simpl.
  rewrite Ho; [done|]. intros ->.
  apply db_update_Ok in Hr as (old & ue & Hold & _). congruence.
Qed.

(** An id the sequence has passed and no row holds is never given to a
    row again. *)
Lemma flush_one_absent i t now db t' db' :
  db_wf db -> i < next_id db -> db_get i db = None ->
  flush_one t now db = Ok (t', db') -> db_get i db' = None.
Proof.
  intros Hwf Hi Hg. destruct t as [u e|row u e|j u e|j|]; simpl.
  - case_rbind as [r db1] Hr. intros [= <- <-]. simpl.
    destruct (db_get_insert _ _ _ _ _ _ Hwf Hr) as [_ Ho]. rewrite Ho; [done|].
    apply db_insert_Ok in Hr as (us & es & _ & _ & _ & _ & _ & _ & -> & _). simpl. lia.
  - case_rbind as db1 Hr. intros [= <- <-]. revert Hr. unfold flush_update.
    destruct (net_change _ u), (net_change _ e); simpl;
      try (case_rbind as r Hr); intros [= <-]; eauto using db_update_absent.
  - case_rbind as db1 Hr. intros [= <- <-]. revert Hr. unfold flush_assigned.
    destruct u, e; simpl; try (case_rbind as r Hr); intros [= <-];
      eauto using db_update_absent.
  - intros [= <- <-]. destruct (decide (j = i)) as [->|Hne].
    + apply db_get_delete_eq.
    + by rewrite db_get_delete_ne.
  - by intros [= <- <-].
Qed.

Lemma flush_absent i s now db s' db' :
  db_wf db -> i < next_id db -> db_get i db = None ->
  flush s now db = Ok (s', db') -> db_get i db' = None.
Proof.
  revert db s' db'. induction s as [|t s IH]; intros db s' db' Hwf Hi Hg; simpl.
  - by intros [= <- <-].
  - case_rbind as [t1 db1] H1. case_rbind as [s2 db2] H2. intros [= <- <-]. simpl in *.
    eapply IH; [by eapply flush_one_wf | | by eapply flush_one_absent | done].
    apply flush_one_next_id in H1. lia.
Qed.

End Facts.

Arguments flush : simpl never.
Arguments flush_update : simpl never.
Arguments flush_assigned : simpl never.
Arguments sess_rollback : simpl never.
Arguments sess_assign : simpl never.
Arguments sess_delete : simpl never.
Arguments sess_read : simpl never.
Arguments session_clean : simpl never.
Arguments session_expired : simpl never.
