(* ===== verification/World.v ===== *)
(** * The world of a request and the external calls

    A handler of [app.py] runs against the committed table, its own
    session, the Redis keyspace and the clock, and each of the two
    backends is reachable or not.  [World] is that state; the calls the
    handlers make on [db.session], [User.query], [cache] and [datetime]
    are operations of the monad [Py].  A call on an unreachable backend
    raises ([OperationalError] for the store, [ConnectionError] for the
    cache) and changes nothing. *)

From stdpp Require Import base tactics option strings numbers list gmap.
From S2P Require Import Prelude Python Cache Store Session.

Open Scope string_scope.
Open Scope list_scope.
Open Scope Z_scope.

Record World : Type := mkWorld {
  w_db : Database;        (* the committed [users] table *)
  w_session : Session;    (* [db.session], the request's unit of work *)
  w_cache : Cache;        (* the Redis keyspace *)
  w_now : Z;              (* the clock, in microseconds *)
  w_db_up : bool;         (* the store answers *)
  w_cache_up : bool;      (* the cache answers *)
}.

Abbreviation Py := (M World exn).

Definition set_db (db : Database) (w : World) : World :=
  mkWorld db (w_session w) (w_cache w) (w_now w) (w_db_up w) (w_cache_up w).

Definition set_session (s : Session) (w : World) : World :=
  mkWorld (w_db w) s (w_cache w) (w_now w) (w_db_up w) (w_cache_up w).

Definition set_cache (c : Cache) (w : World) : World :=
  mkWorld (w_db w) (w_session w) c (w_now w) (w_db_up w) (w_cache_up w).

(** The state of a fresh deployment at time [now]: [create_all] has run,
    the cache is empty, both backends answer. *)
Definition init_world (now : Z) : World :=
  mkWorld create_all [] ∅ now true true.

(** A round trip to the store, or to the cache. *)
Definition db_call {A} (f : Py A) : Py A :=
  fun w => if w_db_up w then f w else (Raise OperationalError, w).

Definition cache_call {A} (f : Py A) : Py A :=
  fun w => if w_cache_up w then f w else (Raise ConnectionError, w).

Section Calls.
Context `{Runtime}.

(** ** The cache client *)

(** [cache.ping()]. *)
Definition cache_ping : Py unit := cache_call (ret tt).

(** [cache.get(k)]: [None] for an absent or expired key. *)
Definition cache_get (k : string) : Py (option string) :=
  cache_call (gets (fun w => cache_lookup (w_now w) (w_cache w) k)).

(** [cache.setex(k, ttl, v)]. *)
Definition cache_setex (k : string) (ttl : Z) (v : string) : Py unit :=
  cache_call (modify (fun w =>
    set_cache (cache_store (w_now w) k (seconds ttl) v (w_cache w)) w)).

(** [cache.delete(k)]. *)
Definition cache_delete (k : string) : Py unit :=
  cache_call (modify (fun w => set_cache (cache_remove k (w_cache w)) w)).

(** ** The session and the queries *)

(** [db.session.execute(db.text('SELECT 1'))]. *)
Definition execute_select_1 : Py unit := db_call (ret tt).

(** [User.query.all()]. *)
Definition query_all : Py (list User.t) := db_call (gets (fun w => db_all (w_db w))).

(** [User.query.count()]. *)
Definition query_count : Py Z := db_call (gets (fun w => db_count (w_db w))).

(** [User.query.filter(User.created_at >= since).count()]. *)
Definition query_count_since (since : Z) : Py Z :=
  db_call (gets (fun w => db_count_since since (w_db w))).

(** [User.query.get_or_404(i)]: the object for the row, tracked by the
    session; [NotFound] when there is no such row. *)
Definition query_get_or_404 (i : Z) : Py handle :=
  db_call (fun w =>
    match db_get i (w_db w) with
    | Some row => let hs := sess_load row (w_session w) in (Ok hs.1, set_session hs.2 w)
    | None => (Raise NotFound, w)
    end).

(** [user = User(username=..., email=...); db.session.add(user)]. *)
Definition session_add (username email : json) : Py handle :=
  fun w => let hs := sess_add username email (w_session w) in (Ok hs.1, set_session hs.2 w).

(** [user.<c> = v]. *)
Definition set_attr (user : handle) (c : column) (v : json) : Py unit :=
  modify (fun w => set_session (sess_assign user c v (w_session w)) w).

(** [db.session.delete(user)]. *)
Definition session_delete (user : handle) : Py unit :=
  modify (fun w => set_session (sess_delete user (w_session w)) w).

(** [db.session.commit()]: the flush, as one transaction. *)
Definition session_commit : Py unit :=
  db_call (fun w =>
    match flush (w_session w) (w_now w) (w_db w) with
    | Ok (s, db) => (Ok tt, set_db db (set_session s w))
    | Raise e => (Raise e, w)
    end).

(** [db.session.rollback()]. *)
Definition session_rollback : Py unit :=
  modify (fun w => set_session (sess_rollback (w_session w)) w).

(** The SELECT by which an expired object loads its attributes again;
    the row may be gone.  (No handler reads an object twice: that the
    object is loaded afterwards is not recorded.) *)
Definition refresh (i : Z) : Py User.t :=
  db_call (fun w =>
    match db_get i (w_db w) with
    | Some u => (Ok u, w)
    | None => (Raise InvalidRequestError, w)
    end).

(** The row an object shows: after a query, the row the query loaded;
    after a commit, the row as the table holds it then. *)
Definition load_row (user : handle) : Py User.t :=
  fun w =>
    match sess_read user (w_session w) with
    | Ok (inl row) => (Ok row, w)
    | Ok (inr i) => refresh i w
    | Raise e => (Raise e, w)
    end.

(** [user.to_dict()] on a tracked object. *)
Definition obj_to_dict (user : handle) : Py json :=
  u <- load_row user ;; ret (User.to_dict u).

(** [datetime.utcnow()]. *)
Definition utcnow : Py Z := gets w_now.

(** The session is removed when the request ends. *)
Definition teardown : Py unit := modify (set_session []).

End Calls.

(** ** What a call leaves unchanged *)

Section Frames.
Context `{Runtime}.
Implicit Types (w : World).

Lemma db_call_down {A} (f : Py A) w :
  w_db_up w = false -> db_call f w = (Raise OperationalError, w).
Proof. unfold db_call. by intros ->. Qed.

Lemma db_call_up {A} (f : Py A) w : w_db_up w = true -> db_call f w = f w.
Proof. unfold db_call. by intros ->. Qed.

Lemma cache_call_down {A} (f : Py A) w :
  w_cache_up w = false -> cache_call f w = (Raise ConnectionError, w).
Proof. unfold cache_call. by intros ->. Qed.

Lemma cache_call_up {A} (f : Py A) w : w_cache_up w = true -> cache_call f w = f w.
Proof. unfold cache_call. by intros ->. Qed.

(** A guarded call keeps what the call keeps. *)
Lemma preserves_db_call {A} (I : World -> Prop) (f : Py A) :
  preserves I f -> preserves I (db_call f).
Proof. intros Hf w Hw. unfold db_call. destruct (w_db_up w); [by apply Hf | done]. Qed.

Lemma preserves_cache_call {A} (I : World -> Prop) (f : Py A) :
  preserves I f -> preserves I (cache_call f).
Proof. intros Hf w Hw. unfold cache_call. destruct (w_cache_up w); [by apply Hf | done]. Qed.

Lemma preserves_modify (I : World -> Prop) (f : World -> World) :
  (forall w, I w -> I (f w)) -> preserves I (modify f : Py unit).
Proof. intros Hf w Hw. by apply Hf. Qed.

(** A property of the world that does not look at the session, at the
    cache, or that every successful flush keeps. *)
Definition ignores_session (I : World -> Prop) : Prop :=
  forall w s, I w -> I (set_session s w).

Definition ignores_cache (I : World -> Prop) : Prop :=
  forall w c, I w -> I (set_cache c w).

Definition flush_stable (I : World -> Prop) : Prop :=
  forall w s db, I w -> flush (w_session w) (w_now w) (w_db w) = Ok (s, db) ->
    I (set_db db (set_session s w)).

Section Preserved.
Variable I : World -> Prop.

(** The queries and the clock change nothing. *)
Lemma preserves_execute_select_1 : preserves I execute_select_1.
Proof. apply preserves_db_call, preserves_ret. Qed.

Lemma preserves_query_all : preserves I query_all.
Proof. apply preserves_db_call, preserves_gets. Qed.

Lemma preserves_query_count : preserves I query_count.
Proof. apply preserves_db_call, preserves_gets. Qed.

Lemma preserves_query_count_since since : preserves I (query_count_since since).
Proof. apply preserves_db_call, preserves_gets. Qed.

Lemma preserves_utcnow : preserves I utcnow.
Proof. apply preserves_gets. Qed.

Lemma preserves_load_row user : preserves I (load_row user).
Proof.
  intros w Hw. unfold load_row, refresh, db_call.
  destruct (sess_read _ _) as [[row|i]|]; try done.
  destruct (w_db_up w); [|done]. by destruct (db_get _ _).
Qed.

Lemma preserves_obj_to_dict user : preserves I (obj_to_dict user).
Proof. apply preserves_bind; [apply preserves_load_row | intros; apply preserves_ret]. Qed.

(** The commands of the cache change the cache only. *)
Section CacheOnly.
Hypothesis HI : ignores_cache I.

Lemma preserves_cache_ping : preserves I cache_ping.
Proof. apply preserves_cache_call, preserves_ret. Qed.

Lemma preserves_cache_get k : preserves I (cache_get k).
Proof. apply preserves_cache_call, preserves_gets. Qed.

Lemma preserves_cache_setex k ttl v : preserves I (cache_setex k ttl v).
Proof. apply preserves_cache_call, preserves_modify. intros w Hw. by apply HI. Qed.

Lemma preserves_cache_delete k : preserves I (cache_delete k).
Proof. apply preserves_cache_call, preserves_modify. intros w Hw. by apply HI. Qed.

End CacheOnly.

(** The operations on objects change the session only, and the commit
    is the flush. *)
Section SessionOnly.
Hypothesis HI : ignores_session I.

Lemma preserves_query_get_or_404 i : preserves I (query_get_or_404 i).
Proof.
  apply preserves_db_call. intros w Hw. destruct (db_get i (w_db w)); [|done].
  by apply HI.
Qed.

Lemma preserves_session_add username email : preserves I (session_add username email).
Proof. intros w Hw. by apply HI. Qed.

Lemma preserves_set_attr user c v : preserves I (set_attr user c v).
Proof. apply preserves_modify. intros w Hw. by apply HI. Qed.

Lemma preserves_session_delete user : preserves I (session_delete user).
Proof. apply preserves_modify. intros w Hw. by apply HI. Qed.

Lemma preserves_session_rollback : preserves I session_rollback.
Proof. apply preserves_modify. intros w Hw. by apply HI. Qed.

Lemma preserves_teardown : preserves I teardown.
Proof. apply preserves_modify. intros w Hw. by apply HI. Qed.

Lemma preserves_session_commit : flush_stable I -> preserves I session_commit.
Proof.
  intros Hf. apply preserves_db_call. intros w Hw.
  destruct (flush _ _ _) as [[s db]|e] eqn:Hfl; [|done]. by apply Hf.
Qed.

End SessionOnly.
End Preserved.

(** A rollback after a commit undoes nothing: once
    [db.session.commit()] has returned, the table holds what the flush
    wrote and [db.session.rollback()] leaves the world as it is; so the
    [except] branch of a write handler, entered because the call after
    the commit raised, does not take the write back. *)
Theorem rollback_after_commit w :
  (session_commit w).1 = Ok tt ->
  session_rollback (session_commit w).2 = (Ok tt, (session_commit w).2).
Proof.
  unfold session_commit, db_call, session_rollback, modify.
  destruct (w_db_up w); [|done].
  destruct (flush _ _ _) as [[s db]|e] eqn:Hf; [|done]. intros _. simpl.
  apply flush_Ok in Hf as [Hs _]. unfold set_session. simpl.
  by rewrite sess_rollback_expired_id.
Qed.

End Frames.

#[export] Hint Resolve preserves_db_call preserves_cache_call : py.
#[export] Hint Resolve preserves_execute_select_1 preserves_query_all
  preserves_query_count preserves_query_count_since preserves_utcnow
  preserves_load_row preserves_obj_to_dict preserves_cache_ping
  preserves_cache_get preserves_cache_setex preserves_cache_delete
  preserves_query_get_or_404 preserves_session_add preserves_set_attr
  preserves_session_delete preserves_session_rollback preserves_teardown
  preserves_session_commit : py.

Arguments cache_lookup : simpl never.
Arguments cache_store : simpl never.
Arguments cache_remove : simpl never.
Arguments db_get : simpl never.
Arguments db_insert : simpl never.
Arguments db_update : simpl never.
Arguments db_delete : simpl never.
Arguments db_count : simpl never.
Arguments db_count_since : simpl never.
Arguments sess_add : simpl never.
Arguments sess_load : simpl never.
Arguments py_get : simpl never.
Arguments py_getitem : simpl never.
Arguments py_in : simpl never.

(** [py_run] evaluates the calls and the monad's combinators on the
    world of the goal; what stays is a match on the first result that is
    not known ([destruct] it, or rewrite it, and run again). *)
Ltac py_unfold :=
  unfold cache_get, cache_setex, cache_delete, cache_ping, execute_select_1,
    query_all, query_count, query_count_since, query_get_or_404, session_add,
    set_attr, session_delete, session_commit, session_rollback, load_row, refresh,
    obj_to_dict, utcnow, teardown, db_call, cache_call,
    bind, try_except, ret, raise, gets, modify, lift in *.

Ltac py_run := repeat (progress (py_unfold; cbn in *)).

(** [py_world w] names the components of the world [w]. *)
Tactic Notation "py_world" ident(w) :=
  let db := fresh "db" in let s := fresh "s" in let c := fresh "c" in
  let now := fresh "now" in let dbu := fresh "dbu" in let cu := fresh "cu" in
  destruct w as [db s c now dbu cu]; cbn [w_db w_session w_cache w_now w_db_up w_cache_up] in *.
