(* ===== verification/Handlers.v ===== *)
(** * The request handlers of [app.py]

    One definition per handler, in the order of the source, each the
    translation of its [try] block and its [except] branch.  The
    functions the handlers call are those of [World] (the session, the
    queries, the cache client) and [Python] (operations on the request
    data); [dumps] and [loads] come from the [JsonCodec] interface and
    [str(e)] and [isoformat] from [Runtime]. *)

From stdpp Require Import base tactics option strings numbers list gmap.
From S2P Require Import Prelude Python Cache Store Session World.

Open Scope string_scope.
Open Scope list_scope.
Open Scope Z_scope.

(** What a view function returns: the [jsonify] body and the status
    (200 when the source gives none). *)
Record Response : Type := mkResponse {
  status : Z;
  payload : json;
}.

#[export] Instance response_eq_dec : EqDecision Response.
Proof. solve_decision. Defined.

(** The two cache keys and their times to live (lines 80, 92, 185, 203),
    in seconds, and the window of [recent_users] (line 192). *)
Definition users_key : string := "users:all".
Definition users_ttl : Z := 300.
Definition stats_key : string := "stats".
Definition stats_ttl : Z := 60.
Definition hits_key : string := "cache:hits".
Definition recent_window : Z := seconds (7 * 86400).

(** [if cached:] on the result of [cache.get]: [None] and the empty
    string are misses. *)
Definition cached (v : option string) : option string :=
  match v with
  | Some s => if String.eqb s "" then None else Some s
  | None => None
  end.

Section Handlers.
Context `{Runtime} `{JsonCodec}.

(** [jsonify({'error': str(e)}), code]. *)
Definition error_response (code : Z) (e : exn) : Response :=
  mkResponse code (JObj [("error", JStr (exn_message e))]).

(** ** [health_check] (lines 47-72) *)

(** One probe (lines 50-55 and 57-62): the status text of a backend. *)
Definition probe (call : Py unit) : Py string :=
  try (call ;; ret "healthy")
  except e => ret ("unhealthy: " ++ exn_message e)%string.

(** The composite status (line 65). *)
Definition overall_status (db_status redis_status : string) : string :=
  if String.eqb db_status "healthy" && String.eqb redis_status "healthy"
  then "healthy" else "degraded".

Definition health_check : Py Response :=
  db_status <- probe execute_select_1 ;;
  redis_status <- probe cache_ping ;;
  now <- utcnow ;;
  ret (mkResponse 200 (JObj [
    ("status", JStr (overall_status db_status redis_status));
    ("service", JStr "backend");
    ("timestamp", JStr (isoformat now));
    ("checks", JObj [("database", JStr db_status);
                     ("redis", JStr redis_status)])])).

(** ** [get_users] (lines 75-99) *)

(** [[user.to_dict() for user in users]] (line 89). *)
Definition users_data (users : list User.t) : json :=
  JArr (User.to_dict <$> users).

Definition users_response (users : json) (from_cache : bool) : Response :=
  mkResponse 200 (JObj [("users", users); ("from_cache", JBool from_cache)]).

Definition get_users : Py Response :=
  try (
    cached_users <- cache_get users_key ;;
    match cached cached_users with
    | Some s =>
        users <- lift (loads s) ;;
        ret (users_response users true)
    | None =>
        users <- query_all ;;
        cache_setex users_key users_ttl (dumps (users_data users)) ;;
        ret (users_response (users_data users) false)
    end)
  except e => ret (error_response 500 e).

(** ** [get_user] (lines 101-108) *)

Definition get_user (user_id : Z) : Py Response :=
  try (
    user <- query_get_or_404 user_id ;;
    d <- obj_to_dict user ;;
    ret (mkResponse 200 d))
  except e => ret (error_response 404 e).

(** ** [create_user] (lines 110-137) *)

(** [not data.get('username') or not data.get('email')] (line 117); the
    second [get] runs only when the first value is truthy. *)
Definition missing_fields (data : json) : result exn bool :=
  u <-? py_get "username" data ;;
  if negb (truthy u) then Ok true
  else e <-? py_get "email" data ;; Ok (negb (truthy e)).

Definition created_response (user : json) : Response :=
  mkResponse 201 (JObj [("message", JStr "User created successfully");
                        ("user", user)]).

Definition create_user (request : body) : Py Response :=
  try (
    data <- lift (get_json request) ;;
    missing <- lift (missing_fields data) ;;
    if missing then
      ret (mkResponse 400 (JObj [("error", JStr "Username and email are required")]))
    else
      username <- lift (py_getitem "username" data) ;;
      email <- lift (py_getitem "email" data) ;;
      user <- session_add username email ;;
      session_commit ;;
      cache_delete users_key ;;
      d <- obj_to_dict user ;;
      ret (created_response d))
  except e =>
    session_rollback ;;
    ret (error_response 500 e).

(** ** [update_user] (lines 139-162) *)

(** [if c in data: user.<c> = data[c]] (lines 146-149). *)
Definition assign_if_present (user : handle) (c : column) (key : string) (data : json)
  : Py unit :=
  present <- lift (py_in key data) ;;
  if present then
    v <- lift (py_getitem key data) ;;
    set_attr user c v
  else ret tt.

Definition updated_response (user : json) : Response :=
  mkResponse 200 (JObj [("message", JStr "User updated successfully");
                        ("user", user)]).

Definition update_user (user_id : Z) (request : body) : Py Response :=
  try (
    user <- query_get_or_404 user_id ;;
    data <- lift (get_json request) ;;
    assign_if_present user ColUsername "username" data ;;
    assign_if_present user ColEmail "email" data ;;
    session_commit ;;
    cache_delete users_key ;;
    d <- obj_to_dict user ;;
    ret (updated_response d))
  except e =>
    session_rollback ;;
    ret (error_response 500 e).

(** ** [delete_user] (lines 164-178) *)

Definition deleted_response : Response :=
  mkResponse 200 (JObj [("message", JStr "User deleted successfully")]).

Definition delete_user (user_id : Z) : Py Response :=
  try (
    user <- query_get_or_404 user_id ;;
    session_delete user ;;
    session_commit ;;
    cache_delete users_key ;;
    ret deleted_response)
  except e =>
    session_rollback ;;
    ret (error_response 500 e).

(** ** [get_stats] (lines 180-207) *)

(** [cache.get('cache:hits') or 0] (line 199). *)
Definition hits_or_zero (v : option string) : json :=
  match cached v with
  | Some s => JStr s
  | None => JNum 0
  end.

(** The [stats] dict (lines 195-200). *)
Definition stats_body (total_users recent_users timestamp : Z) (hits : option string) : json :=
  JObj [("total_users", JNum total_users);
        ("recent_users", JNum recent_users);
        ("timestamp", JStr (isoformat timestamp));
        ("cache_hits", hits_or_zero hits)].

Definition get_stats : Py Response :=
  try (
    cached_stats <- cache_get stats_key ;;
    match cached cached_stats with
    | Some s =>
        stats <- lift (loads s) ;;
        ret (mkResponse 200 stats)
    | None =>
        total_users <- query_count ;;
        since <- utcnow ;;
        recent_users <- query_count_since (since - recent_window) ;;
        timestamp <- utcnow ;;
        hits <- cache_get hits_key ;;
        let stats := stats_body total_users recent_users timestamp hits in
        cache_setex stats_key stats_ttl (dumps stats) ;;
        ret (mkResponse 200 stats)
    end)
  except e => ret (error_response 500 e).

(** ** The error handlers (lines 209-217) *)

Definition not_found : Py Response :=
  ret (mkResponse 404 (JObj [("error", JStr "Not found")])).

Definition internal_error : Py Response :=
  session_rollback ;;
  ret (mkResponse 500 (JObj [("error", JStr "Internal server error")])).

End Handlers.

Arguments cached : simpl never.
Arguments users_data : simpl never.
Arguments missing_fields : simpl never.
Arguments stats_body : simpl never.
Arguments assign_if_present : simpl never.

(** ** Every handler answers *)

Section Totality.
Context `{Runtime} `{JsonCodec}.
Implicit Types (w : World).

(** A [try] whose handler returns a response returns a response. *)
Lemma try_responds (m : Py Response) (h : exn -> Py Response) w :
  (forall e w', exists r, (h e w').1 = Ok r) ->
  exists r, ((try m except e => h e) w).1 = Ok r.
Proof. apply try_except_total. Qed.

Lemma rollback_responds code e w :
  exists r, ((session_rollback ;; ret (error_response code e)) w).1 = Ok r.
Proof. by eexists. Qed.

Lemma health_check_responds w : exists r, (health_check w).1 = Ok r.
Proof. py_world w. destruct dbu, cu; by eexists. Qed.

Lemma get_users_responds w : exists r, (get_users w).1 = Ok r.
Proof. apply try_responds. by eexists. Qed.

Lemma get_user_responds i w : exists r, (get_user i w).1 = Ok r.
Proof. apply try_responds. by eexists. Qed.

Lemma create_user_responds b w : exists r, (create_user b w).1 = Ok r.
Proof. apply try_responds. intros. apply rollback_responds. Qed.

Lemma update_user_responds i b w : exists r, (update_user i b w).1 = Ok r.
Proof. apply try_responds. intros. apply rollback_responds. Qed.

Lemma delete_user_responds i w : exists r, (delete_user i w).1 = Ok r.
Proof. apply try_responds. intros. apply rollback_responds. Qed.

Lemma get_stats_responds w : exists r, (get_stats w).1 = Ok r.
Proof. apply try_responds. by eexists. Qed.

End Totality.

(** ** [health_check] *)

Section Health.
Context `{Runtime} `{JsonCodec}.
Implicit Types (w : World).

(** The status text of a backend that does not answer. *)
Definition unhealthy (e : exn) : string := ("unhealthy: " ++ exn_message e)%string.

Lemma unhealthy_not_healthy e : String.eqb (unhealthy e) "healthy" = false.
Proof. done. Qed.

Lemma probe_db w :
  probe execute_select_1 w =
    (Ok (if w_db_up w then "healthy" else unhealthy OperationalError), w).
Proof. py_world w. by destruct dbu. Qed.

Lemma probe_cache w :
  probe cache_ping w =
    (Ok (if w_cache_up w then "healthy" else unhealthy ConnectionError), w).
Proof. py_world w. by destruct cu. Qed.

Lemma overall_status_spec (db_up cache_up : bool) :
  overall_status (if db_up then "healthy" else unhealthy OperationalError)
                 (if cache_up then "healthy" else unhealthy ConnectionError) =
    if db_up && cache_up then "healthy" else "degraded".
Proof. by destruct db_up, cache_up. Qed.

(** C34: [health_check] never fails and never changes the world: it
    answers 200 with the status of each backend, and the composite status
    is [healthy] exactly when both backends answer, [degraded]
    otherwise. *)
Theorem health_check_report w :
  health_check w =
    (Ok (mkResponse 200 (JObj [
       ("status", JStr (if w_db_up w && w_cache_up w then "healthy" else "degraded"));
       ("service", JStr "backend");
       ("timestamp", JStr (isoformat (w_now w)));
       ("checks", JObj [
          ("database", JStr (if w_db_up w then "healthy" else unhealthy OperationalError));
          ("redis", JStr (if w_cache_up w then "healthy" else unhealthy ConnectionError))])])),
     w).
Proof.
  unfold health_check, bind. rewrite probe_db, probe_cache.
  by rewrite overall_status_spec.
Qed.

End Health.

(** ** The read handlers *)

Section Reads.
Context `{Runtime} `{JsonCodec}.
Implicit Types (w : World).

Lemma cached_Some v s : cached v = Some s <-> v = Some s /\ s <> "".
Proof.
  unfold cached. destruct v as [s'|]; [|by split; [|intros []]].
  destruct (String.eqb_spec s' "") as [->|Hne]; split; try done.
  - by intros [[= <-] ?].
  - by intros [= <-].
  - by intros [[= <-] ?].
Qed.

Lemma cached_None v : cached v = None <-> v = None \/ v = Some "".
Proof.
  unfold cached. destruct v as [s'|]; [|by split; [left|]].
  destruct (String.eqb_spec s' "") as [->|Hne]; split; try done; auto.
  by intros [|[= ->]].
Qed.

(** The four outcomes of [get_users]. *)
Lemma get_users_hit w s :
  w_cache_up w = true ->
  cached (cache_lookup (w_now w) (w_cache w) users_key) = Some s ->
  get_users w =
    (match loads s with
     | Ok users => Ok (users_response users true)
     | Raise e => Ok (error_response 500 e)
     end, w).
Proof.
  py_world w. intros -> Hc. unfold get_users. py_run. rewrite Hc. py_run.
  by destruct (loads s).
Qed.

Lemma get_users_miss w :
  w_cache_up w = true -> w_db_up w = true ->
  cached (cache_lookup (w_now w) (w_cache w) users_key) = None ->
  get_users w =
    (Ok (users_response (users_data (rows (w_db w))) false),
     set_cache (cache_store (w_now w) users_key (seconds users_ttl)
                  (dumps (users_data (rows (w_db w)))) (w_cache w)) w).
Proof.
  py_world w. intros -> -> Hc. unfold get_users. py_run. by rewrite Hc.
Qed.

Lemma get_users_cache_down w :
  w_cache_up w = false -> get_users w = (Ok (error_response 500 ConnectionError), w).
Proof. py_world w. by intros ->. Qed.

Lemma get_users_db_down w :
  w_cache_up w = true -> w_db_up w = false ->
  cached (cache_lookup (w_now w) (w_cache w) users_key) = None ->
  get_users w = (Ok (error_response 500 OperationalError), w).
Proof.
  py_world w. intros -> -> Hc. unfold get_users. py_run. by rewrite Hc.
Qed.

(** [get_users] never writes to the table. *)
Lemma get_users_db w : w_db (get_users w).2 = w_db w.
Proof.
  py_world w. unfold get_users. py_run. destruct cu; [|done]. py_run.
  destruct (cached _); py_run; [by destruct (loads _)|].
  by destruct dbu.
Qed.

(** The three outcomes of [get_user]. *)
Lemma get_user_found i w u :
  w_db_up w = true -> db_get i (w_db w) = Some u ->
  get_user i w =
    (Ok (mkResponse 200 (User.to_dict u)), set_session (sess_load u (w_session w)).2 w).
Proof.
  py_world w. intros -> Hg. unfold get_user. py_run. rewrite Hg. py_run.
  by rewrite sess_load_read.
Qed.

Lemma get_user_missing i w :
  w_db_up w = true -> db_get i (w_db w) = None ->
  get_user i w = (Ok (error_response 404 NotFound), w).
Proof. py_world w. intros -> Hg. unfold get_user. py_run. by rewrite Hg. Qed.

Lemma get_user_db_down i w :
  w_db_up w = false -> get_user i w = (Ok (error_response 404 OperationalError), w).
Proof. py_world w. by intros ->. Qed.

End Reads.

(** ** The write handlers *)

Section Writes.
Context `{Runtime} `{JsonCodec}.
Implicit Types (w : World) (data : json).

(** What [if key in data: ... = data[key]] assigns. *)
Definition present (key : string) (data : json) : result exn (option json) :=
  p <-? py_in key data ;;
  if p then v <-? py_getitem key data ;; Ok (Some v) else Ok None.

Lemma assign_if_present_run user c key data w :
  assign_if_present user c key data w =
    match present key data with
    | Ok (Some v) => (Ok tt, set_session (sess_assign user c v (w_session w)) w)
    | Ok None => (Ok tt, w)
    | Raise e => (Raise e, w)
    end.
Proof.
  unfold assign_if_present, present. py_run.
  destruct (py_in key data) as [[]|]; py_run; try done.
  by destruct (py_getitem key data).
Qed.

(** A request passes the check of line 117 when its data is a dict with
    truthy values under both keys. *)
Lemma missing_fields_false data :
  missing_fields data = Ok false <->
  exists u e, py_getitem "username" data = Ok u /\ py_getitem "email" data = Ok e /\
              truthy u = true /\ truthy e = true.
Proof.
  unfold missing_fields. split.
  - case_rbind as u Hu. destruct (truthy u) eqn:Htu; [|done]. simpl.
    case_rbind as e He. intros [= Hte%negb_false_iff].
    exists u, e. repeat split; try done; by apply py_getitem_after_get.
  - intros (u & e & Hu & He & Htu & Hte).
    destruct data as [| | | | |kv]; try done. unfold py_getitem, py_get in *.
    destruct (assoc "username" kv) as [u'|]; [|done].
    destruct (assoc "email" kv) as [e'|]; [|done]. simplify_eq/=.
    by rewrite Htu, Hte.
Qed.

(** A rollback changes nothing in the session a commit left. *)
Lemma after_commit_rollback s i :
  sess_rollback (sess_rollback s ++ [Expired i None None]) =
  sess_rollback s ++ [Expired i None None].
Proof. by rewrite sess_rollback_snoc, sess_rollback_idemp. Qed.

(** [create_user] on a request that passes the check: the INSERT
    decides. *)
Lemma create_user_run w data u e :
  session_clean (w_session w) = true ->
  missing_fields data = Ok false ->
  py_getitem "username" data = Ok u -> py_getitem "email" data = Ok e ->
  create_user (Body data) w =
    if w_db_up w then
      match db_insert u e (w_now w) (w_db w) with
      | Ok (row, db') =>
          let w' := set_db db' (set_session
                      (sess_rollback (w_session w) ++ [Expired (User.id row) None None])
                      w) in
          if w_cache_up w then
            match db_get (User.id row) db' with
            | Some r => (Ok (created_response (User.to_dict r)),
                         set_cache (cache_remove users_key (w_cache w)) w')
            | None => (Ok (error_response 500 InvalidRequestError),
                       set_cache (cache_remove users_key (w_cache w)) w')
            end
          else (Ok (error_response 500 ConnectionError), w')
      | Raise ex =>
          (Ok (error_response 500 ex),
           set_session (sess_rollback (w_session w) ++ [Detached]) w)
      end
    else (Ok (error_response 500 OperationalError),
          set_session (sess_rollback (w_session w) ++ [Detached]) w).
Proof.
  py_world w. intros Hs Hm Hu He. unfold create_user. py_run.
  rewrite Hm. py_run. rewrite Hu, He. py_run. unfold sess_add. cbn [fst snd].
  destruct dbu; py_run; [|by rewrite sess_rollback_snoc].
  rewrite (flush_snoc _ _ _ _ Hs). cbn [flush_one].
  destruct (db_insert u e now db) as [[row db']|ex]; py_run;
    [|by rewrite sess_rollback_snoc].
  destruct cu; py_run; [|by rewrite after_commit_rollback].
  rewrite sess_read_snoc. py_run.
  destruct (db_get (User.id row) db'); py_run; [done|].
  by rewrite after_commit_rollback.
Qed.

(** [create_user] on a request that fails the check: 400, and nothing
    happened. *)
Lemma create_user_invalid w data :
  missing_fields data = Ok true ->
  create_user (Body data) w =
    (Ok (mkResponse 400 (JObj [("error", JStr "Username and email are required")])), w).
Proof. intros Hm. unfold create_user. py_run. by rewrite Hm. Qed.

(** [create_user] on a body that cannot be used: 500 after a rollback. *)
Lemma create_user_bad_body w b ex :
  match b with
  | Body data => missing_fields data = Raise ex
  | NoBody e => e = ex
  end ->
  create_user b w =
    (Ok (error_response 500 ex), set_session (sess_rollback (w_session w)) w).
Proof.
  unfold create_user. destruct b as [data|e]; py_run.
  - by intros ->.
  - by intros ->.
Qed.

(** The outcome of a write's [try] block that raised [ex]: 500, after a
    rollback. *)
Definition failed (ex : exn) (w : World) : result exn Response * World :=
  (Ok (error_response 500 ex), set_session (sess_rollback (w_session w)) w).

(** [update_user] and [delete_user] on a missing id, or with the store
    down: the exception of [get_or_404] reaches the [except] branch. *)
Lemma update_user_missing i b w :
  w_db_up w = true -> db_get i (w_db w) = None ->
  update_user i b w = failed NotFound w.
Proof. py_world w. intros -> Hg. unfold update_user. py_run. by rewrite Hg. Qed.

Lemma update_user_db_down i b w :
  w_db_up w = false -> update_user i b w = failed OperationalError w.
Proof. py_world w. by intros ->. Qed.

Lemma delete_user_missing i w :
  w_db_up w = true -> db_get i (w_db w) = None ->
  delete_user i w = failed NotFound w.
Proof. py_world w. intros -> Hg. unfold delete_user. py_run. by rewrite Hg. Qed.

Lemma delete_user_db_down i w :
  w_db_up w = false -> delete_user i w = failed OperationalError w.
Proof. py_world w. by intros ->. Qed.

(** [update_user] on an existing row and usable data: the UPDATE
    decides. *)
Lemma update_user_run i w data old ou oe :
  session_clean (w_session w) = true ->
  w_db_up w = true -> db_get i (w_db w) = Some old ->
  present "username" data = Ok ou -> present "email" data = Ok oe ->
  update_user i (Body data) w =
    let s' := sess_rollback (w_session w) ++ [Expired i None None] in
    match flush_update old ou oe (w_db w) with
    | Ok db' =>
        let w' := set_db db' (set_session s' w) in
        if w_cache_up w then
          match db_get i db' with
          | Some r => (Ok (updated_response (User.to_dict r)),
                       set_cache (cache_remove users_key (w_cache w)) w')
          | None => (Ok (error_response 500 InvalidRequestError),
                     set_cache (cache_remove users_key (w_cache w)) w')
          end
        else (Ok (error_response 500 ConnectionError), w')
    | Raise ex => (Ok (error_response 500 ex), set_session s' w)
    end.
Proof.
  py_world w. intros Hs -> Hg Hu He. unfold update_user. py_run. rewrite Hg. py_run.
  unfold sess_load. cbn [fst snd]. pose proof Hg as [_ <-]%db_get_Some.
  rewrite assign_if_present_run, Hu.
  destruct ou as [vu|]; py_run; rewrite assign_if_present_run, He;
    destruct oe as [ve|]; py_run; rewrite ?sess_assign_snoc; cbn [assign].
  all: rewrite (flush_snoc _ _ _ _ Hs); cbn [flush_one].
  all: destruct (flush_update old _ _ db) as [db'|ex]; py_run;
    [|by rewrite sess_rollback_snoc].
  all: destruct cu; py_run; [|by rewrite after_commit_rollback].
  all: rewrite sess_read_snoc; py_run.
  all: destruct (db_get _ db'); py_run; [done|]; by rewrite after_commit_rollback.
Qed.

(** [update_user] on a body that cannot be used: 500 after a rollback,
    the row untouched. *)
Lemma update_user_bad_body i w b old ex :
  session_clean (w_session w) = true ->
  w_db_up w = true -> db_get i (w_db w) = Some old ->
  match b with
  | Body data =>
      present "username" data = Raise ex \/
      (exists ou, present "username" data = Ok ou) /\ present "email" data = Raise ex
  | NoBody e => e = ex
  end ->
  update_user i b w =
    (Ok (error_response 500 ex),
     set_session (sess_rollback (w_session w) ++ [Expired i None None]) w).
Proof.
  py_world w. intros Hs -> Hg Hb. unfold update_user. py_run. rewrite Hg. py_run.
  unfold sess_load. cbn [fst snd]. pose proof Hg as [_ <-]%db_get_Some.
  destruct b as [data|e]; py_run; [|subst; by rewrite sess_rollback_snoc].
  rewrite assign_if_present_run. destruct Hb as [->|[[ou ->] He]]; py_run;
    [by rewrite sess_rollback_snoc|].
  destruct ou; py_run; rewrite assign_if_present_run, He; py_run;
    rewrite ?sess_assign_snoc; by rewrite sess_rollback_snoc.
Qed.

(** [delete_user] on an existing row. *)
Lemma delete_user_run i w old :
  session_clean (w_session w) = true ->
  w_db_up w = true -> db_get i (w_db w) = Some old ->
  delete_user i w =
    let w' := set_db (db_delete i (w_db w))
                (set_session (sess_rollback (w_session w) ++ [Detached]) w) in
    if w_cache_up w
    then (Ok deleted_response, set_cache (cache_remove users_key (w_cache w)) w')
    else (Ok (error_response 500 ConnectionError), w').
Proof.
  py_world w. intros Hs -> Hg. unfold delete_user. py_run. rewrite Hg. py_run.
  unfold sess_load. cbn [fst snd]. rewrite sess_delete_snoc. cbn [mark_deleted].
  pose proof Hg as [_ ->]%db_get_Some.
  rewrite (flush_snoc _ _ _ _ Hs). py_run.
  destruct cu; py_run; [done|].
  by rewrite sess_rollback_snoc, sess_rollback_idemp.
Qed.

End Writes.

(** ** [get_stats] *)

Section Stats.
Context `{Runtime} `{JsonCodec}.
Implicit Types (w : World).

(** The statistics of the table at the time of the world. *)
Definition fresh_stats (w : World) : json :=
  stats_body (db_count (w_db w))
             (db_count_since (w_now w - recent_window) (w_db w))
             (w_now w)
             (cache_lookup (w_now w) (w_cache w) hits_key).

Lemma get_stats_hit w s :
  w_cache_up w = true ->
  cached (cache_lookup (w_now w) (w_cache w) stats_key) = Some s ->
  get_stats w =
    (match loads s with
     | Ok stats => Ok (mkResponse 200 stats)
     | Raise e => Ok (error_response 500 e)
     end, w).
Proof.
  py_world w. intros -> Hc. unfold get_stats. py_run. rewrite Hc. py_run.
  by destruct (loads s).
Qed.

Lemma get_stats_miss w :
  w_cache_up w = true -> w_db_up w = true ->
  cached (cache_lookup (w_now w) (w_cache w) stats_key) = None ->
  get_stats w =
    (Ok (mkResponse 200 (fresh_stats w)),
     set_cache (cache_store (w_now w) stats_key (seconds stats_ttl)
                  (dumps (fresh_stats w)) (w_cache w)) w).
Proof.
  py_world w. intros -> -> Hc. unfold get_stats. py_run. by rewrite Hc.
Qed.

Lemma get_stats_cache_down w :
  w_cache_up w = false -> get_stats w = (Ok (error_response 500 ConnectionError), w).
Proof. py_world w. by intros ->. Qed.

Lemma get_stats_db_down w :
  w_cache_up w = true -> w_db_up w = false ->
  cached (cache_lookup (w_now w) (w_cache w) stats_key) = None ->
  get_stats w = (Ok (error_response 500 OperationalError), w).
Proof.
  py_world w. intros -> -> Hc. unfold get_stats. py_run. by rewrite Hc.
Qed.

End Stats.
