(* ===== verification/Server.v ===== *)
(** * Requests, dispatch and the life of the service

    The route table of [app.py] (the [@app.route] decorators of lines
    47, 75, 101, 110, 139, 164 and 180) maps a request to its view
    function; a request no rule matches goes to the 404 handler of lines
    210-212, and an exception a view does not catch to the 500 handler
    of lines 214-217.  When the request ends, Flask-SQLAlchemy removes
    the session.  [serve] is the whole of it.

    Between requests the environment acts: time passes, a backend goes
    away or comes back, Redis reclaims expired keys.  [step] is the
    transition relation of the service in its environment and
    [reachable] its closure from a fresh deployment. *)

From stdpp Require Import base tactics option strings numbers list gmap.
From S2P Require Import Prelude Python Cache Store Session World Handlers.

Open Scope string_scope.
Open Scope list_scope.
Open Scope Z_scope.

(** A request, after URL matching: the rule it matched with the
    [<int:user_id>] it carries and the outcome of [request.get_json()]. *)
Inductive request : Type :=
| Health
| GetUsers
| GetUser (user_id : Z)
| CreateUser (data : body)
| UpdateUser (user_id : Z) (data : body)
| DeleteUser (user_id : Z)
| GetStats
| NoRoute.

#[export] Instance request_eq_dec : EqDecision request.
Proof. solve_decision. Defined.

(** The requests that write to the store. *)
Definition is_write (r : request) : bool :=
  match r with
  | CreateUser _ | UpdateUser _ _ | DeleteUser _ => true
  | _ => false
  end.

Section Server.
Context `{Runtime} `{JsonCodec}.

(** The route table. *)
Definition view (r : request) : Py Response :=
  match r with
  | Health => health_check
  | GetUsers => get_users
  | GetUser user_id => get_user user_id
  | CreateUser data => create_user data
  | UpdateUser user_id data => update_user user_id data
  | DeleteUser user_id => delete_user user_id
  | GetStats => get_stats
  | NoRoute => not_found
  end.

(** Flask's dispatch: the view, the 500 handler for what it did not
    catch, then the removal of the session. *)
Definition serve (r : request) : Py Response :=
  response <- (try view r except _ => internal_error) ;;
  teardown ;;
  ret response.

End Server.

(** ** The service in its environment *)

(** What happens between two states of the world. *)
Inductive event : Type :=
| Served (r : request) (response : Response)
| Tick (dt : Z)
| StoreUp (up : bool)
| CacheUp (up : bool)
| Reclaim.

#[export] Instance event_eq_dec : EqDecision event.
Proof. solve_decision. Defined.

Definition advance (dt : Z) (w : World) : World :=
  mkWorld (w_db w) (w_session w) (w_cache w) (w_now w + dt) (w_db_up w) (w_cache_up w).

Definition set_db_up (up : bool) (w : World) : World :=
  mkWorld (w_db w) (w_session w) (w_cache w) (w_now w) up (w_cache_up w).

Definition set_cache_up (up : bool) (w : World) : World :=
  mkWorld (w_db w) (w_session w) (w_cache w) (w_now w) (w_db_up w) up.

Section Steps.
Context `{Runtime} `{JsonCodec}.

Inductive step : World -> event -> World -> Prop :=
| step_serve r w response w' :
    serve r w = (Ok response, w') -> step w (Served r response) w'
| step_tick dt w :
    0 <= dt -> step w (Tick dt) (advance dt w)
| step_store up w :
    step w (StoreUp up) (set_db_up up w)
| step_cache up w :
    step w (CacheUp up) (set_cache_up up w)
| step_reclaim w :
    step w Reclaim (set_cache (cache_purge (w_now w) (w_cache w)) w).

(** [run w es w']: the events [es], in order, lead from [w] to [w']. *)
Inductive run : World -> list event -> World -> Prop :=
| run_nil w : run w [] w
| run_cons w e w1 es w' : step w e w1 -> run w1 es w' -> run w (e :: es) w'.

(** The states of a deployment that started at time [t0]. *)
Definition reachable (w : World) : Prop :=
  exists t0 es, run (init_world t0) es w.

(** The deterministic run of a list of events from [w], for closed
    examples. *)
Definition apply_event (e : event) (w : World) : World :=
  match e with
  | Served r _ => (serve r w).2
  | Tick dt => advance dt w
  | StoreUp up => set_db_up up w
  | CacheUp up => set_cache_up up w
  | Reclaim => set_cache (cache_purge (w_now w) (w_cache w)) w
  end.

Fixpoint apply_events (es : list event) (w : World) : World :=
  match es with
  | [] => w
  | e :: es' => apply_events es' (apply_event e w)
  end.

(** The event can happen in [w]: a served request carries the response
    [serve] gives, and time does not go back. *)
Definition event_ok (e : event) (w : World) : bool :=
  match e with
  | Served r response => bool_decide ((serve r w).1 = Ok response)
  | Tick dt => bool_decide (0 <= dt)
  | _ => true
  end.

Fixpoint events_ok (es : list event) (w : World) : bool :=
  match es with
  | [] => true
  | e :: es' => event_ok e w && events_ok es' (apply_event e w)
  end.

End Steps.

(** ** Facts *)

Section Facts.
Context `{Runtime} `{JsonCodec}.
Implicit Types (w : World) (r : request).

Lemma view_responds r w : exists response, (view r w).1 = Ok response.
Proof.
  destruct r; simpl; eauto using health_check_responds, get_users_responds, get_user_responds,
    create_user_responds, update_user_responds, delete_user_responds,
    get_stats_responds.
Qed.

(** The 500 handler is never reached: every view answers. *)
Lemma serve_view r w :
  exists response,
    view r w = (Ok response, (view r w).2) /\
    serve r w = (Ok response, set_session [] (view r w).2).
Proof.
  destruct (view_responds r w) as [response Hr]. exists response.
  unfold serve, bind, try_except, teardown, modify, ret.
  destruct (view r w) as [res w1]. simpl in *. by subst.
Qed.

(** A request is its view, then the removal of the session. *)
Lemma serve_eq r w : serve r w = ((view r w).1, set_session [] (view r w).2).
Proof. destruct (serve_view r w) as (response & Hv & ->). by rewrite Hv. Qed.

(** Every request is answered: whatever the request, the state of
    the table, the session and the cache, and whichever backend is
    down, [serve] returns a response and the world after it; no
    exception leaves a view, so the 500 handler of lines 214-217 is
    never entered from one. *)
Theorem serve_responds r w :
  exists response, serve r w = (Ok response, (serve r w).2) /\
    (try view r except _ => internal_error) w = view r w.
Proof.
  destruct (serve_view r w) as (response & Hv & Hs). exists response.
  split; [by rewrite Hs|]. unfold try_except. by rewrite Hv.
Qed.

(** A request ends with an empty session. *)
Lemma serve_session r w : w_session (serve r w).2 = [].
Proof. destruct (serve_view r w) as (response & _ & ->). done. Qed.

(** The step relation is the graph of [apply_event] on the events that
    can happen. *)
Lemma step_apply_event w e w' :
  step w e w' <-> event_ok e w = true /\ w' = apply_event e w.
Proof.
  split.
  - destruct 1 as [r w response w' Hr|dt w Hdt| | |]; simpl; try done.
    + rewrite Hr. split; [by apply bool_decide_eq_true | done].
    + split; [by apply bool_decide_eq_true | done].
  - intros [Hok ->]. destruct e as [r response|dt| | |]; simpl in *; try by constructor.
    + apply bool_decide_eq_true in Hok. constructor.
      by rewrite <- Hok, <- surjective_pairing.
    + apply bool_decide_eq_true in Hok. by constructor.
Qed.

Lemma run_app w es1 w1 es2 w2 : run w es1 w1 -> run w1 es2 w2 -> run w (es1 ++ es2) w2.
Proof. induction 1; simpl; eauto using run. Qed.

Lemma run_snoc w es w1 e w2 : run w es w1 -> step w1 e w2 -> run w (es ++ [e]) w2.
Proof. intros Hr Hs. eapply run_app; eauto using run. Qed.

(** Induction over runs from the end: what holds initially and is kept
    by every step holds in every state a run reaches. *)
Lemma run_invariant (I : World -> Prop) w es w' :
  (forall w1 e w2, I w1 -> step w1 e w2 -> I w2) ->
  I w -> run w es w' -> I w'.
Proof. intros Hstep Hw Hrun. induction Hrun; eauto. Qed.

Lemma reachable_invariant (I : World -> Prop) :
  (forall t0, I (init_world t0)) ->
  (forall w1 e w2, I w1 -> step w1 e w2 -> I w2) ->
  forall w, reachable w -> I w.
Proof. intros Hinit Hstep w (t0 & es & Hrun). eapply run_invariant; eauto. Qed.

Lemma reachable_step w e w' : reachable w -> step w e w' -> reachable w'.
Proof. intros (t0 & es & Hrun) Hs. exists t0, (es ++ [e]). by eapply run_snoc. Qed.

(** The runs of the service are the traces of its step relation. *)
Lemma run_trace w es w' : run w es w' <-> trace step w es w'.
Proof. split; induction 1; econstructor; eauto. Qed.

(** A list of events that can happen, one after the other, is a run. *)
Lemma run_replay es w : events_ok es w = true -> run w es (apply_events es w).
Proof.
  revert w. induction es as [|e es IH]; intros w Hok; simpl in *; [constructor|].
  apply andb_true_iff in Hok as [He Hes].
  econstructor; [by apply step_apply_event | by apply IH].
Qed.

(** The service is deterministic in its events: a run is the
    execution of its events, each of which could happen in the state it
    found; so the state after a run is a function of the initial state
    and the events, and a run can be replayed by evaluation. *)
Theorem run_apply_events w es w' :
  run w es w' <-> events_ok es w = true /\ w' = apply_events es w.
Proof.
  split; [|intros [Hok ->]; by apply run_replay].
  induction 1 as [w|w e w1 es w' Hstep Hrun [IH1 IH2]]; [done|].
  apply step_apply_event in Hstep as [Hok ->]. simpl. by rewrite Hok, IH1.
Qed.

End Facts.
