(* ===== verification/Typing.v ===== *)
(** * The types of the answers

    The service answers with JSON documents of a few fixed shapes: a
    user object, a list of them with [from_cache], a message, the
    statistics, the health report, and the error envelope
    [{"error": ...}].  This file gives the shapes as types ([ty], with
    the executable judgement [has_type]), the contract of each route
    as the list of the statuses it can answer with and the type of the
    body of each ([answers_of]), and proves that every answer of every
    handler is in its contract.

    A hit returns what the cache holds, so the answers are typed only
    as long as the cache is: [cache_typed] says that the cache holds
    nothing but the two keys of the service, each with the dump of a
    value of its type.  The handlers are typed under this invariant
    with the judgement [yields] of [Prelude], call by call; the
    invariant holds in every state a deployment reaches. *)

From stdpp Require Import base tactics option strings numbers list gmap.
From S2P Require Import Prelude Python Cache Store Session World Handlers Server.

Open Scope string_scope.
Open Scope list_scope.
Open Scope Z_scope.

(** ** Types of JSON values *)

#[local] Unset Elimination Schemes.
Inductive ty : Type :=
| TyBool
| TyInt
| TyStr
| TyList (item : ty)
| TyObj (fields : list (string * ty)).
#[local] Set Elimination Schemes.

(** [has_type t v]: [v] is a [t].  An object has the fields of its type
    and no other, in the order the code builds them. *)
Fixpoint has_type (t : ty) (v : json) : bool :=
  match t, v with
  | TyBool, JBool _ => true
  | TyInt, JNum _ => true
  | TyStr, JStr _ => true
  | TyList item, JArr l => forallb (has_type item) l
  | TyObj fields, JObj kv =>
      (fix members (fields : list (string * ty)) (kv : list (string * json)) : bool :=
         match fields, kv with
         | [], [] => true
         | (k, t') :: fields', (k', v') :: kv' =>
             String.eqb k k' && has_type t' v' && members fields' kv'
         | _, _ => false
         end) fields kv
  | _, _ => false
  end.

(** ** The shapes of the service *)

(** [User.to_dict] (lines 34-40). *)
Definition user_ty : ty :=
  TyObj [("id", TyInt); ("username", TyStr); ("email", TyStr); ("created_at", TyStr)].

(** [{'error': ...}] (lines 99, 108, 118, 137, 162, 178, 207, 212,
    217). *)
Definition error_ty : ty := TyObj [("error", TyStr)].

(** The list of [get_users] (lines 82-85 and 94-97), and what
    [users:all] holds (line 92). *)
Definition users_list_ty : ty := TyList user_ty.
Definition users_ty : ty := TyObj [("users", users_list_ty); ("from_cache", TyBool)].

(** The answer to a create and to an update (lines 131-134, 156-159),
    and to a delete (line 175). *)
Definition written_ty : ty := TyObj [("message", TyStr); ("user", user_ty)].
Definition message_ty : ty := TyObj [("message", TyStr)].

(** The statistics (lines 195-200). *)
Definition stats_ty : ty :=
  TyObj [("total_users", TyInt); ("recent_users", TyInt);
         ("timestamp", TyStr); ("cache_hits", TyInt)].

(** The health report (lines 64-72). *)
Definition health_ty : ty :=
  TyObj [("status", TyStr); ("service", TyStr); ("timestamp", TyStr);
         ("checks", TyObj [("database", TyStr); ("redis", TyStr)])].

(** The contract of each route: the statuses it answers with and the
    type of the body of each. *)
Definition answers_of (r : request) : list (Z * ty) :=
  match r with
  | Health => [(200, health_ty)]
  | GetUsers => [(200, users_ty); (500, error_ty)]
  | GetUser _ => [(200, user_ty); (404, error_ty)]
  | CreateUser _ => [(201, written_ty); (400, error_ty); (500, error_ty)]
  | UpdateUser _ _ => [(200, written_ty); (500, error_ty)]
  | DeleteUser _ => [(200, message_ty); (500, error_ty)]
  | GetStats => [(200, stats_ty); (500, error_ty)]
  | NoRoute => [(404, error_ty)]
  end.

(** Two requests for the same route. *)
Definition same_route (r r' : request) : bool :=
  match r, r' with
  | Health, Health | GetUsers, GetUsers | GetUser _, GetUser _
  | CreateUser _, CreateUser _ | UpdateUser _ _, UpdateUser _ _
  | DeleteUser _, DeleteUser _ | GetStats, GetStats | NoRoute, NoRoute => true
  | _, _ => false
  end.

(** [response] is one of the answers of [r]. *)
Definition well_typed (r : request) (response : Response) : bool :=
  existsb (fun a => (status response =? a.1) && has_type a.2 (payload response))
          (answers_of r).

(** What each key of the cache holds. *)
Definition key_type (k : string) : option ty :=
  if String.eqb k users_key then Some users_list_ty
  else if String.eqb k stats_key then Some stats_ty
  else None.

Section Typing.
Context `{Runtime} `{JsonCodec} `{!JsonCodecLaws}.
Implicit Types (w : World) (k s : string) (v : json) (t : ty).

(** [s] is the dump of a value of the type of [k]. *)
Definition typed_dump k s : Prop :=
  exists t v, key_type k = Some t /\ s = dumps v /\ has_type t v = true.

(** The invariant: the cache holds the keys of the service only, each
    with a dump of its type. *)
Definition cache_typed w : Prop :=
  forall k e, w_cache w !! k = Some e -> typed_dump k (e_value e).

(** The events of a run in which every answer is in the contract of
    its route. *)
Definition served_typed (e : event) : Prop :=
  match e with
  | Served r response => well_typed r response = true
  | _ => True
  end.

(** ** The values the handlers build *)

Lemma user_typed (u : User.t) : has_type user_ty (User.to_dict u) = true.
Proof. done. Qed.

Lemma users_data_typed (users : list User.t) :
  has_type users_list_ty (users_data users) = true.
Proof.
  unfold users_data, users_list_ty. simpl. by induction users.
Qed.

Lemma error_typed code e : has_type error_ty (payload (error_response code e)) = true.
Proof. done. Qed.

(** No handler writes [cache:hits], so in a typed cache the counter
    reads as 0. *)
Lemma stats_body_typed total recent timestamp :
  has_type stats_ty (stats_body total recent timestamp None) = true.
Proof. done. Qed.

(** ** The calls *)

Lemma typed_ignores_session : ignores_session cache_typed.
Proof. intros w s Hw k e. apply Hw. Qed.

Lemma typed_flush_stable : flush_stable cache_typed.
Proof. intros w s db Hw _ k e. apply Hw. Qed.

(** [cache.get] returns a dump of the type of its key. *)
Lemma yields_cache_get k :
  yields cache_typed (cache_get k) (fun o => forall s, o = Some s -> typed_dump k s).
Proof.
  intros w Hw. unfold cache_get, cache_call, gets. destruct (w_cache_up w); [|done].
  split; [done|]. simpl. unfold cache_lookup. intros s.
  destruct (w_cache w !! k) as [e|] eqn:He; [|done].
  destruct (live _ _); [|done]. intros [= <-]. by apply (Hw k).
Qed.

(** A key that has no type is absent. *)
Lemma yields_cache_get_untyped k :
  key_type k = None -> yields cache_typed (cache_get k) (fun o => o = None).
Proof.
  intros Hk. eapply yields_weaken; [apply yields_cache_get|]. intros [s|] Ho; [|done].
  destruct (Ho s eq_refl) as (t & v & Ht & _). by rewrite Hk in Ht.
Qed.

(** [cache.setex] of a dump of the type of its key keeps the cache
    typed. *)
Lemma yields_cache_setex k ttl t v :
  key_type k = Some t -> has_type t v = true ->
  yields cache_typed (cache_setex k ttl (dumps v)) (fun _ => True).
Proof.
  intros Hk Hv. apply yields_preserves, preserves_cache_call, preserves_modify.
  intros w Hw k' e. simpl. unfold cache_store. destruct (decide (k = k')) as [<-|Hne].
  - rewrite lookup_insert_eq. intros [= <-]. by exists t, v.
  - rewrite lookup_insert_ne by done. apply Hw.
Qed.

Lemma yields_cache_setex_dump k ttl s :
  typed_dump k s -> yields cache_typed (cache_setex k ttl s) (fun _ => True).
Proof. intros (t & v & Hk & -> & Hv). by eapply yields_cache_setex. Qed.

Lemma yields_cache_delete k : yields cache_typed (cache_delete k) (fun _ => True).
Proof.
  apply yields_preserves, preserves_cache_call, preserves_modify.
  intros w Hw k' e. simpl. unfold cache_remove.
  intros [_ He]%lookup_delete_Some. by apply Hw.
Qed.

(** [to_dict] of a tracked object is a user object. *)
Lemma yields_obj_to_dict user :
  yields cache_typed (obj_to_dict user) (fun d => has_type user_ty d = true).
Proof.
  intros w Hw. unfold obj_to_dict, load_row, refresh, db_call, bind, ret.
  destruct (sess_read _ _) as [[row|i]|]; try done.
  destruct (w_db_up w); [|done]. by destruct (db_get _ _).
Qed.

(** The value of a pure expression. *)
Lemma yields_lift_eq {A} (r : result exn A) : yields cache_typed (lift r) (fun a => r = Ok a).
Proof. by apply yields_lift. Qed.

End Typing.

#[export] Hint Resolve typed_ignores_session typed_flush_stable : py.

Create HintDb typed.
#[export] Hint Resolve yields_cache_delete yields_obj_to_dict
  yields_lift_eq yields_cache_setex users_data_typed stats_body_typed : typed.
#[export] Hint Extern 1 (key_type _ = _) => reflexivity : typed.

(** [typed_step] applies the rule of [yields] for the head combinator:
    a read of the cache is typed by its key, another call by the hints
    of [typed], or else it keeps the invariant by the hints of [py]. *)
Ltac typed_call :=
  first [ apply yields_cache_get_untyped; reflexivity
        | apply yields_cache_get
        | solve [eauto with typed py]
        | apply yields_preserves; solve [auto with py] ].

Ltac typed_step :=
  lazymatch goal with
  | |- yields _ (try_except _ _) _ => apply yields_try; [|intros ?]
  | |- yields _ (bind _ _) _ =>
      eapply yields_bind; [typed_call | intros ? ?; cbv beta in *; subst]
  | |- yields _ (ret _) _ => apply yields_ret
  | |- yields _ (if ?b then _ else _) _ => destruct b eqn:?
  | |- yields _ (match ?x with _ => _ end) _ => destruct x eqn:?
  end.

(** ** The handlers *)

Section Handlers.
Context `{Runtime} `{JsonCodec} `{!JsonCodecLaws}.
Implicit Types (w : World) (k s : string) (v : json) (t : ty).

(** What a hit returns: the value the dump was made of. *)
Lemma typed_dump_loads k s t :
  typed_dump k s -> key_type k = Some t ->
  exists v, loads s = Ok v /\ has_type t v = true.
Proof.
  intros (t' & v & Hk & -> & Hv) Ht. exists v. rewrite loads_dumps.
  rewrite Hk in Ht. by injection Ht as <-.
Qed.

Lemma hit_typed k o s t v :
  (forall s', o = Some s' -> typed_dump k s') -> cached o = Some s ->
  key_type k = Some t -> loads s = Ok v -> has_type t v = true.
Proof.
  intros Ho [-> _]%cached_Some Hk Hl.
  destruct (typed_dump_loads k s t (Ho s eq_refl) Hk) as (v' & Hl' & Hv).
  rewrite Hl in Hl'. by injection Hl' as ->.
Qed.

(** The answers of the routes that return what they read. *)
Lemma users_response_typed v from_cache :
  has_type users_list_ty v = true ->
  well_typed GetUsers (users_response v from_cache) = true.
Proof. unfold well_typed. simpl. by intros ->. Qed.

Lemma stats_response_typed v :
  has_type stats_ty v = true -> well_typed GetStats (mkResponse 200 v) = true.
Proof. unfold well_typed. cbn [answers_of existsb status payload fst snd]. by intros ->. Qed.

Lemma user_response_typed i d :
  has_type user_ty d = true -> well_typed (GetUser i) (mkResponse 200 d) = true.
Proof. unfold well_typed. cbn [answers_of existsb status payload fst snd]. by intros ->. Qed.

Lemma created_response_typed b d :
  has_type user_ty d = true -> well_typed (CreateUser b) (created_response d) = true.
Proof. unfold well_typed. simpl. by intros ->. Qed.

Lemma updated_response_typed i b d :
  has_type user_ty d = true -> well_typed (UpdateUser i b) (updated_response d) = true.
Proof. unfold well_typed. simpl. by intros ->. Qed.

(** What the handlers store. *)
Lemma users_dump_typed (users : list User.t) :
  typed_dump users_key (dumps (users_data users)).
Proof. exists users_list_ty, (users_data users). auto using users_data_typed. Qed.

Lemma stats_dump_typed total recent timestamp :
  typed_dump stats_key (dumps (stats_body total recent timestamp None)).
Proof. by eexists stats_ty, _. Qed.

(** A key that has no type is absent. *)
Lemma untyped_absent k o :
  (forall s, o = Some s -> typed_dump k s) -> key_type k = None -> o = None.
Proof.
  intros Ho Hk. destruct o as [s|]; [|done].
  destruct (Ho s eq_refl) as (t & v & Ht & _). by rewrite Hk in Ht.
Qed.

Lemma probe_typed (call : Py unit) :
  preserves cache_typed call -> yields cache_typed (probe call) (fun _ => True).
Proof. intros Hc. unfold probe. repeat typed_step; done. Qed.

Lemma assign_if_present_typed user c key data :
  yields cache_typed (assign_if_present user c key data) (fun _ => True).
Proof. unfold assign_if_present. repeat typed_step; done. Qed.

#[local] Hint Resolve probe_typed assign_if_present_typed : typed.

Lemma health_check_typed :
  yields cache_typed health_check (fun response => well_typed Health response = true).
Proof. unfold health_check. repeat typed_step; done. Qed.

Lemma get_users_typed :
  yields cache_typed get_users (fun response => well_typed GetUsers response = true).
Proof.
  unfold get_users. repeat typed_step; try done.
  - apply users_response_typed. by eapply (hit_typed users_key).
  - apply users_response_typed, users_data_typed.
Qed.

Lemma get_stats_typed :
  yields cache_typed get_stats (fun response => well_typed GetStats response = true).
Proof.
  unfold get_stats. repeat typed_step; try done.
  apply stats_response_typed. by eapply (hit_typed stats_key).
Qed.

Lemma get_user_typed i :
  yields cache_typed (get_user i) (fun response => well_typed (GetUser i) response = true).
Proof. unfold get_user. repeat typed_step; try done. by apply user_response_typed. Qed.

Lemma create_user_typed b :
  yields cache_typed (create_user b)
    (fun response => well_typed (CreateUser b) response = true).
Proof. unfold create_user. repeat typed_step; try done. by apply created_response_typed. Qed.

Lemma update_user_typed i b :
  yields cache_typed (update_user i b)
    (fun response => well_typed (UpdateUser i b) response = true).
Proof. unfold update_user. repeat typed_step; try done. by apply updated_response_typed. Qed.

Lemma delete_user_typed i :
  yields cache_typed (delete_user i)
    (fun response => well_typed (DeleteUser i) response = true).
Proof. unfold delete_user. repeat typed_step; done. Qed.

(** The route table is typed: every answer of a view is in the
    contract of its route, and the view keeps the cache typed. *)
Lemma view_typed r :
  yields cache_typed (view r) (fun response => well_typed r response = true).
Proof.
  destruct r; simpl; auto using health_check_typed, get_users_typed, get_user_typed,
    create_user_typed, update_user_typed, delete_user_typed, get_stats_typed.
  by apply yields_ret.
Qed.


(** ** Every answer is typed *)

Lemma typed_init now : cache_typed (init_world now).
Proof. intros k e. simpl. by rewrite lookup_empty. Qed.

(** A request: its answer is in the contract of its route and the
    cache stays typed. *)
Lemma serve_typed_world r w :
  cache_typed w ->
  cache_typed (serve r w).2 /\
  forall response, (serve r w).1 = Ok response -> well_typed r response = true.
Proof.
  intros Hw. rewrite serve_eq. simpl.
  destruct (yields_run _ _ _ w (view_typed r) Hw) as [Hw' Hr]. split; [|done].
  by apply typed_ignores_session.
Qed.

Lemma step_typed w e w' :
  cache_typed w -> step w e w' -> cache_typed w' /\ served_typed e.
Proof.
  intros Hw. destruct 1 as [r w response w' Hr|dt w Hdt|up w|up w|w]; try done.
  - destruct (serve_typed_world r w Hw) as [Hw' Hres]. rewrite Hr in Hw', Hres.
    split; [done | by apply Hres].
  - split; [|done]. intros k e. simpl. unfold cache_purge.
    intros [He _]%map_lookup_filter_Some. by apply Hw.
Qed.

Lemma run_cache_typed w es w' : run w es w' -> cache_typed w -> cache_typed w'.
Proof.
  intros Hrun Hw. eapply run_invariant; [|done..]. intros w1 e w2 Hw1 Hstep.
  by destruct (step_typed _ _ _ Hw1 Hstep).
Qed.

Lemma reachable_cache_typed w : reachable w -> cache_typed w.
Proof. intros (now & es & Hrun). eapply run_cache_typed; [done | apply typed_init]. Qed.

(** C16: every answer is in the contract of its route: in every state
    whose cache is typed, whatever the request, its body and the
    state of the backends, [serve] answers with one of the statuses of
    the route and a body of the type that goes with it (a user object,
    the list with [from_cache], a message, the statistics, the health
    report, or the error envelope), and leaves the cache typed. *)
Theorem serve_typed r w :
  cache_typed w ->
  exists response,
    serve r w = (Ok response, (serve r w).2) /\
    well_typed r response = true /\
    cache_typed (serve r w).2.
Proof.
  intros Hw. destruct (serve_view r w) as (response & _ & Hs).
  destruct (serve_typed_world r w Hw) as [Hw' Hres].
  exists response. rewrite Hs in *. auto.
Qed.

(** C17: the cache is typed in every state a deployment reaches, and
    every answer served along a run is in the contract of its route:
    [users:all] and [stats] hold dumps of a list of user objects and
    of the statistics, no other key exists, through every failure and
    recovery of a backend, passing of time and reclaiming of keys. *)
Theorem run_typed w es w' :
  cache_typed w -> run w es w' -> cache_typed w' /\ Forall served_typed es.
Proof.
  intros Hw Hrun. induction Hrun as [w|w e w1 es w' Hstep Hrun IH]; [done|].
  destruct (step_typed _ _ _ Hw Hstep) as [Hw1 He]. destruct (IH Hw1). auto.
Qed.

End Handlers.

#[export] Hint Resolve users_response_typed stats_response_typed user_response_typed
  created_response_typed updated_response_typed users_dump_typed stats_dump_typed
  users_data_typed stats_body_typed hit_typed : typed.
