(* ===== verification/Routing.v ===== *)
(** * The URL rules

    The seven [@app.route] decorators of [app.py] (lines 47, 75, 101,
    110, 139, 164, 180) as a table of rules, and what Flask does with a
    method and a path: the rules whose pattern matches the path are
    collected; none gives the 404 handler of line 210; among them the
    one registered for the method gives its view function, called with
    the [<int:user_id>] of the path; [HEAD] goes where [GET] goes,
    [OPTIONS] is answered by Flask itself, and any other method is
    refused (405).

    A path is the list of its segments: the splitting of the URL at
    its slashes, the decoding of its bytes, and what werkzeug answers
    to a trailing or a doubled slash before it tries any rule are not
    modelled.  The integer segment is one or more decimal digits, as
    the converter [int] of werkzeug takes them: no sign, leading zeros
    allowed. *)

From Stdlib Require Import DecimalString DecimalN DecimalPos.
From stdpp Require Import base tactics option strings numbers list.
From S2P Require Import Prelude Python Handlers Server.

Open Scope string_scope.
Open Scope list_scope.
Open Scope Z_scope.

(** ** Methods, patterns and rules *)

Inductive Method : Type :=
| GET | HEAD | POST | PUT | DELETE | OPTIONS
| OtherMethod (name : string).

#[export] Instance method_eq_dec : EqDecision Method.
Proof. solve_decision. Defined.

(** The two shapes of the rules: a fixed path, and a fixed path
    followed by [<int:user_id>]. *)
Inductive pattern : Type :=
| Static (segments : list string)
| WithId (segments : list string).

#[export] Instance pattern_eq_dec : EqDecision pattern.
Proof. solve_decision. Defined.

(** A rule: its pattern, its method, and the request it makes of the
    integer of the path and the body. *)
Record rule : Type := mkRule {
  r_pattern : pattern;
  r_method : Method;
  r_view : Z -> body -> request;
}.

(** The decorators, in the order of the source. *)
Definition rules : list rule :=
  [ mkRule (Static ["health"]) GET (fun _ _ => Health);
    mkRule (Static ["api"; "users"]) GET (fun _ _ => GetUsers);
    mkRule (WithId ["api"; "users"]) GET (fun user_id _ => GetUser user_id);
    mkRule (Static ["api"; "users"]) POST (fun _ data => CreateUser data);
    mkRule (WithId ["api"; "users"]) PUT (fun user_id data => UpdateUser user_id data);
    mkRule (WithId ["api"; "users"]) DELETE (fun user_id _ => DeleteUser user_id);
    mkRule (Static ["api"; "stats"]) GET (fun _ _ => GetStats) ].

(** ** Matching *)

(** The converter [int]: one or more decimal digits. *)
Definition int_segment (s : string) : option Z :=
  (fun d => Z.of_N (N.of_uint d)) <$> NilZero.uint_of_string s.

(** The segment that [int_segment] reads back as [i]. *)
Definition id_segment (i : Z) : string := NilZero.string_of_uint (N.to_uint (Z.to_N i)).

(** The integer a pattern extracts from a path it matches (0 for a
    fixed path). *)
Definition match_pattern (pat : pattern) (path : list string) : option Z :=
  match pat with
  | Static segments => if decide (path = segments) then Some 0 else None
  | WithId segments =>
      if decide (take (length segments) path = segments) then
        match drop (length segments) path with
        | [s] => int_segment s
        | _ => None
        end
      else None
  end.

Definition matches (path : list string) (ru : rule) : bool :=
  bool_decide (is_Some (match_pattern (r_pattern ru) path)).

(** [HEAD] is registered with every rule for [GET]. *)
Definition rule_method (m : Method) : Method :=
  match m with
  | HEAD => GET
  | _ => m
  end.

(** What Flask does with a request. *)
Inductive routed : Type :=
| Dispatch (r : request)
| Automatic (allow : list Method)
| NotAllowed (allow : list Method).

Definition route (m : Method) (path : list string) (data : body) : routed :=
  match List.filter (matches path) rules with
  | [] => Dispatch NoRoute
  | matching =>
      if decide (m = OPTIONS) then Automatic (r_method <$> matching)
      else
        match find (fun ru => bool_decide (r_method ru = rule_method m)) matching with
        | Some ru => Dispatch (r_view ru (default 0 (match_pattern (r_pattern ru) path)) data)
        | None => NotAllowed (r_method <$> matching)
        end
  end.

(** ** The URL of a request *)

Definition method_of (r : request) : Method :=
  match r with
  | CreateUser _ => POST
  | UpdateUser _ _ => PUT
  | DeleteUser _ => DELETE
  | _ => GET
  end.

Definition path_of (r : request) : list string :=
  match r with
  | Health => ["health"]
  | GetUsers | CreateUser _ => ["api"; "users"]
  | GetUser i | UpdateUser i _ | DeleteUser i => ["api"; "users"; id_segment i]
  | GetStats => ["api"; "stats"]
  | NoRoute => []
  end.

Definition body_of (r : request) : body :=
  match r with
  | CreateUser data | UpdateUser _ data => data
  | _ => Body JNull
  end.

(** The integer a request carries, if any. *)
Definition id_of (r : request) : option Z :=
  match r with
  | GetUser i | UpdateUser i _ | DeleteUser i => Some i
  | _ => None
  end.

(** ** Facts *)

Lemma to_uint_nonnil n : N.to_uint n <> Decimal.Nil.
Proof. destruct n; [done | apply Unsigned.to_uint_nonnil]. Qed.

(** The integer segment round trip. *)
Lemma int_segment_id i : 0 <= i -> int_segment (id_segment i) = Some i.
Proof.
  intros Hi. unfold int_segment, id_segment.
  rewrite NilZero.usu by apply to_uint_nonnil. simpl.
  by rewrite DecimalN.Unsigned.of_to, Z2N.id.
Qed.

Lemma int_segment_nonneg s i : int_segment s = Some i -> 0 <= i.
Proof. unfold int_segment. intros (d & _ & ->)%fmap_Some. lia. Qed.

Lemma int_segment_nonempty : int_segment "" = None.
Proof. done. Qed.

(** The integer of a matched pattern is not negative. *)
Lemma match_pattern_nonneg pat path i : match_pattern pat path = Some i -> 0 <= i.
Proof.
  destruct pat as [segments|segments]; simpl.
  - case_decide; [|done]. by intros [= <-].
  - case_decide; [|done]. destruct (drop _ _) as [|s [|]]; try done.
    apply int_segment_nonneg.
Qed.

(** What [route] dispatches to is the view of a rule that matches the
    path and is registered for the method. *)
Lemma route_dispatch_rule m path data r :
  route m path data = Dispatch r ->
  r = NoRoute \/
  exists ru i, ru ∈ rules /\ match_pattern (r_pattern ru) path = Some i /\
               r_method ru = rule_method m /\ r = r_view ru i data.
Proof.
  unfold route.
  destruct (List.filter _ rules) as [|ru0 matching] eqn:Hf; [intros [= <-]; by left|].
  case_decide; [done|].
  destruct (find _ _) as [ru|] eqn:Hfind; [|done]. intros [= <-]. right.
  apply find_some_iff in Hfind as (Hin & Hm). rewrite <- Hf in Hin.
  apply list_elem_of_In, filter_In in Hin as [Hin Hmatch].
  apply bool_decide_eq_true in Hm, Hmatch. destruct Hmatch as [i Hi].
  exists ru, i. by rewrite Hi, list_elem_of_In.
Qed.

(** The request a rule makes is one of its method, with the integer it
    is given. *)
Lemma rule_view ru i data :
  ru ∈ rules ->
  method_of (r_view ru i data) = r_method ru /\
  forall j, id_of (r_view ru i data) = Some j -> j = i.
Proof.
  unfold rules. intros Hin.
  repeat (apply elem_of_cons in Hin as [->|Hin]); simpl; try (split; [done|]; by intros ? [= <-]).
  by apply elem_of_nil in Hin.
Qed.

(** No view is called with a negative id, and every view is
    called for the method and the rule it is registered with: when
    [route] dispatches a request to a view, a rule of the table matches
    the path for that method ([HEAD] as [GET]) and the request is the
    one the rule makes of the integer of the path, which is zero or
    more. *)
Theorem route_dispatch m path data r :
  route m path data = Dispatch r -> r <> NoRoute ->
  rule_method m = method_of r /\ forall i, id_of r = Some i -> 0 <= i.
Proof.
  intros [->|(ru & i & Hin & Hi & Hm & ->)]%route_dispatch_rule Hr; [done|].
  apply match_pattern_nonneg in Hi. destruct (rule_view ru i data Hin) as [Hmethod Hid].
  split; [congruence|]. by intros j ->%Hid.
Qed.

(** The patterns on the path of a request. *)
Lemma match_with_id i :
  0 <= i -> match_pattern (WithId ["api"; "users"]) ["api"; "users"; id_segment i] = Some i.
Proof. intros Hi. cbn. by apply int_segment_id. Qed.

(** C30: every request has a URL: the method and the path of a request
    that is not the 404 of an unknown path, with an id that is not
    negative, are routed to its view with that id and its body; so
    every behaviour proved of [serve] is one a client can ask for. *)
Theorem route_url r :
  r <> NoRoute -> (forall i, id_of r = Some i -> 0 <= i) ->
  route (method_of r) (path_of r) (body_of r) = Dispatch r.
Proof.
  intros Hr Hid. destruct r as [| |i|data|i data|i| |]; try done.
  all: specialize (Hid i eq_refl); unfold route, rules, matches.
  all: cbn [List.filter r_pattern path_of]; rewrite !match_with_id by done.
  all: cbn [match_pattern]; rewrite !decide_False by done; cbn.
  all: case_decide; [done|]; repeat (case_bool_decide; try done).
  all: by rewrite match_with_id.
Qed.

(** ** The table on some requests *)

(** A method no rule of the path is registered for is refused, with
    the methods of the rules that match. *)
Example route_post_health data : route POST ["health"] data = NotAllowed [GET].
Proof. done. Qed.

Example route_patch_user data :
  route (OtherMethod "PATCH") ["api"; "users"; "7"] data = NotAllowed [GET; PUT; DELETE].
Proof. done. Qed.

(** [HEAD] runs the view of [GET]; [OPTIONS] runs no view. *)
Example route_head_users data : route HEAD ["api"; "users"] data = Dispatch GetUsers.
Proof. done. Qed.

Example route_options_users data :
  route OPTIONS ["api"; "users"] data = Automatic [GET; POST].
Proof. done. Qed.

(** A segment that is not a number, a signed number and a missing
    segment match no rule; leading zeros do. *)
Example route_not_a_number data : route GET ["api"; "users"; "abc"] data = Dispatch NoRoute.
Proof. done. Qed.

Example route_signed data : route GET ["api"; "users"; "-1"] data = Dispatch NoRoute.
Proof. done. Qed.

Example route_leading_zeros data :
  route DELETE ["api"; "users"; "007"] data = Dispatch (DeleteUser 7).
Proof. done. Qed.

Example route_longer_path data :
  route GET ["api"; "users"; "7"; "posts"] data = Dispatch NoRoute.
Proof. done. Qed.

(** No two rules have the same pattern and method. *)
Example rules_unambiguous : NoDup ((fun ru => (r_pattern ru, r_method ru)) <$> rules).
Proof. by_compute. Qed.
