(* ===== verification/Invariants.v ===== *)
(** * What every request keeps

    A handler of [app.py] touches the world through the calls of
    [World] only, so a property that every call keeps is kept by every
    handler, whatever branch it takes and however it fails.  This file
    proves that rule once ([view_preserves], [serve_preserves]) and
    instantiates it: the clock and the reachability of the backends are
    never changed by a request, the table stays well formed, its id
    sequence never goes back, and every state a deployment reaches is
    well formed with an empty session. *)

From stdpp Require Import base tactics option strings numbers list gmap.
From S2P Require Import Prelude Python Cache Store Session World Handlers Server.

Open Scope string_scope.
Open Scope list_scope.
Open Scope Z_scope.

Section Invariants.
Context `{Runtime} `{JsonCodec}.
Implicit Types (w : World) (r : request) (I : World -> Prop).

(** ** The rule *)

Section Rule.
Variable I : World -> Prop.
Hypothesis Hsession : ignores_session I.
Hypothesis Hcache : ignores_cache I.
Hypothesis Hflush : flush_stable I.

Lemma preserves_probe (call : Py unit) : preserves I call -> preserves I (probe call).
Proof. intros Hc. unfold probe. repeat hoare_step. Qed.

Lemma preserves_assign_if_present user c key data :
  preserves I (assign_if_present user c key data).
Proof. unfold assign_if_present. repeat hoare_step. Qed.

Lemma preserves_health_check : preserves I health_check.
Proof.
  unfold health_check.
  repeat first [apply preserves_probe | hoare_step].
Qed.

Lemma preserves_get_users : preserves I get_users.
Proof. unfold get_users. repeat hoare_step. Qed.

Lemma preserves_get_user i : preserves I (get_user i).
Proof. unfold get_user. repeat hoare_step. Qed.

Lemma preserves_create_user b : preserves I (create_user b).
Proof. unfold create_user. repeat hoare_step. Qed.

Lemma preserves_update_user i b : preserves I (update_user i b).
Proof.
  unfold update_user. repeat first [apply preserves_assign_if_present | hoare_step].
Qed.

Lemma preserves_delete_user i : preserves I (delete_user i).
Proof. unfold delete_user. repeat hoare_step. Qed.

Lemma preserves_get_stats : preserves I get_stats.
Proof. unfold get_stats. repeat hoare_step. Qed.

Lemma preserves_internal_error : preserves I internal_error.
Proof. unfold internal_error. repeat hoare_step. Qed.

(** Every view keeps what the session, the cache and the flush keep. *)
Lemma view_preserves r : preserves I (view r).
Proof.
  destruct r; simpl; auto using preserves_health_check, preserves_get_users,
    preserves_get_user, preserves_create_user, preserves_update_user,
    preserves_delete_user, preserves_get_stats.
  unfold not_found. auto with py.
Qed.

Lemma serve_preserves r : preserves I (serve r).
Proof.
  unfold serve. repeat first [apply view_preserves | apply preserves_internal_error | hoare_step].
Qed.

End Rule.

(** The handlers that read keep what the session and the cache keep,
    with no condition on the flush: they never commit. *)
Lemma read_preserves I r :
  is_write r = false -> ignores_session I -> ignores_cache I -> preserves I (view r).
Proof.
  destruct r; try done; intros _ Hs Hc; simpl;
    auto using preserves_health_check, preserves_get_users, preserves_get_user,
      preserves_get_stats.
  unfold not_found. auto with py.
Qed.

(** ** The clock and the backends *)

Lemma view_frame r w :
  w_now (view r w).2 = w_now w /\
  w_db_up (view r w).2 = w_db_up w /\
  w_cache_up (view r w).2 = w_cache_up w.
Proof.
  apply (view_preserves
    (fun w' => w_now w' = w_now w /\ w_db_up w' = w_db_up w /\ w_cache_up w' = w_cache_up w));
    by repeat intro.
Qed.

(** A request does not move the clock and does not change which backend
    answers. *)
Lemma serve_frame r w :
  w_now (serve r w).2 = w_now w /\
  w_db_up (serve r w).2 = w_db_up w /\
  w_cache_up (serve r w).2 = w_cache_up w.
Proof.
  apply (serve_preserves
    (fun w' => w_now w' = w_now w /\ w_db_up w' = w_db_up w /\ w_cache_up w' = w_cache_up w));
    by repeat intro.
Qed.

(** ** The table *)

Lemma wf_ignores_session : ignores_session (fun w => db_wf (w_db w)).
Proof. by repeat intro. Qed.

Lemma wf_ignores_cache : ignores_cache (fun w => db_wf (w_db w)).
Proof. by repeat intro. Qed.

Lemma wf_flush_stable : flush_stable (fun w => db_wf (w_db w)).
Proof. intros w s db Hw Hf. by eapply flush_wf. Qed.

(** Every view keeps the table well formed, whatever the session holds
    and whichever backend fails. *)
Lemma view_wf r w : db_wf (w_db w) -> db_wf (w_db (view r w).2).
Proof.
  apply (view_preserves (fun w => db_wf (w_db w))); auto using wf_ignores_session,
    wf_ignores_cache, wf_flush_stable.
Qed.

Lemma serve_wf r w : db_wf (w_db w) -> db_wf (w_db (serve r w).2).
Proof.
  apply (serve_preserves (fun w => db_wf (w_db w))); auto using wf_ignores_session,
    wf_ignores_cache, wf_flush_stable.
Qed.

(** The id sequence never goes back. *)
Lemma serve_next_id r w : next_id (w_db w) <= next_id (w_db (serve r w).2).
Proof.
  apply (serve_preserves (fun w' => next_id (w_db w) <= next_id (w_db w')));
    try by repeat intro.
  - intros w' s db Hw' Hf%flush_next_id. simpl. lia.
  - simpl. lia.
Qed.

(** ** The states of a deployment *)

(** What holds between two requests. *)
Definition settled (w : World) : Prop :=
  w_session w = [] /\ db_wf (w_db w).

#[export] Instance settled_dec w : Decision (settled w).
Proof. unfold settled. apply _. Defined.

Lemma settled_init t0 : settled (init_world t0).
Proof. split; [done | apply create_all_wf]. Qed.

Lemma settled_step w e w' : settled w -> step w e w' -> settled w'.
Proof.
  intros [Hs Hwf]. destruct 1 as [r w response w' Hr| | | |]; try done.
  replace w' with (serve r w).2 by by rewrite Hr.
  split; [apply serve_session | by apply serve_wf].
Qed.

(** C25: every state a deployment reaches, after any sequence of
    requests, failures and recoveries of the two backends, passing of
    time and reclaiming of keys, has an empty session and a well-formed
    table: ids, usernames and emails are unique, every id is below the
    next id of the sequence, and every value fits its column. *)
Theorem reachable_settled w : reachable w -> settled w.
Proof.
  apply reachable_invariant; [apply settled_init|].
  intros w1 e w2. apply settled_step.
Qed.

(** What a step does to the clock. *)
Lemma step_clock w e w' : step w e w' -> w_now w <= w_now w'.
Proof.
  destruct 1 as [r w response w' Hr|dt w Hdt| | |]; simpl; try lia.
  replace w' with (serve r w).2 by by rewrite Hr.
  destruct (serve_frame r w) as [-> _]. lia.
Qed.

Lemma step_next_id w e w' : step w e w' -> next_id (w_db w) <= next_id (w_db w').
Proof.
  destruct 1 as [r w response w' Hr| | | |]; simpl; try lia.
  replace w' with (serve r w).2 by by rewrite Hr. apply serve_next_id.
Qed.

(** Along every run the clock and the id sequence only advance: no
    request moves the clock, and no request, not even a failed or a
    rolled-back one, gives the sequence a value it had before. *)
Theorem run_monotone w es w' :
  run w es w' -> w_now w <= w_now w' /\ next_id (w_db w) <= next_id (w_db w').
Proof.
  induction 1 as [w|w e w1 es w' Hstep Hrun [IH1 IH2]]; [lia|].
  pose proof (step_clock _ _ _ Hstep). pose proof (step_next_id _ _ _ Hstep). lia.
Qed.

(** ** Ids are not reused *)

(** The id [i] has been given out and no row holds it. *)
Definition retired (i : Z) (w : World) : Prop :=
  db_wf (w_db w) /\ i < next_id (w_db w) /\ db_get i (w_db w) = None.

#[export] Instance retired_dec i w : Decision (retired i w).
Proof. unfold retired. apply _. Defined.

Lemma retired_flush_stable i : flush_stable (retired i).
Proof.
  intros w s db (Hwf & Hi & Hg) Hf. split; [by eapply flush_wf|]. simpl. split.
  - apply flush_next_id in Hf. lia.
  - by eapply flush_absent.
Qed.

Lemma retired_step i w e w' : retired i w -> step w e w' -> retired i w'.
Proof.
  intros Hr. destruct 1 as [r w response w' Hs| | | |]; try done.
  replace w' with (serve r w).2 by by rewrite Hs.
  apply (serve_preserves (retired i)); try done; try by repeat intro.
  apply retired_flush_stable.
Qed.

(** An id is never reused: once the sequence has passed an id and
    no row holds it (its row was deleted, or its INSERT failed), no
    request ever creates a row with that id again, so a client that
    kept the id of a deleted user never reads another user under it. *)
Theorem retired_forever i w es w' :
  run w es w' -> retired i w -> db_get i (w_db w') = None.
Proof.
  intros Hrun Hr. eapply (run_invariant (retired i)); [|exact Hr|exact Hrun].
  intros w1 e w2. apply retired_step.
Qed.

End Invariants.
