(* ===== verification/Policy.v ===== *)
(** * The cache-aside policy

    [get_users] serves the list of users from the key [users:all] when
    the key holds a value and recomputes it from the table otherwise
    (lines 78-95 of [app.py]); every handler that writes to the table
    deletes the key after its commit (lines 129, 154, 173).  This file
    states what that policy promises and proves it of the handlers:

    - what a request can do to the table and to the cache
      ([serve_write_cases], [serve_read_cases]);
    - the invariant of the policy, [cache_coherent]: a value under
      [users:all] is the dump of the table as it is now; every request
      keeps it as long as no write is served while the cache is down,
      and so does the environment;
    - under the invariant the cache is transparent: [get_users] answers
      with the rows of the table whether it hits or misses;
    - a hit follows a miss for as long as the time to live lasts, and a
      miss follows the expiry;
    - the statistics are cached apart and no write invalidates them. *)

From stdpp Require Import base tactics option strings numbers list gmap.
From S2P Require Import Prelude Python Cache Store Session World Handlers Server Invariants.

Open Scope string_scope.
Open Scope list_scope.
Open Scope Z_scope.

(** ** Case analysis of the write handlers

    Each tactic takes the cases of one write handler from a world whose
    session is clean ([Hs]) and whose table is well formed ([Hwf]), and
    rewrites the handler's result in each. *)

(** [create_user]: 400; committed; orphaned; the INSERT raised; the
    store is down; the check of line 117 raised; no usable body. *)
Ltac create_user_cases b w Hs Hwf :=
  destruct b as [data|e];
    [destruct (missing_fields data) as [[]|ex] eqn:Hm;
      [rewrite create_user_invalid by done
      |pose proof Hm as (u & e & Hu & He & Htu & Hte)%missing_fields_false;
       rewrite (create_user_run _ _ u e) by done;
       destruct (w_db_up w) eqn:Hdb;
        [destruct (db_insert u e (w_now w) (w_db w)) as [[row db']|ex] eqn:Hi;
          [destruct (db_get_insert _ _ _ _ _ _ Hwf Hi) as [Hrow Hothers]; rewrite Hrow;
           destruct (w_cache_up w) eqn:Hc |]
        |]
      |rewrite (create_user_bad_body _ _ ex) by done]
    |rewrite (create_user_bad_body _ _ e) by done].

(** [update_user]: committed; orphaned; the UPDATE raised; the test or
    the subscript of a key raised (email, then username); no usable
    body; no such row; the store is down. *)
Ltac update_user_cases i b w Hs Hwf :=
  destruct (w_db_up w) eqn:Hdb;
    [destruct (db_get i (w_db w)) as [old|] eqn:Hg;
      [destruct b as [data|e];
        [destruct (present "username" data) as [ou|ex] eqn:Hu;
          [destruct (present "email" data) as [oe|ex] eqn:He;
            [rewrite (update_user_run _ _ _ old ou oe) by done; cbv zeta;
             destruct (flush_update old ou oe (w_db w)) as [db'|ex] eqn:Hf;
              [pose proof Hg as [Hold Hid]%db_get_Some; subst i;
               destruct (flush_update_get _ _ _ _ _ Hwf Hg Hf)
                 as (new & Hnew & Hnid & Hncr & Hothers); rewrite Hnew;
               destruct (w_cache_up w) eqn:Hc |]
            |rewrite (update_user_bad_body _ _ _ old ex) by eauto]
          |rewrite (update_user_bad_body _ _ _ old ex) by auto]
        |rewrite (update_user_bad_body _ _ _ old e) by done]
      |rewrite update_user_missing by done]
    |rewrite update_user_db_down by done].

(** [delete_user]: committed; orphaned; no such row; the store is
    down. *)
Ltac delete_user_cases i w Hs Hwf :=
  destruct (w_db_up w) eqn:Hdb;
    [destruct (db_get i (w_db w)) as [old|] eqn:Hg;
      [rewrite (delete_user_run _ _ old) by done; cbv zeta;
       destruct (w_cache_up w) eqn:Hc
      |rewrite delete_user_missing by done]
    |rewrite delete_user_db_down by done].

(** The outcome is read off a handler's result once it is evaluated. *)
Ltac outcome_refused :=
  eexists; split; [done|]; left; split; [by (left + right) | done].
Ltac outcome_committed :=
  eexists; split; [done|]; right; left; split; [by (left + right) | done].
Ltac outcome_orphaned :=
  eexists; split; [done|]; right; right; done.

Section Policy.
Context `{Runtime} `{JsonCodec}.
Implicit Types (w : World) (r : request) (response : Response).

(** ** What the policy promises *)

(** The list [get_users] computes from the table. *)
Definition fresh_users (w : World) : json := users_data (rows (w_db w)).

(** The invariant: what [users:all] holds, if anything, is the dump of
    the table. *)
Definition cache_coherent (w : World) : Prop :=
  forall s, cache_lookup (w_now w) (w_cache w) users_key = Some s ->
            s = dumps (fresh_users w).

#[export] Instance cache_coherent_dec w : Decision (cache_coherent w).
Proof.
  unfold cache_coherent.
  destruct (cache_lookup (w_now w) (w_cache w) users_key) as [s|].
  - destruct (decide (s = dumps (fresh_users w))) as [->|Hne].
    + left. by intros ? [= <-].
    + right. intros Hc. by apply Hne, Hc.
  - left. done.
Defined.

(** ** What a write does *)

(** The three outcomes of a write: refused (nothing changed), committed
    (the key is deleted), orphaned (the commit went through and the
    cache could not be told). *)
Definition refused w response w' : Prop :=
  (status response = 400 \/ status response = 500) /\
  w_db w' = w_db w /\ w_cache w' = w_cache w.

Definition committed w response w' : Prop :=
  (status response = 200 \/ status response = 201) /\
  w_db_up w = true /\ w_cache_up w = true /\
  w_cache w' = cache_remove users_key (w_cache w).

Definition orphaned w response w' : Prop :=
  response = error_response 500 ConnectionError /\
  w_db_up w = true /\ w_cache_up w = false /\
  w_cache w' = w_cache w.

Definition write_outcome w (out : result exn Response * World) : Prop :=
  exists response, out.1 = Ok response /\
    (refused w response out.2 \/ committed w response out.2 \/ orphaned w response out.2).

(** What a handler needs of the world it starts in: nothing left to
    flush and a well-formed table. *)
Definition ready (w : World) : Prop :=
  session_clean (w_session w) = true /\ db_wf (w_db w).

Lemma settled_ready w : settled w -> ready w.
Proof. intros [Hs ?]. split; [by rewrite Hs | done]. Qed.

Lemma failed_refused ex w : write_outcome w (failed ex w).
Proof. outcome_refused. Qed.

Lemma create_user_outcome b w : ready w -> write_outcome w (create_user b w).
Proof.
  intros [Hs Hwf]. create_user_cases b w Hs Hwf;
    [outcome_refused | outcome_committed | outcome_orphaned | outcome_refused..].
Qed.

Lemma update_user_outcome i b w : ready w -> write_outcome w (update_user i b w).
Proof.
  intros [Hs Hwf]. update_user_cases i b w Hs Hwf;
    [outcome_committed | outcome_orphaned | outcome_refused..].
Qed.

Lemma delete_user_outcome i w : ready w -> write_outcome w (delete_user i w).
Proof.
  intros [Hs Hwf]. delete_user_cases i w Hs Hwf;
    [outcome_committed | outcome_orphaned | outcome_refused..].
Qed.

(** Every write, from a world that is ready for it, is refused,
    committed or orphaned. *)
Lemma view_write_outcome r w :
  is_write r = true -> ready w -> write_outcome w (view r w).
Proof.
  destruct r; try done; intros _ Hw; simpl;
    auto using create_user_outcome, update_user_outcome, delete_user_outcome.
Qed.

(** ** What a read does *)

(** A read never writes to the table. *)
Lemma view_read_db r w : is_write r = false -> w_db (view r w).2 = w_db w.
Proof.
  intros Hr. by apply (read_preserves (fun w' => w_db w' = w_db w)); try by repeat intro.
Qed.

Lemma health_check_world w : (health_check w).2 = w.
Proof. unfold health_check, bind. by rewrite probe_db, probe_cache. Qed.

Lemma get_user_cache i w : w_cache (get_user i w).2 = w_cache w.
Proof.
  by apply (preserves_get_user (fun w' => w_cache w' = w_cache w)); try by repeat intro.
Qed.

(** The result of filling a key. *)
Definition filled (k : string) (ttl : Z) (v : json) (w : World) : World :=
  set_cache (cache_store (w_now w) k (seconds ttl) (dumps v) (w_cache w)) w.

(** [get_users] leaves the world as it is, or fills [users:all] with
    the dump of the table. *)
Lemma get_users_outcome w :
  (get_users w).2 = w \/
  w_cache_up w = true /\ w_db_up w = true /\
  cached (cache_lookup (w_now w) (w_cache w) users_key) = None /\
  get_users w = (Ok (users_response (fresh_users w) false),
                 filled users_key users_ttl (fresh_users w) w).
Proof.
  destruct (w_cache_up w) eqn:Hc; [|left; by rewrite get_users_cache_down].
  destruct (cached (cache_lookup (w_now w) (w_cache w) users_key)) as [s|] eqn:Hl;
    [left; by rewrite (get_users_hit _ s)|].
  destruct (w_db_up w) eqn:Hdb; [|left; by rewrite get_users_db_down].
  right. by rewrite get_users_miss.
Qed.

(** [get_stats] leaves the world as it is, or fills [stats]. *)
Lemma get_stats_outcome w :
  (get_stats w).2 = w \/
  w_cache_up w = true /\ w_db_up w = true /\
  cached (cache_lookup (w_now w) (w_cache w) stats_key) = None /\
  get_stats w = (Ok (mkResponse 200 (fresh_stats w)),
                 filled stats_key stats_ttl (fresh_stats w) w).
Proof.
  destruct (w_cache_up w) eqn:Hc; [|left; by rewrite get_stats_cache_down].
  destruct (cached (cache_lookup (w_now w) (w_cache w) stats_key)) as [s|] eqn:Hl;
    [left; by rewrite (get_stats_hit _ s)|].
  destruct (w_db_up w) eqn:Hdb; [|left; by rewrite get_stats_db_down].
  right. by rewrite get_stats_miss.
Qed.

(** The four things a request can do to the keyspace: nothing, delete
    [users:all], fill [users:all], fill [stats]. *)
Lemma view_cache_cases r w :
  ready w ->
  w_cache (view r w).2 = w_cache w \/
  w_cache (view r w).2 = cache_remove users_key (w_cache w) \/
  w_cache (view r w).2 = w_cache (filled users_key users_ttl (fresh_users w) w) \/
  w_cache (view r w).2 = w_cache (filled stats_key stats_ttl (fresh_stats w) w).
Proof.
  intros Hw. destruct (is_write r) eqn:Hr.
  - destruct (view_write_outcome r w Hr Hw)
      as (response & _ & [(_ & _ & ?)|[(_ & _ & _ & ?)|(_ & _ & _ & ?)]]); auto.
  - destruct r; try done; simpl.
    + left. by rewrite health_check_world.
    + destruct (get_users_outcome w) as [->|(_ & _ & _ & ->)]; auto.
    + left. apply get_user_cache.
    + destruct (get_stats_outcome w) as [->|(_ & _ & _ & ->)]; auto.
    + by left.
Qed.

(** ** The invariant *)

(** Coherence looks at the clock, the table and the cache only. *)
Lemma coherent_ext w w' :
  w_now w' = w_now w -> w_db w' = w_db w -> w_cache w' = w_cache w ->
  cache_coherent w -> cache_coherent w'.
Proof. unfold cache_coherent, fresh_users. by intros -> -> ->. Qed.

Lemma coherent_removed w c :
  w_cache w = cache_remove users_key c -> cache_coherent w.
Proof. intros Hc s. by rewrite Hc, cache_lookup_remove_eq. Qed.

Lemma coherent_filled w : cache_coherent (filled users_key users_ttl (fresh_users w) w).
Proof.
  intros s. unfold filled. simpl. rewrite cache_lookup_store_eq.
  case_match; [by intros [= <-] | done].
Qed.

Lemma coherent_filled_other k ttl v w :
  k <> users_key -> cache_coherent w -> cache_coherent (filled k ttl v w).
Proof.
  intros Hk Hw s. unfold filled. simpl. rewrite cache_lookup_store_ne by done. apply Hw.
Qed.

(** A write that is not orphaned keeps the invariant. *)
Lemma write_coherent r w :
  is_write r = true -> ready w -> w_cache_up w = true ->
  cache_coherent w -> cache_coherent (view r w).2.
Proof.
  intros Hr Hw Hup Hc. destruct (view_frame r w) as (Hnow & _ & _).
  destruct (view_write_outcome r w Hr Hw)
    as (response & _ & [(_ & Hdb & Hca)|[(_ & _ & _ & Hca)|(_ & _ & Hdown & _)]]).
  - by apply (coherent_ext w).
  - by eapply coherent_removed.
  - congruence.
Qed.

Lemma read_coherent r w :
  is_write r = false -> cache_coherent w -> cache_coherent (view r w).2.
Proof.
  intros Hr Hc. destruct r; try done; simpl.
  - by rewrite health_check_world.
  - destruct (get_users_outcome w) as [->|(_ & _ & _ & ->)]; [done | apply coherent_filled].
  - apply (coherent_ext w); [apply (view_frame (GetUser user_id))
      | by apply (view_read_db (GetUser user_id)) | apply get_user_cache | done].
  - destruct (get_stats_outcome w) as [->|(_ & _ & _ & ->)];
      [done | by apply coherent_filled_other].
Qed.

Lemma view_coherent r w :
  ready w -> (is_write r = true -> w_cache_up w = true) ->
  cache_coherent w -> cache_coherent (view r w).2.
Proof.
  intros Hw Hup Hc. destruct (is_write r) eqn:Hr;
    [apply write_coherent | apply read_coherent]; auto.
Qed.

(** The environment keeps the invariant: a value still readable later
    was readable before, and reclaiming shows nothing new. *)
Lemma advance_coherent dt w : 0 <= dt -> cache_coherent w -> cache_coherent (advance dt w).
Proof.
  intros Hdt Hc s Hs. apply Hc. simpl in Hs.
  eapply cache_lookup_mono; [|done]. lia.
Qed.

Lemma reclaim_coherent w :
  cache_coherent w -> cache_coherent (set_cache (cache_purge (w_now w) (w_cache w)) w).
Proof. intros Hc s. simpl. rewrite cache_lookup_purge by lia. apply Hc. Qed.

(** ** Serving under the invariant *)

Lemma serve_keeps_coherent r w :
  settled w -> (is_write r = true -> w_cache_up w = true) ->
  cache_coherent w -> cache_coherent (serve r w).2.
Proof.
  intros Hw Hup Hc. rewrite serve_eq. simpl.
  apply (coherent_ext (view r w).2); try done.
  by apply view_coherent; [apply settled_ready|..].
Qed.

(** No write of the list is served while the cache is down: the
    condition under which the invariant holds along a run, as a test on
    the events and the state of the cache before them. *)
Fixpoint writes_guarded (cache_up : bool) (es : list event) : bool :=
  match es with
  | [] => true
  | Served r _ :: es' => (negb (is_write r) || cache_up) && writes_guarded cache_up es'
  | CacheUp up :: es' => writes_guarded up es'
  | _ :: es' => writes_guarded cache_up es'
  end.

(** What a step does to the reachability of the cache. *)
Lemma step_cache_up w e w' :
  step w e w' ->
  w_cache_up w' = match e with CacheUp up => up | _ => w_cache_up w end.
Proof.
  destruct 1 as [r w response w' Hr| | | |]; try done.
  replace w' with (serve r w).2 by by rewrite Hr. apply serve_frame.
Qed.

Lemma step_coherent w e w' :
  step w e w' -> settled w -> writes_guarded (w_cache_up w) [e] = true ->
  cache_coherent w -> cache_coherent w'.
Proof.
  destruct 1 as [r w response w' Hr|dt w Hdt|up w|up w|w]; intros Hw Hg Hc; try done.
  - replace w' with (serve r w).2 by by rewrite Hr.
    apply serve_keeps_coherent; [done| |done].
    simpl in Hg. intros Hr'. rewrite Hr' in Hg. simpl in Hg. by destruct (w_cache_up w).
  - by apply advance_coherent.
  - by apply reclaim_coherent.
Qed.

(** C1: along every run that serves no write while the cache is down,
    the cache stays coherent with the table: whatever [users:all] holds
    is the dump of the rows of [users] as they are. The run may contain
    any requests, failures of the store, failures of the cache between
    writes, the passing of time and the reclaiming of expired keys. *)
Theorem run_coherent w es w' :
  run w es w' -> settled w -> writes_guarded (w_cache_up w) es = true ->
  cache_coherent w -> cache_coherent w'.
Proof.
  induction 1 as [w|w e w1 es w' Hstep Hrun IH]; [done|]. intros Hw Hg Hc.
  assert (Hg1 : writes_guarded (w_cache_up w) [e] = true /\
                writes_guarded (w_cache_up w1) es = true).
  { rewrite (step_cache_up _ _ _ Hstep). destruct e as [r ?| | | |]; simpl in *; auto.
    apply andb_true_iff in Hg as [-> ->]. done. }
  destruct Hg1 as [Hg1 Hg2].
  apply IH; [by eapply settled_step | done | by eapply step_coherent].
Qed.

(** ** Writes *)

Lemma serve_write_outcome r w :
  is_write r = true -> settled w -> write_outcome w (serve r w).
Proof.
  intros Hr Hw. rewrite serve_eq.
  destruct (view_write_outcome r w Hr (settled_ready w Hw)) as (response & Hv & Hcases).
  exists response. split; [done|]. exact Hcases.
Qed.

(** C7: a write that answers 200 or 201 has deleted [users:all]: the
    key is absent from then on, at every later time, until a read fills
    it again. *)
Theorem write_invalidates r w response w' t :
  is_write r = true -> settled w -> serve r w = (Ok response, w') ->
  status response = 200 \/ status response = 201 ->
  cache_lookup t (w_cache w') users_key = None.
Proof.
  intros Hr Hw Hs Hst. destruct (serve_write_outcome r w Hr Hw) as (resp & Hresp & Hcases).
  rewrite Hs in Hresp, Hcases. simpl in *. simplify_eq.
  destruct Hcases as [([|] & _)|[(_ & _ & _ & ->)|(-> & _)]]; try lia.
  - apply cache_lookup_remove_eq.
  - by destruct Hst.
Qed.

(** C9: with the cache up, a write that does not answer 200 or 201 (a
    400 for a missing field, a 500 for a constraint, a missing row, an
    unusable body or an unreachable store) has changed neither the
    table nor the cache. *)
Theorem failed_write_changes_nothing r w response w' :
  is_write r = true -> settled w -> w_cache_up w = true ->
  serve r w = (Ok response, w') ->
  status response <> 200 -> status response <> 201 ->
  w_db w' = w_db w /\ w_cache w' = w_cache w.
Proof.
  intros Hr Hw Hup Hs H200 H201.
  destruct (serve_write_outcome r w Hr Hw) as (resp & Hresp & Hcases).
  rewrite Hs in Hresp, Hcases. simpl in *. simplify_eq.
  destruct Hcases as [(_ & ? & ?)|[([|] & _)|(_ & _ & Hdown & _)]]; try done.
  congruence.
Qed.

(** No write touches the statistics: what [stats] holds after a
    write, at every time, is what it held before, so [get_stats] may
    answer with counts up to [stats_ttl] seconds old. *)
Theorem write_keeps_stats r w t :
  is_write r = true -> settled w ->
  cache_lookup t (w_cache (serve r w).2) stats_key = cache_lookup t (w_cache w) stats_key.
Proof.
  intros Hr Hw. destruct (serve_write_outcome r w Hr Hw) as (resp & _ & Hcases).
  destruct Hcases as [(_ & _ & ->)|[(_ & _ & _ & ->)|(_ & _ & _ & ->)]]; try done.
  by apply cache_lookup_remove_ne.
Qed.

(** ** The hit counter *)

(** No key other than [users:all] and [stats] is ever written. *)
Lemma view_other_keys r w k t :
  ready w -> k <> users_key -> k <> stats_key ->
  cache_lookup t (w_cache (view r w).2) k = cache_lookup t (w_cache w) k.
Proof.
  intros Hw Hu Hs. destruct (view_cache_cases r w Hw) as [-> | [-> | [-> | ->]]]; simpl.
  - done.
  - by rewrite cache_lookup_remove_ne.
  - by rewrite cache_lookup_store_ne.
  - by rewrite cache_lookup_store_ne.
Qed.

(** The key [cache:hits] is absent, now and later. *)
Definition hits_absent (w : World) : Prop :=
  forall t, w_now w <= t -> cache_lookup t (w_cache w) hits_key = None.

Lemma hits_absent_step w e w' : settled w -> hits_absent w -> step w e w' -> hits_absent w'.
Proof.
  intros Hw Hh. destruct 1 as [r w response w' Hr|dt w Hdt| | |w]; try done.
  - replace w' with (serve r w).2 by by rewrite Hr.
    destruct (view_frame r w) as [Hnow _]. intros t Ht.
    rewrite serve_eq in *. simpl in *.
    rewrite view_other_keys by (done || by apply settled_ready). apply Hh. lia.
  - intros t Ht. apply Hh. simpl in Ht. lia.
  - intros t Ht. simpl in *. rewrite cache_lookup_purge by done. by apply Hh.
Qed.

(** C37: the hit counter is always zero: no handler writes the key
    [cache:hits], so in every state a deployment reaches the key is
    absent and every [get_stats] that computes the statistics reports
    [cache_hits] as the number 0. *)
Theorem cache_hits_always_zero w :
  reachable w -> w_cache_up w = true -> w_db_up w = true ->
  cached (cache_lookup (w_now w) (w_cache w) stats_key) = None ->
  (serve GetStats w).1 =
    Ok (mkResponse 200 (stats_body (db_count (w_db w))
          (db_count_since (w_now w - recent_window) (w_db w)) (w_now w) None)).
Proof.
  intros Hr Hc Hdb Hl.
  assert (Hinv : settled w /\ hits_absent w).
  { clear Hc Hdb Hl. revert w Hr. apply reachable_invariant.
    - intros t0. split; [apply settled_init|]. intros t _. apply cache_lookup_empty.
    - intros w1 e w2 [Hs Hh] Hstep. split; [by eapply settled_step|].
      by eapply hits_absent_step. }
  rewrite serve_eq. simpl. rewrite get_stats_miss by done. simpl.
  unfold fresh_stats. by rewrite (proj2 Hinv (w_now w)) by lia.
Qed.

(** ** Transparency *)

(** Whether [get_users] will take the cached value. *)
Definition hit (w : World) : bool :=
  bool_decide (is_Some (cached (cache_lookup (w_now w) (w_cache w) users_key))).

Section Laws.
Context `{!JsonCodecLaws}.

(** C6: under the invariant the cache is transparent: with both
    backends up, [get_users] answers 200 with the rows of the table as
    they are, taken from the cache when [users:all] holds a value and
    from the table otherwise; [from_cache] says which. *)
Theorem get_users_transparent w :
  cache_coherent w -> w_cache_up w = true -> w_db_up w = true ->
  (serve GetUsers w).1 = Ok (users_response (fresh_users w) (hit w)).
Proof.
  intros Hc Hcu Hdb. rewrite serve_eq. simpl. unfold hit.
  destruct (cached (cache_lookup (w_now w) (w_cache w) users_key)) as [s|] eqn:Hl.
  - rewrite (get_users_hit _ s) by done. apply cached_Some in Hl as [Hl _].
    by rewrite (Hc s Hl), loads_dumps.
  - by rewrite get_users_miss.
Qed.

(** The world after a miss of [get_users], [dt] microseconds later. *)
Definition later (dt : Z) (w : World) : World :=
  advance dt (serve GetUsers w).2.

Lemma serve_get_users_miss w :
  w_session w = [] -> w_cache_up w = true -> w_db_up w = true ->
  cached (cache_lookup (w_now w) (w_cache w) users_key) = None ->
  serve GetUsers w =
    (Ok (users_response (fresh_users w) false), filled users_key users_ttl (fresh_users w) w).
Proof.
  intros Hs Hcu Hdb Hl. rewrite serve_eq. simpl. rewrite get_users_miss by done.
  unfold filled, set_session, set_cache. simpl. by rewrite Hs.
Qed.

(** C11: a hit follows a miss: once [get_users] has filled the key, the
    next [get_users], less than [users_ttl] seconds later and with no
    write in between, answers from the cache with the same list, and
    leaves the world as it is; the store is not asked, and need not be
    up. *)
Theorem get_users_hit_after_miss w dt :
  w_session w = [] -> w_cache_up w = true -> w_db_up w = true ->
  cached (cache_lookup (w_now w) (w_cache w) users_key) = None ->
  0 <= dt < seconds users_ttl ->
  forall up,
    serve GetUsers (set_db_up up (later dt w)) =
      (Ok (users_response (fresh_users w) true), set_db_up up (later dt w)).
Proof.
  intros Hs Hcu Hdb Hl Hdt up. unfold later. rewrite (serve_get_users_miss w) by done.
  rewrite serve_eq. simpl.
  rewrite (get_users_hit _ (dumps (fresh_users w))).
  - rewrite loads_dumps. unfold set_db_up, advance, filled, set_session. simpl. by rewrite Hs.
  - done.
  - simpl. rewrite cache_lookup_store_live by lia.
    apply cached_Some. split; [done | apply dumps_nonempty].
Qed.

End Laws.

(** C12: a miss follows the expiry: [users_ttl] seconds after the key
    was filled it is gone, and [get_users] computes the list from the
    table again and fills the key for another [users_ttl] seconds. *)
Theorem get_users_miss_after_expiry w dt :
  w_session w = [] -> w_cache_up w = true -> w_db_up w = true ->
  cached (cache_lookup (w_now w) (w_cache w) users_key) = None ->
  seconds users_ttl <= dt ->
  serve GetUsers (later dt w) =
    (Ok (users_response (fresh_users w) false),
     filled users_key users_ttl (fresh_users w) (later dt w)).
Proof.
  intros Hs Hcu Hdb Hl Hdt. unfold later. rewrite (serve_get_users_miss w) by done.
  rewrite serve_get_users_miss; try done.
  simpl. by rewrite cache_lookup_store_expired by lia.
Qed.

(** [get_user] goes to the table whatever the cache holds and
    whether or not the cache is up: its answer is the same for every
    keyspace, and it leaves the keyspace as it is. *)
Theorem get_user_bypasses_cache i w c up :
  (get_user i (set_cache_up up (set_cache c w))).1 = (get_user i w).1 /\
  w_cache (get_user i w).2 = w_cache w.
Proof.
  split; [|apply get_user_cache].
  destruct (w_db_up w) eqn:Hdb; [|by rewrite !get_user_db_down].
  destruct (db_get i (w_db w)) as [u|] eqn:Hg.
  - by rewrite !(get_user_found _ _ u).
  - by rewrite !get_user_missing.
Qed.

End Policy.
