(* ===== verification/Requests.v ===== *)
(** * What each request does

    The behaviour of the routes of [app.py] as a client sees it, one
    request after another: what a created user reads back as, what
    happens to a duplicate, to a body without the required fields, to a
    write on a row that is not there, to a read while the store is
    down, and what the statistics count.  Every theorem is about
    [serve], the whole of a request, from a state between requests
    ([settled]). *)

From stdpp Require Import base tactics option strings numbers list gmap.
From S2P Require Import Prelude Python Cache Store Session World Handlers Server.
From S2P Require Import Invariants Policy.

Open Scope string_scope.
Open Scope list_scope.
Open Scope Z_scope.

Section Requests.
Context `{Runtime} `{JsonCodec}.
Implicit Types (w : World) (r : request) (response : Response) (i : Z).

(** ** Reading one user *)

Lemma set_session_nil w s : w_session w = [] -> set_session [] (set_session s w) = w.
Proof. destruct w. simpl. by intros ->. Qed.

Lemma serve_get_user_found i w u :
  w_session w = [] -> w_db_up w = true -> db_get i (w_db w) = Some u ->
  serve (GetUser i) w = (Ok (mkResponse 200 (User.to_dict u)), w).
Proof.
  intros Hs Hdb Hg. rewrite serve_eq. simpl.
  rewrite (get_user_found _ _ u) by done. simpl. by rewrite set_session_nil.
Qed.

Lemma serve_get_user_missing i w :
  w_session w = [] -> w_db_up w = true -> db_get i (w_db w) = None ->
  serve (GetUser i) w = (Ok (error_response 404 NotFound), w).
Proof.
  intros Hs Hdb Hg. rewrite serve_eq. simpl.
  rewrite get_user_missing by done. simpl. by rewrite <- (set_session_nil w []) at 2.
Qed.

(** ** Creating *)

(** What [create_user] did when it answers 201. *)
Lemma create_user_created b w response w' :
  ready w -> create_user b w = (Ok response, w') -> status response = 201 ->
  exists data u e row,
    b = Body data /\
    py_getitem "username" data = Ok u /\ py_getitem "email" data = Ok e /\
    db_insert u e (w_now w) (w_db w) = Ok (row, w_db w') /\
    response = created_response (User.to_dict row) /\
    w_db_up w = true.
Proof.
  intros [Hs Hwf] Hrun Hst. revert Hrun.
  create_user_cases b w Hs Hwf; intros [= <- <-]; try done.
  by exists data, u, e, row.
Qed.

(** C13: a created user reads back: when [create_user] answers 201, the
    row it describes has the next id of the sequence and the time of
    the request as [created_at], it is appended to the table, its
    columns are the values the driver bound from the body, and a
    [get_user] of its id answers 200 with the same description. *)
Theorem create_then_get b w response w' :
  settled w -> serve (CreateUser b) w = (Ok response, w') -> status response = 201 ->
  exists data u e row,
    b = Body data /\
    py_getitem "username" data = Ok u /\ py_getitem "email" data = Ok e /\
    bind_param u = Ok (Some (User.username row)) /\
    bind_param e = Ok (Some (User.email row)) /\
    User.id row = next_id (w_db w) /\ User.created_at row = w_now w /\
    rows (w_db w') = rows (w_db w) ++ [row] /\
    response = created_response (User.to_dict row) /\
    serve (GetUser (User.id row)) w' = (Ok (mkResponse 200 (User.to_dict row)), w').
Proof.
  intros Hw Hs Hst. rewrite serve_eq in Hs.
  destruct (view (CreateUser b) w) as [res w1] eqn:Hv. simpl in Hs, Hv. simplify_eq.
  destruct (create_user_created b w response w1 (settled_ready w Hw) Hv Hst)
    as (data & u & e & row & -> & Hu & He & Hi & -> & Hdb).
  destruct (db_get_insert _ _ _ _ _ _ (proj2 Hw) Hi) as [Hrow _].
  pose proof Hi as (us & es & Hbu & Hbe & _ & _ & _ & _ & Hr & Hd)%db_insert_Ok.
  exists data, u, e, row. simpl. rewrite Hd. rewrite Hr at 1 2 3 4. simpl.
  repeat split; try done.
  apply serve_get_user_found; try done. simpl.
  destruct (view_frame (CreateUser (Body data)) w) as (_ & Hup & _).
  simpl in Hup. rewrite Hv in Hup. simpl in Hup. congruence.
Qed.




(** C33: the required fields: a JSON object in which [username] or
    [email] is missing or falsy ([null], [false], [0], the empty
    string, list or object) is answered 400 with the message of line
    118, before the store or the cache is touched. *)
Theorem create_user_requires_fields w kv :
  truthy (default JNull (assoc "username" kv)) &&
    truthy (default JNull (assoc "email" kv)) = false ->
  serve (CreateUser (Body (JObj kv))) w =
    (Ok (mkResponse 400 (JObj [("error", JStr "Username and email are required")])),
     set_session [] w).
Proof.
  intros Ht. rewrite serve_eq. simpl. rewrite create_user_invalid; [done|].
  unfold missing_fields, py_get. simpl.
  destruct (truthy (default JNull (assoc "username" kv))); [|done].
  simpl in *. by rewrite Ht.
Qed.

(** ** Deleting and updating *)

(** C24: a deleted user is gone: deleting an existing row answers 200,
    removes that row and no other, and a [get_user] of its id then
    answers 404. *)
Theorem delete_then_get i w u :
  settled w -> w_db_up w = true -> w_cache_up w = true ->
  db_get i (w_db w) = Some u ->
  exists w',
    serve (DeleteUser i) w = (Ok deleted_response, w') /\
    w_db w' = db_delete i (w_db w) /\
    (forall j, j <> i -> db_get j (w_db w') = db_get j (w_db w)) /\
    serve (GetUser i) w' = (Ok (error_response 404 NotFound), w').
Proof.
  intros [Hs Hwf] Hdb Hc Hg. eexists. rewrite serve_eq. simpl.
  rewrite (delete_user_run _ _ u), Hc by (done || by rewrite Hs). simpl.
  repeat split; try done.
  - intros j Hj. by apply db_get_delete_ne.
  - apply serve_get_user_missing; try done. simpl. apply db_get_delete_eq.
Qed.

(** C32: a write on a row that is not there answers 500, not 404: the
    [NotFound] that [get_or_404] raises is caught by the handler's own
    [except Exception], which rolls back and reports it as an internal
    error. *)
Theorem write_to_missing_row_is_500 i b w :
  w_db_up w = true -> db_get i (w_db w) = None ->
  (serve (UpdateUser i b) w).1 = Ok (error_response 500 NotFound) /\
  (serve (DeleteUser i) w).1 = Ok (error_response 500 NotFound).
Proof.
  intros Hdb Hg. rewrite !serve_eq. simpl.
  by rewrite update_user_missing, delete_user_missing.
Qed.

(** C39: a read of one user while the store is down answers 404, as if
    the user did not exist: [get_user] reports every exception of its
    query with that status. *)
Theorem get_user_outage_is_404 i w :
  w_db_up w = false ->
  serve (GetUser i) w = (Ok (error_response 404 OperationalError), set_session [] w).
Proof. intros Hdb. rewrite serve_eq. simpl. by rewrite get_user_db_down. Qed.

(** What [update_user] did when it answers 200. *)
Lemma update_user_updated i b w response w' :
  ready w -> update_user i b w = (Ok response, w') -> status response = 200 ->
  exists data old ou oe new,
    b = Body data /\ db_get i (w_db w) = Some old /\
    present "username" data = Ok ou /\ present "email" data = Ok oe /\
    flush_update old ou oe (w_db w) = Ok (w_db w') /\
    db_get i (w_db w') = Some new /\
    response = updated_response (User.to_dict new).
Proof.
  intros [Hs Hwf] Hrun Hst. revert Hrun.
  update_user_cases i b w Hs Hwf; intros [= <- <-]; try done.
  by exists data, old, ou, oe, new.
Qed.

(** C31: an update keeps the identity of the row: when [update_user]
    answers 200, the row is still there under the same id and with the
    same [created_at], the answer describes it as it is now, no other
    row has changed, and the id sequence has not moved. *)
Theorem update_user_keeps_identity i b w response w' :
  settled w -> serve (UpdateUser i b) w = (Ok response, w') -> status response = 200 ->
  exists old new,
    db_get i (w_db w) = Some old /\ db_get i (w_db w') = Some new /\
    User.id new = i /\ User.created_at new = User.created_at old /\
    response = updated_response (User.to_dict new) /\
    next_id (w_db w') = next_id (w_db w) /\
    (forall j, j <> i -> db_get j (w_db w') = db_get j (w_db w)).
Proof.
  intros Hw Hs Hst. rewrite serve_eq in Hs.
  destruct (view (UpdateUser i b) w) as [res w1] eqn:Hv. simpl in Hs, Hv. simplify_eq.
  destruct (update_user_updated i b w response w1 (settled_ready w Hw) Hv Hst)
    as (data & old & ou & oe & new & -> & Hg & Hu & He & Hf & Hnew & ->).
  pose proof Hg as [_ Hid]%db_get_Some. subst i.
  destruct (flush_update_get _ _ _ _ _ (proj2 Hw) Hg Hf) as (new' & Hnew' & ? & ? & ?).
  exists old, new. simpl. simplify_eq. repeat split; try done.
  by apply flush_update_next_id in Hf.
Qed.

(** An update that names no field is accepted: a PUT with the
    empty object on an existing row answers 200 with the row as it is,
    writes nothing to the table, and still deletes [users:all]. *)
Theorem update_user_empty_is_200 i w u :
  settled w -> w_db_up w = true -> w_cache_up w = true ->
  db_get i (w_db w) = Some u ->
  serve (UpdateUser i (Body (JObj []))) w =
    (Ok (updated_response (User.to_dict u)),
     set_cache (cache_remove users_key (w_cache w)) w).
Proof.
  intros [Hs Hwf] Hdb Hc Hg. rewrite serve_eq. simpl.
  rewrite (update_user_run _ _ _ u None None) by (done || by rewrite Hs).
  cbv zeta. change (flush_update u None None (w_db w)) with (Ok (E:=exn) (w_db w)).
  rewrite Hc, Hg. destruct w. simpl in *. by subst.
Qed.

(** ** The cache is down *)

(** C38: with the cache down the two cached routes answer 500, although
    the store is up and holds the answer: the exception of [cache.get]
    reaches the handler's [except], which reports it; nothing is read
    from the table and nothing changes. *)
Theorem cache_outage_is_500 w :
  w_cache_up w = false ->
  serve GetUsers w = (Ok (error_response 500 ConnectionError), set_session [] w) /\
  serve GetStats w = (Ok (error_response 500 ConnectionError), set_session [] w).
Proof.
  intros Hc. rewrite !serve_eq. simpl.
  by rewrite get_users_cache_down, get_stats_cache_down.
Qed.

(** ** Statistics *)

(** C35: what the statistics count: on a miss with both backends up,
    [get_stats] answers 200 with the number of rows of the table, the
    number of those created in the last seven days, which is between
    zero and the total, the time of the request and the value of
    [cache:hits] (zero when the key is absent), and stores the dump of
    that answer under [stats] for [stats_ttl] seconds. *)
Theorem get_stats_counts w :
  w_session w = [] -> w_cache_up w = true -> w_db_up w = true ->
  cached (cache_lookup (w_now w) (w_cache w) stats_key) = None ->
  let total := Z.of_nat (length (rows (w_db w))) in
  let recent := db_count_since (w_now w - seconds (7 * 86400)) (w_db w) in
  let stats := stats_body total recent (w_now w)
                 (cache_lookup (w_now w) (w_cache w) hits_key) in
  0 <= recent <= total /\
  serve GetStats w = (Ok (mkResponse 200 stats), filled stats_key stats_ttl stats w).
Proof.
  intros Hs Hc Hdb Hl. cbv zeta. split; [apply db_count_since_le|].
  rewrite serve_eq. simpl. rewrite get_stats_miss by done.
  unfold filled, set_session, set_cache. simpl. by rewrite Hs.
Qed.


End Requests.
