(* ===== verification/Spec.v ===== *)
(** * The service without its cache: the specification

    What the routes of [app.py] promise a client when nothing fails: a
    service over the [users] table alone.  There is no cache, no
    session and no backend that can be down; a request is a function of
    the table and the time.  [get_users] always lists the table;
    [get_stats] promises a 200 with a body of statistics and no
    particular counts, since the service may answer with counts up to
    [stats_ttl] seconds old.

    [Refinement] proves that the handlers implement this
    specification. *)

From stdpp Require Import base tactics option strings numbers list gmap.
From S2P Require Import Prelude Python Cache Store Session World Handlers Server.

Open Scope string_scope.
Open Scope list_scope.
Open Scope Z_scope.

(** The state of the specification: the table and the clock. *)
Record Abstract : Type := mkAbstract {
  a_db : Database;
  a_now : Z;
}.

Section Spec.
Context `{Runtime}.

(** ** The routes *)

Definition spec_get_users (db : Database) : Response :=
  mkResponse 200 (JObj [("users", JArr (User.to_dict <$> rows db));
                        ("from_cache", JBool false)]).

Definition spec_get_user (i : Z) (db : Database) : Response :=
  match db_get i db with
  | Some u => mkResponse 200 (User.to_dict u)
  | None => error_response 404 NotFound
  end.

(** The row to insert, when the body names one. *)
Definition new_user (b : body) : result exn (option (json * json)) :=
  data <-? get_json b ;;
  missing <-? missing_fields data ;;
  if missing then Ok None
  else
    username <-? py_getitem "username" data ;;
    email <-? py_getitem "email" data ;;
    Ok (Some (username, email)).

Definition spec_create_user (b : body) (now : Z) (db : Database) : Response * Database :=
  match new_user b with
  | Ok None =>
      (mkResponse 400 (JObj [("error", JStr "Username and email are required")]), db)
  | Ok (Some (username, email)) =>
      match db_insert username email now db with
      | Ok (row, db') => (created_response (User.to_dict row), db')
      | Raise e => (error_response 500 e, db)
      end
  | Raise e => (error_response 500 e, db)
  end.

(** The columns an update names. *)
Definition changes (b : body) : result exn (option json * option json) :=
  data <-? get_json b ;;
  username <-? present "username" data ;;
  email <-? present "email" data ;;
  Ok (username, email).

Definition spec_update_user (i : Z) (b : body) (db : Database) : Response * Database :=
  match db_get i db with
  | None => (error_response 500 NotFound, db)
  | Some old =>
      match ue <-? changes b ;; flush_update old ue.1 ue.2 db with
      | Ok db' =>
          (updated_response (User.to_dict (default old (db_get i db'))), db')
      | Raise e => (error_response 500 e, db)
      end
  end.

Definition spec_delete_user (i : Z) (db : Database) : Response * Database :=
  match db_get i db with
  | None => (error_response 500 NotFound, db)
  | Some _ => (deleted_response, db_delete i db)
  end.

(** The answer the specification promises, if it promises one, and the
    table after the request. *)
Definition spec (r : request) (a : Abstract) : option Response * Database :=
  let db := a_db a in
  match r with
  | Health =>
      (Some (mkResponse 200 (JObj [
         ("status", JStr "healthy"); ("service", JStr "backend");
         ("timestamp", JStr (isoformat (a_now a)));
         ("checks", JObj [("database", JStr "healthy"); ("redis", JStr "healthy")])])), db)
  | GetUsers => (Some (spec_get_users db), db)
  | GetUser i => (Some (spec_get_user i db), db)
  | CreateUser b => let out := spec_create_user b (a_now a) db in (Some out.1, out.2)
  | UpdateUser i b => let out := spec_update_user i b db in (Some out.1, out.2)
  | DeleteUser i => let out := spec_delete_user i db in (Some out.1, out.2)
  | GetStats => (None, db)
  | NoRoute => (Some (mkResponse 404 (JObj [("error", JStr "Not found")])), db)
  end.

(** ** Agreement of answers *)

(** A JSON object without the field that tells where a list came
    from. *)
Definition without_origin (v : json) : json :=
  match v with
  | JObj kv => JObj (filter (fun p => p.1 <> "from_cache") kv)
  | _ => v
  end.

(** Two answers agree when a client that ignores [from_cache] cannot
    tell them apart. *)
Definition agrees (r1 r2 : Response) : Prop :=
  status r1 = status r2 /\ without_origin (payload r1) = without_origin (payload r2).

(** The answer [response] is one the specification allows. *)
Definition allowed (promised : option Response) (response : Response) : Prop :=
  match promised with
  | Some r => agrees response r
  | None => exists total recent timestamp hits,
      response = mkResponse 200 (stats_body total recent timestamp hits)
  end.

(** ** The specification as a machine *)

(** The events of the environment that the specification knows: time
    passes; recoveries and the reclaiming of keys happen and change
    nothing.  It has no step for a failure. *)
Inductive spec_step : Abstract -> event -> Abstract -> Prop :=
| spec_serve r a response :
    allowed (spec r a).1 response ->
    spec_step a (Served r response) (mkAbstract (spec r a).2 (a_now a))
| spec_tick dt a :
    0 <= dt -> spec_step a (Tick dt) (mkAbstract (a_db a) (a_now a + dt))
| spec_store a : spec_step a (StoreUp true) a
| spec_cache a : spec_step a (CacheUp true) a
| spec_reclaim a : spec_step a Reclaim a.

(** The runs of the specification. *)
Definition spec_run : Abstract -> list event -> Abstract -> Prop := trace spec_step.

End Spec.

#[export] Instance agrees_equivalence : Equivalence agrees.
Proof.
  split.
  - by intros r.
  - by intros r1 r2 [? ?].
  - intros r1 r2 r3 [? ?] [? ?]. split; congruence.
Qed.
