(* ===== verification/Refinement.v ===== *)
(** * The handlers implement the specification

    With both backends up, every request served from a settled and
    coherent world gets the answer [Spec.spec] promises, up to the
    field [from_cache], and leaves the table [spec] says; and the world
    after it is settled and coherent again.  So a client of a
    deployment whose backends never fail cannot tell the service, with
    its cache and its session, from the specification over the table
    alone. *)

From stdpp Require Import base tactics option strings numbers list gmap.
From S2P Require Import Prelude Python Cache Store Session World Handlers Server.
From S2P Require Import Invariants Policy Requests Spec.

Open Scope string_scope.
Open Scope list_scope.
Open Scope Z_scope.

Section Refinement.
Context `{Runtime} `{JsonCodec}.
Implicit Types (w : World) (r : request) (a : Abstract).

(** The state of the specification a world stands for. *)
Definition abstraction (w : World) : Abstract := mkAbstract (w_db w) (w_now w).

(** Both backends answer. *)
Definition up (w : World) : Prop := w_db_up w = true /\ w_cache_up w = true.

(** ** The writes *)

Lemma create_user_refines b w :
  ready w -> up w ->
  (create_user b w).1 = Ok (spec_create_user b (w_now w) (w_db w)).1 /\
  w_db (create_user b w).2 = (spec_create_user b (w_now w) (w_db w)).2.
Proof.
  intros [Hs Hwf] [Hdb' Hc']. unfold spec_create_user, new_user.
  create_user_cases b w Hs Hwf; try congruence; cbn [get_json rbind];
    rewrite ?Hm; cbn [rbind]; rewrite ?Hu, ?He; cbn [rbind]; rewrite ?Hi; done.
Qed.

Lemma update_user_refines i b w :
  ready w -> up w ->
  (update_user i b w).1 = Ok (spec_update_user i b (w_db w)).1 /\
  w_db (update_user i b w).2 = (spec_update_user i b (w_db w)).2.
Proof.
  intros [Hs Hwf] [Hdb' Hc']. unfold spec_update_user, changes.
  update_user_cases i b w Hs Hwf; try congruence; rewrite ?Hg; cbn [get_json rbind];
    rewrite ?Hu; cbn [rbind]; rewrite ?He; cbn [rbind fst snd]; rewrite ?Hf, ?Hnew; done.
Qed.

Lemma delete_user_refines i w :
  ready w -> up w ->
  (delete_user i w).1 = Ok (spec_delete_user i (w_db w)).1 /\
  w_db (delete_user i w).2 = (spec_delete_user i (w_db w)).2.
Proof.
  intros [Hs Hwf] [Hdb' Hc']. unfold spec_delete_user.
  delete_user_cases i w Hs Hwf; by try congruence.
Qed.

(** ** The reads *)

Lemma agrees_users users b1 b2 : agrees (users_response users b1) (users_response users b2).
Proof. done. Qed.

Lemma health_check_refines w :
  up w -> (health_check w).1 = Ok (default (mkResponse 0 JNull) (spec Health (abstraction w)).1).
Proof.
  intros [Hdb Hc]. unfold health_check, bind. rewrite probe_db, probe_cache.
  by rewrite Hdb, Hc.
Qed.

Lemma get_user_refines i w :
  w_db_up w = true -> (get_user i w).1 = Ok (spec_get_user i (w_db w)).
Proof.
  intros Hdb. unfold spec_get_user. destruct (db_get i (w_db w)) as [u|] eqn:Hg.
  - by rewrite (get_user_found _ _ u).
  - by rewrite get_user_missing.
Qed.

(** What [stats] holds, if anything, is the dump of a body of
    statistics. *)
Definition stats_shaped (w : World) : Prop :=
  forall s, cache_lookup (w_now w) (w_cache w) stats_key = Some s ->
    exists total recent timestamp hits, s = dumps (stats_body total recent timestamp hits).

Section Laws.
Context `{!JsonCodecLaws}.

Lemma get_users_refines w :
  cache_coherent w -> up w ->
  exists b, (get_users w).1 = Ok (users_response (fresh_users w) b).
Proof.
  intros Hco [Hdb Hc].
  destruct (cached (cache_lookup (w_now w) (w_cache w) users_key)) as [s|] eqn:Hl.
  - exists true. rewrite (get_users_hit _ s) by done. apply cached_Some in Hl as [Hl _].
    by rewrite (Hco s Hl), loads_dumps.
  - exists false. by rewrite get_users_miss.
Qed.

Lemma get_stats_refines w :
  stats_shaped w -> up w -> exists response, (get_stats w).1 = Ok response /\ allowed None response.
Proof.
  intros Hsh [Hdb Hc].
  destruct (cached (cache_lookup (w_now w) (w_cache w) stats_key)) as [s|] eqn:Hl.
  - rewrite (get_stats_hit _ s) by done. apply cached_Some in Hl as [Hl _].
    destruct (Hsh s Hl) as (total & recent & timestamp & hits & ->).
    rewrite loads_dumps. eexists. split; [done|]. by exists total, recent, timestamp, hits.
  - rewrite get_stats_miss by done. eexists. split; [done|]. unfold fresh_stats.
    by eexists _, _, _, _.
Qed.

(** Every request gets an answer the specification allows and leaves
    the table the specification says. *)
Lemma view_refines r w :
  ready w -> cache_coherent w -> stats_shaped w -> up w ->
  exists response, (view r w).1 = Ok response /\
    allowed (spec r (abstraction w)).1 response /\
    w_db (view r w).2 = (spec r (abstraction w)).2.
Proof.
  intros Hw Hco Hsh Hup. destruct r; simpl.
  - eexists. split; [by apply health_check_refines|].
    split; [done | by rewrite health_check_world].
  - destruct (get_users_refines w Hco Hup) as [b Hb]. eexists. split; [done|].
    split; [apply agrees_users | by apply (view_read_db GetUsers)].
  - eexists. split; [apply get_user_refines, Hup|].
    split; [done | by apply (view_read_db (GetUser user_id))].
  - destruct (create_user_refines data w Hw Hup) as [-> ->]. by eexists.
  - destruct (update_user_refines user_id data w Hw Hup) as [-> ->]. by eexists.
  - destruct (delete_user_refines user_id w Hw Hup) as [-> ->]. by eexists.
  - destruct (get_stats_refines w Hsh Hup) as (response & ? & ?). exists response.
    split; [done|]. split; [done | by apply (view_read_db GetStats)].
  - by eexists.
Qed.

(** ** The simulation *)

(** What relates a world to a state of the specification: the world is
    between two requests, its cache is coherent and well shaped, both
    backends answer, and the state is its table and its clock. *)
Definition related (w : World) (a : Abstract) : Prop :=
  settled w /\ cache_coherent w /\ stats_shaped w /\ up w /\ a = abstraction w.

(** The events the specification knows: all but the failures. *)
Definition calm (e : event) : Prop :=
  e <> StoreUp false /\ e <> CacheUp false.

#[export] Instance calm_dec e : Decision (calm e).
Proof. unfold calm. apply _. Defined.

Lemma view_stats_shaped r w : ready w -> stats_shaped w -> stats_shaped (view r w).2.
Proof.
  intros Hw Hsh s. destruct (view_frame r w) as [-> _].
  destruct (view_cache_cases r w Hw) as [-> | [-> | [-> | ->]]]; simpl.
  - apply Hsh.
  - rewrite cache_lookup_remove_ne by done. apply Hsh.
  - rewrite cache_lookup_store_ne by done. apply Hsh.
  - rewrite cache_lookup_store_eq. case_match; [|done]. intros [= <-].
    unfold fresh_stats. by eexists _, _, _, _.
Qed.

Lemma related_init t0 : related (init_world t0) (mkAbstract create_all t0).
Proof.
  split; [apply settled_init|]. repeat split; try done.
  all: intros s; simpl; by rewrite cache_lookup_empty.
Qed.

Lemma serve_related r w response w' :
  serve r w = (Ok response, w') -> related w (abstraction w) ->
  allowed (spec r (abstraction w)).1 response /\
  related w' (mkAbstract (spec r (abstraction w)).2 (w_now w)).
Proof.
  intros Hs (Hw & Hco & Hsh & Hup & _).
  destruct (view_refines r w (settled_ready w Hw) Hco Hsh Hup) as (resp & Hresp & Hal & Hdb).
  rewrite serve_eq, Hresp in Hs. simplify_eq. split; [done|].
  destruct (view_frame r w) as (Hnow & Hdbu & Hcu).
  split; [|split; [|split; [|split]]].
  - split; [done | by apply view_wf, Hw].
  - apply (coherent_ext (view r w).2); try done.
    apply view_coherent; [by apply settled_ready | by intros; apply Hup | done].
  - intros s. simpl. by apply view_stats_shaped; [apply settled_ready|].
  - unfold up. simpl. rewrite Hdbu, Hcu. exact Hup.
  - unfold abstraction. simpl. by rewrite Hdb, Hnow.
Qed.

Lemma step_simulation w e w' :
  step w e w' -> calm e ->
  forall a, related w a -> exists a', spec_step a e a' /\ related w' a'.
Proof.
  intros Hstep [Hs Hc] a Hrel. pose proof Hrel as (Hw & Hco & Hsh & [Hdb Hca] & ->).
  destruct Hstep as [r w response w' Hr|dt w Hdt|[] w|[] w|w]; try done.
  - destruct (serve_related r w response w' Hr Hrel) as [Hal Hrel'].
    eexists. split; [by constructor | done].
  - eexists. split; [by constructor|].
    split; [exact Hw|]. split; [by apply advance_coherent|]. split; [|done].
    intros s Hl. apply Hsh. eapply cache_lookup_mono; [|exact Hl]. simpl. lia.
  - exists (abstraction w). split; [constructor|]. destruct w. simpl in *. by subst.
  - exists (abstraction w). split; [constructor|]. destruct w. simpl in *. by subst.
  - exists (abstraction w). split; [constructor|].
    split; [exact Hw|]. split; [by apply reclaim_coherent|]. split; [|done].
    intros s. simpl. rewrite cache_lookup_purge by lia. apply Hsh.
Qed.

(** C2: the service implements its specification: along every run in
    which no backend fails, from a world related to a state of the
    specification (a fresh deployment is), the specification has a run
    with the same events, so every answer the service gave is the
    answer of a service over the table alone, up to [from_cache], and
    the worlds stay related, so the table is the one the specification
    computes. *)
Theorem service_refines_spec w es w' a :
  run w es w' -> Forall calm es -> related w a ->
  exists a', spec_run a es a' /\ related w' a'.
Proof.
  intros Hrun%run_trace Hcalm Hrel.
  by apply (simulation_trace step spec_step calm related step_simulation w es w').
Qed.

End Laws.

End Refinement.
