(* ===== verification/App.v ===== *)
(** * The application

    What the object [app] of line 10 of [app.py] does with a request of
    the server, from its method, its path and its body to its answer:
    the URL rules choose a view ([Routing.route]); the view runs under
    the configuration, with the error handler of line 214 and the
    teardown of the session ([Config.serve_under]); a method that no
    rule of the path is registered for is answered 405 and [OPTIONS] is
    answered by Flask itself, both without a view being run.

    The theorems are those a client relies on that knows HTTP and not
    the handlers.  Every request is answered, under every
    configuration.  The methods mean what HTTP says they mean: [GET],
    [HEAD], [OPTIONS] and the methods the application does not know
    leave the table as it is; [POST] appends at most one row and
    changes none; [PUT] changes rows in place, none appears or
    disappears, and none changes its id or the time it was created;
    [DELETE] removes rows and changes none.

    The headers of an answer (those of [CORS(app)], line 11, and the
    [Allow] header apart) and the dropping of the body of the answer to
    [HEAD] are not modelled. *)

From stdpp Require Import base tactics option strings numbers list gmap.
From S2P Require Import Prelude Python Cache Store Session World Handlers Server.
From S2P Require Import Config Routing Invariants Policy Spec Refinement.

Open Scope string_scope.
Open Scope list_scope.
Open Scope Z_scope.

(** ** Answers *)

(** What the server gets back from the application: the response of a
    view or of an error handler; the answer of Flask to [OPTIONS], with
    the methods of the rules of the path; its answer to a method that
    none of them is registered for; an exception that is passed on, in
    debug mode. *)
Inductive app_answer : Type :=
| Answered (response : Response)
| Allowed (allow : list Method)
| Refused (allow : list Method)
| Propagated.

#[export] Instance app_answer_eq_dec : EqDecision app_answer.
Proof. solve_decision. Defined.

(** The status line of an answer. *)
Definition app_status (a : app_answer) : Z :=
  match a with
  | Answered response => status response
  | Allowed _ => 200
  | Refused _ => 405
  | Propagated => 500
  end.

(** ** What a method may do to the table *)

(** An UPDATE leaves a row its id and the time it was created. *)
Definition same_identity (u u' : User.t) : Prop :=
  User.id u' = User.id u /\ User.created_at u' = User.created_at u.

#[export] Instance same_identity_dec u u' : Decision (same_identity u u').
Proof. unfold same_identity. apply _. Defined.

Definition method_effect (m : Method) (db db' : Database) : Prop :=
  match m with
  | POST =>
      rows db `prefix_of` rows db' /\
      (length (rows db') <= S (length (rows db)))%nat /\
      next_id db <= next_id db'
  | PUT => Forall2 same_identity (rows db) (rows db') /\ next_id db' = next_id db
  | DELETE => rows db' `sublist_of` rows db /\ next_id db' = next_id db
  | _ => db' = db
  end.

#[export] Instance method_effect_dec m db db' : Decision (method_effect m db db').
Proof. destruct m; simpl; apply _. Defined.

Section App.
Context `{Runtime} `{JsonCodec}.
Implicit Types (w : World) (r : request) (c : Config) (m : Method) (db : Database).

(** ** The application *)

Definition app c m (path : list string) (data : body) : Py app_answer :=
  match route m path data with
  | Dispatch r =>
      response <- serve_under c r ;;
      ret (from_option Answered Propagated response)
  | Automatic allow => teardown ;; ret (Allowed allow)
  | NotAllowed allow => teardown ;; ret (Refused allow)
  end.

(** ** Facts *)

(** A request that is dispatched is served as [serve] serves it. *)
Lemma app_dispatch c m path data r w :
  route m path data = Dispatch r ->
  exists response, app c m path data w = (Ok (Answered response), (serve r w).2) /\
                   serve r w = (Ok response, (serve r w).2).
Proof.
  intros Hr. destruct (serve_under_any c r w) as (response & Hu & Hs).
  exists response. split; [|done]. unfold app, bind, ret. by rewrite Hr, Hu.
Qed.

(** A request that is not dispatched changes nothing but the session,
    which it closes. *)
Lemma app_no_view c m path data w :
  (forall r, route m path data <> Dispatch r) ->
  (app c m path data w).2 = set_session [] w /\
  exists allow, (app c m path data w).1 = Ok (Allowed allow) \/
                (app c m path data w).1 = Ok (Refused allow).
Proof.
  intros Hr. unfold app. destruct (route m path data) as [r|allow|allow]; [by destruct (Hr r)|..];
    (split; [done|]); exists allow; [by left | by right].
Qed.

(** *** The table after a view *)

(** The table a view leaves is the table it found or the table of the
    specification, whether the cache answers or not. *)
Lemma view_table r w :
  ready w ->
  w_db (view r w).2 = w_db w \/ w_db (view r w).2 = (spec r (abstraction w)).2.
Proof.
  intros [Hs Hwf]. destruct (is_write r) eqn:Hr; [|left; by apply view_read_db].
  destruct r as [| | |b|i b|i| |]; try done; simpl;
    unfold spec_create_user, new_user, spec_update_user, changes, spec_delete_user.
  - create_user_cases b w Hs Hwf; try (by left); right; cbn [get_json rbind];
      rewrite ?Hm; cbn [rbind]; rewrite ?Hu, ?He; cbn [rbind]; by rewrite ?Hi.
  - update_user_cases i b w Hs Hwf; try (by left); right; rewrite ?Hg; cbn [get_json rbind];
      rewrite ?Hu; cbn [rbind]; rewrite ?He; cbn [rbind fst snd]; by rewrite ?Hf.
  - delete_user_cases i w Hs Hwf; try (by left); right; by rewrite ?Hg.
Qed.

(** *** The table of the specification *)

Lemma method_effect_refl m db : method_effect m db db.
Proof.
  destruct m; simpl; try done; repeat split; try done; try lia.
  by apply Forall_Forall2_diag, Forall_forall.
Qed.

(** [HEAD] does what [GET] does. *)
Lemma method_effect_rule m db db' :
  method_effect (rule_method m) db db' -> method_effect m db db'.
Proof. by destruct m. Qed.

(** The rows after an UPDATE are the rows before it, one of them with
    other columns. *)
Lemma replace_row_identity old new db :
  db_wf db -> db_get (User.id new) db = Some old -> same_identity old new ->
  Forall2 same_identity (rows db) (replace_row new (rows db)).
Proof.
  intros (_ & Hid & _) Hget Hsame. unfold replace_row.
  apply Forall2_fmap_r, Forall_Forall2_diag, Forall_forall. intros u Hin. simpl.
  destruct (Z.eqb_spec (User.id u) (User.id new)) as [Heq|]; [|done].
  apply (db_get_elem _ _ Hid) in Hin. rewrite Heq in Hin. by simplify_eq.
Qed.

Lemma spec_create_user_effect b now db :
  method_effect POST db (spec_create_user b now db).2.
Proof.
  unfold spec_create_user. destruct (new_user b) as [[[username email]|]|];
    try apply method_effect_refl.
  destruct (db_insert _ _ _ _) as [[row db']|] eqn:Hi; [|apply method_effect_refl].
  apply db_insert_Ok in Hi as (us & es & _ & _ & _ & _ & _ & _ & _ & ->). simpl.
  split; [by apply prefix_app_r|]. rewrite length_app. simpl. lia.
Qed.

Lemma spec_update_user_effect i b db :
  db_wf db -> method_effect PUT db (spec_update_user i b db).2.
Proof.
  intros Hwf. unfold spec_update_user. destruct (db_get i db) as [old|] eqn:Hget;
    [|apply method_effect_refl].
  destruct (changes b) as [[u e]|]; cbn [rbind fst snd]; [|apply method_effect_refl].
  destruct (flush_update old u e db) as [db'|] eqn:Hf; [|apply method_effect_refl].
  cbn [snd]. apply flush_update_Ok in Hf as [(-> & _)|[new Hupd]]; [apply method_effect_refl|].
  apply db_update_Ok in Hupd as (old' & ue & Hold & _ & -> & ->). simpl. split; [|done].
  pose proof Hold as [_ Hid]%db_get_Some.
  apply (replace_row_identity old'); [done|by rewrite with_columns_id, Hid|].
  split; [apply with_columns_id | done].
Qed.

Lemma spec_delete_user_effect i db : method_effect DELETE db (spec_delete_user i db).2.
Proof.
  unfold spec_delete_user. destruct (db_get i db); [|apply method_effect_refl].
  simpl. split; [apply sublist_filter | done].
Qed.

(** The table the specification computes for a request is one that the
    method of the request allows. *)
Lemma spec_effect r (a : Abstract) :
  db_wf (a_db a) -> method_effect (method_of r) (a_db a) (spec r a).2.
Proof.
  intros Hwf. destruct r; simpl; try done.
  - apply spec_create_user_effect.
  - by apply spec_update_user_effect.
  - apply spec_delete_user_effect.
Qed.

(** ** Theorems *)

(** Every request is answered, under every configuration: the
    application returns, no exception is passed on to the server, and
    the session is closed. *)
Theorem app_answers c m path data w :
  exists a, (app c m path data w).1 = Ok a /\ a <> Propagated /\
            w_session (app c m path data w).2 = [].
Proof.
  destruct (route m path data) as [r|allow|allow] eqn:Hr.
  - destruct (app_dispatch c m path data r w Hr) as (response & -> & _).
    exists (Answered response). repeat split; [done|]. apply serve_session.
  - exists (Allowed allow). unfold app. by rewrite Hr.
  - exists (Refused allow). unfold app. by rewrite Hr.
Qed.

(** C15: the methods mean what HTTP says they mean: whatever the path
    and the body, whatever the configuration and the state of the
    backends and of the cache, a request changes the table as its
    method allows: [POST] appends at most one row and changes none;
    [PUT] changes rows in place and leaves each its id and its time of
    creation; [DELETE] removes rows and changes none; every other
    method leaves the table as it is. *)
Theorem method_semantics c m path data w :
  ready w -> method_effect m (w_db w) (w_db (app c m path data w).2).
Proof.
  intros Hw. destruct (route m path data) as [r|allow|allow] eqn:Hr;
    [|destruct (app_no_view c m path data w) as [-> _]; [by rewrite Hr|];
      apply method_effect_refl..].
  destruct (app_dispatch c m path data r w Hr) as (response & -> & _).
  rewrite serve_eq. simpl.
  destruct (view_table r w Hw) as [->| ->]; [apply method_effect_refl|].
  apply method_effect_rule.
  apply route_dispatch_rule in Hr as [->|(ru & i & Hin & _ & <- & ->)];
    [apply method_effect_refl|].
  destruct (rule_view ru i data Hin) as [<- _]. apply (spec_effect _ (abstraction w)), Hw.
Qed.

End App.
