(* ===== verification/Programs.v ===== *)
(** * The handlers as sequences of calls

    A handler of [app.py] does not run in one piece: between two of its
    calls on the store or the cache another request may run, a backend
    may fail, time may pass.  This file gives each handler a second
    form, a program, in which every call is a node: [Do c k h] makes
    the call [c] and goes on with [k] on its result, or with [h] on the
    exception it raised ([h] is the [except] branch in scope).  [exec]
    runs a program in one piece; [program_exec] proves that it is then
    the handler of [Handlers], so the two forms are one translation of
    the source.  [Concurrent] runs programs one call at a time. *)

From stdpp Require Import base tactics option strings numbers list gmap.
From S2P Require Import Prelude Python Cache Store Session World Handlers Server.

Open Scope string_scope.
Open Scope list_scope.
Open Scope Z_scope.

(** ** Calls and programs *)

(** The calls the handlers make, each with the type of its result. *)
Inductive call : Type -> Type :=
| CachePing : call unit
| CacheGet (k : string) : call (option string)
| CacheSetex (k : string) (ttl : Z) (v : string) : call unit
| CacheDelete (k : string) : call unit
| ExecuteSelect1 : call unit
| QueryAll : call (list User.t)
| QueryCount : call Z
| QueryCountSince (since : Z) : call Z
| QueryGetOr404 (i : Z) : call handle
| SessionAdd (username email : json) : call handle
| SetAttr (user : handle) (c : column) (v : json) : call unit
| SessionDelete (user : handle) : call unit
| SessionCommit : call unit
| SessionRollback : call unit
| ObjToDict (user : handle) : call json
| Utcnow : call Z.

Inductive prog (A : Type) : Type :=
| Done (a : A)
| Fail (e : exn)
| Do {B : Type} (c : call B) (k : B -> prog A) (h : exn -> prog A).
Arguments Done {A} a.
Arguments Fail {A} e.
Arguments Do {A B} c k h.

(** Sequencing, and [try ... except]. *)
Fixpoint pbind {A B} (p : prog A) (f : A -> prog B) : prog B :=
  match p with
  | Done a => f a
  | Fail e => Fail e
  | Do c k h => Do c (fun b => pbind (k b) f) (fun e => pbind (h e) f)
  end.

Fixpoint ptry {A} (p : prog A) (handler : exn -> prog A) : prog A :=
  match p with
  | Done a => Done a
  | Fail e => handler e
  | Do c k h => Do c (fun b => ptry (k b) handler) (fun e => ptry (h e) handler)
  end.

Definition pcall {B} (c : call B) : prog B := Do c Done Fail.

Definition plift {A} (r : result exn A) : prog A :=
  match r with
  | Ok a => Done a
  | Raise e => Fail e
  end.

Declare Scope prog_scope.
Delimit Scope prog_scope with prog.
Bind Scope prog_scope with prog.
Notation "x <- m ;; k" := (pbind m (fun x => k))
  (at level 20, m at level 99, k at level 200) : prog_scope.
Notation "m ;; k" := (pbind m (fun _ => k))
  (at level 100, k at level 200, right associativity) : prog_scope.
Notation "'try' m 'except' e => h" := (ptry m (fun e => h))
  (at level 10, e name, m at level 200, h at level 200) : prog_scope.

(** [within n p]: whatever its calls return, [p] makes at most [n] of
    them. *)
Inductive within {A} : nat -> prog A -> Prop :=
| within_done n a : within n (Done a)
| within_fail n e : within n (Fail e)
| within_do n {B} (c : call B) k h :
    (forall b, within n (k b)) -> (forall e, within n (h e)) ->
    within (S n) (Do c k h).

(** [uses P p]: every call [p] can make satisfies [P]. *)
Inductive uses {A} (P : forall B, call B -> Prop) : prog A -> Prop :=
| uses_done a : uses P (Done a)
| uses_fail e : uses P (Fail e)
| uses_do {B} (c : call B) k h :
    P B c -> (forall b, uses P (k b)) -> (forall e, uses P (h e)) ->
    uses P (Do c k h).

(** The calls that can raise: those that reach a backend, and the
    read of an object's row. *)
Definition raises {B} (c : call B) : bool :=
  match c with
  | SessionAdd _ _ | SetAttr _ _ _ | SessionDelete _ | SessionRollback | Utcnow => false
  | _ => true
  end.

(** [answers p]: [p] ends with a result whatever its calls return,
    provided that only the calls that can raise do. *)
Inductive answers {A} : prog A -> Prop :=
| answers_done a : answers (Done a)
| answers_do {B} (c : call B) k h :
    (forall b, answers (k b)) -> (forall e, raises c = true -> answers (h e)) ->
    answers (Do c k h).

Section Programs.
Context `{Runtime} `{JsonCodec}.

(** What a call does to the world: the operation of [World] it
    names. *)
Definition perform {B} (c : call B) : Py B :=
  match c with
  | CachePing => cache_ping
  | CacheGet k => cache_get k
  | CacheSetex k ttl v => cache_setex k ttl v
  | CacheDelete k => cache_delete k
  | ExecuteSelect1 => execute_select_1
  | QueryAll => query_all
  | QueryCount => query_count
  | QueryCountSince since => query_count_since since
  | QueryGetOr404 i => query_get_or_404 i
  | SessionAdd username email => session_add username email
  | SetAttr user c v => set_attr user c v
  | SessionDelete user => session_delete user
  | SessionCommit => session_commit
  | SessionRollback => session_rollback
  | ObjToDict user => obj_to_dict user
  | Utcnow => utcnow
  end.

(** A program run in one piece. *)
Fixpoint exec {A} (p : prog A) : Py A :=
  match p with
  | Done a => ret a
  | Fail e => raise e
  | Do c k h => fun w =>
      match perform c w with
      | (Ok b, w') => exec (k b) w'
      | (Raise e, w') => exec (h e) w'
      end
  end.

(** The number of calls a program makes when it runs in one piece, and
    the program that is left when it has made them. *)
Fixpoint calls {A} (p : prog A) (w : World) : nat :=
  match p with
  | Do c k h =>
      S (match perform c w with
         | (Ok b, w') => calls (k b) w'
         | (Raise e, w') => calls (h e) w'
         end)
  | _ => O
  end.

Fixpoint final {A} (p : prog A) (w : World) : prog A :=
  match p with
  | Do c k h =>
      match perform c w with
      | (Ok b, w') => final (k b) w'
      | (Raise e, w') => final (h e) w'
      end
  | _ => p
  end.

(** ** The handlers *)

Definition prog_probe (c : call unit) : prog string :=
  (try (pcall c ;; Done "healthy") except e => Done (unhealthy e))%prog.

Definition prog_health_check : prog Response :=
  (db_status <- prog_probe ExecuteSelect1 ;;
   redis_status <- prog_probe CachePing ;;
   now <- pcall Utcnow ;;
   Done (mkResponse 200 (JObj [
     ("status", JStr (overall_status db_status redis_status));
     ("service", JStr "backend");
     ("timestamp", JStr (isoformat now));
     ("checks", JObj [("database", JStr db_status);
                      ("redis", JStr redis_status)])])))%prog.

Definition prog_get_users : prog Response :=
  (try (
     cached_users <- pcall (CacheGet users_key) ;;
     match cached cached_users with
     | Some s =>
         users <- plift (loads s) ;;
         Done (users_response users true)
     | None =>
         users <- pcall QueryAll ;;
         pcall (CacheSetex users_key users_ttl (dumps (users_data users))) ;;
         Done (users_response (users_data users) false)
     end)
   except e => Done (error_response 500 e))%prog.

Definition prog_get_user (user_id : Z) : prog Response :=
  (try (
     user <- pcall (QueryGetOr404 user_id) ;;
     d <- pcall (ObjToDict user) ;;
     Done (mkResponse 200 d))
   except e => Done (error_response 404 e))%prog.

(** The [except] branch of the write handlers (lines 135-137). *)
Definition prog_rollback (e : exn) : prog Response :=
  (pcall SessionRollback ;; Done (error_response 500 e))%prog.

Definition prog_create_user (request : body) : prog Response :=
  (try (
     data <- plift (get_json request) ;;
     missing <- plift (missing_fields data) ;;
     if missing then
       Done (mkResponse 400 (JObj [("error", JStr "Username and email are required")]))
     else
       username <- plift (py_getitem "username" data) ;;
       email <- plift (py_getitem "email" data) ;;
       user <- pcall (SessionAdd username email) ;;
       pcall SessionCommit ;;
       pcall (CacheDelete users_key) ;;
       d <- pcall (ObjToDict user) ;;
       Done (created_response d))
   except e => prog_rollback e)%prog.

Definition prog_assign_if_present (user : handle) (c : column) (key : string) (data : json)
  : prog unit :=
  (present <- plift (py_in key data) ;;
   if present then
     v <- plift (py_getitem key data) ;;
     pcall (SetAttr user c v)
   else Done tt)%prog.

Definition prog_update_user (user_id : Z) (request : body) : prog Response :=
  (try (
     user <- pcall (QueryGetOr404 user_id) ;;
     data <- plift (get_json request) ;;
     prog_assign_if_present user ColUsername "username" data ;;
     prog_assign_if_present user ColEmail "email" data ;;
     pcall SessionCommit ;;
     pcall (CacheDelete users_key) ;;
     d <- pcall (ObjToDict user) ;;
     Done (updated_response d))
   except e => prog_rollback e)%prog.

Definition prog_delete_user (user_id : Z) : prog Response :=
  (try (
     user <- pcall (QueryGetOr404 user_id) ;;
     pcall (SessionDelete user) ;;
     pcall SessionCommit ;;
     pcall (CacheDelete users_key) ;;
     Done deleted_response)
   except e => prog_rollback e)%prog.

Definition prog_get_stats : prog Response :=
  (try (
     cached_stats <- pcall (CacheGet stats_key) ;;
     match cached cached_stats with
     | Some s =>
         stats <- plift (loads s) ;;
         Done (mkResponse 200 stats)
     | None =>
         total_users <- pcall QueryCount ;;
         since <- pcall Utcnow ;;
         recent_users <- pcall (QueryCountSince (since - recent_window)) ;;
         timestamp <- pcall Utcnow ;;
         hits <- pcall (CacheGet hits_key) ;;
         let stats := stats_body total_users recent_users timestamp hits in
         pcall (CacheSetex stats_key stats_ttl (dumps stats)) ;;
         Done (mkResponse 200 stats)
     end)
   except e => Done (error_response 500 e))%prog.

Definition prog_internal_error : prog Response :=
  (pcall SessionRollback ;;
   Done (mkResponse 500 (JObj [("error", JStr "Internal server error")])))%prog.

(** The route table, and the dispatch with the 500 handler. *)
Definition program (r : request) : prog Response :=
  match r with
  | Health => prog_health_check
  | GetUsers => prog_get_users
  | GetUser user_id => prog_get_user user_id
  | CreateUser data => prog_create_user data
  | UpdateUser user_id data => prog_update_user user_id data
  | DeleteUser user_id => prog_delete_user user_id
  | GetStats => prog_get_stats
  | NoRoute => Done (mkResponse 404 (JObj [("error", JStr "Not found")]))
  end.

Definition dispatch (r : request) : prog Response :=
  (try program r except _ => prog_internal_error)%prog.

End Programs.

(** ** Running a program in one piece *)

Section Exec.
Context `{Runtime} `{JsonCodec}.

(** [exec] is a morphism from programs to computations. *)
Lemma exec_pbind {A B} (p : prog A) (f : A -> prog B) :
  exec (pbind p f) ≃ (x <- exec p ;; exec (f x)).
Proof.
  induction p as [a|e|C c k IHk h IHh]; intros w; simpl; try done.
  unfold bind in *. destruct (perform c w) as [[b|e] w']; [apply IHk | apply IHh].
Qed.

Lemma exec_ptry {A} (p : prog A) (handler : exn -> prog A) :
  exec (ptry p handler) ≃ (try exec p except e => exec (handler e)).
Proof.
  induction p as [a|e|C c k IHk h IHh]; intros w; simpl; try done.
  unfold try_except in *. destruct (perform c w) as [[b|e] w']; [apply IHk | apply IHh].
Qed.

Lemma exec_pcall {B} (c : call B) : exec (pcall c) ≃ perform c.
Proof. intros w. simpl. by destruct (perform c w) as [[b|e] w']. Qed.

Lemma exec_plift {A} (r : result exn A) : exec (plift r) ≃ lift r.
Proof. by destruct r. Qed.

End Exec.

(** [exec_eq] proves that a program run in one piece is a computation
    of the same shape: it moves [exec] to the calls and compares the
    two sides combinator by combinator. *)
Ltac exec_eq :=
  repeat first
    [ reflexivity
    | rewrite exec_ptry
    | rewrite exec_pbind
    | rewrite exec_pcall
    | rewrite exec_plift
    | apply try_except_proper; [|intros ?]
    | apply bind_proper; [|intros ?]
    | case_match ].

(** [prog_tree] unfolds the handlers' programs into their trees of
    calls; [prog_walk c] proves a property of every call of a tree with
    the constructors [c] of the property. *)
Ltac prog_tree :=
  unfold dispatch, program, prog_health_check, prog_probe, prog_get_users, prog_get_user,
    prog_create_user, prog_update_user, prog_assign_if_present, prog_delete_user,
    prog_get_stats, prog_rollback, prog_internal_error, pcall, plift;
  cbn [pbind ptry].

Ltac prog_walk :=
  repeat (cbn [pbind ptry];
          first [ apply within_done | apply within_fail | apply within_do; intros
                | apply uses_done | apply uses_fail | apply uses_do; [| intros | intros]
                | apply answers_done | apply answers_do; [intros | intros ? ?] | discriminate
                | case_match ]).

Section Bounds.
Context `{Runtime} `{JsonCodec}.

Lemma within_mono {A} n m (p : prog A) : (n <= m)%nat -> within n p -> within m p.
Proof.
  intros Hnm Hp. revert m Hnm. induction Hp as [| |n B c k h Hk IHk Hh IHh]; intros m Hnm;
    [constructor..|].
  destruct m as [|m]; [lia|]. constructor; intros; [apply IHk | apply IHh]; lia.
Qed.

(** The calls of a program that starts with a call: the call itself
    and those of what follows it. *)
Lemma uses_do_inv {A} P {B} (c : call B) k h :
  uses P (Do c k h : prog A) ->
  P B c /\ (forall b, uses P (k b)) /\ (forall e, uses P (h e)).
Proof.
  intros Hu.
  change (match Do c k h : prog A with
          | Do c k h => P _ c /\ (forall b, uses P (k b)) /\ (forall e, uses P (h e))
          | _ => True
          end).
  by destruct Hu.
Qed.

Lemma within_do_inv {A} n {B} (c : call B) k h :
  within n (Do c k h : prog A) ->
  exists m, n = S m /\ (forall b, within m (k b)) /\ (forall e, within m (h e)).
Proof.
  intros Hw.
  change (match Do c k h : prog A with
          | Do c k h =>
              exists m, n = S m /\ (forall b, within m (k b)) /\ (forall e, within m (h e))
          | _ => True
          end).
  destruct Hw; eauto.
Qed.

Lemma answers_inv {A} (p : prog A) :
  answers p ->
  match p with
  | Done _ => True
  | Fail _ => False
  | Do c k h => (forall b, answers (k b)) /\ (forall e, raises c = true -> answers (h e))
  end.
Proof. by destruct 1. Qed.

(** Only the calls that can raise do. *)
Lemma perform_raises {B} (c : call B) w e : (perform c w).1 = Raise e -> raises c = true.
Proof. by destruct c. Qed.

Lemma calls_within {A} n (p : prog A) w : within n p -> (calls p w <= n)%nat.
Proof.
  intros Hp. revert w. induction Hp as [| |n B c k h Hk IHk Hh IHh]; intros w; simpl;
    [lia..|].
  destruct (perform c w) as [[b|e] w']; [specialize (IHk b w') | specialize (IHh e w')]; lia.
Qed.

(** What is left of a program that has run is its result. *)
Lemma final_exec {A} (p : prog A) w :
  final p w = match (exec p w).1 with Ok a => Done a | Raise e => Fail e end.
Proof.
  revert w. induction p as [a|e|B c k IHk h IHh]; intros w; simpl; try done.
  destruct (perform c w) as [[b|e] w']; [apply IHk | apply IHh].
Qed.

(** A program that answers ends with a result when it is run in one
    piece. *)
Lemma answers_exec {A} (p : prog A) w : answers p -> exists a, (exec p w).1 = Ok a.
Proof.
  intros Hp. revert w. induction Hp as [a|B c k h Hk IHk Hh IHh]; intros w; simpl; [eauto|].
  unfold bind, try_except. destruct (perform c w) as [[b|e] w'] eqn:Hc; [apply IHk|].
  apply IHh. apply (perform_raises c w e). by rewrite Hc.
Qed.

Lemma dispatch_answers r : answers (dispatch r).
Proof. destruct r; prog_tree; prog_walk. Qed.

Lemma dispatch_within r : within 8 (dispatch r).
Proof. destruct r; prog_tree; prog_walk. Qed.

End Bounds.

Section Equivalence.
Context `{Runtime} `{JsonCodec}.

Lemma prog_probe_exec c : exec (prog_probe c) ≃ probe (perform c).
Proof. unfold prog_probe, probe. exec_eq. Qed.

Lemma prog_health_check_exec : exec prog_health_check ≃ health_check.
Proof.
  unfold prog_health_check, health_check. rewrite exec_pbind, (prog_probe_exec ExecuteSelect1).
  apply bind_proper; [done|intros ?].
  rewrite exec_pbind, (prog_probe_exec CachePing). exec_eq.
Qed.

Lemma prog_get_users_exec : exec prog_get_users ≃ get_users.
Proof. unfold prog_get_users, get_users. exec_eq. Qed.

Lemma prog_get_user_exec i : exec (prog_get_user i) ≃ get_user i.
Proof. unfold prog_get_user, get_user. exec_eq. Qed.

Lemma prog_rollback_exec e :
  exec (prog_rollback e) ≃ (session_rollback ;; ret (error_response 500 e)).
Proof. unfold prog_rollback. exec_eq. Qed.

Lemma prog_create_user_exec b : exec (prog_create_user b) ≃ create_user b.
Proof.
  unfold prog_create_user, create_user. rewrite exec_ptry.
  apply try_except_proper; [|intros ?; apply prog_rollback_exec]. exec_eq.
Qed.

Lemma prog_assign_if_present_exec user c key data :
  exec (prog_assign_if_present user c key data) ≃ assign_if_present user c key data.
Proof. unfold prog_assign_if_present, assign_if_present. exec_eq. Qed.

Lemma prog_update_user_exec i b : exec (prog_update_user i b) ≃ update_user i b.
Proof.
  unfold prog_update_user, update_user. rewrite exec_ptry.
  apply try_except_proper; [|intros ?; apply prog_rollback_exec].
  do 2 (rewrite exec_pbind; apply bind_proper; [exec_eq|intros ?]).
  do 2 (rewrite exec_pbind, prog_assign_if_present_exec; apply bind_proper; [done|intros ?]).
  exec_eq.
Qed.

Lemma prog_delete_user_exec i : exec (prog_delete_user i) ≃ delete_user i.
Proof.
  unfold prog_delete_user, delete_user. rewrite exec_ptry.
  apply try_except_proper; [|intros ?; apply prog_rollback_exec]. exec_eq.
Qed.

Lemma prog_get_stats_exec : exec prog_get_stats ≃ get_stats.
Proof. unfold prog_get_stats, get_stats. exec_eq. Qed.

Lemma prog_internal_error_exec : exec prog_internal_error ≃ internal_error.
Proof. unfold prog_internal_error, internal_error. exec_eq. Qed.

Lemma program_view r : exec (program r) ≃ view r.
Proof.
  destruct r; cbn [program view]; auto using prog_health_check_exec,
    prog_get_users_exec, prog_get_user_exec, prog_create_user_exec,
    prog_update_user_exec, prog_delete_user_exec, prog_get_stats_exec.
  by intros w.
Qed.

Lemma dispatch_view r : exec (dispatch r) ≃ (try view r except _ => internal_error).
Proof.
  unfold dispatch. rewrite exec_ptry.
  apply try_except_proper; [apply program_view | intros ?; apply prog_internal_error_exec].
Qed.

(** The dispatch always ends with a response: the response of the
    view. *)
Lemma dispatch_serve r w :
  exists response,
    exec (dispatch r) w = (Ok response, (view r w).2) /\
    serve r w = (Ok response, set_session [] (view r w).2).
Proof.
  destruct (serve_view r w) as (response & Hv & Hs). exists response. split; [|done].
  rewrite dispatch_view. unfold try_except. by rewrite Hv.
Qed.


(** Every request finishes: whatever its calls return and
    whichever of them raise, the program of a request makes at most
    eight calls, and what is left after them is a response, never an
    exception. *)
Theorem request_terminates r w :
  (calls (dispatch r) w <= 8)%nat /\
  exists response, final (dispatch r) w = Done response.
Proof.
  split; [apply calls_within, dispatch_within|].
  destruct (dispatch_serve r w) as (response & He & _). exists response.
  by rewrite final_exec, He.
Qed.

End Equivalence.
