(* ===== verification/Concurrent.v ===== *)
(** * Concurrent requests

    The service runs one worker per request.  The workers share the
    table and the cache; each has its own session and its own place in
    its handler.  This file runs the programs of [Programs] one call at
    a time: a pool is the shared world and the requests in flight, and
    a step is the arrival of a request, the next call of one of the
    requests in flight, the reply of one that has finished, or an event
    of the environment (time, failure or recovery of a backend,
    reclaiming of keys).  A commit is one step: the store serialises
    transactions.

    What holds of every interleaving: the table stays well formed and
    changes by whole transactions, no request in flight is stuck, a
    request that is scheduled replies after eight calls at most and
    every pool can be emptied, the calls made are at most eight for
    each request that arrived, a request that runs alone behaves as
    [serve] says, and no value of [users:all] or [stats] survives the
    time to live of its key.  What does not: the coherence of the
    cache ([read_overlapping_write], and [Races] on a concrete
    deployment). *)

From stdpp Require Import base tactics option strings numbers list gmap.
From S2P Require Import Prelude Python Cache Store Session World Handlers Server.
From S2P Require Import Invariants Programs.

Open Scope string_scope.
Open Scope list_scope.
Open Scope Z_scope.

(** ** Pools *)

(** A request in flight: its session and what is left of its
    program. *)
Record Thread : Type := mkThread {
  t_request : request;
  t_session : Session;
  t_prog : prog Response;
}.

(** The shared world (its session field is not used) and the requests
    in flight. *)
Record Pool : Type := mkPool {
  p_world : World;
  p_threads : list Thread;
}.

Inductive action : Type :=
| Arrive (r : request)
| Call (i : nat)
| Reply (i : nat) (response : Response)
| Environment (e : event).

Section Concurrent.
Context `{Runtime} `{JsonCodec}.

(** The next call of a request, on the shared world and its own
    session. *)
Definition call_thread (t : Thread) (w : World) : option (Thread * World) :=
  match t_prog t with
  | Do c k h =>
      let out := perform c (set_session (t_session t) w) in
      let rest := match out.1 with Ok b => k b | Raise e => h e end in
      Some (mkThread (t_request t) (w_session out.2) rest, set_session [] out.2)
  | _ => None
  end.

(** The reply of a request that has finished. *)
Definition reply_thread (t : Thread) : option Response :=
  match t_prog t with
  | Done response => Some response
  | _ => None
  end.

(** What an action does to a pool, when it can happen. *)
Definition act (a : action) (p : Pool) : option Pool :=
  match a with
  | Arrive r =>
      Some (mkPool (p_world p) (p_threads p ++ [mkThread r [] (dispatch r)]))
  | Call i =>
      match p_threads p !! i with
      | Some t =>
          match call_thread t (p_world p) with
          | Some (t', w') => Some (mkPool w' (<[i := t']> (p_threads p)))
          | None => None
          end
      | None => None
      end
  | Reply i response =>
      match p_threads p !! i with
      | Some t =>
          if decide (reply_thread t = Some response)
          then Some (mkPool (p_world p) (delete i (p_threads p)))
          else None
      | None => None
      end
  | Environment e =>
      match e with
      | Served _ _ => None
      | Tick dt =>
          if decide (0 <= dt)
          then Some (mkPool (advance dt (p_world p)) (p_threads p)) else None
      | _ => Some (mkPool (apply_event e (p_world p)) (p_threads p))
      end
  end.

Definition cstep (p : Pool) (a : action) (p' : Pool) : Prop := act a p = Some p'.

(** The interleavings. *)
Definition crun : Pool -> list action -> Pool -> Prop := trace cstep.

(** The execution of a schedule. *)
Fixpoint acts (schedule : list action) (p : Pool) : option Pool :=
  match schedule with
  | [] => Some p
  | a :: schedule' =>
      match act a p with
      | Some p1 => acts schedule' p1
      | None => None
      end
  end.

(** The pool of a deployment with no request in flight. *)
Definition idle (w : World) : Pool := mkPool w [].

(** What a schedule yields and what holds along it: [gather f] lists
    what [f] gives at each action, in the pool the action is made in;
    [every f] tells that [f] holds at each of them. *)
Fixpoint gather {A} (f : action -> Pool -> list A) (schedule : list action) (p : Pool) :
    list A :=
  match schedule with
  | [] => []
  | a :: schedule' =>
      match act a p with
      | Some p' => f a p ++ gather f schedule' p'
      | None => []
      end
  end.

Fixpoint every (f : action -> Pool -> bool) (schedule : list action) (p : Pool) : bool :=
  match schedule with
  | [] => true
  | a :: schedule' =>
      match act a p with
      | Some p' => f a p && every f schedule' p'
      | None => true
      end
  end.

End Concurrent.

(** ** Facts *)

Section Facts.
Context `{Runtime} `{JsonCodec}.
Implicit Types (p : Pool) (w : World) (t : Thread).

Lemma crun_acts p schedule p' : crun p schedule p' <-> acts schedule p = Some p'.
Proof.
  split.
  - induction 1 as [p|p a p1 schedule p' Hstep Hrun IH]; simpl; [done|].
    unfold cstep in Hstep. by rewrite Hstep.
  - revert p. induction schedule as [|a schedule IH]; intros p; simpl.
    + intros [= ->]. constructor.
    + destruct (act a p) as [p1|] eqn:Ha; [|done]. intros Hrest.
      econstructor; [exact Ha | by apply IH].
Qed.

Lemma acts_app s1 s2 p :
  acts (s1 ++ s2) p = match acts s1 p with Some p1 => acts s2 p1 | None => None end.
Proof.
  revert p. induction s1 as [|a s1 IH]; intros p; simpl; [done|].
  destruct (act a p); [apply IH | done].
Qed.

Lemma acts_app_Some s1 s2 p p1 : acts s1 p = Some p1 -> acts (s1 ++ s2) p = acts s2 p1.
Proof. intros Hp. by rewrite acts_app, Hp. Qed.

(** ** What a schedule yields *)

Lemma gather_app {A} (f : action -> Pool -> list A) s1 s2 p p1 :
  acts s1 p = Some p1 -> gather f (s1 ++ s2) p = gather f s1 p ++ gather f s2 p1.
Proof.
  revert p. induction s1 as [|a s1 IH]; intros p; simpl; [by intros [= ->]|].
  destruct (act a p) as [p2|]; [|done]. intros Hp1. by rewrite (IH _ Hp1), app_assoc.
Qed.

Lemma every_app f s1 s2 p p1 :
  acts s1 p = Some p1 -> every f (s1 ++ s2) p = every f s1 p && every f s2 p1.
Proof.
  revert p. induction s1 as [|a s1 IH]; intros p; simpl; [by intros [= ->]|].
  destruct (act a p) as [p2|]; [|done]. intros Hp1. by rewrite (IH _ Hp1), andb_assoc.
Qed.

(** What an invariant of the pools of a schedule implies holds along
    the schedule. *)
Lemma every_invariant f (J : Pool -> Prop) schedule p :
  (forall a p p', a ∈ schedule -> J p -> cstep p a p' -> f a p = true /\ J p') ->
  J p -> every f schedule p = true.
Proof.
  revert p. induction schedule as [|a schedule IH]; intros p Hstep Hp; simpl; [done|].
  destruct (act a p) as [p'|] eqn:Ha; [|done].
  destruct (Hstep a p p') as [-> Hp']; [by left | done..|]. simpl.
  apply IH; [|done]. intros b q q' Hb. apply Hstep. by right.
Qed.

(** ** What every call keeps *)

(** A call keeps what the session, the cache and the flush keep. *)
Lemma perform_preserves (I : World -> Prop) {B} (c : call B) :
  ignores_session I -> ignores_cache I -> flush_stable I -> preserves I (perform c).
Proof. intros Hs Hc Hf. destruct c; simpl; auto with py. Qed.

Lemma call_thread_preserves (I : World -> Prop) t w t' w' :
  ignores_session I -> ignores_cache I -> flush_stable I ->
  call_thread t w = Some (t', w') -> I w -> I w'.
Proof.
  intros Hs Hc Hf. unfold call_thread. destruct (t_prog t) as [| |B c k h]; try done.
  intros [= <- <-] Hw. apply Hs. apply (perform_preserves I c Hs Hc Hf). by apply Hs.
Qed.

Lemma cstep_preserves (I : World -> Prop) p a p' :
  ignores_session I -> ignores_cache I -> flush_stable I ->
  (forall e w, I w -> I (apply_event e w)) ->
  cstep p a p' -> I (p_world p) -> I (p_world p').
Proof.
  intros Hs Hc Hf He. unfold cstep. destruct a as [r|i|i response|e]; simpl.
  - by intros [= <-].
  - destruct (p_threads p !! i) as [t|]; [|done].
    destruct (call_thread t (p_world p)) as [[t' w']|] eqn:Hcall; [|done].
    intros [= <-]. simpl. by eapply call_thread_preserves.
  - destruct (p_threads p !! i) as [t|]; [|done]. case_decide; [|done]. by intros [= <-].
  - destruct e as [| dt | | |]; try done;
      try (lazymatch goal with
           | |- context [apply_event ?e _] => intros [= <-] Hw; exact (He e _ Hw)
           end).
    case_decide; [|done]. intros [= <-] Hw. exact (He (Tick dt) _ Hw).
Qed.

(** ** A request that runs alone *)

Lemma set_session_own w : set_session (w_session w) w = w.
Proof. by destruct w. Qed.

(** A request in flight, scheduled until it has no call left while
    the others wait, does what its program does when run in one
    piece. *)
Lemma solo_calls i r (prg : prog Response) s w ts :
  ts !! i = Some (mkThread r s prg) ->
  let out := exec prg (set_session s w) in
  acts (replicate (calls prg (set_session s w)) (Call i)) (mkPool (set_session [] w) ts) =
    Some (mkPool (set_session [] out.2)
            (<[i := mkThread r (w_session out.2) (final prg (set_session s w))]> ts)).
Proof.
  revert s w ts. induction prg as [a|e|B c k IHk h IHh]; intros s w ts Hi; simpl;
    try by rewrite list_insert_id.
  rewrite Hi. unfold call_thread. simpl.
  change (set_session s (set_session [] w)) with (set_session s w).
  pose proof (lookup_lt_Some _ _ _ Hi) as Hlt.
  destruct (perform c (set_session s w)) as [[b|e] w1]; simpl;
    [specialize (IHk b (w_session w1) w1) | specialize (IHh e (w_session w1) w1)];
    rewrite !set_session_own in *.
  - rewrite IHk by by apply list_lookup_insert_eq. by rewrite list_insert_insert_eq.
  - rewrite IHh by by apply list_lookup_insert_eq. by rewrite list_insert_insert_eq.
Qed.

Lemma set_session_nil_own w : w_session w = [] -> set_session [] w = w.
Proof. intros <-. apply set_session_own. Qed.

(** A request that arrives, makes all its calls and replies while the
    others wait is served as [serve] says. *)
Lemma solo_request r w ts :
  w_session w = [] ->
  exists response,
    (serve r w).1 = Ok response /\
    acts (Arrive r :: replicate (calls (dispatch r) w) (Call (length ts)) ++
            [Reply (length ts) response]) (mkPool w ts) =
      Some (mkPool (serve r w).2 ts).
Proof.
  intros Hs. destruct (dispatch_serve r w) as (response & He & Hserve).
  exists response. split; [by rewrite Hserve|].
  cbn [acts act p_world p_threads]. rewrite acts_app.
  pose proof (solo_calls (length ts) r (dispatch r) [] w
                (ts ++ [mkThread r [] (dispatch r)])) as Hrun.
  cbv zeta in Hrun. rewrite (set_session_nil_own w Hs) in Hrun.
  rewrite Hrun by by rewrite lookup_app_r, Nat.sub_diag.
  rewrite final_exec, He. cbn [acts act p_threads p_world fst snd].
  rewrite list_lookup_insert_eq by (rewrite length_app; simpl; lia).
  cbn [reply_thread t_prog]. rewrite decide_True by done.
  rewrite Hserve. cbn [snd]. do 3 f_equal.
  rewrite insert_app_r_alt, Nat.sub_diag by done. simpl.
  by rewrite delete_middle, app_nil_r.
Qed.

(** A request that runs alone is served as [serve] says: from a
    pool with no request in flight, the schedule in which a request
    arrives, makes all its calls and replies leads to the world
    [serve] computes, with the response [serve] gives; so every run of
    the service, request by request, is one of the interleavings. *)
Theorem alone_is_serve r w :
  w_session w = [] ->
  exists n response,
    serve r w = (Ok response, (serve r w).2) /\
    acts (Arrive r :: replicate n (Call 0) ++ [Reply 0 response]) (idle w) =
      Some (idle (serve r w).2).
Proof.
  intros Hs. destruct (solo_request r w [] Hs) as (response & Hr & Hacts).
  exists (calls (dispatch r) w), response. split; [|exact Hacts].
  rewrite <- Hr. by destruct (serve r w).
Qed.

(** C23: under every interleaving of the calls of concurrent requests,
    and every failure of a backend between two calls, the table stays
    well formed: ids, usernames and emails are unique, ids are below
    the sequence, values fit their columns. *)
Theorem crun_wf p schedule p' :
  crun p schedule p' -> db_wf (w_db (p_world p)) -> db_wf (w_db (p_world p')).
Proof.
  induction 1 as [p|p a p1 schedule p' Hstep Hrun IH]; [done|]. intros Hwf. apply IH.
  apply (cstep_preserves (fun w => db_wf (w_db w)) p a p1); auto using wf_ignores_session,
    wf_ignores_cache, wf_flush_stable.
  intros e w. destruct e; simpl; auto using serve_wf.
Qed.

(** ** Requests that overlap *)

(** What is left of [get_users] after a miss and the query: the fill
    and the response. *)
Definition filling (users : list User.t) : prog Response :=
  (try (try (pcall (CacheSetex users_key users_ttl (dumps (users_data users))) ;;
             Done (users_response (users_data users) false))
        except e => Done (error_response 500 e))
   except _ => prog_internal_error)%prog.

(** A read arrives, misses and queries the table. *)
Lemma get_users_missed w :
  w_session w = [] -> w_db_up w = true -> w_cache_up w = true ->
  cache_lookup (w_now w) (w_cache w) users_key = None ->
  acts [Arrive GetUsers; Call 0; Call 0] (idle w) =
    Some (mkPool w [mkThread GetUsers [] (filling (db_all (w_db w)))]).
Proof.
  intros Hs Hdb Hc Hmiss. destruct w as [db s c now db_up c_up]. simpl in *. subst.
  unfold idle, call_thread, cache_get, query_all, cache_call, db_call, gets. simpl.
  by rewrite Hmiss.
Qed.

(** It fills the key, when the cache answers. *)
Lemma filling_fills users w :
  w_session w = [] -> w_cache_up w = true ->
  acts [Call 0; Reply 0 (users_response (users_data users) false)]
       (mkPool w [mkThread GetUsers [] (filling users)]) =
    Some (idle (cache_setex users_key users_ttl (dumps (users_data users)) w).2).
Proof.
  intros Hs Hc. destruct w as [db s c now db_up c_up]. simpl in *. subst.
  unfold idle, call_thread, cache_setex, cache_call, modify. simpl.
  by rewrite decide_True.
Qed.

(** It answers 500, when the cache does not. *)
Lemma filling_fails users w :
  w_session w = [] -> w_cache_up w = false ->
  acts [Call 0; Reply 0 (error_response 500 ConnectionError)]
       (mkPool w [mkThread GetUsers [] (filling users)]) = Some (idle w).
Proof.
  intros Hs Hc. destruct w as [db s c now db_up c_up]. simpl in *. subst.
  unfold idle, call_thread, cache_setex, cache_call. simpl.
  by rewrite decide_True.
Qed.

(** C19: a read that overlaps a write leaves the list of before the
    write in the cache: when [get_users] has missed and queried the
    table, and any request [r] is then served from its arrival to its
    reply, the read fills [users:all] with the list it queried and
    answers 200: the world is the one [r] leaves, with the list of the
    world before [r] stored for [users_ttl] seconds.  No backend fails
    in this schedule. *)
Theorem read_overlapping_write r w :
  w_session w = [] -> w_db_up w = true -> w_cache_up w = true ->
  cache_lookup (w_now w) (w_cache w) users_key = None ->
  let old := users_data (db_all (w_db w)) in
  exists n response,
    (serve r w).1 = Ok response /\
    acts ([Arrive GetUsers; Call 0; Call 0] ++
          (Arrive r :: replicate n (Call 1) ++ [Reply 1 response]) ++
          [Call 0; Reply 0 (users_response old false)]) (idle w) =
      Some (idle (cache_setex users_key users_ttl (dumps old) (serve r w).2).2).
Proof.
  intros Hs Hdb Hc Hmiss old.
  destruct (solo_request r w [mkThread GetUsers [] (filling (db_all (w_db w)))] Hs)
    as (response & Hr & Hacts).
  exists (calls (dispatch r) w), response. split; [done|]. cbn [length] in Hacts.
  rewrite (acts_app_Some _ _ _ _ (get_users_missed w Hs Hdb Hc Hmiss)).
  rewrite (acts_app_Some _ _ _ _ Hacts).
  apply filling_fills; [apply serve_session|]. by rewrite (proj2 (proj2 (serve_frame r w))).
Qed.

(** C40: a cache that fails between the miss and the fill fails the
    read: [get_users] has the list from the table and answers 500, the
    world unchanged but for the failure. *)
Theorem fill_failure_is_500 w :
  w_session w = [] -> w_db_up w = true -> w_cache_up w = true ->
  cache_lookup (w_now w) (w_cache w) users_key = None ->
  acts ([Arrive GetUsers; Call 0; Call 0] ++ [Environment (CacheUp false)] ++
        [Call 0; Reply 0 (error_response 500 ConnectionError)]) (idle w) =
    Some (idle (set_cache_up false w)).
Proof.
  intros Hs Hdb Hc Hmiss.
  rewrite (acts_app_Some _ _ _ _ (get_users_missed w Hs Hdb Hc Hmiss)).
  cbn [app acts act p_world p_threads apply_event]. by apply filling_fails.
Qed.

(** ** The table changes by whole transactions *)

(** The call that writes to the table. *)
Definition commits {B} (c : call B) : bool :=
  match c with
  | SessionCommit => true
  | _ => false
  end.

(** Every other call leaves the table as it is. *)
Lemma perform_db {B} (c : call B) w : commits c = false -> w_db (perform c w).2 = w_db w.
Proof.
  intros Hc.
  cut (preserves (fun w' => w_db w' = w_db w) (perform c)); [intros Hp; by apply Hp|].
  assert (Hs : ignores_session (fun w' => w_db w' = w_db w)) by by repeat intro.
  assert (Hca : ignores_cache (fun w' => w_db w' = w_db w)) by by repeat intro.
  destruct c; try done; simpl; auto with py.
Qed.

(** A commit leaves the table as it is or as the flush of the session
    makes it. *)
Lemma session_commit_db w :
  w_db (session_commit w).2 = w_db w \/
  exists s db, flush (w_session w) (w_now w) (w_db w) = Ok (s, db) /\
               w_db (session_commit w).2 = db.
Proof.
  unfold session_commit, db_call. destruct (w_db_up w); [|by left].
  destruct (flush _ _ _) as [[s db]|e]; [right; by exists s, db | by left].
Qed.

(** The table changes by whole transactions only: a step of the
    pool leaves the table as it is, or it is the commit of one request
    and the table becomes what the flush of that request's session
    makes of it, every statement or none; no other request's pending
    changes are written, and no call but a commit writes. *)
Theorem table_changes_by_commits p a p' :
  cstep p a p' ->
  w_db (p_world p') = w_db (p_world p) \/
  exists i t s db,
    a = Call i /\ p_threads p !! i = Some t /\
    flush (t_session t) (w_now (p_world p)) (w_db (p_world p)) = Ok (s, db) /\
    w_db (p_world p') = db.
Proof.
  unfold cstep. destruct a as [r|i|i response|e]; simpl.
  - intros [= <-]. by left.
  - destruct (p_threads p !! i) as [t|] eqn:Ht; [|done]. unfold call_thread.
    destruct (t_prog t) as [| |B c k h]; try done. intros [= <-]. simpl.
    destruct (commits c) eqn:Hc; [|left; by rewrite perform_db].
    destruct c; try done. simpl.
    destruct (session_commit_db (set_session (t_session t) (p_world p)))
      as [Hdb|(s & db & Hf & Hdb)]; [by left|].
    right. by exists i, t, s, db.
  - destruct (p_threads p !! i) as [t|]; [|done]. case_decide; [|done]. intros [= <-]. by left.
  - destruct e; try case_decide; try done; intros [= <-]; by left.
Qed.

(** ** No request is stuck *)

(** Every request in flight ends with a response. *)
Definition pool_answers (p : Pool) : Prop :=
  Forall (fun t => answers (t_prog t)) (p_threads p).

Lemma call_thread_answers t w t' w' :
  answers (t_prog t) -> call_thread t w = Some (t', w') -> answers (t_prog t').
Proof.
  unfold call_thread. intros Ha%answers_inv. destruct (t_prog t) as [| |B c k h]; try done.
  destruct Ha as [Hk Hh]. intros [= <- _]. simpl.
  destruct (perform c _).1 as [b|e] eqn:Hout; [apply Hk | eapply Hh, perform_raises, Hout].
Qed.

(** An invariant of the requests in flight: it holds of a request that
    arrives and every call keeps it. *)
Lemma cstep_threads (P : Thread -> Prop) p a p' :
  (forall r, P (mkThread r [] (dispatch r))) ->
  (forall t w t' w', P t -> call_thread t w = Some (t', w') -> P t') ->
  cstep p a p' -> Forall P (p_threads p) -> Forall P (p_threads p').
Proof.
  unfold cstep. intros Hnew Hcall Hact Hp. destruct a as [r|i|i response|e]; simpl in *.
  - injection Hact as <-. apply Forall_app. split; [done|]. apply Forall_singleton, Hnew.
  - destruct (p_threads p !! i) as [t|] eqn:Ht; [|done].
    destruct (call_thread t (p_world p)) as [[t' w']|] eqn:Hc; [|done].
    injection Hact as <-. apply Forall_insert; [done|].
    exact (Hcall _ _ _ _ (proj1 (Forall_lookup _ _) Hp i t Ht) Hc).
  - destruct (p_threads p !! i) as [t|]; [|done]. case_decide; [|done].
    injection Hact as <-. by apply Forall_delete.
  - destruct e; try case_decide; by simplify_eq.
Qed.

Lemma cstep_answers p a p' : cstep p a p' -> pool_answers p -> pool_answers p'.
Proof.
  apply (cstep_threads (fun t => answers (t_prog t))); [apply dispatch_answers|].
  intros t w t' w'. apply call_thread_answers.
Qed.

Lemma crun_answers p schedule p' : crun p schedule p' -> pool_answers p -> pool_answers p'.
Proof. induction 1; eauto using cstep_answers. Qed.

(** No request is ever stuck: in every pool a deployment reaches,
    whatever has failed, each request in flight can make its next call
    or has a response to reply with; none has ended with an exception
    that no handler took. *)
Theorem request_never_stuck w schedule p i t :
  crun (idle w) schedule p -> p_threads p !! i = Some t ->
  (exists p', cstep p (Call i) p') \/ (exists response p', cstep p (Reply i response) p').
Proof.
  intros Hrun Ht. assert (Hp : pool_answers p) by (eapply crun_answers; [done | constructor]).
  pose proof (answers_inv _ (proj1 (Forall_lookup _ _) Hp i t Ht)) as Ha.
  unfold cstep. simpl. rewrite Ht. unfold call_thread, reply_thread.
  destruct (t_prog t) as [response| |B c k h]; [right | done | left].
  - exists response. rewrite decide_True by done. eauto.
  - eauto.
Qed.

(** ** Every request finishes *)

(** A call uses one unit of the budget of its request; an arrival
    brings the eight calls a request can make. *)
Definition cost (a : action) : nat := match a with Call _ => 1 | _ => 0 end.
Definition arrival (a : action) : nat := match a with Arrive _ => 1 | _ => 0 end.

(** [owes p n]: the requests in flight have at most [n] calls left
    between them. *)
Definition owes (p : Pool) (n : nat) : Prop :=
  exists ns, Forall2 (fun k t => within k (t_prog t)) ns (p_threads p) /\ (sum_list ns <= n)%nat.

Lemma call_thread_within k t w t' w' :
  within k (t_prog t) -> call_thread t w = Some (t', w') ->
  exists m, k = S m /\ within m (t_prog t').
Proof.
  unfold call_thread. destruct (t_prog t) as [| |B c f h]; try done.
  intros (m & -> & Hf & Hh)%within_do_inv [= <- _]. exists m. split; [done|]. simpl.
  by destruct (perform c _).1.
Qed.

Lemma cstep_owes p a p' n :
  cstep p a p' -> owes p n ->
  (cost a <= n + 8 * arrival a)%nat /\ owes p' (n + 8 * arrival a - cost a).
Proof.
  unfold cstep. intros Hact (ns & Hns & Hsum). destruct a as [r|i|i response|e]; simpl in *.
  - injection Hact as <-. split; [lia|]. exists (ns ++ [8%nat]). split.
    + apply Forall2_app; [done|]. repeat constructor. apply dispatch_within.
    + rewrite sum_list_with_app. simpl. lia.
  - destruct (p_threads p !! i) as [t|] eqn:Ht; [|done].
    destruct (call_thread t (p_world p)) as [[t' w']|] eqn:Hcall; [|done].
    injection Hact as <-. destruct (Forall2_lookup_r _ _ _ _ _ Hns Ht) as (k & Hk & Hin).
    destruct (call_thread_within _ _ _ _ _ Hin Hcall) as (m & -> & Hm).
    pose proof (sum_list_insert_S ns i m Hk). split; [lia|].
    exists (<[i := m]> ns). split; [by apply Forall2_insert | simpl; lia].
  - destruct (p_threads p !! i) as [t|]; [|done]. case_decide; [|done].
    injection Hact as <-. split; [lia|]. exists (delete i ns). split.
    + by apply Forall2_delete.
    + pose proof (sum_list_delete ns i). lia.
  - split; [lia|]. exists ns. split; [|lia].
    destruct e; try case_decide; by simplify_eq.
Qed.

Lemma crun_owes p schedule p' n :
  crun p schedule p' -> owes p n ->
  (sum_list_with cost schedule <= n + 8 * sum_list_with arrival schedule)%nat.
Proof.
  intros Hrun. revert n.
  induction Hrun as [p|p a p1 schedule p' Hstep Hrun IH]; intros n Hn; simpl; [lia|].
  destruct (cstep_owes _ _ _ _ Hstep Hn) as [Hle Hp1]. specialize (IH _ Hp1). lia.
Qed.

(** C29: no request runs for ever, whatever the others do: in every
    interleaving from a pool with no request in flight, the calls made
    are at most eight for each request that has arrived. *)
Theorem calls_bounded w schedule p :
  crun (idle w) schedule p ->
  (sum_list_with cost schedule <= 8 * sum_list_with arrival schedule)%nat.
Proof.
  intros Hrun. apply (crun_owes _ _ _ 0) in Hrun; [lia|].
  exists []. split; [constructor | done].
Qed.

(** ** A request that is scheduled finishes *)

(** Every request in flight has at most eight calls left. *)
Definition pool_within (p : Pool) : Prop :=
  Forall (fun t => within 8 (t_prog t)) (p_threads p).

Lemma cstep_within p a p' : cstep p a p' -> pool_within p -> pool_within p'.
Proof.
  apply (cstep_threads (fun t => within 8 (t_prog t))); [apply dispatch_within|].
  intros t w t' w' Ht Hcall. destruct (call_thread_within _ _ _ _ _ Ht Hcall) as (m & [= <-] & Hm).
  eapply within_mono; [|done]. lia.
Qed.

Lemma crun_within p schedule p' : crun p schedule p' -> pool_within p -> pool_within p'.
Proof. induction 1; eauto using cstep_within. Qed.

(** A request in flight of any pool, scheduled until it has no call
    left, does what the rest of its program does when run in one
    piece on the shared world and its own session; the others are as
    they were. *)
Lemma solo_thread i t p :
  p_threads p !! i = Some t ->
  let out := exec (t_prog t) (set_session (t_session t) (p_world p)) in
  exists p1,
    acts (replicate (calls (t_prog t) (set_session (t_session t) (p_world p))) (Call i)) p =
      Some p1 /\
    p_threads p1 =
      <[i := mkThread (t_request t) (w_session out.2)
               (final (t_prog t) (set_session (t_session t) (p_world p)))]> (p_threads p) /\
    set_session [] (p_world p1) = set_session [] out.2.
Proof.
  destruct p as [w ts], t as [r s prg]. cbn [p_threads p_world t_prog t_session t_request].
  intros Hi. destruct prg as [a|e|B c k h];
    [by exists (mkPool w ts); rewrite list_insert_id..|].
  cbn [calls replicate acts act p_threads p_world exec final]. rewrite Hi.
  unfold call_thread. cbn [t_prog t_session t_request].
  pose proof (lookup_lt_Some _ _ _ Hi) as Hlt.
  destruct (perform c (set_session s w)) as [[b|e] w1]; cbn [fst snd];
    [pose proof (solo_calls i r (k b) (w_session w1) w1
                   (<[i := mkThread r (w_session w1) (k b)]> ts)) as Hrest
    |pose proof (solo_calls i r (h e) (w_session w1) w1
                   (<[i := mkThread r (w_session w1) (h e)]> ts)) as Hrest];
    cbv zeta in Hrest; rewrite !set_session_own in Hrest;
    rewrite Hrest by (by apply list_lookup_insert_eq);
    eexists; (split; [done|]); by rewrite list_insert_insert_eq.
Qed.

(** A request in flight that answers within eight calls, scheduled
    alone, makes its calls and replies. *)
Lemma thread_completes p i t :
  answers (t_prog t) -> within 8 (t_prog t) -> p_threads p !! i = Some t ->
  let out := exec (t_prog t) (set_session (t_session t) (p_world p)) in
  exists n response p',
    (n <= 8)%nat /\
    acts (replicate n (Call i) ++ [Reply i response]) p = Some p' /\
    out.1 = Ok response /\
    set_session [] (p_world p') = set_session [] out.2 /\
    p_threads p' = delete i (p_threads p).
Proof.
  intros Hans Hwithin Ht out.
  destruct (answers_exec _ (set_session (t_session t) (p_world p)) Hans) as (response & Hout).
  destruct (solo_thread i t p Ht) as (p1 & Hacts & Hts & Hworld).
  exists (calls (t_prog t) (set_session (t_session t) (p_world p))), response,
    (mkPool (p_world p1) (delete i (p_threads p))).
  split; [by apply calls_within|]. split; [|done].
  rewrite (acts_app_Some _ _ _ _ Hacts). cbn [acts act].
  pose proof (lookup_lt_Some _ _ _ Ht) as Hlt.
  rewrite Hts, list_lookup_insert_eq by done. cbn [reply_thread t_prog].
  rewrite final_exec, Hout, decide_True by done. by rewrite list_delete_insert.
Qed.

(** C28: a request that is scheduled finishes: from every pool a
    deployment reaches, whatever has failed and whatever the other
    requests have done, a request in flight that makes its calls one
    after the other has none left after eight at most, and can then
    reply; the response and the shared world are those of the rest of
    its program run in one piece, and the other requests in flight
    are as they were. *)
Theorem request_completes w schedule p i t :
  crun (idle w) schedule p -> p_threads p !! i = Some t ->
  let out := exec (t_prog t) (set_session (t_session t) (p_world p)) in
  exists n response p',
    (n <= 8)%nat /\
    crun p (replicate n (Call i) ++ [Reply i response]) p' /\
    out.1 = Ok response /\
    set_session [] (p_world p') = set_session [] out.2 /\
    p_threads p' = delete i (p_threads p).
Proof.
  intros Hrun Ht out.
  assert (Ha : pool_answers p) by (eapply crun_answers; [done | constructor]).
  assert (Hw : pool_within p) by (eapply crun_within; [done | constructor]).
  destruct (thread_completes p i t) as (n & response & p' & Hn & Hacts & Hrest);
    [exact (proj1 (Forall_lookup _ _) Ha i t Ht)
    |exact (proj1 (Forall_lookup _ _) Hw i t Ht) | done |].
  exists n, response, p'. by rewrite crun_acts.
Qed.

(** The steps of the requests in flight: calls and replies. *)
Definition progress (a : action) : bool :=
  match a with
  | Call _ | Reply _ _ => true
  | _ => false
  end.

(** A pool whose requests answer within eight calls each can be
    emptied by calls and replies, nine steps for each request at
    most. *)
Lemma pool_empties p :
  pool_answers p -> pool_within p ->
  exists rest p',
    acts rest p = Some p' /\ p_threads p' = [] /\
    (length rest <= 9 * length (p_threads p))%nat /\ forallb progress rest = true.
Proof.
  remember (length (p_threads p)) as k eqn:Hk. revert p Hk. unfold pool_answers, pool_within.
  induction k as [|k IH]; intros [w0 ts0] Hk Ha Hw; simpl in *.
  { exists [], (mkPool w0 ts0). by destruct ts0. }
  destruct ts0 as [|t ts]; [done|]. injection Hk as Hk.
  apply Forall_cons in Ha as [Hat Ha], Hw as [Hwt Hw].
  destruct (thread_completes (mkPool w0 (t :: ts)) 0 t Hat Hwt eq_refl)
    as (n & response & p1 & Hn & Hacts & _ & _ & Hts1).
  simpl in Hts1. destruct (IH p1) as (rest & p' & Hrest & Hnil & Hlen & Hprog);
    [by rewrite Hts1..|].
  exists ((replicate n (Call 0) ++ [Reply 0 response]) ++ rest), p'.
  rewrite (acts_app_Some _ _ _ _ Hacts), !length_app, length_replicate, !forallb_app, Hprog.
  simpl. repeat split; [done.. | lia |]. rewrite !andb_true_r. clear. by induction n.
Qed.

(** Every pool a deployment reaches can be emptied: whatever has
    failed, the requests in flight can all make their calls and reply,
    in nine steps each at most and with no help from the
    environment. *)
Theorem pool_drains w schedule p :
  crun (idle w) schedule p ->
  exists rest p',
    crun p rest p' /\ p_threads p' = [] /\
    (length rest <= 9 * length (p_threads p))%nat /\ forallb progress rest = true.
Proof.
  intros Hrun.
  destruct (pool_empties p) as (rest & p' & Hacts & Hrest);
    [eapply crun_answers | eapply crun_within |]; try done; try constructor.
  exists rest, p'. by rewrite crun_acts.
Qed.

(** ** The times to live bound staleness *)

(** The time to live of each key of the service (lines 92 and 203). *)
Definition key_ttl (k : string) : option Z :=
  if String.eqb k users_key then Some users_ttl
  else if String.eqb k stats_key then Some stats_ttl
  else None.

(** Whatever a key of the service holds expires within the time to
    live of the key. *)
Definition short_lived (w : World) : Prop :=
  forall k ttl e, key_ttl k = Some ttl -> w_cache w !! k = Some e ->
    exists d, e_deadline e = Some d /\ d <= w_now w + seconds ttl.

(** A call that fills a key of the service gives it at most its time
    to live. *)
Definition good_call (B : Type) (c : call B) : Prop :=
  match c with
  | CacheSetex k ttl v => forall ttl', key_ttl k = Some ttl' -> ttl <= ttl'
  | _ => True
  end.

(** Every request in flight has only such calls left. *)
Definition pool_ok (p : Pool) : Prop :=
  Forall (fun t => uses good_call (t_prog t)) (p_threads p).

Lemma dispatch_uses r : uses good_call (dispatch r).
Proof. destruct r; prog_tree; prog_walk; simpl; try done; by intros ttl' [= <-]. Qed.

Lemma short_lived_ext w w' :
  w_cache w' = w_cache w -> w_now w <= w_now w' -> short_lived w -> short_lived w'.
Proof.
  intros Hc Hn Hw k ttl e Hk. rewrite Hc. intros (d & Hd & Hle)%(Hw k ttl); [|done].
  exists d. split; [done | lia].
Qed.

Lemma cache_setex_short_lived k ttl v w :
  (forall ttl', key_ttl k = Some ttl' -> ttl <= ttl') -> short_lived w ->
  short_lived (cache_setex k ttl v w).2.
Proof.
  intros Hk Hw. unfold cache_setex, cache_call, modify. destruct (w_cache_up w); [|done].
  intros k' ttl' e Hk'. simpl. unfold cache_store. destruct (decide (k = k')) as [<-|Hne].
  - rewrite lookup_insert_eq. intros [= <-]. eexists. split; [done|].
    specialize (Hk ttl' Hk'). unfold seconds. simpl. lia.
  - rewrite lookup_insert_ne by done. by apply Hw.
Qed.

Lemma cache_delete_short_lived k w : short_lived w -> short_lived (cache_delete k w).2.
Proof.
  intros Hw. unfold cache_delete, cache_call, modify. destruct (w_cache_up w); [|done].
  intros k' ttl' e Hk'. simpl. unfold cache_remove.
  intros [_ He]%lookup_delete_Some. by apply (Hw k').
Qed.

(** The calls that write to the cache. *)
Definition writes_cache {B} (c : call B) : bool :=
  match c with
  | CacheSetex _ _ _ | CacheDelete _ => true
  | _ => false
  end.

(** Every other call leaves the cache and the clock as they are. *)
Lemma perform_frame {B} (c : call B) w :
  writes_cache c = false ->
  w_cache (perform c w).2 = w_cache w /\ w_now (perform c w).2 = w_now w.
Proof.
  intros Hc.
  cut (preserves (fun w' => w_cache w' = w_cache w /\ w_now w' = w_now w) (perform c));
    [intros Hp; by apply Hp|].
  assert (Hs : ignores_session (fun w' => w_cache w' = w_cache w /\ w_now w' = w_now w))
    by by repeat intro.
  destruct c; try done; simpl; auto with py.
  apply preserves_session_commit; by repeat intro.
Qed.

Lemma perform_short_lived {B} (c : call B) w :
  good_call B c -> short_lived w -> short_lived (perform c w).2.
Proof.
  intros Hc Hw. destruct (writes_cache c) eqn:Hwr.
  - destruct c; try done; [by apply cache_setex_short_lived | by apply cache_delete_short_lived].
  - destruct (perform_frame c w Hwr) as [Hca Hno].
    apply (short_lived_ext w); [done | lia | done].
Qed.

Lemma cstep_short_lived p a p' :
  cstep p a p' -> pool_ok p -> short_lived (p_world p) ->
  pool_ok p' /\ short_lived (p_world p').
Proof.
  unfold cstep, pool_ok. destruct a as [r|i|i response|e]; simpl.
  - intros [= <-] Hok Hw. split; [|done]. simpl. apply Forall_app. split; [done|].
    apply Forall_singleton, dispatch_uses.
  - destruct (p_threads p !! i) as [t|] eqn:Ht; [|done]. unfold call_thread.
    destruct (t_prog t) as [| |B c k h] eqn:Hprog; try done.
    intros [= <-] Hok Hw. simpl.
    pose proof (proj1 (Forall_lookup _ _) Hok i t Ht) as Hu. simpl in Hu. rewrite Hprog in Hu.
    apply uses_do_inv in Hu as (Hc & Hk & Hh). split.
    + apply Forall_insert; [done|]. simpl. by destruct (perform c _).1.
    + apply (short_lived_ext (perform c (set_session (t_session t) (p_world p))).2); try done.
      by apply perform_short_lived.
  - destruct (p_threads p !! i) as [t|]; [|done]. case_decide; [|done].
    intros [= <-] Hok Hw. split; [|done]. simpl. by apply Forall_delete.
  - destruct e as [|dt| | |]; try done.
    + case_decide; [|done]. intros [= <-] Hok Hw. split; [done|]. simpl.
      apply (short_lived_ext (p_world p)); try done. simpl. lia.
    + by intros [= <-].
    + by intros [= <-].
    + intros [= <-] Hok Hw. split; [done|]. intros k ttl e Hk. simpl. unfold cache_purge.
      intros [He _]%map_lookup_filter_Some. by apply (Hw k).
Qed.

Lemma crun_short_lived p schedule p' :
  crun p schedule p' -> pool_ok p -> short_lived (p_world p) ->
  pool_ok p' /\ short_lived (p_world p').
Proof.
  induction 1 as [p|p a p1 schedule p' Hstep Hrun IH]; [done|]. intros Hok Hw.
  destruct (cstep_short_lived _ _ _ Hstep Hok Hw). by apply IH.
Qed.

(** C20: staleness is bounded by the time to live under every
    interleaving: in every pool a deployment reaches, with requests
    running concurrently and backends failing between their calls,
    whatever [users:all] or [stats] holds, coherent or stale, expires
    within the time to live of its key, 300 and 60 seconds, unless a
    request fills the key again. *)
Theorem staleness_bounded (start : Z) schedule p k ttl (later : Z) :
  crun (idle (init_world start)) schedule p ->
  key_ttl k = Some ttl ->
  w_now (p_world p) + seconds ttl <= later ->
  cache_lookup later (w_cache (p_world p)) k = None.
Proof.
  intros Hrun Hk Ht.
  assert (Hinv : pool_ok p /\ short_lived (p_world p))
    by (apply (crun_short_lived _ _ _ Hrun); [constructor | by intros k' ttl' e]).
  destruct Hinv as [_ Hs]. unfold cache_lookup.
  destruct (w_cache (p_world p) !! k) as [e|] eqn:He; [|done].
  destruct (Hs k ttl e Hk He) as (d & Hd & Hle). unfold live. rewrite Hd.
  by rewrite (proj2 (Z.ltb_ge _ _)) by lia.
Qed.

End Facts.
