(* ===== verification/Replies.v ===== *)
(** * The types of the replies under interleavings

    [Typing] types the answers of requests served one at a time.  This
    file types the programs of [Programs], call by call, and carries
    the result to the pools of [Concurrent]: a program is typed when
    every value it stores in the cache is a dump of the type of its
    key and every response it ends with is in the contract of its
    route, given that each call returns what [returns] says and that
    only the calls that can raise do.  The pool keeps its cache typed
    and its requests typed under every step, so every reply of every
    interleaving is in the contract of its route. *)

From stdpp Require Import base tactics option strings numbers list gmap.
From S2P Require Import Prelude Python Cache Store Session World Handlers Server.
From S2P Require Import Invariants Typing Programs Concurrent.

Open Scope string_scope.
Open Scope list_scope.
Open Scope Z_scope.

Section Typed.
Context `{Runtime} `{JsonCodec} `{!JsonCodecLaws}.

(** What a call must be given for the cache to stay typed. *)
Definition call_ok {B} (c : call B) : Prop :=
  match c with
  | CacheSetex k _ s => typed_dump k s
  | _ => True
  end.

(** What a call returns from a typed cache. *)
Definition returns {B} (c : call B) : B -> Prop :=
  match c in call B return B -> Prop with
  | CacheGet k => fun o => forall s, o = Some s -> typed_dump k s
  | ObjToDict _ => fun d => has_type user_ty d = true
  | _ => fun _ => True
  end.

(** [typed_prog T p]: the calls of [p] keep the cache typed and [p]
    ends with a [T], never with an exception. *)
Inductive typed_prog {A} (T : A -> Prop) : prog A -> Prop :=
| typed_done a : T a -> typed_prog T (Done a)
| typed_do {B} (c : call B) k h :
    call_ok c ->
    (forall b, returns c b -> typed_prog T (k b)) ->
    (forall e, raises c = true -> typed_prog T (h e)) ->
    typed_prog T (Do c k h).

(** The request of a worker is typed for its route. *)
Definition thread_typed (t : Thread) : Prop :=
  typed_prog (fun response => well_typed (t_request t) response = true) (t_prog t).

Definition pool_typed (p : Pool) : Prop :=
  cache_typed (p_world p) /\ Forall thread_typed (p_threads p).

End Typed.

(** [typed_walk] proves a tree of calls typed, node by node. *)
Ltac typed_walk :=
  repeat (cbn [pbind ptry];
          first [ apply typed_done
                | apply typed_do; [| intros ? ? | intros ? ?]
                | discriminate
                | case_match ]).

Section Facts.
Context `{Runtime} `{JsonCodec} `{!JsonCodecLaws}.
Implicit Types (p : Pool) (w : World) (t : Thread).

Lemma typed_prog_inv {A} (T : A -> Prop) (prg : prog A) :
  typed_prog T prg ->
  match prg with
  | Done a => T a
  | Fail _ => False
  | Do c k h =>
      call_ok c /\ (forall b, returns c b -> typed_prog T (k b)) /\
      (forall e, raises c = true -> typed_prog T (h e))
  end.
Proof. by destruct 1. Qed.

(** Each call is typed: given what it needs, it keeps the cache typed
    and returns what [returns] says. *)
Lemma perform_typed {B} (c : call B) :
  call_ok c -> yields cache_typed (perform c) (returns c).
Proof.
  destruct c; simpl; intros Hc;
    auto using yields_cache_get, yields_cache_setex_dump, yields_cache_delete,
      yields_obj_to_dict;
    apply yields_preserves; auto with py.
Qed.

(** The program of every route is typed for the route. *)
Lemma dispatch_typed r :
  typed_prog (fun response => well_typed r response = true) (dispatch r).
Proof.
  destruct r; prog_tree; typed_walk; simpl in *; try done;
    try match goal with
        | Hh : forall s, ?o = Some s -> typed_dump hits_key s |- _ =>
            apply untyped_absent in Hh; [subst | done]
        end;
    eauto with typed.
Qed.

(** ** The pool stays typed *)

Lemma call_thread_typed t w t' w' :
  cache_typed w -> thread_typed t -> call_thread t w = Some (t', w') ->
  cache_typed w' /\ thread_typed t'.
Proof.
  unfold thread_typed, call_thread. intros Hw Ht%typed_prog_inv.
  destruct (t_prog t) as [| |B c k h]; try done. destruct Ht as (Hc & Hk & Hh).
  intros [= <- <-]. simpl.
  destruct (yields_run _ _ _ (set_session (t_session t) w) (perform_typed c Hc)) as [Hw' Hb];
    [by apply typed_ignores_session|].
  split; [by apply typed_ignores_session|].
  destruct (perform c _).1 as [b|e] eqn:Hout; [by apply Hk, Hb | eapply Hh, perform_raises, Hout].
Qed.

Lemma event_typed e w : cache_typed w -> cache_typed (apply_event e w).
Proof.
  intros Hw. destruct e as [r response|dt|up|up|]; try done.
  - by apply serve_typed_world.
  - intros k e. simpl. unfold cache_purge.
    intros [He _]%map_lookup_filter_Some. by apply Hw.
Qed.

Lemma cstep_typed p a p' : cstep p a p' -> pool_typed p -> pool_typed p'.
Proof.
  unfold cstep, pool_typed. intros Hact [Hw Hts].
  destruct a as [r|i|i response|e]; simpl in *.
  - injection Hact as <-. split; [done|]. apply Forall_app. split; [done|].
    apply Forall_singleton, dispatch_typed.
  - destruct (p_threads p !! i) as [t|] eqn:Ht; [|done].
    destruct (call_thread t (p_world p)) as [[t' w']|] eqn:Hcall; [|done].
    injection Hact as <-.
    destruct (call_thread_typed t _ t' w' Hw (proj1 (Forall_lookup _ _) Hts i t Ht) Hcall).
    split; [done | by apply Forall_insert].
  - destruct (p_threads p !! i) as [t|]; [|done]. case_decide; [|done].
    injection Hact as <-. split; [done | by apply Forall_delete].
  - destruct e as [r response|dt|up|up|]; try case_decide; simplify_eq; split; try done.
    by apply (event_typed Reclaim).
Qed.

Lemma crun_typed p schedule p' : crun p schedule p' -> pool_typed p -> pool_typed p'.
Proof. induction 1; eauto using cstep_typed. Qed.

(** C18: every reply of every interleaving is in the contract of its
    route: from a pool with a typed cache and no request in flight,
    whatever requests arrive, however their calls interleave and
    whichever backend fails between two calls, a request that replies
    does so with one of the statuses of its route and a body of the
    type that goes with it. *)
Theorem replies_typed w schedule p i response p' :
  cache_typed w -> crun (idle w) schedule p -> cstep p (Reply i response) p' ->
  exists t, p_threads p !! i = Some t /\ well_typed (t_request t) response = true.
Proof.
  intros Hw Hrun Hreply.
  assert (Hp : pool_typed p) by (eapply crun_typed; [done | by split; [|constructor]]).
  unfold cstep in Hreply. simpl in Hreply.
  destruct (p_threads p !! i) as [t|] eqn:Ht; [|done]. exists t. split; [done|].
  case_decide as Hdone; [|done]. unfold reply_thread in Hdone.
  pose proof (typed_prog_inv _ _ (proj1 (Forall_lookup _ _) (proj2 Hp) i t Ht)) as Hty.
  destruct (t_prog t); by simplify_eq.
Qed.

End Facts.
