(* ===== verification/Linearizable.v ===== *)
(** * The table under interleavings is the table of a sequential history

    The requests of a pool run call by call in any order, but each
    writes to the table in one call, its [db.session.commit()].  This
    file proves that the commit is the linearisation point of a
    request whose objects are current: if the rows the request loaded
    are still the rows of the table when it commits, the commit makes
    of the table what the specification of [Spec] makes of it for that
    request, run alone on the table and at the time of the commit.
    The table after an interleaving in which no request commits on a
    row that changed since it loaded it is therefore the table after
    the requests whose commit succeeded, served one after the other in
    the order of their commits.  The condition cannot be dropped: the
    unit of work compares an assignment with the value it loaded, so
    an update that commits on a changed row writes the columns that
    differ from what it read, not from what the table holds
    ([Races.stale_update_is_not_serial]).

    Creations and deletions load nothing that a commit compares with:
    when no update arrives, the condition holds of every interleaving
    ([inserts_and_deletes_linearizable]).

    [tracks r s prg] is the invariant of a request in flight: [prg] is
    what is left of the program of [r], [s] is its session, and the
    session flushes as the specification of [r] writes whenever the
    next call is the commit.  [history] lists the commits that
    succeeded along a schedule; [fresh_commits] tells that each was
    made on current objects. *)

From stdpp Require Import base tactics option strings numbers list gmap.
From S2P Require Import Prelude Python Cache Store Session World Handlers Server.
From S2P Require Import Invariants Spec Programs Concurrent.

Open Scope string_scope.
Open Scope list_scope.
Open Scope Z_scope.

Section Linearizable.
Context `{Runtime} `{JsonCodec}.
Implicit Types (p : Pool) (w : World) (t : Thread) (r : request) (s : Session).
Implicit Types (db : Database) (now : Z).

(** ** The sequential history *)

(** The table the specification computes for a request served at time
    [now]. *)
Definition spec_write r now db : Database := (spec r (mkAbstract db now)).2.

(** The call returns, on the session [s] of its request. *)
Definition succeeds {B} (c : call B) s w : bool :=
  match (perform c (set_session s w)).1 with
  | Ok _ => true
  | Raise _ => false
  end.

(** The request that commits at an action, when the commit
    succeeds. *)
Definition committing (a : action) p : option Thread :=
  match a with
  | Call i =>
      match p_threads p !! i with
      | Some t =>
          match t_prog t with
          | Do c _ _ =>
              if commits c && succeeds c (t_session t) (p_world p) then Some t else None
          | _ => None
          end
      | None => None
      end
  | _ => None
  end.

(** The request an action linearises, with the time. *)
Definition linearised (a : action) p : option (request * Z) :=
  (fun t => (t_request t, w_now (p_world p))) <$> committing a p.

(** The rows the objects of a session were loaded with are the rows of
    the table. *)
Definition current s db : bool :=
  forallb (fun o => match o with
                    | Persistent row _ _ => bool_decide (db_get (User.id row) db = Some row)
                    | _ => true
                    end) s.

(** The commit of an action, if it is one, is made on current
    objects. *)
Definition fresh (a : action) p : bool :=
  from_option (fun t => current (t_session t) (w_db (p_world p))) true (committing a p).

(** The requests linearised along a schedule, in order. *)
Definition history (schedule : list action) p : list (request * Z) :=
  gather (fun a p => option_list (linearised a p)) schedule p.

(** Every commit of a schedule is made on current objects. *)
Definition fresh_commits (schedule : list action) p : bool := every fresh schedule p.

(** The requests of a history served one after the other by the
    specification. *)
Definition replay (h : list (request * Z)) db : Database :=
  foldl (fun db rt => spec_write rt.1 rt.2 db) db h.

(** ** The invariant of a request in flight *)

(** The session flushes as the specification writes, on a table that
    holds the rows it loaded. *)
Definition flush_as r s : Prop :=
  forall now db s' db',
    current s db = true -> flush s now db = Ok (s', db') -> db' = spec_write r now db.

(** The requests that assign to a loaded object. *)
Definition is_update r : bool :=
  match r with
  | UpdateUser _ _ => true
  | _ => false
  end.

(** What holds of the session of [r] at its commit: it flushes as the
    specification writes, and it holds a loaded object only if [r] is
    an update. *)
Definition commit_as r s : Prop :=
  flush_as r s /\ (is_update r = false -> forall db, current s db = true).

(** The program does not commit. *)
Definition quiet (prg : prog Response) : Prop := uses (fun _ c => commits c = false) prg.

Inductive tracks r : Session -> prog Response -> Prop :=
| tracks_done s response : tracks r s (Done response)
| tracks_fail s e : tracks r s (Fail e)
| tracks_do s {B} (c : call B) k h :
    (commits c = true ->
     commit_as r s /\ (forall b, quiet (k b)) /\ (forall e, quiet (h e))) ->
    (forall w b w', perform c (set_session s w) = (Ok b, w') ->
                    tracks r (w_session w') (k b)) ->
    (forall w e w', perform c (set_session s w) = (Raise e, w') ->
                    tracks r (w_session w') (h e)) ->
    tracks r s (Do c k h).

Definition pool_tracks p : Prop :=
  Forall (fun t => tracks (t_request t) (t_session t) (t_prog t)) (p_threads p).

(** The requests that arrive along a schedule. *)
Definition arrivals (schedule : list action) : list request :=
  omap (fun a => match a with Arrive r => Some r | _ => None end) schedule.

(** A request in flight waits for its commit, or will not commit. *)
Definition waits (o : option request) t : Prop :=
  match o with
  | Some r => r = t_request t
  | None => quiet (t_prog t)
  end.

(** [pending p rs]: the requests [rs] are in flight in [p], and the
    others in flight will not commit. *)
Definition pending p (rs : list request) : Prop :=
  exists os, Forall2 waits os (p_threads p) /\ rs = omap id os.

End Linearizable.

Section Facts.
Context `{Runtime} `{JsonCodec}.
Implicit Types (p : Pool) (w : World) (t : Thread) (r : request) (s : Session).
Implicit Types (db : Database) (now : Z).

Lemma tracks_do_inv r s {B} (c : call B) k h :
  tracks r s (Do c k h) ->
  (commits c = true ->
   commit_as r s /\ (forall b, quiet (k b)) /\ (forall e, quiet (h e))) /\
  (forall w b w', perform c (set_session s w) = (Ok b, w') ->
                  tracks r (w_session w') (k b)) /\
  (forall w e w', perform c (set_session s w) = (Raise e, w') ->
                  tracks r (w_session w') (h e)).
Proof.
  intros Ht.
  change (match Do c k h : prog Response with
          | Do c k h =>
              (commits c = true ->
               commit_as r s /\ (forall b, quiet (k b)) /\ (forall e, quiet (h e))) /\
              (forall w b w', perform c (set_session s w) = (Ok b, w') ->
                              tracks r (w_session w') (k b)) /\
              (forall w e w', perform c (set_session s w) = (Raise e, w') ->
                              tracks r (w_session w') (h e))
          | _ => True
          end).
  by destruct Ht.
Qed.

(** A program that does not commit tracks every request. *)
Lemma tracks_uses r s prg : quiet prg -> tracks r s prg.
Proof.
  intros Hu. revert s. induction Hu as [| |B c k h Hc Hk IHk Hh IHh]; intros s;
    constructor; [congruence | intros; apply IHk | intros; apply IHh].
Qed.

(** ** The calls of a write before its commit *)

(** What each call that changes the session leaves for the rest of
    the program. *)
Lemma tracks_session_add r s username email k h :
  tracks r (s ++ [Pending username email]) (k (length s)) ->
  tracks r s (Do (SessionAdd username email) k h).
Proof. intros Hk. apply tracks_do; [done|..]; by intros w b w' [= <- <-]. Qed.

Lemma tracks_query_get_or_404 r s i k h :
  (forall row, User.id row = i -> tracks r (s ++ [Persistent row None None]) (k (length s))) ->
  (forall e, tracks r s (h e)) ->
  tracks r s (Do (QueryGetOr404 i) k h).
Proof.
  intros Hk Hh. apply tracks_do; [done|..]; intros w b w'; cbn;
    unfold query_get_or_404, db_call; repeat case_match; intros [= <- <-]; try done.
  apply Hk. by eapply db_get_Some.
Qed.

Lemma tracks_set_attr r s user c v k h :
  tracks r (sess_assign user c v s) (k tt) -> tracks r s (Do (SetAttr user c v) k h).
Proof. intros Hk. apply tracks_do; [done|..]; by intros w b w' [= <- <-]. Qed.

Lemma tracks_session_delete r s user k h :
  tracks r (sess_delete user s) (k tt) -> tracks r s (Do (SessionDelete user) k h).
Proof. intros Hk. apply tracks_do; [done|..]; by intros w b w' [= <- <-]. Qed.

(** The commit: the session flushes as the specification writes, and
    nothing commits after it. *)
Lemma tracks_commit r s k h :
  commit_as r s -> (forall b, quiet (k b)) -> (forall e, quiet (h e)) ->
  tracks r s (Do SessionCommit k h).
Proof. intros Hf Hk Hh. apply tracks_do; [done|..]; intros; by apply tracks_uses. Qed.

(** ** The flush of each write *)

Lemma flush_as_create b username email :
  new_user b = Ok (Some (username, email)) -> flush_as (CreateUser b) [Pending username email].
Proof.
  intros Hn now db s' db' _. unfold spec_write, spec, spec_create_user.
  cbn [a_db a_now]. rewrite Hn. cbn. unfold flush, flush_one.
  destruct (db_insert username email now db) as [[row db1]|e]; [|done]. by intros [= _ <-].
Qed.

Lemma flush_as_update b row username email :
  changes b = Ok (username, email) ->
  flush_as (UpdateUser (User.id row) b) [Persistent row username email].
Proof.
  intros Hc now db s' db' Hrow. unfold spec_write, spec, spec_update_user, flush, flush_one.
  cbn [a_db a_now]. rewrite Hc.
  cbn in Hrow. rewrite andb_true_r in Hrow. apply bool_decide_eq_true in Hrow as ->. cbn.
  destruct (flush_update row username email db) as [db1|e]; [|done]. by intros [= _ <-].
Qed.

Lemma flush_as_delete i : flush_as (DeleteUser i) [Deleted i].
Proof.
  intros now db s' db' _. unfold spec_write, spec, spec_delete_user, flush, flush_one.
  cbn. intros [= _ <-]. destruct (db_get i db) as [old|] eqn:Hg; [done|].
  by apply db_delete_absent.
Qed.

(** ** The programs of the routes *)

(** [by_results] rewrites with the results of the pure steps a walk
    through a program has collected. *)
Ltac by_results :=
  repeat first
    [ progress cbn [rbind fst snd]
    | match goal with Hx : ?x = Ok _ |- context [?x] => rewrite Hx end ];
  done.

(** [tracks_walk] follows a program to its commit with the rules
    above, case by case on the results of the pure steps, and leaves
    the flush of the session at the commit. *)
Ltac tracks_walk :=
  prog_tree;
  repeat (cbn [pbind ptry app length];
          first [ case_match
                | apply tracks_session_add | apply tracks_set_attr
                | apply tracks_session_delete
                | apply tracks_query_get_or_404;
                    [intros ? <- | intros; apply tracks_uses; unfold quiet; by prog_walk]
                | apply tracks_commit; [|intros; unfold quiet; by prog_walk..] ]);
  try (apply tracks_uses; unfold quiet; by prog_walk).

Lemma create_user_tracks b : tracks (CreateUser b) [] (dispatch (CreateUser b)).
Proof. tracks_walk. split; [|done]. apply flush_as_create. unfold new_user. by_results. Qed.

Lemma update_user_tracks i b : tracks (UpdateUser i b) [] (dispatch (UpdateUser i b)).
Proof.
  tracks_walk; (split; [|done]); apply flush_as_update; unfold changes, present; by_results.
Qed.

Lemma delete_user_tracks i : tracks (DeleteUser i) [] (dispatch (DeleteUser i)).
Proof. tracks_walk. split; [apply flush_as_delete | done]. Qed.

(** Every request starts as the invariant asks. *)
Lemma dispatch_tracks r : tracks r [] (dispatch r).
Proof.
  destruct r; auto using create_user_tracks, update_user_tracks, delete_user_tracks;
    apply tracks_uses; unfold quiet; prog_tree; by prog_walk.
Qed.

(** ** The pool *)

Lemma call_thread_tracks t w t' w' :
  tracks (t_request t) (t_session t) (t_prog t) ->
  call_thread t w = Some (t', w') ->
  tracks (t_request t') (t_session t') (t_prog t').
Proof.
  unfold call_thread. destruct (t_prog t) as [| |B c k h]; try done.
  intros (_ & Hk & Hh)%tracks_do_inv [= <- _]. simpl.
  destruct (perform c _) as [[b|e] w1] eqn:Hout; [by eapply Hk | by eapply Hh].
Qed.

Lemma cstep_tracks p a p' : cstep p a p' -> pool_tracks p -> pool_tracks p'.
Proof.
  apply (cstep_threads (fun t => tracks (t_request t) (t_session t) (t_prog t)));
    [apply dispatch_tracks|].
  intros t w t' w'. apply call_thread_tracks.
Qed.

(** A commit on current objects writes what the specification writes
    when it succeeds, and nothing when it fails. *)
Lemma session_commit_linearised r s w :
  flush_as r s ->
  (succeeds SessionCommit s w = true -> current s (w_db w) = true) ->
  w_db (session_commit (set_session s w)).2 =
    replay (option_list (if succeeds SessionCommit s w then Some (r, w_now w) else None))
           (w_db w).
Proof.
  intros Hf. unfold succeeds. cbn [perform]. unfold session_commit, db_call. cbn.
  destruct (w_db_up w); [|done].
  destruct (flush s (w_now w) (w_db w)) as [[s' db']|e] eqn:Hs; [|done].
  cbn. intros Hcur. by apply Hf in Hs; [|apply Hcur].
Qed.

(** A step writes what the specification writes for the request it
    linearises, and nothing when it linearises none. *)
Lemma cstep_linearised p a p' :
  cstep p a p' -> pool_tracks p -> fresh a p = true ->
  w_db (p_world p') = replay (option_list (linearised a p)) (w_db (p_world p)).
Proof.
  unfold cstep, fresh, linearised. intros Hact Hp.
  destruct a as [r|i|i response|e]; simpl in *.
  - by injection Hact as <-.
  - destruct (p_threads p !! i) as [t|] eqn:Ht; [|done].
    pose proof (proj1 (Forall_lookup _ _) Hp i t Ht) as Hi. cbn beta in Hi.
    unfold call_thread in Hact. destruct (t_prog t) as [| |B c k h]; try done.
    injection Hact as <-. apply tracks_do_inv in Hi as [Hf _].
    destruct (commits c) eqn:Hc; simpl; [|by rewrite perform_db].
    destruct c; try done. intros Hcur. cbn [perform].
    rewrite (session_commit_linearised (t_request t)); [| by apply Hf |].
    + by destruct (succeeds _ _ _).
    + intros Hs. by rewrite Hs in Hcur.
  - destruct (p_threads p !! i) as [t|]; [|done]. case_decide; [|done].
    by injection Hact as <-.
  - destruct e; try case_decide; by simplify_eq.
Qed.

Lemma replay_app h1 h2 db : replay (h1 ++ h2) db = replay h2 (replay h1 db).
Proof. apply foldl_app. Qed.

Lemma crun_tracks p schedule p' : crun p schedule p' -> pool_tracks p -> pool_tracks p'.
Proof. induction 1; eauto using cstep_tracks. Qed.

Lemma crun_linearised p schedule p' :
  crun p schedule p' -> pool_tracks p -> fresh_commits schedule p = true ->
  w_db (p_world p') = replay (history schedule p) (w_db (p_world p)).
Proof.
  induction 1 as [p|p a p1 schedule p' Hstep Hrun IH]; intros Hp; [done|].
  cbn [history fresh_commits gather every]. rewrite Hstep. intros [Ha Hrest]%andb_true_iff.
  rewrite replay_app, <- (cstep_linearised _ _ _ Hstep Hp Ha). eauto using cstep_tracks.
Qed.

(** ** Each request is linearised at most once *)

(** A call of a request that waits for its commit is the commit, after
    which the request will not commit, or leaves it waiting. *)
Lemma call_thread_waits o t w t' w' :
  tracks (t_request t) (t_session t) (t_prog t) -> waits o t ->
  call_thread t w = Some (t', w') ->
  match t_prog t with
  | Do c _ _ => if commits c then o = Some (t_request t) /\ quiet (t_prog t') else waits o t'
  | _ => True
  end.
Proof.
  unfold call_thread. destruct (t_prog t) as [| |B c k h] eqn:Hprg; try done.
  intros [Hc _]%tracks_do_inv Ho [= <- _]. cbn [t_prog t_request]. unfold waits, quiet in *.
  destruct (commits c) eqn:Hcommits.
  - destruct (Hc eq_refl) as (_ & Hk & Hh). split; [|by destruct (perform c _).1].
    destruct o as [r|]; simpl in Ho; [by subst|].
    rewrite Hprg in Ho. apply uses_do_inv in Ho as [Ho _]. congruence.
  - destruct o as [r|]; [done|]. simpl in *. rewrite Hprg in Ho.
    apply uses_do_inv in Ho as (_ & Hk & Hh). by destruct (perform c _).1.
Qed.

(** A step takes the request it linearises from those that wait, and
    adds the request that arrives. *)
Lemma cstep_pending p a p' rs :
  cstep p a p' -> pool_tracks p -> pending p rs ->
  exists rs', pending p' rs' /\
              (option_list (linearised a p)).*1 ++ rs' ⊆+ rs ++ arrivals [a].
Proof.
  unfold cstep. intros Hact Hp (os & Hos & ->). destruct a as [r|i|i response|e]; simpl in *.
  - injection Hact as <-. exists (omap id (os ++ [Some r])). rewrite omap_app. split; [|done].
    exists (os ++ [Some r]). rewrite omap_app. split; [|done].
    apply Forall2_app; [done|]. by repeat constructor.
  - destruct (p_threads p !! i) as [t|] eqn:Ht; [|done].
    destruct (call_thread t (p_world p)) as [[t' w']|] eqn:Hcall; [|done].
    injection Hact as <-. destruct (Forall2_lookup_r _ _ _ _ _ Hos Ht) as (o & Hoi & Ho).
    pose proof (call_thread_waits o t _ _ _ (proj1 (Forall_lookup _ _) Hp i t Ht) Ho Hcall)
      as Hw.
    rewrite app_nil_r. unfold linearised. cbn [committing]. rewrite Ht.
    unfold call_thread in Hcall.
    destruct (t_prog t) as [| |B c k h]; try done. destruct (commits c); simpl.
    + destruct Hw as [-> Hq]. exists (omap id (<[i := None]> os)). split.
      * exists (<[i := None]> os). split; [by apply Forall2_insert | done].
      * rewrite <- (omap_id_insert_None os i _ Hoi).
        destruct (succeeds c _ _); [done | by apply submseteq_cons].
    + exists (omap id os). split; [|done]. exists os. split; [|done].
      rewrite <- (list_insert_id os i o Hoi). by apply Forall2_insert.
  - destruct (p_threads p !! i) as [t|]; [|done]. case_decide; [|done].
    injection Hact as <-. exists (omap id (delete i os)). rewrite app_nil_r. split.
    + exists (delete i os). split; [by apply Forall2_delete | done].
    + apply omap_id_delete.
  - exists (omap id os). rewrite app_nil_r. split; [|done]. exists os. split; [|done].
    destruct e; try case_decide; by simplify_eq.
Qed.

Lemma crun_pending p schedule p' rs :
  crun p schedule p' -> pool_tracks p -> pending p rs ->
  (history schedule p).*1 ⊆+ rs ++ arrivals schedule.
Proof.
  intros Hrun. revert rs.
  induction Hrun as [p|p a p1 schedule p' Hstep Hrun IH]; intros rs Hp Hrs.
  - apply submseteq_nil_l.
  - destruct (cstep_pending _ _ _ _ Hstep Hp Hrs) as (rs' & Hrs' & Hsub).
    cbn [history gather]. rewrite Hstep, fmap_app.
    rewrite (omap_app _ [a] schedule : arrivals (a :: schedule) = _).
    rewrite (app_assoc rs). etrans; [|apply submseteq_skips_r, Hsub].
    rewrite <- app_assoc. apply submseteq_skips_l, IH; eauto using cstep_tracks.
Qed.

(** The requests of the history are among those that arrived, each at
    most as often as it arrived, whatever the commits were made on. *)
Lemma history_arrived w schedule p :
  crun (idle w) schedule p -> (history schedule (idle w)).*1 ⊆+ arrivals schedule.
Proof.
  intros Hrun. apply (crun_pending _ _ _ [] Hrun); [constructor|].
  exists []. split; [constructor | done].
Qed.

(** ** Creations and deletions are always linearised *)

(** The commit of a request that is not an update is made on current
    objects: its session holds no loaded object. *)
Lemma cstep_fresh p a :
  pool_tracks p ->
  from_option (fun t => is_update (t_request t) = false) True (committing a p) ->
  fresh a p = true.
Proof.
  unfold fresh. intros Hp. destruct a as [r|i|i response|e]; try done. simpl.
  destruct (p_threads p !! i) as [t|] eqn:Ht; [|done].
  pose proof (proj1 (Forall_lookup _ _) Hp i t Ht) as Hi. cbn beta in Hi.
  destruct (t_prog t) as [| |B c k h]; try done. apply tracks_do_inv in Hi as [Hc _].
  destruct (commits c); [|done]. destruct (succeeds _ _ _); [|done]. simpl.
  intros Hr. by apply Hc.
Qed.

Lemma crun_fresh p schedule p' :
  crun p schedule p' -> pool_tracks p ->
  Forall (fun r => is_update r = false) (history schedule p).*1 ->
  fresh_commits schedule p = true.
Proof.
  induction 1 as [p|p a p1 schedule p' Hstep Hrun IH]; intros Hp; [done|].
  cbn [history fresh_commits gather every]. rewrite Hstep, fmap_app.
  intros [Ha Hrest]%Forall_app. apply andb_true_iff. split; [|eauto using cstep_tracks].
  apply cstep_fresh; [done|].
  unfold linearised in Ha. destruct (committing a p); [|done]. by inversion Ha.
Qed.

(** When no update arrives, the table after every interleaving is the
    table after the sequential history of the commits, whatever the
    requests overlap: a creation and a deletion take nothing from the
    table before their commit. *)
Theorem inserts_and_deletes_linearizable w schedule p :
  crun (idle w) schedule p ->
  Forall (fun r => is_update r = false) (arrivals schedule) ->
  w_db (p_world p) = replay (history schedule (idle w)) (w_db w).
Proof.
  intros Hrun Hr. assert (Hp : pool_tracks (idle w)) by constructor.
  apply (crun_linearised _ _ _ Hrun Hp), (crun_fresh _ _ _ Hrun Hp).
  rewrite Forall_forall in *. intros r Hin. apply Hr.
  by eapply elem_of_submseteq, history_arrived.
Qed.

(** C3: the table after an interleaving in which every commit is made
    on current objects is the table after a sequential history: the
    requests whose commit succeeded, served one after the other by the
    specification, each on the table the one before left and at the
    time of its commit; and the requests of the history are among
    those that arrived, each at most as often as it arrived. *)
Theorem table_linearizable w schedule p :
  crun (idle w) schedule p ->
  fresh_commits schedule (idle w) = true ->
  w_db (p_world p) = replay (history schedule (idle w)) (w_db w) /\
  (history schedule (idle w)).*1 ⊆+ arrivals schedule.
Proof.
  intros Hrun Hfresh. split; [|by eapply history_arrived].
  apply (crun_linearised _ _ _ Hrun); [constructor | done].
Qed.

End Facts.
