(* ===== verification/Durable.v ===== *)
(** * An acknowledged write is a committed write

    A client that reads 200 or 201 in the answer to a POST, a PUT or a
    DELETE takes its write as made.  This file proves that it is: the
    handler of a write builds such an answer only after its
    [db.session.commit()] has returned, under every interleaving of
    the calls of the requests in flight and whatever fails between two
    calls.  The writes acknowledged along a schedule are therefore
    among the commits of its history, each at most as often as it was
    committed; since this holds of every schedule, it holds of every
    prefix of one, so the commit comes before the answer.

    The converse does not hold: a commit whose request then fails to
    delete [users:all] or to read its row back is answered 500
    ([Races.committed_create_answers_500]).

    [unsettled prg] is the invariant of a write that has not
    committed: no answer [prg] can end with acknowledges, unless a
    commit succeeds first.  [committed] is the ledger of the pool: the
    requests in flight whose commit succeeded. *)

From stdpp Require Import base tactics option strings numbers list gmap.
From S2P Require Import Prelude Python Cache Store Session World Handlers Server.
From S2P Require Import Invariants Spec Programs Concurrent Linearizable.

Open Scope string_scope.
Open Scope list_scope.
Open Scope Z_scope.

(** The answer tells the client that the request was carried out: 200
    or 201, against 400, 404 and 500. *)
Definition acknowledges (response : Response) : bool := bool_decide (status response < 300).

Section Durable.
Context `{Runtime} `{JsonCodec}.
Implicit Types (p : Pool) (t : Thread) (r : request).

(** The write a reply acknowledges. *)
Definition acknowledging (a : action) p : option request :=
  match a with
  | Reply i response =>
      match p_threads p !! i with
      | Some t =>
          if is_write (t_request t) && acknowledges response then Some (t_request t) else None
      | None => None
      end
  | _ => None
  end.

(** The writes acknowledged along a schedule, in order. *)
Definition acknowledged (schedule : list action) p : list request :=
  gather (fun a p => option_list (acknowledging a p)) schedule p.

(** [unsettled prg]: [prg] acknowledges only after a commit that
    returns. *)
Inductive unsettled : prog Response -> Prop :=
| unsettled_done response : acknowledges response = false -> unsettled (Done response)
| unsettled_fail e : unsettled (Fail e)
| unsettled_do {B} (c : call B) k h :
    (commits c = false -> forall b, unsettled (k b)) ->
    (forall e, unsettled (h e)) ->
    unsettled (Do c k h).

(** A request in flight has committed, or is a write that has yet to
    commit before it acknowledges, or is a read. *)
Definition booked (o : option request) t : Prop :=
  match o with
  | Some r => r = t_request t
  | None => is_write (t_request t) = true -> unsettled (t_prog t)
  end.

(** [committed p rs]: the requests [rs] are in flight in [p] after
    their commit; no other write in flight acknowledges before it has
    committed. *)
Definition committed p (rs : list request) : Prop :=
  exists os, Forall2 booked os (p_threads p) /\ rs = omap id os.

End Durable.

Section Facts.
Context `{Runtime} `{JsonCodec}.
Implicit Types (p : Pool) (t : Thread) (r : request).

Lemma unsettled_inv (prg : prog Response) :
  unsettled prg ->
  match prg with
  | Done response => acknowledges response = false
  | Fail _ => True
  | Do c k h => (commits c = false -> forall b, unsettled (k b)) /\ (forall e, unsettled (h e))
  end.
Proof. by destruct 1. Qed.

(** ** The programs of the writes *)

(** [unsettled_walk] follows a program up to its commit: every answer
    on the way is a refusal, and so is every answer after a call that
    raised. *)
Ltac unsettled_walk :=
  prog_tree;
  repeat (cbn [pbind ptry];
          first [ by apply unsettled_done
                | apply unsettled_fail
                | apply unsettled_do; [intros ? ?; try discriminate | intros ?]
                | case_match ]).

Lemma dispatch_unsettled r : is_write r = true -> unsettled (dispatch r).
Proof. destruct r; try done; intros _; unsettled_walk. Qed.

(** ** The pool *)

(** A call of a request leaves it as it was in the ledger, unless it
    is its commit and returns. *)
Lemma call_thread_settled o t w t' w' :
  booked o t -> call_thread t w = Some (t', w') ->
  booked (match t_prog t with
           | Do c _ _ =>
               if commits c && succeeds c (t_session t) w then Some (t_request t) else o
           | _ => o
           end) t'.
Proof.
  unfold call_thread, succeeds. destruct (t_prog t) as [| |B c k h] eqn:Hprg; try done.
  intros Ho [= <- _]. destruct (commits c) eqn:Hc; cbn [andb];
    destruct (perform c _).1 as [b|e]; try done;
    (destruct o as [r|]; [done|]); cbn [booked t_request t_prog] in *;
    intros Hw; rewrite Hprg in Ho; apply Ho, unsettled_inv in Hw as [Hk Hh]; auto.
Qed.

(** A step moves the request it linearises into the ledger, and takes
    from the ledger the write it acknowledges. *)
Lemma cstep_committed p a p' rs :
  cstep p a p' -> committed p rs ->
  exists rs', committed p' rs' /\
              option_list (acknowledging a p) ++ rs' ⊆+
                rs ++ (option_list (linearised a p)).*1.
Proof.
  unfold cstep. intros Hact (os & Hos & ->). destruct a as [r|i|i response|e]; simpl in *.
  - injection Hact as <-. exists (omap id (os ++ [None])). rewrite omap_app. split; [|done].
    exists (os ++ [None]). rewrite omap_app. split; [|done].
    apply Forall2_app; [done|]. repeat constructor. exact (dispatch_unsettled r).
  - destruct (p_threads p !! i) as [t|] eqn:Ht; [|done].
    destruct (call_thread t (p_world p)) as [[t' w']|] eqn:Hcall; [|done].
    injection Hact as <-. destruct (Forall2_lookup_r _ _ _ _ _ Hos Ht) as (o & Hoi & Ho).
    pose proof (call_thread_settled o t _ _ _ Ho Hcall) as Hs.
    eexists. split; [eexists; split; [by apply Forall2_insert | done]|].
    unfold linearised. cbn [committing]. rewrite Ht.
    destruct (t_prog t) as [| |B c k h]; try (by rewrite list_insert_id, app_nil_r).
    destruct (commits c && succeeds c _ _); [|by rewrite list_insert_id, app_nil_r].
    cbn. rewrite <- Permutation_cons_append. apply omap_id_insert_Some.
  - destruct (p_threads p !! i) as [t|] eqn:Ht; [|done]. case_decide as Hr; [|done].
    injection Hact as <-. destruct (Forall2_lookup_r _ _ _ _ _ Hos Ht) as (o & Hoi & Ho).
    exists (omap id (delete i os)). rewrite app_nil_r.
    split; [exists (delete i os); split; [by apply Forall2_delete | done]|].
    destruct (is_write (t_request t) && acknowledges response) eqn:Hack;
      [|apply omap_id_delete].
    apply andb_true_iff in Hack as [Hw Hack]. destruct o as [r|]; simpl in Ho.
    + subst r. cbn. by rewrite (omap_id_delete_Some os i _ Hoi).
    + apply Ho, unsettled_inv in Hw. unfold reply_thread in Hr.
      destruct (t_prog t); simplify_eq. congruence.
  - exists (omap id os). rewrite app_nil_r. split; [|done]. exists os. split; [|done].
    destruct e; try case_decide; by simplify_eq.
Qed.

Lemma crun_committed p schedule p' rs :
  crun p schedule p' -> committed p rs ->
  acknowledged schedule p ⊆+ rs ++ (history schedule p).*1.
Proof.
  intros Hrun. revert rs.
  induction Hrun as [p|p a p1 schedule p' Hstep Hrun IH]; intros rs Hrs.
  - apply submseteq_nil_l.
  - destruct (cstep_committed _ _ _ _ Hstep Hrs) as (rs' & Hrs' & Hsub).
    cbn [acknowledged history gather]. rewrite Hstep, fmap_app, app_assoc.
    etrans; [|apply submseteq_skips_r, Hsub].
    rewrite <- app_assoc. apply submseteq_skips_l, IH, Hrs'.
Qed.

(** C5: a write that is acknowledged is committed: under every
    interleaving of the calls of concurrent requests and every failure
    of a backend between two calls, the POST, PUT and DELETE requests
    answered 200 or 201 are among the requests whose
    [db.session.commit()] returned, each at most as often as it
    committed; as this holds of every prefix of a schedule, no write
    is acknowledged before its commit. *)
Theorem acknowledged_is_committed w schedule p :
  crun (idle w) schedule p ->
  acknowledged schedule (idle w) ⊆+ (history schedule (idle w)).*1.
Proof.
  intros Hrun. apply (crun_committed _ _ _ [] Hrun). exists []. split; [constructor | done].
Qed.

End Facts.
