(* ===== verification/Coherence.v ===== *)
(** * The cache under interleavings

    [Policy.run_coherent] keeps [users:all] coherent with the table
    when requests are served one after the other and no write is
    served while the cache is down.  Between the calls of concurrent
    requests there are two more windows: a write has committed and has
    not yet deleted the key, and a read has queried the table and has
    not yet stored its list.  This file proves that these are the only
    ones: along every interleaving in which no request commits while a
    read holds a list it has not stored, and no write deletes the key
    while the cache is down, [users:all] is coherent with the table
    whenever no write stands between its commit and its deletion of
    the key.  [Concurrent.read_overlapping_write] and
    [Scenarios.orphaned_write_serves_stale_list] show that neither
    condition can be dropped. *)

From stdpp Require Import base tactics option strings numbers list gmap.
From S2P Require Import Prelude Python Cache Store Session World Handlers Server.
From S2P Require Import Invariants Policy Programs Concurrent.

Open Scope string_scope.
Open Scope list_scope.
Open Scope Z_scope.

(** ** The two windows *)

(** The call stores a list under [users:all]; the call deletes the
    key. *)
Definition stores_list {B} (c : call B) : bool :=
  match c with
  | CacheSetex k _ _ => bool_decide (k = users_key)
  | _ => false
  end.

Definition deletes_list {B} (c : call B) : bool :=
  match c with
  | CacheDelete k => bool_decide (k = users_key)
  | _ => false
  end.

(** The request has queried the table and stores its list next; the
    request has committed and deletes the key next. *)
Definition holding (prg : prog Response) : bool :=
  match prg with
  | Do c _ _ => stores_list c
  | _ => false
  end.

Definition invalidating (prg : prog Response) : bool :=
  match prg with
  | Do c _ _ => deletes_list c
  | _ => false
  end.

Section Coherence.
Context `{Runtime} `{JsonCodec}.
Implicit Types (p : Pool) (w : World) (t : Thread) (prg : prog Response).

(** The next call of a request, if it has one, avoids the windows: a
    commit is made while no request holds a list, and the key is
    deleted while the cache is up. *)
Definition guarded (a : action) p : bool :=
  match a with
  | Call i =>
      match p_threads p !! i with
      | Some t =>
          match t_prog t with
          | Do c _ _ =>
              (negb (commits c) || forallb (fun t' => negb (holding (t_prog t'))) (p_threads p))
              && (negb (deletes_list c) || w_cache_up (p_world p))
          | _ => true
          end
      | None => true
      end
  | _ => true
  end.

Definition careful (schedule : list action) p : bool := every guarded schedule p.

(** ** The invariant of a request in flight *)

(** The program stores the list [v] next, and what follows satisfies
    [P]. *)
Definition bound_to (P : prog Response -> Prop) (v : json) prg : Prop :=
  exists ttl k h,
    prg = Do (CacheSetex users_key ttl (dumps v)) k h /\
    (forall u, P (k u)) /\ (forall e, P (h e)).

(** [fills prg]: the program holds no list.  It stores one only
    straight after it has queried the table, and the list of that
    query; after a commit it deletes the key. *)
#[local] Unset Elimination Schemes.
Inductive fills : prog Response -> Prop :=
| fills_done response : fills (Done response)
| fills_fail e : fills (Fail e)
| fills_do {B} (c : call B) k h :
    stores_list c = false ->
    (commits c = true -> forall b, invalidating (k b) = true) ->
    (forall w b w', perform c w = (Ok b, w') ->
                    fills (k b) \/ bound_to fills (fresh_users w) (k b)) ->
    (forall e, fills (h e)) ->
    fills (Do c k h).
#[local] Set Elimination Schemes.

(** A request in flight holds no list, or the list of the table. *)
Definition thread_ok (db : Database) t : Prop :=
  fills (t_prog t) \/ bound_to fills (users_data (rows db)) (t_prog t).

(** The key is coherent, or a write is about to delete it. *)
Definition key_ok w (ts : list Thread) : Prop :=
  cache_coherent w \/ exists t, t ∈ ts /\ invalidating (t_prog t) = true.

Definition pool_coherent p : Prop :=
  Forall (thread_ok (w_db (p_world p))) (p_threads p) /\ key_ok (p_world p) (p_threads p).

End Coherence.

Section Facts.
Context `{Runtime} `{JsonCodec}.
Implicit Types (p : Pool) (w : World) (t : Thread) (prg : prog Response).

Lemma fills_do_inv {B} (c : call B) k h :
  fills (Do c k h) ->
  stores_list c = false /\
  (commits c = true -> forall b, invalidating (k b) = true) /\
  (forall w b w', perform c w = (Ok b, w') ->
                  fills (k b) \/ bound_to fills (fresh_users w) (k b)) /\
  (forall e, fills (h e)).
Proof.
  intros Hf.
  change (match Do c k h : prog Response with
          | Do c k h =>
              stores_list c = false /\
              (commits c = true -> forall b, invalidating (k b) = true) /\
              (forall w b w', perform c w = (Ok b, w') ->
                              fills (k b) \/ bound_to fills (fresh_users w) (k b)) /\
              (forall e, fills (h e))
          | _ => True
          end).
  by destruct Hf.
Qed.

(** ** The programs of the routes *)

(** A call that is not the query of the list, followed by a program
    that holds no list. *)
Lemma fills_plain {B} (c : call B) k h :
  stores_list c = false ->
  (commits c = true -> forall b, invalidating (k b) = true) ->
  (forall b, fills (k b)) -> (forall e, fills (h e)) ->
  fills (Do c k h).
Proof. intros Hc Hi Hk Hh. apply fills_do; auto. Qed.

(** The query of the list, followed by the storing of what it
    returned. *)
Lemma fills_query_all ttl k h h' :
  (forall users u, fills (k users u)) -> (forall users e, fills (h users e)) ->
  (forall e, fills (h' e)) ->
  fills (Do QueryAll
            (fun users =>
               Do (CacheSetex users_key ttl (dumps (users_data users))) (k users) (h users))
            h').
Proof.
  intros Hk Hh Hh'. apply fills_do; [done..| |done]. intros w b w'. cbn.
  unfold query_all, db_call, gets. destruct (w_db_up w); [|done]. intros [= <- <-].
  right. by exists ttl, (k (rows (w_db w))), (h (rows (w_db w))).
Qed.

Ltac fills_walk :=
  prog_tree;
  repeat (cbn [pbind ptry];
          first [ apply fills_done | apply fills_fail | case_match
                | apply fills_query_all; intros
                | apply fills_plain; [done | try done; intros _ ? | intros | intros] ]).

Lemma dispatch_fills r : fills (dispatch r).
Proof. destruct r; fills_walk. Qed.

(** ** What a call does to the key *)

Implicit Types (db : Database).

(** A request that stores a list next holds one. *)
Lemma bound_holding P v prg : bound_to P v prg -> holding prg = true.
Proof. intros (ttl & k & h & -> & _). by apply bool_decide_eq_true. Qed.

Lemma bound_not_invalidating P v prg : bound_to P v prg -> invalidating prg = false.
Proof. by intros (ttl & k & h & -> & _). Qed.

Lemma thread_ok_unbound db db' t :
  holding (t_prog t) = false -> thread_ok db t -> thread_ok db' t.
Proof. intros Hh [Hf|Hb%bound_holding]; [by left | congruence]. Qed.

(** A call that neither stores the list, nor deletes the key, nor
    commits keeps the key coherent. *)
Lemma perform_coherent {B} (c : call B) w :
  stores_list c = false -> deletes_list c = false -> commits c = false ->
  cache_coherent w -> cache_coherent (perform c w).2.
Proof.
  intros Hs Hd Hc Hw. destruct (writes_cache c) eqn:Hwc.
  - destruct c; try done; simpl in *; unfold cache_setex, cache_delete, cache_call, modify;
      destruct (w_cache_up w); try done; intros s; simpl;
      apply bool_decide_eq_false in Hs || apply bool_decide_eq_false in Hd.
    + rewrite cache_lookup_store_ne by done. apply Hw.
    + rewrite cache_lookup_remove_ne by done. apply Hw.
  - destruct (perform_frame c w Hwc) as [Hca Hnow].
    by apply (coherent_ext w); [|apply perform_db|..].
Qed.

(** Storing the list of the table makes the key coherent, and fails
    without a change. *)
Lemma setex_coherent ttl w :
  cache_coherent (cache_setex users_key ttl (dumps (fresh_users w)) w).2 \/
  (cache_setex users_key ttl (dumps (fresh_users w)) w).2 = w.
Proof.
  unfold cache_setex, cache_call, modify. destruct (w_cache_up w); [left | by right].
  intros s. simpl. rewrite cache_lookup_store_eq. case_match; [by intros [= <-] | done].
Qed.

(** Deleting the key makes it coherent, when the cache answers. *)
Lemma delete_coherent {B} (c : call B) w :
  deletes_list c = true -> w_cache_up w = true -> cache_coherent (perform c w).2.
Proof.
  intros Hd Hup. destruct c; try done. apply bool_decide_eq_true in Hd as ->. simpl.
  unfold cache_delete, cache_call, modify. rewrite Hup. by eapply coherent_removed.
Qed.

(** A commit that fails changes nothing. *)
Lemma commit_raises {B} (c : call B) w e :
  commits c = true -> (perform c w).1 = Raise e -> (perform c w).2 = w.
Proof.
  intros Hc. destruct c; try done. simpl. unfold session_commit, db_call.
  destruct (w_db_up w); [|done]. by destruct (flush _ _ _) as [[s db]|].
Qed.

(** ** The pool *)

(** The next call of a request keeps its own invariant. *)
Lemma call_thread_ok t w t' w' :
  thread_ok (w_db w) t -> call_thread t w = Some (t', w') -> thread_ok (w_db w') t'.
Proof.
  unfold call_thread, thread_ok. intros [Hf|(ttl & k' & h' & Heq & Hk & Hh)].
  - destruct (t_prog t) as [| |B c k h]; try done. intros [= <- <-]. cbn.
    apply fills_do_inv in Hf as (Hs & Hi & Hk & Hh).
    destruct (perform c _) as [[b|e] w1] eqn:Hp; cbn; [|by left].
    destruct (Hk _ _ _ Hp) as [Hf|Hb]; [by left|]. destruct (commits c) eqn:Hc.
    + specialize (Hi eq_refl b). by rewrite (bound_not_invalidating _ _ _ Hb) in Hi.
    + right. pose proof (perform_db c (set_session (t_session t) w) Hc) as Hdb.
      rewrite Hp in Hdb. cbn in Hdb. by rewrite Hdb.
  - rewrite Heq. intros [= <- <-]. left. cbn. by destruct (cache_setex _ _ _ _).1.
Qed.

(** The others keep theirs: the table changes only by a commit, and
    then none of them holds a list. *)
Lemma call_thread_others p i t t' w' :
  p_threads p !! i = Some t -> call_thread t (p_world p) = Some (t', w') ->
  guarded (Call i) p = true ->
  Forall (thread_ok (w_db (p_world p))) (p_threads p) ->
  Forall (thread_ok (w_db w')) (p_threads p).
Proof.
  unfold call_thread. cbn [guarded]. intros -> Hcall Hg Hall.
  destruct (t_prog t) as [| |B c k h]; try done. injection Hcall as <- <-. cbn.
  destruct (commits c) eqn:Hc; [|by rewrite perform_db].
  apply andb_true_iff in Hg as [Hno%Is_true_true%forallb_True _].
  rewrite Forall_forall in *. intros t0 Ht0.
  apply (thread_ok_unbound (w_db (p_world p))); [|by apply Hall].
  by apply negb_true_iff, Is_true_true, Hno.
Qed.

Lemma coherent_session s w : cache_coherent (set_session s w) <-> cache_coherent w.
Proof. split; by apply coherent_ext. Qed.

(** A call of a request that is not about to delete the key, and that
    keeps the key coherent if it is, leaves the key as above. *)
Lemma key_kept w w' ts i t t' :
  ts !! i = Some t -> invalidating (t_prog t) = false ->
  (cache_coherent w -> cache_coherent w') ->
  key_ok w ts -> key_ok w' (<[i := t']> ts).
Proof.
  intros Ht Hinv Hw [Hc|(t0 & Hin & Ht0)]; [left; auto|].
  right. exists t0. split; [|done]. eapply elem_of_insert_other; [done..|]. congruence.
Qed.

Lemma call_thread_key p i t t' w' :
  p_threads p !! i = Some t -> call_thread t (p_world p) = Some (t', w') ->
  guarded (Call i) p = true -> thread_ok (w_db (p_world p)) t ->
  key_ok (p_world p) (p_threads p) -> key_ok w' (<[i := t']> (p_threads p)).
Proof.
  unfold call_thread. cbn [guarded]. intros Ht Hcall Hg Hok Hkey. rewrite Ht in Hg.
  destruct Hok as [Hf|(ttl & k' & h' & Heq & _)].
  - destruct (t_prog t) as [| |B c k h] eqn:Hprg; try done. injection Hcall as <- <-.
    apply fills_do_inv in Hf as (Hs & Hi & _). apply andb_true_iff in Hg as [_ Hup].
    destruct (deletes_list c) eqn:Hd; [left; by apply coherent_session, delete_coherent|].
    assert (Hinv : invalidating (t_prog t) = false) by by rewrite Hprg.
    destruct (commits c) eqn:Hc.
    + destruct (perform c _) as [[b|e] w1] eqn:Hp.
      * right. eexists. split; [eapply list_elem_of_insert, lookup_lt_Some, Ht|]. by apply Hi.
      * apply (key_kept (p_world p) _ _ _ t); [done..| |done]. intros Hw.
        pose proof (commit_raises c _ e Hc (f_equal fst Hp)) as Hw1. rewrite Hp in Hw1.
        cbn in *. subst w1. by apply coherent_session, coherent_session.
    + apply (key_kept (p_world p) _ _ _ t); [done..| |done]. intros Hw.
      by apply coherent_session, perform_coherent, coherent_session.
  - rewrite Heq in Hcall. injection Hcall as <- <-.
    assert (Hinv : invalidating (t_prog t) = false) by by rewrite Heq.
    destruct (setex_coherent ttl (set_session (t_session t) (p_world p))) as [Hc|Hsame].
    + left. by apply coherent_session.
    + apply (key_kept (p_world p) _ _ _ t); [done..| |done]. intros Hw. cbn.
      unfold fresh_users in Hsame. cbn in Hsame. rewrite Hsame.
      by apply coherent_session, coherent_session.
Qed.

Lemma cstep_coherent p a p' :
  cstep p a p' -> guarded a p = true -> pool_coherent p -> pool_coherent p'.
Proof.
  unfold cstep. intros Hact Hg [Hall Hkey]. destruct a as [r|i|i response|e]; simpl in Hact.
  - injection Hact as <-. split; simpl.
    + apply Forall_app. split; [done|]. apply Forall_singleton. left. apply dispatch_fills.
    + destruct Hkey as [Hc|(t & Hin & Ht)]; [by left|].
      right. exists t. split; [|done]. apply elem_of_app. by left.
  - destruct (p_threads p !! i) as [t|] eqn:Ht; [|done].
    destruct (call_thread t (p_world p)) as [[t' w']|] eqn:Hcall; [|done].
    injection Hact as <-. pose proof (Forall_lookup_1 _ _ _ _ Hall Ht) as Hok. split; simpl.
    + apply Forall_insert; [by eapply call_thread_others | by eapply call_thread_ok].
    + by eapply call_thread_key.
  - destruct (p_threads p !! i) as [t|] eqn:Ht; [|done]. case_decide as Hr; [|done].
    injection Hact as <-. split; simpl; [by apply Forall_delete|].
    destruct Hkey as [Hc|(t0 & Hin & Ht0)]; [by left|].
    right. exists t0. split; [|done]. eapply elem_of_delete_other; [done..|]. intros ->.
    unfold reply_thread in Hr. by destruct (t_prog t).
  - destruct e as [| dt | up | up |]; try case_decide; simplify_eq/=; split; try done.
    all: destruct Hkey as [Hc|Hex]; [left | by right].
    + by apply advance_coherent.
    + by apply reclaim_coherent.
Qed.

Lemma crun_coherent p schedule p' :
  crun p schedule p' -> careful schedule p = true -> pool_coherent p -> pool_coherent p'.
Proof.
  induction 1 as [p|p a p1 schedule p' Hstep Hrun IH]; [done|].
  cbn [careful every]. rewrite Hstep. intros [Ha Hrest]%andb_true_iff Hp.
  eauto using cstep_coherent.
Qed.

(** C4: along every interleaving in which no request commits while a
    read holds a list it has not stored and no write deletes the key
    while the cache is down, [users:all] holds nothing but the dump of
    the table whenever no write stands between its commit and its
    deletion of the key; in particular when no request is in
    flight. *)
Theorem interleaved_coherent w schedule p :
  crun (idle w) schedule p -> careful schedule (idle w) = true ->
  cache_coherent w ->
  Forall (fun t => invalidating (t_prog t) = false) (p_threads p) ->
  cache_coherent (p_world p).
Proof.
  intros Hrun Hcareful Hw Hnone.
  destruct (crun_coherent _ _ _ Hrun Hcareful) as [_ [Hc|(t & Hin & Ht)]]; [|done|].
  - split; [constructor | by left].
  - rewrite Forall_forall in Hnone. specialize (Hnone t Hin). congruence.
Qed.

End Facts.
