(* ===== verification/Retries.v ===== *)
(** * A request that is repeated writes once

    A client that gets no answer, or a 500, cannot tell whether its
    write was made: [create_user] answers 500 after its commit when
    the cache or the store fails before the answer is built
    ([Scenarios.orphaned_write_serves_stale_list],
    [Races.committed_create_answers_500]).  What it can do is send the
    request again.  This file proves that it may: however often one
    request is served, and whatever fails and recovers in between, the
    table is the table before the first of them or the table after one
    service of the request by the specification.  A POST that is
    repeated inserts one row, because the second INSERT is refused by
    the unique constraint of line 30; a PUT that is repeated sets the
    columns to the values they have; a DELETE that is repeated finds
    no row.

    The proof goes through the history of the schedule: by
    [Linearizable.table_linearizable] the table is the replay of the
    commits that succeeded, all of them commits of the one request,
    and the specification serves a request twice as it serves it
    once ([spec_write_idempotent]). *)

From stdpp Require Import base tactics option strings numbers list gmap.
From S2P Require Import Prelude Python Cache Store Session World Handlers Server.
From S2P Require Import Invariants Policy Spec Programs Concurrent Linearizable Coherence Serial.

Open Scope string_scope.
Open Scope list_scope.
Open Scope Z_scope.

Section Retries.
Context `{Runtime} `{JsonCodec}.
Implicit Types (p : Pool) (w : World) (r : request) (db : Database) (now : Z).

(** ** The UPDATE of a flush, made again *)

(** A column that passed the checks of the first UPDATE passes those
    of the second, which sets it to the value it has. *)
Lemma column_rechecked c v o old new db db' :
  column_checked c (net_change (col_value c old) v) o (Some (User.id old)) db ->
  col_value c new = default (col_value c old) o ->
  User.id new = User.id old ->
  (forall u, u ∈ rows db' -> u = new \/ u ∈ rows db /\ User.id u <> User.id new) ->
  column_checked c (net_change (col_value c new) v)
    (set_to (col_value c new) (net_change (col_value c new) v)) (Some (User.id old)) db'.
Proof.
  intros Hc Hnew Hid Hrows. unfold net_change in *. destruct v as [j|]; [|done].
  destruct (decide (j = JStr (col_value c new))) as [->|Hne']; [done|]. simpl.
  destruct (decide (j = JStr (col_value c old))) as [->|Hne].
  { destruct o; [done|]. simpl in Hnew. by rewrite Hnew in Hne'. }
  destruct o as [s|]; [|done]. destruct Hc as (Hb & Hl & Hu). simpl in Hnew. subst s.
  repeat split; try done. intros u [->|[Hin Hneq]]%Hrows Hval; [by rewrite Hid|].
  specialize (Hu u Hin Hval). injection Hu as Hu. congruence.
Qed.

(** The flush of an update that was committed, made again on the row
    as it now is, emits no statement or an UPDATE that changes
    nothing. *)
Lemma flush_update_again old u e db db' :
  db_wf db -> db_get (User.id old) db = Some old ->
  flush_update old u e db = Ok db' ->
  exists new, db_get (User.id old) db' = Some new /\ flush_update new u e db' = Ok db'.
Proof.
  intros Hwf Hget [(-> & Hnu & Hne)|[new Hu]]%flush_update_Ok.
  { exists old. split; [done|]. unfold flush_update. by rewrite Hnu, Hne. }
  pose proof (db_update_wf _ _ _ _ _ _ Hwf Hu) as Hwf'.
  destruct (db_get_update _ _ _ _ _ _ Hwf Hu) as (Hget' & Hid & _).
  exists new. split; [done|].
  apply db_update_Ok in Hu
    as (old' & [ou oe] & Hold & [Hcu Hce]%checked_columns_Ok & Hnew & ->).
  replace old' with old in * by congruence.
  assert (Hsame : db_update (User.id old) (net_change (User.username new) u)
                    (net_change (User.email new) e)
                    (mkDb (replace_row new (rows db)) (next_id db)) =
                  Ok (new, mkDb (replace_row new (rows db)) (next_id db))).
  { apply db_update_same; [done..| |].
    - apply (column_rechecked ColUsername u ou old new db); try done; [by subst new|].
      intros v. apply elem_of_replace_row.
    - apply (column_rechecked ColEmail e oe old new db); try done; [by subst new|].
      intros v. apply elem_of_replace_row. }
  unfold flush_update. rewrite Hid.
  destruct (net_change (User.username new) u), (net_change (User.email new) e);
    by rewrite ?Hsame.
Qed.

(** ** The specification serves a request twice as once *)

(** Whether an INSERT is refused does not depend on the time. *)
Lemma db_insert_refused username email now now' db e :
  db_insert username email now db = Raise e -> db_insert username email now' db = Raise e.
Proof.
  unfold db_insert.
  repeat lazymatch goal with
         | |- context [rbind ?x _] => destruct x; simpl; try done
         end.
Qed.

Lemma spec_create_user_idempotent b now now' db :
  (spec_create_user b now' (spec_create_user b now db).2).2 = (spec_create_user b now db).2.
Proof.
  unfold spec_create_user. destruct (new_user b) as [[[username email]|]|] eqn:Hn; try done.
  destruct (db_insert username email now db) as [[row db']|e] eqn:Hi; simpl.
  - by rewrite (db_insert_again _ _ _ now' _ _ _ Hi).
  - by rewrite (db_insert_refused _ _ _ now' _ _ Hi).
Qed.

Lemma spec_update_user_idempotent i b db :
  db_wf db ->
  (spec_update_user i b (spec_update_user i b db).2).2 = (spec_update_user i b db).2.
Proof.
  intros Hwf. destruct (spec_update_user i b db) as [response db1] eqn:Hfirst. cbn [snd].
  unfold spec_update_user in *. destruct (db_get i db) as [old|] eqn:Hget;
    [|injection Hfirst as _ <-; by rewrite Hget].
  destruct (changes b) as [[u e]|err] eqn:Hc; cbn [rbind fst snd] in Hfirst;
    [|injection Hfirst as _ <-; by rewrite Hget].
  destruct (flush_update old u e db) as [db'|err] eqn:Hf; injection Hfirst as _ <-;
    [|rewrite Hget; cbn [rbind fst snd]; by rewrite Hf].
  pose proof Hget as [_ <-]%db_get_Some.
  destruct (flush_update_again _ _ _ _ _ Hwf Hget Hf) as (new & -> & Hf').
  cbn [rbind fst snd]. by rewrite Hf'.
Qed.

Lemma spec_delete_user_idempotent i db :
  (spec_delete_user i (spec_delete_user i db).2).2 = (spec_delete_user i db).2.
Proof.
  unfold spec_delete_user. destruct (db_get i db) eqn:Hget; cbn [snd].
  - by rewrite db_get_delete_eq.
  - by rewrite Hget.
Qed.

(** A request served again by the specification, at any time, leaves
    the table as the first service left it. *)
Lemma spec_write_idempotent r now now' db :
  db_wf db -> spec_write r now' (spec_write r now db) = spec_write r now db.
Proof.
  intros Hwf. unfold spec_write. destruct r; try done; cbn [spec a_db a_now fst snd].
  - apply spec_create_user_idempotent.
  - by apply spec_update_user_idempotent.
  - apply spec_delete_user_idempotent.
Qed.

(** ** Histories of one request *)

(** The replay of a history of one request is the table as it was, or
    the table after the first of them. *)
Lemma replay_repeated r (h : list (request * Z)) db :
  db_wf db -> Forall (eq r) h.*1 ->
  replay h db = db \/ exists now, replay h db = spec_write r now db.
Proof.
  intros Hwf. induction h as [|[r' now'] h IH] using rev_ind; [by left|].
  rewrite fmap_app, Forall_app. simpl. intros [Hh <-%Forall_singleton].
  rewrite replay_app. simpl. right. destruct (IH Hh) as [->|[now ->]].
  - by exists now'.
  - exists now. by apply spec_write_idempotent.
Qed.

(** C10: a request that is repeated writes once: under every
    interleaving of the calls of any number of copies of one request,
    with failures and recoveries of the backends in between, in which
    every commit is made on current objects, the table is the table
    before the first of them, or the table the specification computes
    for one service of the request. *)
Theorem retries_write_once r w schedule p :
  crun (idle w) schedule p ->
  fresh_commits schedule (idle w) = true ->
  db_wf (w_db w) ->
  Forall (eq r) (arrivals schedule) ->
  w_db (p_world p) = w_db w \/
  exists now, w_db (p_world p) = spec_write r now (w_db w).
Proof.
  intros Hrun Hfresh Hwf Hr.
  rewrite (crun_linearised _ _ _ Hrun) by (done || constructor).
  apply replay_repeated; [done|]. rewrite Forall_forall in *. intros r' Hin. apply Hr.
  eapply elem_of_submseteq; [done|]. by eapply history_arrived.
Qed.

(** Served one after the other, the copies of a request write once,
    with no condition on the run. *)
Theorem run_retries_write_once r w es w' :
  run w es w' -> settled w ->
  Forall (fun e => match e with Served r' _ => r' = r | _ => True end) es ->
  w_db w' = w_db w \/ exists now, w_db w' = spec_write r now (w_db w).
Proof.
  intros Hrun [Hs Hwf] Hr. rewrite (run_linearizable _ _ _ Hrun Hs).
  apply replay_repeated; [done|]. apply Forall_forall. intros r' Hin.
  eapply elem_of_submseteq in Hin;
    [|eapply history_arrived, crun_acts, serial_acts; done].
  rewrite arrivals_serial in Hin. apply list_elem_of_omap in Hin as ([] & He & Hin);
    simplify_eq. symmetry. by apply (proj1 (Forall_forall _ _) Hr _ He).
Qed.

End Retries.
