(* ===== verification/Scenarios.v ===== *)
(** * The theorems on a concrete deployment

    A deployment on the platform of [Platform] with the codec of
    [Codec], started at 2023-11-14 22:13:20.250000 UTC, and what happens to it
    when two users are created, listed, updated and deleted, the cache
    fails during a write, and time passes.  The worlds are computed by
    [serve]; every theorem of the development that has a hypothesis is
    instantiated here on one of them, its hypotheses discharged by
    evaluation.  The last section shows the one way the policy breaks:
    a write whose invalidation fails leaves a list in the cache that
    lacks a committed row, and [get_users] serves it. *)

From stdpp Require Import base tactics option strings numbers list gmap.
From S2P Require Import Prelude Python Codec Platform Cache Store Session World.
From S2P Require Import Handlers Server Invariants Typing Config Routing Policy Requests.
From S2P Require Import Spec Refinement App.

Open Scope string_scope.
Open Scope list_scope.
Open Scope Z_scope.

(** ** The deployment *)

Definition t0 : Z := seconds 1700000000 + 250000.

Definition user_body (username email : string) : body :=
  Body (JObj [("username", JStr username); ("email", JStr email)]).

Definition alice : body := user_body "alice" "alice@example.org".
Definition bob : body := user_body "bob" "bob@example.org".

(** The response [serve] gives to [r] in [w]. *)
Definition answer (r : request) (w : World) : Response :=
  match (serve r w).1 with
  | Ok response => response
  | Raise _ => mkResponse 0 JNull
  end.

(** The event of serving [r] after the events [es]. *)
Definition served (r : request) (es : list event) : event :=
  Served r (answer r (apply_events es (init_world t0))).

(** Alice is created and the list is read: the key is filled. *)
Definition es_listed : list event :=
  let es1 := [served (CreateUser alice) []] in
  es1 ++ [served GetUsers es1].

Definition w_fresh : World := init_world t0.
Definition w_alice : World := apply_events [served (CreateUser alice) []] w_fresh.
Definition w_listed : World := apply_events es_listed w_fresh.

(** Ten seconds later Bob is created, then the list is read again. *)
Definition es_two : list event :=
  let es3 := es_listed ++ [Tick (seconds 10)] in
  let es4 := es3 ++ [served (CreateUser bob) es3] in
  es4 ++ [served GetUsers es4].

Definition w_two : World := apply_events es_two w_fresh.

(** Alice is deleted. *)
Definition es_deleted : list event := es_two ++ [served (DeleteUser 1) es_two].
Definition w_deleted : World := apply_events es_deleted w_fresh.

(** ** The invariants *)

Lemma run_coherent_witness : cache_coherent w_two.
Proof.
  apply (run_coherent w_fresh es_two w_two).
  - apply run_replay. by vm_compute.
  - by_compute.
  - by vm_compute.
  - by_compute.
Defined.

Lemma reachable_settled_witness : settled w_deleted.
Proof.
  apply reachable_settled. exists t0, es_deleted. apply run_replay. by vm_compute.
Defined.

Lemma run_monotone_witness :
  w_now w_fresh <= w_now w_deleted /\ next_id (w_db w_fresh) <= next_id (w_db w_deleted).
Proof. apply (run_monotone w_fresh es_deleted). apply run_replay. by vm_compute. Defined.

Lemma retired_forever_witness :
  db_get 1 (w_db (apply_events [served (CreateUser alice) es_deleted] w_deleted)) = None.
Proof.
  apply (retired_forever 1 w_deleted [served (CreateUser alice) es_deleted]).
  - apply run_replay. by vm_compute.
  - by_compute.
Defined.

(** ** The types of the answers *)

Lemma serve_typed_witness :
  exists response,
    serve GetUsers w_listed = (Ok response, (serve GetUsers w_listed).2) /\
    well_typed GetUsers response = true /\
    cache_typed (serve GetUsers w_listed).2.
Proof.
  apply serve_typed. apply reachable_cache_typed. exists t0, es_listed.
  apply run_replay. by vm_compute.
Defined.

Lemma run_typed_witness : cache_typed w_two /\ Forall served_typed es_two.
Proof.
  apply (run_typed w_fresh es_two w_two); [apply typed_init | apply run_replay; by vm_compute].
Defined.

(** The world after the events [es], and that a deployment reaches
    it. *)
Definition at_events (es : list event) : World := apply_events es w_fresh.

Lemma reachable_at es : events_ok es w_fresh = true -> reachable (at_events es).
Proof. intros Hok. exists t0, es. by apply run_replay. Qed.

(** The states in which the answers of the contract are given: two
    users are there, then one backend is down, or the other. *)
Definition es_store_down : list event := es_two ++ [StoreUp false].
Definition es_cache_down : list event := es_two ++ [CacheUp false].

(** The contract of [answers_of] is tight: every status it lists for
    a route is the status of an answer to a request for that route in
    a state a deployment reaches. *)
Theorem contract_attained r a :
  a ∈ answers_of r ->
  exists r' es, same_route r r' = true /\ events_ok es w_fresh = true /\
                status (answer r' (at_events es)) = a.1.
Proof.
  intros Ha.
  destruct r; simpl in Ha; repeat (apply elem_of_cons in Ha as [->|Ha]);
    try by apply elem_of_nil in Ha.
  - by exists Health, es_two.
  - by exists GetUsers, es_two.
  - by exists GetUsers, es_cache_down.
  - by exists (GetUser 1), es_two.
  - by exists (GetUser 7), es_two.
  - by exists (CreateUser (user_body "carol" "carol@example.org")), es_two.
  - by exists (CreateUser (Body (JObj []))), es_two.
  - by exists (CreateUser alice), es_two.
  - by exists (UpdateUser 2 (Body (JObj []))), es_two.
  - by exists (UpdateUser 7 (Body (JObj []))), es_two.
  - by exists (DeleteUser 1), es_two.
  - by exists (DeleteUser 1), es_store_down.
  - by exists GetStats, es_two.
  - by exists GetStats, es_cache_down.
  - by exists NoRoute, es_two.
Qed.

(** ** The configuration *)

(** An environment that sets the secret, and one that sets a variable
    the program does not read as well. *)
Definition env_secret : Env := {[ "SECRET_KEY" := "s3cret" ]}.
Definition env_home : Env := <[ "HOME" := "/srv/app" ]> env_secret.
Definition env_bare : Env := {[ "HOME" := "/srv/app" ]}.

Lemma configure_reads_witness :
  configure env_secret = configure env_home /\
  host (configure env_secret) = "0.0.0.0" /\ port (configure env_secret) = 5000.
Proof.
  apply configure_reads. intros name Hin. unfold variables in Hin.
  repeat (apply elem_of_cons in Hin as [->|Hin]); try by vm_compute.
  by apply elem_of_nil in Hin.
Defined.

Lemma configure_unset_witness : configure env_bare = literals.
Proof.
  apply configure_unset. intros name Hin. unfold variables in Hin.
  repeat (apply elem_of_cons in Hin as [->|Hin]); try by vm_compute.
  by apply elem_of_nil in Hin.
Defined.

(** ** The URL rules *)

Lemma route_dispatch_witness :
  rule_method HEAD = method_of (GetUser 42) /\
  forall i, id_of (GetUser 42) = Some i -> 0 <= i.
Proof. by apply (route_dispatch HEAD ["api"; "users"; "42"] (Body JNull)). Defined.

Lemma route_url_witness :
  route (method_of (UpdateUser 2 bob)) (path_of (UpdateUser 2 bob))
        (body_of (UpdateUser 2 bob)) = Dispatch (UpdateUser 2 bob).
Proof. apply route_url; [done|]. by intros i [= <-]. Defined.

(** ** The policy *)

Lemma get_users_transparent_witness :
  (serve GetUsers w_listed).1 = Ok (users_response (fresh_users w_listed) (hit w_listed)).
Proof. apply get_users_transparent; [by_compute | done | done]. Defined.

Lemma write_invalidates_witness :
  cache_lookup (t0 + seconds 5) (w_cache (serve (CreateUser bob) w_listed).2) users_key = None.
Proof.
  apply (write_invalidates (CreateUser bob) w_listed (answer (CreateUser bob) w_listed)).
  - done.
  - by_compute.
  - by vm_compute.
  - right. by vm_compute.
Defined.

Lemma failed_write_changes_nothing_witness :
  w_db (serve (CreateUser alice) w_listed).2 = w_db w_listed /\
  w_cache (serve (CreateUser alice) w_listed).2 = w_cache w_listed.
Proof.
  apply (failed_write_changes_nothing (CreateUser alice) w_listed
           (answer (CreateUser alice) w_listed)).
  - done.
  - by_compute.
  - done.
  - by vm_compute.
  - by vm_compute.
  - by vm_compute.
Defined.

Lemma write_keeps_stats_witness :
  cache_lookup (t0 + seconds 5) (w_cache (serve (CreateUser bob) w_listed).2) stats_key =
  cache_lookup (t0 + seconds 5) (w_cache w_listed) stats_key.
Proof. apply write_keeps_stats; [done | by_compute]. Defined.

Lemma get_users_hit_after_miss_witness :
  serve GetUsers (set_db_up false (later (seconds 300 - 1) w_alice)) =
    (Ok (users_response (fresh_users w_alice) true), set_db_up false (later (seconds 300 - 1) w_alice)).
Proof.
  apply (get_users_hit_after_miss w_alice (seconds 300 - 1)); try done; by vm_compute.
Defined.

Lemma get_users_miss_after_expiry_witness :
  serve GetUsers (later (seconds 300) w_alice) =
    (Ok (users_response (fresh_users w_alice) false),
     filled users_key users_ttl (fresh_users w_alice) (later (seconds 300) w_alice)).
Proof.
  apply (get_users_miss_after_expiry w_alice (seconds 300)); try done; by vm_compute.
Defined.

Lemma cache_hits_always_zero_witness :
  (serve GetStats w_deleted).1 =
    Ok (mkResponse 200 (stats_body (db_count (w_db w_deleted))
          (db_count_since (w_now w_deleted - recent_window) (w_db w_deleted))
          (w_now w_deleted) None)).
Proof.
  apply cache_hits_always_zero; try done.
  exists t0, es_deleted. apply run_replay. by vm_compute.
Defined.

(** ** The specification *)

Lemma service_refines_spec_witness :
  exists a', spec_run (mkAbstract create_all t0) es_deleted a' /\ related w_deleted a'.
Proof.
  apply (service_refines_spec w_fresh es_deleted w_deleted).
  - apply run_replay. by vm_compute.
  - by_compute.
  - apply related_init.
Defined.

(** ** The requests *)

Definition alice_row : User.t := User.mk 1 "alice" "alice@example.org" t0.
Definition bob_row : User.t := User.mk 2 "bob" "bob@example.org" (t0 + seconds 10).

Lemma create_then_get_witness :
  exists data u e row,
    alice = Body data /\
    py_getitem "username" data = Ok u /\ py_getitem "email" data = Ok e /\
    bind_param u = Ok (Some (User.username row)) /\
    bind_param e = Ok (Some (User.email row)) /\
    User.id row = next_id (w_db w_fresh) /\ User.created_at row = w_now w_fresh /\
    rows (w_db w_alice) = rows (w_db w_fresh) ++ [row] /\
    answer (CreateUser alice) w_fresh = created_response (User.to_dict row) /\
    serve (GetUser (User.id row)) w_alice = (Ok (mkResponse 200 (User.to_dict row)), w_alice).
Proof.
  apply (create_then_get alice w_fresh (answer (CreateUser alice) w_fresh) w_alice).
  - by_compute.
  - by vm_compute.
  - by vm_compute.
Defined.


Lemma create_user_requires_fields_witness :
  serve (CreateUser (Body (JObj [("username", JStr "carol"); ("email", JStr "")]))) w_listed =
    (Ok (mkResponse 400 (JObj [("error", JStr "Username and email are required")])),
     set_session [] w_listed).
Proof. by apply create_user_requires_fields. Defined.

Lemma delete_then_get_witness :
  exists w',
    serve (DeleteUser 1) w_two = (Ok deleted_response, w') /\
    w_db w' = db_delete 1 (w_db w_two) /\
    (forall j, j <> 1 -> db_get j (w_db w') = db_get j (w_db w_two)) /\
    serve (GetUser 1) w' = (Ok (error_response 404 NotFound), w').
Proof.
  apply (delete_then_get 1 w_two alice_row); try done; by_compute.
Defined.

Lemma write_to_missing_row_is_500_witness :
  (serve (UpdateUser 7 bob) w_two).1 = Ok (error_response 500 NotFound) /\
  (serve (DeleteUser 7) w_two).1 = Ok (error_response 500 NotFound).
Proof. apply write_to_missing_row_is_500; [done | by vm_compute]. Defined.

Lemma get_user_outage_is_404_witness :
  serve (GetUser 1) (set_db_up false w_two) =
    (Ok (error_response 404 OperationalError), set_session [] (set_db_up false w_two)).
Proof. by apply get_user_outage_is_404. Defined.

Definition new_email : body := Body (JObj [("email", JStr "robert@example.org")]).

Lemma update_user_keeps_identity_witness :
  exists old new,
    db_get 2 (w_db w_two) = Some old /\
    db_get 2 (w_db (serve (UpdateUser 2 new_email) w_two).2) = Some new /\
    User.id new = 2 /\ User.created_at new = User.created_at old /\
    answer (UpdateUser 2 new_email) w_two = updated_response (User.to_dict new) /\
    next_id (w_db (serve (UpdateUser 2 new_email) w_two).2) = next_id (w_db w_two) /\
    (forall j, j <> 2 ->
       db_get j (w_db (serve (UpdateUser 2 new_email) w_two).2) = db_get j (w_db w_two)).
Proof.
  apply (update_user_keeps_identity 2 new_email w_two).
  - by_compute.
  - by vm_compute.
  - by vm_compute.
Defined.

Lemma get_stats_counts_witness :
  let total := Z.of_nat (length (rows (w_db w_two))) in
  let recent := db_count_since (w_now w_two - seconds (7 * 86400)) (w_db w_two) in
  let stats := stats_body total recent (w_now w_two)
                 (cache_lookup (w_now w_two) (w_cache w_two) hits_key) in
  0 <= recent <= total /\
  serve GetStats w_two = (Ok (mkResponse 200 stats), filled stats_key stats_ttl stats w_two).
Proof. apply get_stats_counts; try done; by vm_compute. Defined.



Lemma update_user_empty_is_200_witness :
  serve (UpdateUser 2 (Body (JObj []))) w_two =
    (Ok (updated_response (User.to_dict bob_row)),
     set_cache (cache_remove users_key (w_cache w_two)) w_two).
Proof. apply update_user_empty_is_200; try done; by_compute. Defined.

Lemma cache_outage_is_500_witness :
  serve GetUsers (set_cache_up false w_two) =
    (Ok (error_response 500 ConnectionError), set_session [] (set_cache_up false w_two)) /\
  serve GetStats (set_cache_up false w_two) =
    (Ok (error_response 500 ConnectionError), set_session [] (set_cache_up false w_two)).
Proof. by apply cache_outage_is_500. Defined.

(** ** The store and the session *)

Lemma db_insert_decides_witness :
  db_insert (JStr "bob") (JStr "alice@example.org") t0 (w_db w_alice) =
    Raise (IntegrityError (UniqueViolation ColEmail)).
Proof. by rewrite db_insert_decides. Defined.

(** The world in which Bob was added to the session and not yet
    committed. *)
Definition w_pending : World :=
  (session_add (JStr "bob") (JStr "bob@example.org") w_alice).2.

Lemma rollback_after_commit_witness :
  session_rollback (session_commit w_pending).2 = (Ok tt, (session_commit w_pending).2).
Proof. apply rollback_after_commit. by vm_compute. Defined.

(** ** The application, from the method and the path *)

(** A POST of Bob to the table that holds Alice appends his row. *)
Lemma method_semantics_witness :
  method_effect POST (w_db w_alice) (w_db (app literals POST ["api"; "users"] bob w_alice).2).
Proof.
  apply (method_semantics literals POST ["api"; "users"] bob w_alice).
  split; [done | by_compute].
Defined.

Example app_post_users :
  let out := app literals POST ["api"; "users"] bob w_alice in
  out.1 = Ok (Answered (created_response
                          (User.to_dict (User.mk 2 "bob" "bob@example.org" t0)))) /\
  User.username <$> rows (w_db out.2) = ["alice"; "bob"].
Proof. by vm_compute. Qed.

(** The effects are told apart: the table with Bob is not one a DELETE
    or a PUT could have made of the table with Alice alone, and the
    table without Alice is not one a POST could have made of it. *)
Example method_effect_strict :
  ~ method_effect DELETE (w_db w_alice) (w_db w_two) /\
  ~ method_effect PUT (w_db w_alice) (w_db w_two) /\
  ~ method_effect POST (w_db w_two) (w_db w_deleted) /\
  method_effect DELETE (w_db w_two) (w_db w_deleted).
Proof. repeat split; by_compute. Qed.

(** A method the path has no rule for runs no view, whatever the
    body; [HEAD] runs the view of [GET]. *)
Example app_patch_user data :
  app literals (OtherMethod "PATCH") ["api"; "users"; "1"] data w_alice =
    (Ok (Refused [GET; PUT; DELETE]), w_alice).
Proof. done. Qed.

Example app_head_users :
  app literals HEAD ["api"; "users"] (Body JNull) w_alice =
  app literals GET ["api"; "users"] (Body JNull) w_alice.
Proof. done. Qed.

(** In debug mode the answers are the same. *)
Example app_debug_delete :
  let c := configure {["FLASK_ENV" := "development"]} in
  debug c = true /\
  app c DELETE ["api"; "users"; "9"] (Body JNull) w_alice =
    (Ok (Answered (error_response 500 NotFound)), w_alice).
Proof. by vm_compute. Qed.

(** ** The failure of the policy *)

(** The cache goes down after the list was read; Bob is created while
    it is down; the cache comes back. *)
Definition es_orphaned : list event :=
  let es3 := es_listed ++ [CacheUp false] in
  es3 ++ [served (CreateUser bob) es3; CacheUp true].

Definition w_orphaned : World := apply_events es_orphaned w_fresh.

(** C8: a write whose invalidation fails leaves a stale list behind:
    there is a run in which [create_user] answers 500 because the cache
    is down, its row is committed all the same, and once the cache is
    back [get_users] serves, as [from_cache], a list that lacks the
    committed row, until the key expires or another write succeeds. *)
Theorem orphaned_write_serves_stale_list :
  run w_fresh es_orphaned w_orphaned /\
  answer (CreateUser bob) (apply_events (es_listed ++ [CacheUp false]) w_fresh) =
    error_response 500 ConnectionError /\
  User.username <$> rows (w_db w_orphaned) = ["alice"; "bob"] /\
  ~ cache_coherent w_orphaned /\
  (serve GetUsers w_orphaned).1 =
    Ok (users_response (JArr [User.to_dict alice_row]) true).
Proof.
  split; [apply run_replay; by vm_compute|].
  repeat split; try by vm_compute.
  intros Hc. by apply (bool_decide_pack _) in Hc.
Qed.
