(* ===== verification/Races.v ===== *)
(** * Interleavings on the concrete deployment

    The schedules of [Concurrent] on the deployment of [Scenarios]:
    Alice is created by a request that runs alone; then a read of the
    list and the creation of Bob overlap.  The read misses and queries
    the table before Bob is committed, and fills [users:all] after the
    creation has deleted the key.  Both requests succeed, no backend
    fails, and the cache holds a list without Bob: the window the
    design accepts.  Then two writes to one row overlap: the last
    commit wins, and an update of a row deleted meanwhile answers 500;
    the sequential history of each schedule is computed.  The store
    fails between a commit and the read of the committed row: the
    write answers 500 although it is committed.  A creation commits
    between the two counts of [get_stats], which then reports more
    recent users than users; a creation is sent twice and inserts one
    row.  Last, an update commits on a row that another
    update changed since it was loaded: the table is then no
    sequential history of the two.
    The theorems of [Concurrent] that have a hypothesis are
    instantiated on these schedules. *)

From stdpp Require Import base tactics option strings numbers list gmap.
From S2P Require Import Prelude Python Codec Platform Cache Store Session World.
From S2P Require Import Handlers Server Invariants Typing Policy Programs Concurrent.
From S2P Require Import Spec Replies Linearizable Durable Coherence Serial Retries Scenarios.

Open Scope string_scope.
Open Scope list_scope.
Open Scope Z_scope.

(** ** The schedules *)

(** Alice is created: the request arrives, adds the object, commits,
    deletes the key, reads the row back and replies. *)
Definition alice_alone : list action :=
  [Arrive (CreateUser alice); Call 0; Call 0; Call 0; Call 0;
   Reply 0 (answer (CreateUser alice) w_fresh)].

(** The list as the read finds it in the table: Alice only. *)
Definition old_list : json := JArr [User.to_dict alice_row].

(** The read misses and queries; Bob is created, from arrival to
    reply; the read fills the key and replies. *)
Definition race : list action :=
  [Arrive GetUsers; Call 0; Call 0;
   Arrive (CreateUser bob); Call 1; Call 1; Call 1; Call 1;
   Reply 1 (answer (CreateUser bob) w_alice);
   Call 0; Reply 0 (users_response old_list false)].

(** The cache fails between the miss and the fill of the read. *)
Definition fill_failure : list action :=
  [Arrive GetUsers; Call 0; Call 0; Environment (CacheUp false);
   Call 0; Reply 0 (error_response 500 ConnectionError)].

(** Alice's address is updated by a request that runs alone, then
    Alice is deleted by another. *)
Definition update_then_delete : list action :=
  [Arrive (UpdateUser 1 (Body (JObj [("email", JStr "first@example.org")])));
   Call 0; Call 0; Call 0; Call 0; Call 0;
   Reply 0 (updated_response
              (User.to_dict (User.mk 1 "alice" "first@example.org" t0)));
   Arrive (DeleteUser 1); Call 0; Call 0; Call 0; Call 0; Reply 0 deleted_response].

(** The pool a schedule leads to. *)
Definition after (schedule : list action) (w : World) : Pool :=
  default (idle w) (acts schedule (idle w)).

Definition p_race : Pool := after race w_alice.

(** The read has missed and queried the table, and waits. *)
Definition p_waiting : Pool := after [Arrive GetUsers; Call 0; Call 0] w_alice.

(** The creation of Bob has added its object; then it has committed. *)
Definition p_added : Pool := after [Arrive (CreateUser bob); Call 0] w_alice.
Definition p_committed : Pool := after [Arrive (CreateUser bob); Call 0; Call 0] w_alice.

(** The race, up to the reply of the read. *)
Definition p_filled : Pool := after (removelast race) w_alice.

(** ** The theorems of [Concurrent] on the schedules *)

Lemma alone_is_serve_witness :
  exists n response,
    serve (CreateUser alice) w_fresh = (Ok response, (serve (CreateUser alice) w_fresh).2) /\
    acts (Arrive (CreateUser alice) :: replicate n (Call 0) ++ [Reply 0 response])
         (idle w_fresh) = Some (idle (serve (CreateUser alice) w_fresh).2).
Proof. by apply alone_is_serve. Defined.

Lemma crun_wf_witness : db_wf (w_db (p_world p_race)).
Proof.
  apply (crun_wf (idle w_alice) race p_race); [apply crun_acts; by vm_compute | by_compute].
Defined.

Lemma staleness_bounded_witness :
  cache_lookup (t0 + seconds 300) (w_cache (p_world p_race)) users_key = None.
Proof.
  apply (staleness_bounded t0 (alice_alone ++ race) p_race users_key users_ttl (t0 + seconds 300)).
  - apply crun_acts. by vm_compute.
  - done.
  - by vm_compute.
Defined.

Lemma calls_bounded_witness :
  (sum_list_with cost (alice_alone ++ race) <=
     8 * sum_list_with arrival (alice_alone ++ race))%nat.
Proof.
  apply (calls_bounded w_fresh (alice_alone ++ race) p_race). apply crun_acts. by vm_compute.
Defined.

Lemma request_never_stuck_witness :
  (exists p', cstep p_waiting (Call 0) p') \/
  (exists response p', cstep p_waiting (Reply 0 response) p').
Proof.
  apply (request_never_stuck w_alice [Arrive GetUsers; Call 0; Call 0] p_waiting 0
           (mkThread GetUsers [] (filling (db_all (w_db w_alice))))).
  - apply crun_acts. by vm_compute.
  - by vm_compute.
Defined.

(** The read that waits in [p_waiting] finishes when it is
    scheduled. *)
Lemma request_completes_witness :
  let t := mkThread GetUsers [] (filling (db_all (w_db w_alice))) in
  let out := exec (t_prog t) (set_session (t_session t) (p_world p_waiting)) in
  exists n response p',
    (n <= 8)%nat /\
    crun p_waiting (replicate n (Call 0) ++ [Reply 0 response]) p' /\
    out.1 = Ok response /\
    set_session [] (p_world p') = set_session [] out.2 /\
    p_threads p' = delete 0%nat (p_threads p_waiting).
Proof.
  apply (request_completes w_alice [Arrive GetUsers; Call 0; Call 0] p_waiting 0
           (mkThread GetUsers [] (filling (db_all (w_db w_alice))))).
  - apply crun_acts. by vm_compute.
  - by vm_compute.
Defined.

Lemma table_changes_by_commits_witness :
  w_db (p_world p_committed) = w_db (p_world p_added) \/
  exists i t s db,
    Call 0 = Call i /\ p_threads p_added !! i = Some t /\
    flush (t_session t) (w_now (p_world p_added)) (w_db (p_world p_added)) = Ok (s, db) /\
    w_db (p_world p_committed) = db.
Proof. apply (table_changes_by_commits p_added (Call 0) p_committed). by vm_compute. Defined.

Lemma replies_typed_witness :
  exists t, p_threads p_filled !! 0%nat = Some t /\
            well_typed (t_request t) (users_response old_list false) = true.
Proof.
  apply (replies_typed w_alice (removelast race) p_filled 0
           (users_response old_list false) p_race).
  - apply reachable_cache_typed. exists t0, [served (CreateUser alice) []].
    apply run_replay. by vm_compute.
  - apply crun_acts. by vm_compute.
  - by vm_compute.
Defined.

Lemma read_overlapping_write_witness :
  exists n response,
    (serve (CreateUser bob) w_alice).1 = Ok response /\
    acts ([Arrive GetUsers; Call 0; Call 0] ++
          (Arrive (CreateUser bob) :: replicate n (Call 1) ++ [Reply 1 response]) ++
          [Call 0; Reply 0 (users_response (users_data (db_all (w_db w_alice))) false)])
         (idle w_alice) =
      Some (idle (cache_setex users_key users_ttl
                    (dumps (users_data (db_all (w_db w_alice))))
                    (serve (CreateUser bob) w_alice).2).2).
Proof. apply (read_overlapping_write (CreateUser bob) w_alice); by vm_compute. Defined.

Lemma fill_failure_is_500_witness :
  acts fill_failure (idle w_alice) = Some (idle (set_cache_up false w_alice)).
Proof. apply (fill_failure_is_500 w_alice); by vm_compute. Defined.

Lemma table_linearizable_witness :
  w_db (p_world (after update_then_delete w_alice)) =
    replay (history update_then_delete (idle w_alice)) (w_db w_alice) /\
  (history update_then_delete (idle w_alice)).*1 ⊆+ arrivals update_then_delete.
Proof.
  apply (table_linearizable w_alice update_then_delete (after update_then_delete w_alice));
    [apply crun_acts|]; by vm_compute.
Defined.

(** A read and the creation of Bob overlap, but the creation commits
    before the read queries the table: the read stores the list with
    Bob, and the key is coherent. *)
Definition overlap : list action :=
  [Arrive GetUsers; Call 0;
   Arrive (CreateUser bob); Call 1; Call 1;
   Call 0; Call 1; Call 0; Call 1;
   Reply 1 (answer (CreateUser bob) w_alice);
   Reply 0 (users_response
              (JArr [User.to_dict alice_row;
                     User.to_dict (User.mk 2 "bob" "bob@example.org" t0)]) false)].

Lemma interleaved_coherent_witness : cache_coherent (p_world (after overlap w_alice)).
Proof.
  apply (interleaved_coherent w_alice overlap (after overlap w_alice)).
  - apply crun_acts. by vm_compute.
  - by vm_compute.
  - by_compute.
  - by vm_compute.
Defined.

(** The key then holds the list with Bob. *)
Example overlap_fills_the_key :
  (serve GetUsers (p_world (after overlap w_alice))).1 =
    Ok (users_response
          (JArr [User.to_dict alice_row;
                 User.to_dict (User.mk 2 "bob" "bob@example.org" t0)]) true).
Proof. by vm_compute. Qed.

(** ** The runs of [Scenarios] as schedules *)


(** Its schedule has twenty-nine actions, and its history is the
    three writes. *)
Example serial_schedule :
  length (serial es_deleted w_fresh) = 29%nat /\
  history (serial es_deleted w_fresh) (idle w_fresh) =
    [(CreateUser alice, t0); (CreateUser bob, t0 + seconds 10); (DeleteUser 1, t0 + seconds 10)] /\
  acknowledged (serial es_deleted w_fresh) (idle w_fresh) =
    [CreateUser alice; CreateUser bob; DeleteUser 1].
Proof. by vm_compute. Qed.

(** ** The accepted race *)

(** The invalidation of a write does not protect the cache from a
    read that started before it: there is an interleaving of
    [get_users] and [create_user], with both backends up throughout,
    in which the creation answers 201 and the read answers 200 with
    the list it found, after which the table holds Alice and Bob,
    [users:all] holds the list with Alice only, and the next
    [get_users] serves that list as [from_cache]. *)
Theorem race_leaves_stale_list :
  crun (idle w_alice) race p_race /\
  careful race (idle w_alice) = false /\
  p_threads p_race = [] /\
  status (answer (CreateUser bob) w_alice) = 201 /\
  User.username <$> rows (w_db (p_world p_race)) = ["alice"; "bob"] /\
  ~ cache_coherent (p_world p_race) /\
  (serve GetUsers (p_world p_race)).1 = Ok (users_response old_list true).
Proof.
  split; [apply crun_acts; by vm_compute|].
  repeat split; try by vm_compute.
  intros Hc. by apply (bool_decide_pack _) in Hc.
Qed.

(** ** Two writes to one row *)

Definition set_email (email : string) : body := Body (JObj [("email", JStr email)]).
Definition alice_at (email : string) : User.t := User.mk 1 "alice" email t0.

(** Two updates of Alice's address, call by call in turn: each loads
    the row, assigns, commits, deletes the key and reads the row
    back. *)
Definition two_updates : list action :=
  [Arrive (UpdateUser 1 (set_email "first@example.org"));
   Arrive (UpdateUser 1 (set_email "second@example.org"));
   Call 0; Call 1; Call 0; Call 1; Call 0; Call 1; Call 0; Call 1; Call 0; Call 1;
   Reply 1 (updated_response (User.to_dict (alice_at "second@example.org")));
   Reply 0 (updated_response (User.to_dict (alice_at "second@example.org")))].

(** The last commit wins, and both answers show its row: the answer
    to the first update describes an address it did not set. *)
Example last_commit_wins :
  crun (idle w_alice) two_updates (after two_updates w_alice) /\
  after two_updates w_alice =
    idle (set_db (mkDb [alice_at "second@example.org"] 2) w_alice).
Proof. split; [apply crun_acts|]; by vm_compute. Qed.

(** Its sequential history: the first update, then the second. *)
Example two_updates_history :
  history two_updates (idle w_alice) =
    [(UpdateUser 1 (set_email "first@example.org"), t0);
     (UpdateUser 1 (set_email "second@example.org"), t0)].
Proof. by vm_compute. Qed.

(** An update loads Alice and assigns; a deletion of Alice runs from
    arrival to reply; the update commits. *)
Definition update_after_delete : list action :=
  [Arrive (UpdateUser 1 (set_email "first@example.org")); Call 0; Call 0;
   Arrive (DeleteUser 1); Call 1; Call 1; Call 1; Call 1; Reply 1 deleted_response;
   Call 0; Call 0; Reply 0 (error_response 500 StaleDataError)].

(** The UPDATE matches no row: the update answers 500 and the row
    stays deleted. *)
Example update_of_deleted_row_is_500 :
  crun (idle w_alice) update_after_delete (after update_after_delete w_alice) /\
  after update_after_delete w_alice = idle (set_db (mkDb [] 2) w_alice).
Proof. split; [apply crun_acts|]; by vm_compute. Qed.

(** The update is not part of the history: its commit failed. *)
Example update_after_delete_history :
  history update_after_delete (idle w_alice) = [(DeleteUser 1, t0)].
Proof. by vm_compute. Qed.

(** ** A failure after the commit *)

(** Bob is created and committed, and the key is deleted; the store
    fails; the creation reads the new row for its answer. *)
Definition outage_after_commit : list action :=
  [Arrive (CreateUser bob); Call 0; Call 0; Call 0; Environment (StoreUp false);
   Call 0; Call 0; Reply 0 (error_response 500 OperationalError)].

(** The commit expired the object, so [user.to_dict()] selects the row
    again and raises: the creation answers 500 and the table holds
    Bob. *)
Example committed_create_answers_500 :
  crun (idle w_alice) outage_after_commit (after outage_after_commit w_alice) /\
  after outage_after_commit w_alice =
    idle (set_db_up false
            (set_db (mkDb [alice_row; User.mk 2 "bob" "bob@example.org" t0] 3) w_alice)).
Proof. split; [apply crun_acts|]; by vm_compute. Qed.

(** The creation is in the history of the schedule and among no
    acknowledged writes: the client is told of a failure and the row
    is there. *)
Example commit_without_acknowledgement :
  history outage_after_commit (idle w_alice) = [(CreateUser bob, t0)] /\
  acknowledged outage_after_commit (idle w_alice) = [].
Proof. by vm_compute. Qed.

Lemma acknowledged_is_committed_witness :
  acknowledged outage_after_commit (idle w_alice) ⊆+
    (history outage_after_commit (idle w_alice)).*1.
Proof.
  apply (acknowledged_is_committed w_alice outage_after_commit
           (after outage_after_commit w_alice)).
  apply crun_acts. by vm_compute.
Defined.

(** In the race of the read and the creation of Bob, the creation is
    acknowledged and committed. *)
Example race_acknowledged :
  acknowledged race (idle w_alice) = [CreateUser bob] /\
  (history race (idle w_alice)).*1 = [CreateUser bob].
Proof. by vm_compute. Qed.

(** ** Statistics that are no snapshot *)

(** [get_stats] misses and counts the users; Bob is created, from
    arrival to reply; [get_stats] counts the users of the last seven
    days, stores its answer and replies. *)
Definition torn_stats : list action :=
  [Arrive GetStats; Call 0; Call 0;
   Arrive (CreateUser bob); Call 1; Call 1; Call 1; Call 1;
   Reply 1 (answer (CreateUser bob) w_alice);
   Call 0; Call 0; Call 0; Call 0; Call 0;
   Reply 0 (mkResponse 200 (stats_body 1 2 t0 None))].

(** C22: the two counts of [get_stats] are two queries, and a write can
    commit between them: there is an interleaving, with both backends
    up throughout, in which [get_stats] answers 200 with one user in
    total and two users created in the last seven days, and stores
    that answer under [stats], where it is served for 60 seconds.
    Served alone, [get_stats] never reports more recent users than
    users ([Requests.get_stats_counts]). *)
Example stats_counts_are_torn :
  crun (idle w_alice) torn_stats (after torn_stats w_alice) /\
  p_threads (after torn_stats w_alice) = [] /\
  payload (mkResponse 200 (stats_body 1 2 t0 None)) =
    JObj [("total_users", JNum 1); ("recent_users", JNum 2);
          ("timestamp", JStr "2023-11-14T22:13:20.250000"); ("cache_hits", JNum 0)] /\
  db_count (w_db (p_world (after torn_stats w_alice))) = 2 /\
  (serve GetStats (advance (seconds 59) (p_world (after torn_stats w_alice)))).1 =
    Ok (mkResponse 200 (stats_body 1 2 t0 None)).
Proof. split; [apply crun_acts|]; by vm_compute. Qed.

(** ** A request sent twice *)

(** The creation of Bob is sent twice and the two run call by call in
    turn: the first to commit inserts the row and answers 201, the
    other is refused by the unique constraint, rolls back and answers
    500. *)
Definition double_post : list action :=
  [Arrive (CreateUser bob); Arrive (CreateUser bob);
   Call 0; Call 1; Call 0; Call 1; Call 0; Call 1; Call 0;
   Reply 1 (error_response 500 (IntegrityError (UniqueViolation ColUsername)));
   Reply 0 (answer (CreateUser bob) w_alice)].

Lemma retries_write_once_witness :
  w_db (p_world (after double_post w_alice)) = w_db w_alice \/
  exists now,
    w_db (p_world (after double_post w_alice)) =
      spec_write (CreateUser bob) now (w_db w_alice).
Proof.
  apply (retries_write_once (CreateUser bob) w_alice double_post
           (after double_post w_alice)).
  - apply crun_acts. by vm_compute.
  - by vm_compute.
  - by_compute.
  - by repeat constructor.
Defined.

(** The table holds Bob once. *)
Example double_post_one_row :
  crun (idle w_alice) double_post (after double_post w_alice) /\
  User.username <$> rows (w_db (p_world (after double_post w_alice))) = ["alice"; "bob"] /\
  acknowledged double_post (idle w_alice) = [CreateUser bob].
Proof. split; [apply crun_acts|]; by vm_compute. Qed.

(** ** An update that commits on a changed row *)

Definition first_put : request := UpdateUser 1 (user_body "alice" "new@example.org").
Definition second_put : request := UpdateUser 1 (user_body "alicia" "other@example.org").
Definition mixed_row : User.t := User.mk 1 "alicia" "new@example.org" t0.

(** The first update loads Alice; the second runs from arrival to
    reply; the first assigns, commits and replies. *)
Definition stale_update : list action :=
  [Arrive first_put; Call 0;
   Arrive second_put; Call 1; Call 1; Call 1; Call 1; Call 1; Call 1;
   Reply 1 (updated_response (User.to_dict (User.mk 1 "alicia" "other@example.org" t0)));
   Call 0; Call 0; Call 0; Call 0; Call 0;
   Reply 0 (updated_response (User.to_dict mixed_row))].

(** C21: the first update assigns the username it loaded, so its UPDATE
    sets the email only: it answers 200 with a username it did not
    set, and the table holds a row that neither order of the two
    requests gives.  Both commits succeed; the second to commit is made
    on a row that changed since it was loaded. *)
Example stale_update_is_not_serial :
  crun (idle w_alice) stale_update (after stale_update w_alice) /\
  after stale_update w_alice = idle (set_db (mkDb [mixed_row] 2) w_alice) /\
  history stale_update (idle w_alice) = [(second_put, t0); (first_put, t0)] /\
  fresh_commits stale_update (idle w_alice) = false /\
  replay [(second_put, t0); (first_put, t0)] (w_db w_alice) <> mkDb [mixed_row] 2 /\
  replay [(first_put, t0); (second_put, t0)] (w_db w_alice) <> mkDb [mixed_row] 2.
Proof.
  split; [apply crun_acts; by vm_compute|].
  repeat split; try by vm_compute.
  all: intros Heq; vm_compute in Heq; congruence.
Qed.
